(** * KairosServer: the command pipeline, embedded and verified

    A shallow embedding of the parts of the Kairos graphics server that the
    specification's testable properties talk about:

    - [Protocol]      shared/src/Protocol.cpp, shared/include/Protocol.hpp
    - [Serialization] shared/src/Serialization.cpp
    - [Session]       KairosServer/src/Network/Client.cpp
    - [Network]       KairosServer/src/Core/NetworkManager.cpp
    - [Commands]      KairosServer/src/Core/CommandProcessor.cpp,
                      KairosServer/include/Graphics/RenderCommand.hpp
    - [Layers]        KairosServer/src/Core/LayerManager.cpp
    - [Batching]      KairosServer/src/Graphics/BatchRenderer.cpp

    Part I holds the definitions, Part II the theorems about the
    specification's properties, Part III further properties of the code.

    Conventions.  Fixed-width unsigned integers are [Z] values; arithmetic
    that can leave the range is wrapped explicitly with [wrap].  Bytes are
    [Byte.byte].  [float] fields are never computed with in the functions
    embedded here except for ordering and thresholds; where their value
    matters (layer z-order, opacity) they are rationals, where it does not
    (coordinates copied from the wire) they are the raw 32-bit pattern.
    [std::chrono::steady_clock] readings are tick counts handed to the
    operation that calls [now()]. *)

From Stdlib Require Import ZArith List Lia Bool QArith Qabs Sorting.Permutation.
From Stdlib.Strings Require Import Byte String.
From stdpp Require Import base gmap list sorting.

Local Open Scope Z_scope.

(* ===================================================================== *)
(** * Part I: definitions                                                 *)
(* ===================================================================== *)

(** ** Machine integers and bytes *)

Definition wrap (bits x : Z) : Z := x mod 2 ^ bits.

Definition uint8 (x : Z) : Z := wrap 8 x.
Definition uint16 (x : Z) : Z := wrap 16 x.
Definition uint32 (x : Z) : Z := wrap 32 x.
Definition uint64 (x : Z) : Z := wrap 64 x.
(** [size_t] on the 64-bit targets the server builds for. *)
Definition size_t (x : Z) : Z := wrap 64 x.

Definition in_range (bits x : Z) : Prop := 0 <= x < 2 ^ bits.

Definition Z_of_byte (b : byte) : Z := Z.of_N (Byte.to_N b).

Definition byte_of_Z (z : Z) : byte :=
  default x00 (Byte.of_N (Z.to_N (z mod 256))).

(** Little-endian digits of [x], [n] of them. *)
Fixpoint encode_le (n : nat) (x : Z) : list byte :=
  match n with
  | O => []
  | S n' => byte_of_Z x :: encode_le n' (x / 256)
  end.

Fixpoint decode_le (bs : list byte) : Z :=
  match bs with
  | [] => 0
  | b :: bs' => Z_of_byte b + 256 * decode_le bs'
  end.

Definition encode_be (n : nat) (x : Z) : list byte := rev (encode_le n x).
Definition decode_be (bs : list byte) : Z := decode_le (rev bs).

(** [memcpy(dst + off, src, n)] on byte vectors.  The source must hold at
    least [n] bytes and the destination [off + n]; C leaves anything else
    undefined, and every use below is proved inside these bounds. *)
Definition memcpy (dst : list byte) (off : nat) (src : list byte) (n : nat)
  : list byte :=
  take off dst ++ take n src ++ drop (off + n) dst.

(** The [n] bytes at offset [off]. *)
Definition slice (off n : nat) (bs : list byte) : list byte :=
  take n (drop off bs).

(** ** shared/include/Constants.hpp *)

Definition PROTOCOL_VERSION : Z := 1.
Definition MAX_MESSAGE_SIZE : Z := 10 * 1024 * 1024.

(** [namespace Capabilities] *)
Module Capabilities.
Definition BASIC_RENDERING : Z := 0x00000001.
Definition TEXT_RENDERING : Z := 0x00000002.
Definition TEXTURED_RENDERING : Z := 0x00000004.
Definition LAYER_SUPPORT : Z := 0x00000008.
Definition INPUT_EVENTS : Z := 0x00000010.
Definition FRAME_CALLBACKS : Z := 0x00000020.
Definition UNIX_SOCKETS : Z := 0x00000040.
Definition HIGH_DPI : Z := 0x00000080.
Definition MULTI_TOUCH : Z := 0x00000100.
End Capabilities.

(** ** shared/include/Protocol.hpp, shared/src/Protocol.cpp *)

Module Protocol.

(** [enum class MessageType : uint8_t].  A header read off the wire carries
    an arbitrary byte in this field, so the type is the byte itself and the
    enumerators are constants. *)
Definition MessageType := Z.

Definition CLIENT_HELLO : MessageType := 0x01.
Definition SERVER_HELLO : MessageType := 0x02.
Definition DRAW_POINT : MessageType := 0x10.
Definition DRAW_LINE : MessageType := 0x11.
Definition DRAW_RECTANGLE : MessageType := 0x12.
Definition FILL_RECTANGLE : MessageType := 0x13.
Definition DRAW_ARC : MessageType := 0x14.
Definition FILL_ARC : MessageType := 0x15.
Definition DRAW_POLYGON : MessageType := 0x16.
Definition FILL_POLYGON : MessageType := 0x17.
Definition DRAW_TEXT : MessageType := 0x18.
Definition DRAW_IMAGE_STRING : MessageType := 0x19.
Definition DRAW_TEXTURED_QUADS : MessageType := 0x1A.
Definition CREATE_GC : MessageType := 0x20.
Definition FREE_GC : MessageType := 0x21.
Definition SET_FOREGROUND : MessageType := 0x22.
Definition SET_BACKGROUND : MessageType := 0x23.
Definition SET_LINE_ATTRIBUTES : MessageType := 0x24.
Definition SET_FILL_STYLE : MessageType := 0x25.
Definition SET_FONT_SIZE : MessageType := 0x26.
Definition SET_FUNCTION : MessageType := 0x27.
Definition UPLOAD_FONT_TEXTURE : MessageType := 0x30.
Definition CREATE_PIXMAP : MessageType := 0x31.
Definition FREE_PIXMAP : MessageType := 0x32.
Definition CLEAR_LAYER : MessageType := 0x40.
Definition CLEAR_ALL_LAYERS : MessageType := 0x41.
Definition SET_LAYER_VISIBILITY : MessageType := 0x42.
Definition BATCH_BEGIN : MessageType := 0x43.
Definition BATCH_END : MessageType := 0x44.
Definition INPUT_EVENT : MessageType := 0x50.
Definition FRAME_CALLBACK : MessageType := 0x51.
Definition PING : MessageType := 0xF0.
Definition PONG : MessageType := 0xF1.
Definition ERROR_RESPONSE : MessageType := 0xFE.
Definition DISCONNECT : MessageType := 0xFF.

(** The enumerators of [MessageType], in declaration order. *)
Definition known_tags : list MessageType :=
  [ CLIENT_HELLO; SERVER_HELLO;
    DRAW_POINT; DRAW_LINE; DRAW_RECTANGLE; FILL_RECTANGLE; DRAW_ARC; FILL_ARC;
    DRAW_POLYGON; FILL_POLYGON; DRAW_TEXT; DRAW_IMAGE_STRING;
    DRAW_TEXTURED_QUADS;
    CREATE_GC; FREE_GC; SET_FOREGROUND; SET_BACKGROUND; SET_LINE_ATTRIBUTES;
    SET_FILL_STYLE; SET_FONT_SIZE; SET_FUNCTION;
    UPLOAD_FONT_TEXTURE; CREATE_PIXMAP; FREE_PIXMAP;
    CLEAR_LAYER; CLEAR_ALL_LAYERS; SET_LAYER_VISIBILITY; BATCH_BEGIN;
    BATCH_END;
    INPUT_EVENT; FRAME_CALLBACK;
    PING; PONG; ERROR_RESPONSE; DISCONNECT ].

Definition known_tag (t : MessageType) : bool :=
  existsb (Z.eqb t) known_tags.

(** [struct MessageHeader], packed, 32 bytes. *)
Record MessageHeader := mkHeader {
  magic : Z;             (* uint32_t *)
  protocol_version : Z;  (* uint32_t *)
  type : MessageType;    (* uint8_t  *)
  layer_id : Z;          (* uint8_t  *)
  reserved : Z;          (* uint16_t *)
  client_id : Z;         (* uint32_t *)
  sequence : Z;          (* uint32_t *)
  data_size : Z;         (* uint32_t *)
  timestamp : Z          (* uint64_t *)
}.

Definition sizeof_MessageHeader : nat := 32.

Definition KARO : Z := 0x4B41524F.

(** Every field holds a value of its C type. *)
Definition header_typed (h : MessageHeader) : Prop :=
  in_range 32 (magic h) /\ in_range 32 (protocol_version h) /\
  in_range 8 (type h) /\ in_range 8 (layer_id h) /\
  in_range 16 (reserved h) /\ in_range 32 (client_id h) /\
  in_range 32 (sequence h) /\ in_range 32 (data_size h) /\
  in_range 64 (timestamp h).

Definition validateHeader (header : MessageHeader) : bool :=
  (* Check magic number *)
  if negb (magic header =? KARO) then false
  (* Check protocol version *)
  else if negb (protocol_version header =? PROTOCOL_VERSION) then false
  (* Check message type *)
  else if uint8 (type header) >? uint8 DISCONNECT then false
  (* Check data size reasonableness (max 10MB) *)
  else if data_size header >? 10 * 1024 * 1024 then false
  else true.

Definition getMessageSize (header : MessageHeader) : Z :=
  size_t (Z.of_nat sizeof_MessageHeader + data_size header).

Inductive ByteOrder := LittleEndian | BigEndian.

Section Host.

(** The byte order of the machine the code runs on. *)
Variable host : ByteOrder.

(** Object representation of an [n]-byte unsigned integer. *)
Definition store (n : nat) (x : Z) : list byte :=
  match host with
  | LittleEndian => encode_le n x
  | BigEndian => encode_be n x
  end.

Definition load (bs : list byte) : Z :=
  match host with
  | LittleEndian => decode_le bs
  | BigEndian => decode_be bs
  end.

(** [htonl], [htons], [htobe64]: the host value whose object representation
    is the big-endian encoding of the argument; and their inverses. *)
Definition htonl (x : Z) : Z := load (encode_be 4 x).
Definition htons (x : Z) : Z := load (encode_be 2 x).
Definition htobe64 (x : Z) : Z := load (encode_be 8 x).
Definition ntohl (x : Z) : Z := decode_be (store 4 x).
Definition ntohs (x : Z) : Z := decode_be (store 2 x).
Definition be64toh (x : Z) : Z := decode_be (store 8 x).

Definition hostToNetwork (header : MessageHeader) : MessageHeader :=
  {| magic := htonl (magic header);
     protocol_version := htonl (protocol_version header);
     (* type and layer_id are single bytes, no conversion needed *)
     type := type header;
     layer_id := layer_id header;
     reserved := htons (reserved header);
     client_id := htonl (client_id header);
     sequence := htonl (sequence header);
     data_size := htonl (data_size header);
     timestamp := htobe64 (timestamp header) |}.

Definition networkToHost (header : MessageHeader) : MessageHeader :=
  {| magic := ntohl (magic header);
     protocol_version := ntohl (protocol_version header);
     type := type header;
     layer_id := layer_id header;
     reserved := ntohs (reserved header);
     client_id := ntohl (client_id header);
     sequence := ntohl (sequence header);
     data_size := ntohl (data_size header);
     timestamp := be64toh (timestamp header) |}.

(** [std::memcpy(dst, &header, sizeof(MessageHeader))]: the packed struct's
    bytes, field after field. *)
Definition header_bytes (h : MessageHeader) : list byte :=
  store 4 (magic h) ++ store 4 (protocol_version h) ++
  store 1 (type h) ++ store 1 (layer_id h) ++ store 2 (reserved h) ++
  store 4 (client_id h) ++ store 4 (sequence h) ++
  store 4 (data_size h) ++ store 8 (timestamp h).

(** [std::memcpy(&header, src, sizeof(MessageHeader))]. *)
Definition header_of_bytes (bs : list byte) : MessageHeader :=
  {| magic := load (slice 0 4 bs);
     protocol_version := load (slice 4 4 bs);
     type := load (slice 8 1 bs);
     layer_id := load (slice 9 1 bs);
     reserved := load (slice 10 2 bs);
     client_id := load (slice 12 4 bs);
     sequence := load (slice 16 4 bs);
     data_size := load (slice 20 4 bs);
     timestamp := load (slice 24 8 bs) |}.

(** [createMessage(header, data)]; [data = None] is the null pointer. *)
Definition createMessage (header : MessageHeader) (data : option (list byte))
  : list byte :=
  let message :=
    replicate (sizeof_MessageHeader + Z.to_nat (data_size header)) x00 in
  (* Copy header *)
  let network_header := hostToNetwork header in
  let message :=
    memcpy message 0 (header_bytes network_header) sizeof_MessageHeader in
  (* Copy data if present *)
  match data with
  | Some d =>
      if data_size header >? 0
      then memcpy message sizeof_MessageHeader d (Z.to_nat (data_size header))
      else message
  | None => message
  end.

End Host.

(** [ProtocolHelper::createHeader(type, client_id, sequence, data_size,
    layer_id)]; [now_us] is the value of [getCurrentTimestamp()]. *)
Definition createHeader (now_us : Z) (type_ : MessageType)
    (client_id_ sequence_ data_size_ layer_id_ : Z) : MessageHeader :=
  {| magic := 0x4B41524F; (* "KARO" *)
     protocol_version := PROTOCOL_VERSION;
     type := type_;
     layer_id := layer_id_;
     reserved := 0;
     client_id := client_id_;
     sequence := sequence_;
     data_size := data_size_;
     timestamp := now_us |}.

(** [struct ServerHello], packed, five [uint32_t]. *)
Record ServerHello := mkServerHello {
  server_version : Z;
  max_clients : Z;
  assigned_client_id : Z;
  server_capabilities : Z;
  hello_max_layers : Z
}.

Definition sizeof_ServerHello : nat := 20.

Definition ServerHello_typed (s : ServerHello) : Prop :=
  in_range 32 (server_version s) /\ in_range 32 (max_clients s) /\
  in_range 32 (assigned_client_id s) /\ in_range 32 (server_capabilities s) /\
  in_range 32 (hello_max_layers s).

(** [ProtocolHelper::createServerHello(client_id, server_version)] *)
Definition createServerHello (client_id_ server_version_ : Z) : ServerHello :=
  {| server_version := server_version_;
     max_clients := 32;
     assigned_client_id := client_id_;
     server_capabilities :=
       Z.lor (Z.lor (Z.lor (Z.lor (Z.lor (Z.lor
         Capabilities.BASIC_RENDERING
         Capabilities.TEXT_RENDERING)
         Capabilities.TEXTURED_RENDERING)
         Capabilities.LAYER_SUPPORT)
         Capabilities.INPUT_EVENTS)
         Capabilities.FRAME_CALLBACKS)
         Capabilities.UNIX_SOCKETS;
     hello_max_layers := 255 |}.

(** [struct ErrorResponse]: [ErrorCode] is a [uint32_t] enumeration,
    [error_message] a [char[128]]. *)
Record ErrorResponse := mkErrorResponse {
  error_code : Z;
  original_sequence : Z;
  error_message : list byte
}.

Definition sizeof_error_message : nat := 128.

(** [ProtocolHelper::createErrorResponse(error_code, message,
    original_sequence)].  [response] is declared without an initialiser:
    [uninit] is what its [error_message] array holds before the copy. *)
Definition createErrorResponse (uninit : list byte) (error_code_ : Z)
    (message : list byte) (original_sequence_ : Z) : ErrorResponse :=
  (* Copy message, ensuring null termination *)
  let copy_len := Nat.min (length message) (sizeof_error_message - 1) in
  let error_message_ := memcpy uninit 0 message copy_len in
  let error_message_ := <[copy_len := x00]> error_message_ in
  {| error_code := error_code_;
     original_sequence := original_sequence_;
     error_message := error_message_ |}.

(** The C string an array of [char] holds: the bytes before the first
    NUL. *)
Fixpoint c_str (bs : list byte) : list byte :=
  match bs with
  | [] => []
  | b :: bs' => if Byte.eqb b x00 then [] else b :: c_str bs'
  end.

Section Templates.

Variable host : ByteOrder.

Definition ServerHello_bytes (s : ServerHello) : list byte :=
  store host 4 (server_version s) ++ store host 4 (max_clients s) ++
  store host 4 (assigned_client_id s) ++ store host 4 (server_capabilities s) ++
  store host 4 (hello_max_layers s).

Definition ServerHello_at (mem : list byte) : ServerHello :=
  {| server_version := load host (slice 0 4 mem);
     max_clients := load host (slice 4 4 mem);
     assigned_client_id := load host (slice 8 4 mem);
     server_capabilities := load host (slice 12 4 mem);
     hello_max_layers := load host (slice 16 4 mem) |}.

(** [ProtocolHelper::serialize<T>(header, data)] is
    [createMessage(header, &data)] for every [T] it is specialised for.
    [object] is the memory at [&data]: the bytes of the struct, then what
    lies behind it. *)
Definition serialize (header : MessageHeader) (object : list byte) : list byte :=
  createMessage host header (Some object).

(** [ProtocolHelper::deserialize<T>(buffer, header, data)], the one body
    both specialisations (ClientHello, ServerHello) share: [sizeof_T] is
    [sizeof(T)] and [T_at] reads a [T] out of memory.  [None] is
    [return false]; [Some] carries the two out-parameters. *)
Definition deserialize {T : Type} (sizeof_T : nat) (T_at : list byte -> T)
    (buffer : list byte) : option (MessageHeader * T) :=
  if (length buffer <? sizeof_MessageHeader + sizeof_T)%nat then None
  else
    (* Extract header *)
    let header :=
      networkToHost host
        (header_of_bytes host (slice 0 sizeof_MessageHeader buffer)) in
    if negb (validateHeader header)
       || negb (data_size header =? Z.of_nat sizeof_T)
    then None
    else
      (* Extract data *)
      Some (header, T_at (slice sizeof_MessageHeader sizeof_T buffer)).

Definition deserialize_ServerHello (buffer : list byte)
  : option (MessageHeader * ServerHello) :=
  deserialize sizeof_ServerHello ServerHello_at buffer.

End Templates.

End Protocol.

(** ** KairosServer/src/Network/Client.cpp *)

Module Session.

Import Protocol.

(** [std::chrono::steady_clock] counts nanoseconds; [std::chrono::seconds(1)]
    is this many ticks. *)
Definition ticks_per_second : Z := 1000000000.

Inductive State :=
  | CONNECTING | HANDSHAKE | CONNECTED | DISCONNECTING | DISCONNECTED | ERROR.

Definition State_eqb (a b : State) : bool :=
  match a, b with
  | CONNECTING, CONNECTING | HANDSHAKE, HANDSHAKE | CONNECTED, CONNECTED
  | DISCONNECTING, DISCONNECTING | DISCONNECTED, DISCONNECTED
  | ERROR, ERROR => true
  | _, _ => false
  end.

(** [Client::Config], with its default member initialisers. *)
Record Config := mkConfig {
  receive_buffer_size : Z;
  send_buffer_size : Z;
  timeout_seconds : Z;
  ping_interval_seconds : Z;
  max_message_size : Z;       (* uint32_t *)
  enable_keep_alive : bool;
  enable_nagle : bool
}.

Definition default_Config : Config :=
  {| receive_buffer_size := 64 * 1024;
     send_buffer_size := 64 * 1024;
     timeout_seconds := 30;
     ping_interval_seconds := 10;
     max_message_size := 10 * 1024 * 1024;
     enable_keep_alive := true;
     enable_nagle := false |}.

(** The counters of [Client::Info] that the functions below touch. *)
Record Info := mkInfo {
  info_client_id : Z;
  messages_sent : Z;
  messages_received : Z;
  bytes_sent : Z;
  bytes_received : Z;
  errors : Z                 (* uint32_t *)
}.

(** What a call does to the world outside the object. *)
Inductive Event :=
  | LogDebug | LogInfo | LogWarning | LogError
  | SysClose (fd : Z).

Record Client := mkClient {
  m_socket : Z;
  m_config : Config;
  m_info : Info;
  m_state : State;
  m_receive_buffer : list byte;
  m_receive_buffer_pos : nat;
  (* std::queue: front is the head of the list *)
  m_parsed_messages : list (MessageHeader * list byte);
  m_message_times : list Z;
  m_consecutive_errors : Z;
  m_disconnect_reason : string;
  (* ghost: the calls made to the logger and the operating system, oldest first *)
  m_events : list Event
}.

Definition MAX_MESSAGES_PER_SECOND : Z := 1000.
Definition MAX_CONSECUTIVE_ERRORS : Z := 5.

Definition emit (e : Event) (c : Client) : Client :=
  {| m_socket := m_socket c; m_config := m_config c; m_info := m_info c;
     m_state := m_state c; m_receive_buffer := m_receive_buffer c;
     m_receive_buffer_pos := m_receive_buffer_pos c;
     m_parsed_messages := m_parsed_messages c;
     m_message_times := m_message_times c;
     m_consecutive_errors := m_consecutive_errors c;
     m_disconnect_reason := m_disconnect_reason c;
     m_events := m_events c ++ [e] |}.

Definition set_state (s : State) (c : Client) : Client :=
  {| m_socket := m_socket c; m_config := m_config c; m_info := m_info c;
     m_state := s; m_receive_buffer := m_receive_buffer c;
     m_receive_buffer_pos := m_receive_buffer_pos c;
     m_parsed_messages := m_parsed_messages c;
     m_message_times := m_message_times c;
     m_consecutive_errors := m_consecutive_errors c;
     m_disconnect_reason := m_disconnect_reason c;
     m_events := m_events c |}.

Definition set_socket (fd : Z) (c : Client) : Client :=
  {| m_socket := fd; m_config := m_config c; m_info := m_info c;
     m_state := m_state c; m_receive_buffer := m_receive_buffer c;
     m_receive_buffer_pos := m_receive_buffer_pos c;
     m_parsed_messages := m_parsed_messages c;
     m_message_times := m_message_times c;
     m_consecutive_errors := m_consecutive_errors c;
     m_disconnect_reason := m_disconnect_reason c;
     m_events := m_events c |}.

Definition set_disconnect_reason (r : string) (c : Client) : Client :=
  {| m_socket := m_socket c; m_config := m_config c; m_info := m_info c;
     m_state := m_state c; m_receive_buffer := m_receive_buffer c;
     m_receive_buffer_pos := m_receive_buffer_pos c;
     m_parsed_messages := m_parsed_messages c;
     m_message_times := m_message_times c;
     m_consecutive_errors := m_consecutive_errors c;
     m_disconnect_reason := r;
     m_events := m_events c |}.

Definition set_info (i : Info) (c : Client) : Client :=
  {| m_socket := m_socket c; m_config := m_config c; m_info := i;
     m_state := m_state c; m_receive_buffer := m_receive_buffer c;
     m_receive_buffer_pos := m_receive_buffer_pos c;
     m_parsed_messages := m_parsed_messages c;
     m_message_times := m_message_times c;
     m_consecutive_errors := m_consecutive_errors c;
     m_disconnect_reason := m_disconnect_reason c;
     m_events := m_events c |}.

Definition set_message_times (ts : list Z) (c : Client) : Client :=
  {| m_socket := m_socket c; m_config := m_config c; m_info := m_info c;
     m_state := m_state c; m_receive_buffer := m_receive_buffer c;
     m_receive_buffer_pos := m_receive_buffer_pos c;
     m_parsed_messages := m_parsed_messages c;
     m_message_times := ts;
     m_consecutive_errors := m_consecutive_errors c;
     m_disconnect_reason := m_disconnect_reason c;
     m_events := m_events c |}.

Definition set_receive (buf : list byte) (pos : nat)
    (parsed : list (MessageHeader * list byte)) (c : Client) : Client :=
  {| m_socket := m_socket c; m_config := m_config c; m_info := m_info c;
     m_state := m_state c; m_receive_buffer := buf;
     m_receive_buffer_pos := pos;
     m_parsed_messages := parsed;
     m_message_times := m_message_times c;
     m_consecutive_errors := m_consecutive_errors c;
     m_disconnect_reason := m_disconnect_reason c;
     m_events := m_events c |}.

Definition bump_errors (i : Info) : Info :=
  {| info_client_id := info_client_id i; messages_sent := messages_sent i;
     messages_received := messages_received i; bytes_sent := bytes_sent i;
     bytes_received := bytes_received i;
     errors := uint32 (errors i + 1) |}.

(** [Client::setState]: [m_state.exchange(new_state)], and a debug line when
    the state changed. *)
Definition setState (new_state : State) (c : Client) : Client :=
  let old_state := m_state c in
  let c := set_state new_state c in
  if negb (State_eqb old_state new_state) then emit LogDebug c else c.

(** [Client::disconnect(reason)]. *)
Definition disconnect (reason : string) (c : Client) : Client :=
  if State_eqb (m_state c) DISCONNECTED then c
  else
    let c := emit LogInfo c in
    let c := set_disconnect_reason reason c in
    let c := setState DISCONNECTING c in
    let c :=
      if negb (m_socket c =? -1)
      then set_socket (-1) (emit (SysClose (m_socket c)) c)
      else c in
    setState DISCONNECTED c.

Definition isConnected (c : Client) : bool :=
  State_eqb (m_state c) CONNECTED || State_eqb (m_state c) HANDSHAKE.

(** The [while] loop of [checkRateLimit]: pop the front while it is older
    than one second. *)
Fixpoint drop_expired (now : Z) (times : list Z) : list Z :=
  match times with
  | [] => []
  | front :: rest =>
      if now - front >? ticks_per_second
      then drop_expired now rest
      else times
  end.

(** [Client::checkRateLimit()]; [now] is the clock reading it takes. *)
Definition checkRateLimit (now : Z) (c : Client) : bool * Client :=
  (* Remove old timestamps *)
  let c := set_message_times (drop_expired now (m_message_times c)) c in
  (* Check rate limit *)
  if Z.of_nat (length (m_message_times c)) >=? MAX_MESSAGES_PER_SECOND
  then (false, set_info (bump_errors (m_info c)) c)
  else (true, set_message_times (m_message_times c ++ [now]) c).

(** [checkRateLimit] called once for each clock reading of [times], in
    order; the values returned, and the session afterwards. *)
Fixpoint checkRateLimit_calls (times : list Z) (c : Client)
  : list bool * Client :=
  match times with
  | [] => ([], c)
  | now :: later =>
      let '(admitted, c1) := checkRateLimit now c in
      let '(rest, c2) := checkRateLimit_calls later c1 in
      (admitted :: rest, c2)
  end.

Definition validateMessageSize (c : Client) (size : Z) : bool :=
  size <=? max_message_size (m_config c).

Definition validateMessageHeader (c : Client) (header : MessageHeader) : bool :=
  validateHeader header && validateMessageSize c (data_size header).

(** [Client::compactReceiveBuffer()]. *)
Definition compactReceiveBuffer (c : Client) : Client :=
  if (0 <? m_receive_buffer_pos c)%nat
  then
    set_receive (drop (m_receive_buffer_pos c) (m_receive_buffer c)) 0
                (m_parsed_messages c) c
  else c.

(** Bytes from the read position to the end of the buffer
    ([m_receive_buffer.size() - m_receive_buffer_pos], unsigned). *)
Definition pending (c : Client) : Z :=
  size_t (Z.of_nat (length (m_receive_buffer c))
          - Z.of_nat (m_receive_buffer_pos c)).

Section Host.

Variable host : ByteOrder.

(** How one turn of the [while] loop in [parseMessages] ends. *)
Inductive Turn :=
  | Parsed (c : Client)       (* a message was queued; loop again *)
  | Incomplete                (* [break]: wait for more data *)
  | Invalid (c : Client).     (* [return false] *)

Definition parse_one (c : Client) : Turn :=
  let pos := m_receive_buffer_pos c in
  (* Parse header *)
  let header :=
    networkToHost host
      (header_of_bytes host (slice pos sizeof_MessageHeader (m_receive_buffer c))) in
  (* Validate header *)
  if negb (validateMessageHeader c header)
  then Invalid (setState ERROR (emit LogError c))
  else
    (* Check if we have the complete message *)
    let message_size := size_t (Z.of_nat sizeof_MessageHeader + data_size header) in
    if pending c <? message_size then Incomplete
    else
      (* Extract message data *)
      let data :=
        if data_size header >? 0
        then slice (pos + sizeof_MessageHeader) (Z.to_nat (data_size header))
                   (m_receive_buffer c)
        else [] in
      (* Add to parsed messages queue, advance buffer position *)
      Parsed (set_receive (m_receive_buffer c)
                          (pos + Z.to_nat message_size)
                          (m_parsed_messages c ++ [(header, data)]) c).

(** The loop, bounded by [fuel] turns; [None] when the bound is hit while
    the loop condition still holds. *)
Fixpoint parse_loop (fuel : nat) (c : Client) : option (bool * Client) :=
  if pending c >=? Z.of_nat sizeof_MessageHeader then
    match fuel with
    | O => None
    | S fuel' =>
        match parse_one c with
        | Parsed c' => parse_loop fuel' c'
        | Incomplete => Some (true, c)
        | Invalid c' => Some (false, c')
        end
    end
  else Some (true, c).

(** [Client::parseMessages()].  Every turn that loops again consumes at
    least a header, so the buffer length bounds the number of turns
    ([parseMessages_total] below). *)
Definition parseMessages (c : Client) : option (bool * Client) :=
  match parse_loop (S (length (m_receive_buffer c))) c with
  | Some (true, c) =>
      (* Compact buffer if needed *)
      if (length (m_receive_buffer c) / 2 <? m_receive_buffer_pos c)%nat
      then Some (true, compactReceiveBuffer c)
      else Some (true, c)
  | Some (false, c) => Some (false, c)
  | None => None
  end.

End Host.

End Session.

(** ** KairosServer/src/Core/NetworkManager.cpp: message validation and the
       per-client command limiter *)

Module Network.

Import Protocol.

(** [NetworkManager::RateLimitInfo] *)
Record RateLimitInfo := mkRateLimitInfo {
  command_count : Z;         (* uint32_t *)
  last_reset : Z;            (* steady_clock::time_point *)
  is_limited : bool
}.

(** The entry [m_rate_limits[client_id]] creates when there is none: the
    default member initialisers, and the clock's epoch. *)
Definition RateLimitInfo_new : RateLimitInfo :=
  {| command_count := 0; last_reset := 0; is_limited := false |}.

(** The members of [NetworkManager] the functions below read and write. *)
Record NetworkManager := mkNetworkManager {
  max_message_size : Z;              (* m_config.max_message_size, uint32_t *)
  enable_rate_limiting : bool;       (* m_config.enable_rate_limiting *)
  max_commands_per_second : Z;       (* m_config.max_commands_per_second, uint32_t *)
  m_rate_limits : gmap Z RateLimitInfo;
  (* ghost: the calls made to Logger::warning *)
  warnings_logged : nat
}.

Definition set_rate_limits (m : gmap Z RateLimitInfo) (nm : NetworkManager)
  : NetworkManager :=
  {| max_message_size := max_message_size nm;
     enable_rate_limiting := enable_rate_limiting nm;
     max_commands_per_second := max_commands_per_second nm;
     m_rate_limits := m;
     warnings_logged := warnings_logged nm |}.

Definition log_warning (nm : NetworkManager) : NetworkManager :=
  {| max_message_size := max_message_size nm;
     enable_rate_limiting := enable_rate_limiting nm;
     max_commands_per_second := max_commands_per_second nm;
     m_rate_limits := m_rate_limits nm;
     warnings_logged := S (warnings_logged nm) |}.

(** [NetworkManager::checkRateLimit(client_id)] *)
Definition checkRateLimit (client_id : Z) (nm : NetworkManager)
  : bool * NetworkManager :=
  if negb (enable_rate_limiting nm) then (true, nm)
  else
    let rate_info := default RateLimitInfo_new (m_rate_limits nm !! client_id) in
    let rate_info :=
      {| command_count := uint32 (command_count rate_info + 1);
         last_reset := last_reset rate_info;
         is_limited := is_limited rate_info |} in
    if command_count rate_info >? max_commands_per_second nm then
      if negb (is_limited rate_info) then
        let rate_info :=
          {| command_count := command_count rate_info;
             last_reset := last_reset rate_info;
             is_limited := true |} in
        (false,
         set_rate_limits (<[client_id := rate_info]> (m_rate_limits nm))
                         (log_warning nm))
      else
        (false, set_rate_limits (<[client_id := rate_info]> (m_rate_limits nm)) nm)
    else
      (true, set_rate_limits (<[client_id := rate_info]> (m_rate_limits nm)) nm).

(** [NetworkManager::updateRateLimits()]; [now] is the clock reading taken
    before the loop. *)
Definition updateRateLimits (now : Z) (nm : NetworkManager) : NetworkManager :=
  if negb (enable_rate_limiting nm) then nm
  else
    set_rate_limits
      ((fun rate_info =>
          (* Reset rate limit window every second *)
          if now - last_reset rate_info >=? Session.ticks_per_second
          then {| command_count := 0; last_reset := now; is_limited := false |}
          else rate_info) <$> m_rate_limits nm)
      nm.

(** [checkRateLimit(client_id)] called [n] times in a row: the values
    returned, oldest first, and the manager afterwards. *)
Fixpoint checkRateLimit_repeat (n : nat) (client_id : Z) (nm : NetworkManager)
  : list bool * NetworkManager :=
  match n with
  | O => ([], nm)
  | S n' =>
      let '(ok, nm1) := checkRateLimit client_id nm in
      let '(rest, nm2) := checkRateLimit_repeat n' client_id nm1 in
      (ok :: rest, nm2)
  end.

(** [NetworkManager::validateMessage(header, data)] *)
Definition validateMessage (nm : NetworkManager) (header : MessageHeader)
    (data : list byte) : bool :=
  if negb (validateHeader header) then false
  else if negb (Z.of_nat (length data) =? data_size header) then false
  else if data_size header >? max_message_size nm then false
  else true.

End Network.

(** ** shared/include/Types.hpp *)

Module Types.

(** A [float] that is only copied: its 32-bit pattern. *)
Definition float_bits := Z.

(** [1.0f] *)
Definition float_one : float_bits := 0x3F800000.

Record Point := mkPoint { Point_x : float_bits; Point_y : float_bits }.

Record Color := mkColor { r : Z; g : Z; b : Z; a : Z; rgba : Z }.

(** [Color(r, g, b, a)] *)
Definition Color_of_components (r_ g_ b_ a_ : Z) : Color :=
  {| r := r_; g := g_; b := b_; a := a_;
     rgba := uint32 (Z.lor (Z.lor (Z.lor (Z.shiftl r_ 24) (Z.shiftl g_ 16))
                                  (Z.shiftl b_ 8)) a_) |}.

(** [Color(rgba)] *)
Definition Color_of_rgba (rgba_ : Z) : Color :=
  {| rgba := rgba_;
     r := Z.land (Z.shiftr rgba_ 24) 0xFF;
     g := Z.land (Z.shiftr rgba_ 16) 0xFF;
     b := Z.land (Z.shiftr rgba_ 8) 0xFF;
     a := Z.land rgba_ 0xFF |}.

Definition WHITE : Color := Color_of_components 255 255 255 255.

Record TexturedVertex := mkVertex {
  vx : float_bits; vy : float_bits;
  vu : float_bits; vv : float_bits;
  vcolor : Z                      (* uint32_t *)
}.

Definition sizeof_TexturedVertex : nat := 20.

End Types.

(** ** Payload structs of Protocol.hpp and the helpers of
       shared/src/Serialization.cpp *)

Module Serialization.

Import Protocol Types.

Record DrawPointData := mkDrawPointData {
  dp_gc_id : Z; dp_position : Point
}.

Record DrawLineData := mkDrawLineData {
  dl_gc_id : Z; dl_start : Point; dl_end : Point
}.

Record DrawRectangleData := mkDrawRectangleData {
  dr_gc_id : Z; dr_position : Point; dr_width : float_bits;
  dr_height : float_bits
}.

Record DrawTextData := mkDrawTextData {
  dt_gc_id : Z;            (* uint32_t *)
  dt_font_id : Z;          (* uint32_t *)
  dt_position : Point;
  dt_font_size : float_bits;
  text_length : Z;         (* uint16_t *)
  dt_reserved : Z          (* uint16_t *)
}.

Record DrawTexturedQuadsData := mkDrawTexturedQuadsData {
  dq_gc_id : Z;            (* uint32_t *)
  dq_texture_id : Z;       (* uint32_t *)
  quad_count : Z;          (* uint32_t *)
  dq_reserved : Z          (* uint32_t *)
}.

Definition sizeof_DrawPointData : nat := 12.
Definition sizeof_DrawLineData : nat := 20.
Definition sizeof_DrawRectangleData : nat := 20.
Definition sizeof_DrawTextData : nat := 24.
Definition sizeof_DrawTexturedQuadsData : nat := 16.

Section Host.

Variable host : ByteOrder.

(** Reading the packed structs out of memory.  Payload fields are not
    byte-swapped anywhere in the sources: they are in host order. *)
Definition Point_at (off : nat) (mem : list byte) : Point :=
  {| Point_x := load host (slice off 4 mem);
     Point_y := load host (slice (off + 4) 4 mem) |}.

Definition DrawPointData_at (mem : list byte) : DrawPointData :=
  {| dp_gc_id := load host (slice 0 4 mem); dp_position := Point_at 4 mem |}.

Definition DrawLineData_at (mem : list byte) : DrawLineData :=
  {| dl_gc_id := load host (slice 0 4 mem);
     dl_start := Point_at 4 mem; dl_end := Point_at 12 mem |}.

Definition DrawRectangleData_at (mem : list byte) : DrawRectangleData :=
  {| dr_gc_id := load host (slice 0 4 mem);
     dr_position := Point_at 4 mem;
     dr_width := load host (slice 12 4 mem);
     dr_height := load host (slice 16 4 mem) |}.

Definition DrawTextData_at (mem : list byte) : DrawTextData :=
  {| dt_gc_id := load host (slice 0 4 mem);
     dt_font_id := load host (slice 4 4 mem);
     dt_position := Point_at 8 mem;
     dt_font_size := load host (slice 16 4 mem);
     text_length := load host (slice 20 2 mem);
     dt_reserved := load host (slice 22 2 mem) |}.

Definition DrawTexturedQuadsData_at (mem : list byte) : DrawTexturedQuadsData :=
  {| dq_gc_id := load host (slice 0 4 mem);
     dq_texture_id := load host (slice 4 4 mem);
     quad_count := load host (slice 8 4 mem);
     dq_reserved := load host (slice 12 4 mem) |}.

Definition TexturedVertex_at (off : nat) (mem : list byte) : TexturedVertex :=
  {| vx := load host (slice off 4 mem);
     vy := load host (slice (off + 4) 4 mem);
     vu := load host (slice (off + 8) 4 mem);
     vv := load host (slice (off + 12) 4 mem);
     vcolor := load host (slice (off + 16) 4 mem) |}.

(** [count] vertices laid out from offset [off]. *)
Fixpoint TexturedVertices_at (count : nat) (off : nat) (mem : list byte)
  : list TexturedVertex :=
  match count with
  | O => []
  | S count' =>
      TexturedVertex_at off mem
      :: TexturedVertices_at count' (off + sizeof_TexturedVertex) mem
  end.

(** [parseDrawTextMessage(buffer, header, text_data, text)]: [None] is
    [return false], [Some] carries the three out-parameters of
    [return true]. *)
Definition parseDrawTextMessage (buffer : list byte)
  : option (MessageHeader * DrawTextData * list byte) :=
  if (length buffer <? sizeof_MessageHeader + sizeof_DrawTextData)%nat
  then None
  else
    (* Extract header *)
    let header :=
      networkToHost host (header_of_bytes host (slice 0 sizeof_MessageHeader buffer)) in
    if negb (validateHeader header)
       || (data_size header <? Z.of_nat sizeof_DrawTextData)
    then None
    else
      (* Extract text data *)
      let text_data := DrawTextData_at (drop sizeof_MessageHeader buffer) in
      (* Validate text length *)
      if text_length text_data
         >? size_t (data_size header - Z.of_nat sizeof_DrawTextData)
      then None
      else
        (* Extract text string *)
        let text :=
          slice (sizeof_MessageHeader + sizeof_DrawTextData)
                (Z.to_nat (text_length text_data)) buffer in
        Some (header, text_data, text).

(** [parseDrawTexturedQuadsMessage(buffer, header, quad_data, vertices)]. *)
Definition parseDrawTexturedQuadsMessage (buffer : list byte)
  : option (MessageHeader * DrawTexturedQuadsData * list TexturedVertex) :=
  if (length buffer <? sizeof_MessageHeader + sizeof_DrawTexturedQuadsData)%nat
  then None
  else
    let header :=
      networkToHost host (header_of_bytes host (slice 0 sizeof_MessageHeader buffer)) in
    if negb (validateHeader header)
       || (data_size header <? Z.of_nat sizeof_DrawTexturedQuadsData)
    then None
    else
      let quad_data :=
        DrawTexturedQuadsData_at (drop sizeof_MessageHeader buffer) in
      (* Validate vertex count (4 vertices per quad); the product is taken
         in uint32_t before it widens to size_t *)
      let expected_vertex_count := uint32 (quad_count quad_data * 4) in
      let expected_vertices_size :=
        size_t (expected_vertex_count * Z.of_nat sizeof_TexturedVertex) in
      if expected_vertices_size
         >? size_t (data_size header - Z.of_nat sizeof_DrawTexturedQuadsData)
      then None
      else
        let vertices :=
          TexturedVertices_at (Z.to_nat expected_vertex_count)
            (sizeof_MessageHeader + sizeof_DrawTexturedQuadsData) buffer in
        Some (header, quad_data, vertices).

(** The object representations [std::memcpy] reads the structs from. *)
Definition Point_bytes (p : Point) : list byte :=
  store host 4 (Point_x p) ++ store host 4 (Point_y p).

Definition DrawPointData_bytes (d : DrawPointData) : list byte :=
  store host 4 (dp_gc_id d) ++ Point_bytes (dp_position d).

Definition DrawTextData_bytes (d : DrawTextData) : list byte :=
  store host 4 (dt_gc_id d) ++ store host 4 (dt_font_id d) ++
  Point_bytes (dt_position d) ++ store host 4 (dt_font_size d) ++
  store host 2 (text_length d) ++ store host 2 (dt_reserved d).

Definition DrawTexturedQuadsData_bytes (d : DrawTexturedQuadsData) : list byte :=
  store host 4 (dq_gc_id d) ++ store host 4 (dq_texture_id d) ++
  store host 4 (quad_count d) ++ store host 4 (dq_reserved d).

Definition TexturedVertex_bytes (v : TexturedVertex) : list byte :=
  store host 4 (vx v) ++ store host 4 (vy v) ++ store host 4 (vu v) ++
  store host 4 (vv v) ++ store host 4 (vcolor v).

(** The storage of a [std::vector<TexturedVertex>]. *)
Definition TexturedVertices_bytes (vs : list TexturedVertex) : list byte :=
  concat (List.map TexturedVertex_bytes vs).

(** [createDrawTextMessage(client_id, sequence, layer_id, text_data, text)];
    [now_us] is the timestamp [createHeader] takes.  The payload size is
    a [size_t] sum handed to a [uint32_t] parameter. *)
Definition createDrawTextMessage (now_us client_id_ sequence_ layer_id_ : Z)
    (text_data : DrawTextData) (text : list byte) : list byte :=
  let header :=
    createHeader now_us DRAW_TEXT client_id_ sequence_
      (uint32 (Z.of_nat sizeof_DrawTextData + Z.of_nat (length text)))
      layer_id_ in
  let message :=
    replicate (sizeof_MessageHeader + sizeof_DrawTextData + length text) x00 in
  (* Copy header *)
  let header := hostToNetwork host header in
  let message := memcpy message 0 (header_bytes host header) sizeof_MessageHeader in
  (* Copy text data *)
  let message :=
    memcpy message sizeof_MessageHeader (DrawTextData_bytes text_data)
           sizeof_DrawTextData in
  (* Copy text string *)
  memcpy message (sizeof_MessageHeader + sizeof_DrawTextData) text (length text).

(** [createDrawTexturedQuadsMessage(client_id, sequence, layer_id, quad_data,
    vertices)]. *)
Definition createDrawTexturedQuadsMessage
    (now_us client_id_ sequence_ layer_id_ : Z)
    (quad_data : DrawTexturedQuadsData) (vertices : list TexturedVertex)
  : list byte :=
  let vertices_size := (length vertices * sizeof_TexturedVertex)%nat in
  let header :=
    createHeader now_us DRAW_TEXTURED_QUADS client_id_ sequence_
      (uint32 (Z.of_nat sizeof_DrawTexturedQuadsData + Z.of_nat vertices_size))
      layer_id_ in
  let message :=
    replicate (sizeof_MessageHeader + sizeof_DrawTexturedQuadsData
               + vertices_size) x00 in
  (* Copy header *)
  let header := hostToNetwork host header in
  let message := memcpy message 0 (header_bytes host header) sizeof_MessageHeader in
  (* Copy quad data *)
  let message :=
    memcpy message sizeof_MessageHeader (DrawTexturedQuadsData_bytes quad_data)
           sizeof_DrawTexturedQuadsData in
  (* Copy vertices *)
  memcpy message (sizeof_MessageHeader + sizeof_DrawTexturedQuadsData)
         (TexturedVertices_bytes vertices) vertices_size.

End Host.

(** Every field holds a value of its C type ([float] as its 32 bits). *)
Definition Point_typed (p : Point) : Prop :=
  in_range 32 (Point_x p) /\ in_range 32 (Point_y p).

Definition DrawPointData_typed (d : DrawPointData) : Prop :=
  in_range 32 (dp_gc_id d) /\ Point_typed (dp_position d).

Definition DrawTextData_typed (d : DrawTextData) : Prop :=
  in_range 32 (dt_gc_id d) /\ in_range 32 (dt_font_id d) /\
  Point_typed (dt_position d) /\ in_range 32 (dt_font_size d) /\
  in_range 16 (text_length d) /\ in_range 16 (dt_reserved d).

Definition DrawTexturedQuadsData_typed (d : DrawTexturedQuadsData) : Prop :=
  in_range 32 (dq_gc_id d) /\ in_range 32 (dq_texture_id d) /\
  in_range 32 (quad_count d) /\ in_range 32 (dq_reserved d).

Definition TexturedVertex_typed (v : TexturedVertex) : Prop :=
  in_range 32 (vx v) /\ in_range 32 (vy v) /\ in_range 32 (vu v) /\
  in_range 32 (vv v) /\ in_range 32 (vcolor v).

End Serialization.

(** ** KairosServer/include/Graphics/RenderCommand.hpp,
       KairosServer/src/Core/CommandProcessor.cpp *)

Module Commands.

Import Protocol Types Serialization.

(** [RenderCommand::Type] *)
Module CmdType.
Inductive t :=
  | DRAW_POINT | DRAW_LINE | DRAW_RECTANGLE | DRAW_CIRCLE | DRAW_POLYGON
  | DRAW_TEXT | DRAW_TEXTURED_QUADS | CLEAR_LAYER | SET_LAYER_VISIBILITY
  | SET_VIEWPORT | SET_CAMERA | BATCH_MARKER.
End CmdType.

(** [RenderCommand::Priority], with the enumerators' values. *)
Module Priority.
Inductive t := LOW | NORMAL | HIGH | CRITICAL.

Definition rank (p : t) : Z :=
  match p with LOW => 0 | NORMAL => 1 | HIGH => 2 | CRITICAL => 3 end.
End Priority.

(** The anonymous union of [RenderCommand]: the member last written, or
    nothing yet (the constructors leave it alone). *)
Inductive Payload :=
  | unwritten
  | point (position : Point) (color : Color)
  | line (start end_ : Point) (color : Color) (thickness : float_bits)
  | rectangle (position : Point) (width height : float_bits) (color : Color)
              (filled : bool)
  | circle (center : Point) (radius : float_bits) (color : Color)
           (filled : bool)
  | text (position : Point) (font_id : Z) (font_size : float_bits)
         (color : Color)
  | textured_quads (texture_id : Z)
  | layer_visibility (visible : bool).

Record RenderCommand := mkRenderCommand {
  cmd_type : CmdType.t;
  priority : Priority.t;
  cmd_layer_id : Z;                 (* uint8_t *)
  cmd_client_id : Z;
  sequence_id : Z;
  cmd_timestamp : Z;
  payload : Payload;
  text_string : list byte;
  polygon_points : list Point;
  vertices : list TexturedVertex;
  created_time : Z;
  estimated_vertex_count : Z;       (* size_t *)
  estimated_memory_usage : Z        (* size_t *)
}.

(** [RenderCommand()] *)
Definition RenderCommand_default (now : Z) : RenderCommand :=
  {| cmd_type := CmdType.DRAW_POINT; priority := Priority.NORMAL;
     cmd_layer_id := 0; cmd_client_id := 0; sequence_id := 0;
     cmd_timestamp := 0; payload := unwritten; text_string := [];
     polygon_points := []; vertices := []; created_time := now;
     estimated_vertex_count := 0; estimated_memory_usage := 0 |}.

(** [RenderCommand(cmd_type, layer)], priority defaulted to NORMAL. *)
Definition RenderCommand_new (now : Z) (ty : CmdType.t) (layer : Z)
  : RenderCommand :=
  {| cmd_type := ty; priority := Priority.NORMAL;
     cmd_layer_id := layer; cmd_client_id := 0; sequence_id := 0;
     cmd_timestamp := 0; payload := unwritten; text_string := [];
     polygon_points := []; vertices := []; created_time := now;
     estimated_vertex_count := 0; estimated_memory_usage := 0 |}.

Definition with_payload (p : Payload) (evc emu : Z) (txt : list byte)
    (vs : list TexturedVertex) (c : RenderCommand) : RenderCommand :=
  {| cmd_type := cmd_type c; priority := priority c;
     cmd_layer_id := cmd_layer_id c; cmd_client_id := cmd_client_id c;
     sequence_id := sequence_id c; cmd_timestamp := cmd_timestamp c;
     payload := p; text_string := txt;
     polygon_points := polygon_points c; vertices := vs;
     created_time := created_time c;
     estimated_vertex_count := evc; estimated_memory_usage := emu |}.

Section Converter.

Variable host : ByteOrder.
(** [sizeof(RenderCommand)], fixed by the target's ABI. *)
Variable sizeof_RenderCommand : Z.
(** The clock reading the command's constructor takes. *)
Variable now : Z.

Definition white : Color := Color_of_components 255 255 255 255.

Definition fromDrawPointData (data : DrawPointData) (layer_id : Z)
  : RenderCommand :=
  with_payload (point (dp_position data) white) 1 0 [] []
    (RenderCommand_new now CmdType.DRAW_POINT layer_id).

Definition fromDrawLineData (data : DrawLineData) (layer_id : Z)
  : RenderCommand :=
  with_payload (line (dl_start data) (dl_end data) white float_one) 2 0 [] []
    (RenderCommand_new now CmdType.DRAW_LINE layer_id).

Definition fromDrawRectangleData (data : DrawRectangleData) (layer_id : Z)
    (filled : bool) : RenderCommand :=
  with_payload
    (rectangle (dr_position data) (dr_width data) (dr_height data) white filled)
    (if filled then 4 else 8) 0 [] []
    (RenderCommand_new now CmdType.DRAW_RECTANGLE layer_id).

Definition fromDrawTextData (data : DrawTextData) (text_ : list byte)
    (layer_id : Z) : RenderCommand :=
  with_payload
    (text (dt_position data) (dt_font_id data) (dt_font_size data) white)
    (size_t (Z.of_nat (length text_) * 6))
    (size_t (sizeof_RenderCommand + Z.of_nat (length text_)))
    text_ []
    (RenderCommand_new now CmdType.DRAW_TEXT layer_id).

Definition fromDrawTexturedQuadsData (data : DrawTexturedQuadsData)
    (vertices_ : list TexturedVertex) (layer_id : Z) : RenderCommand :=
  with_payload
    (textured_quads (dq_texture_id data))
    (Z.of_nat (length vertices_))
    (size_t (sizeof_RenderCommand
             + Z.of_nat (length vertices_) * Z.of_nat sizeof_TexturedVertex))
    [] vertices_
    (RenderCommand_new now CmdType.DRAW_TEXTURED_QUADS layer_id).

(** [CommandConverter::fromNetworkMessage(header, data)].  [data] is a bare
    pointer: [mem] is the memory from that address on, that is, the
    payload vector's [data_size] bytes followed by whatever lies behind
    them.  The function is never told where the payload ends. *)
Definition fromNetworkMessage (header : MessageHeader) (mem : list byte)
  : RenderCommand :=
  let ty := type header in
  if ty =? Protocol.DRAW_POINT then
    fromDrawPointData (DrawPointData_at host mem) (layer_id header)
  else if ty =? Protocol.DRAW_LINE then
    fromDrawLineData (DrawLineData_at host mem) (layer_id header)
  else if ty =? Protocol.DRAW_RECTANGLE then
    fromDrawRectangleData (DrawRectangleData_at host mem) (layer_id header) false
  else if ty =? Protocol.FILL_RECTANGLE then
    fromDrawRectangleData (DrawRectangleData_at host mem) (layer_id header) true
  else if ty =? Protocol.DRAW_TEXT then
    let text_data := DrawTextData_at host mem in
    let text_ :=
      slice sizeof_DrawTextData (Z.to_nat (text_length text_data)) mem in
    fromDrawTextData text_data text_ (layer_id header)
  else if ty =? Protocol.DRAW_TEXTURED_QUADS then
    let quad_data := DrawTexturedQuadsData_at host mem in
    let vertex_vector :=
      TexturedVertices_at host (Z.to_nat (uint32 (quad_count quad_data * 4)))
        sizeof_DrawTexturedQuadsData mem in
    fromDrawTexturedQuadsData quad_data vertex_vector (layer_id header)
  else if ty =? Protocol.CLEAR_LAYER then
    RenderCommand_new now CmdType.CLEAR_LAYER (layer_id header)
  else
    (* Default empty command *)
    RenderCommand_default now.

End Converter.

(** [CommandConverter::assignPriority(message_type, layer_id)]. *)
Definition assignPriority (message_type : MessageType) (layer_id : Z)
  : Priority.t :=
  (* Layer 0 is typically high priority (UI/HUD) *)
  if layer_id =? 0 then Priority.HIGH
  else if (message_type =? Protocol.CLEAR_LAYER)
          || (message_type =? Protocol.CLEAR_ALL_LAYERS)
  then Priority.HIGH
  else if (message_type =? Protocol.DRAW_TEXT)
          || (message_type =? Protocol.DRAW_TEXTURED_QUADS)
  then Priority.NORMAL
  else Priority.NORMAL.

(** *** RenderCommandQueue

    The class is declared in RenderCommand.hpp (a vector of commands used as
    a bounded ring, a maximum size, statistics); its member functions are
    defined in a file that is not among the sources.  *)

Record QueueStats := mkQueueStats {
  total_enqueued : Z;
  total_dequeued : Z;
  total_dropped : Z;
  peak_size : Z
}.

Record RenderCommandQueue := mkQueue {
  (* the resident commands, oldest first: the ring read from head to tail *)
  m_commands : list RenderCommand;
  m_max_size : nat;
  m_stats : QueueStats
}.

(** Modelled from the spec: the constructor [RenderCommandQueue(max_size)]
    (capacity fixed at construction, queue empty). *)
Definition RenderCommandQueue_new (max_size : nat) : RenderCommandQueue :=
  {| m_commands := []; m_max_size := max_size;
     m_stats := {| total_enqueued := 0; total_dequeued := 0;
                   total_dropped := 0; peak_size := 0 |} |}.

(** Modelled from the spec: [RenderCommandQueue::full()]. *)
Definition full (q : RenderCommandQueue) : bool :=
  (m_max_size q <=? length (m_commands q))%nat.

(** Modelled from the spec: [RenderCommandQueue::enqueue(cmd)] (section 4.4:
    returns ok or dropped; the producer never blocks, and a command offered
    to a full queue is dropped and counted). *)
Definition enqueue (cmd : RenderCommand) (q : RenderCommandQueue)
  : bool * RenderCommandQueue :=
  if full q then
    (false,
     {| m_commands := m_commands q; m_max_size := m_max_size q;
        m_stats := {| total_enqueued := total_enqueued (m_stats q);
                      total_dequeued := total_dequeued (m_stats q);
                      total_dropped := total_dropped (m_stats q) + 1;
                      peak_size := peak_size (m_stats q) |} |})
  else
    (true,
     {| m_commands := m_commands q ++ [cmd]; m_max_size := m_max_size q;
        m_stats := {| total_enqueued := total_enqueued (m_stats q) + 1;
                      total_dequeued := total_dequeued (m_stats q);
                      total_dropped := total_dropped (m_stats q);
                      peak_size :=
                        Z.max (peak_size (m_stats q))
                              (Z.of_nat (length (m_commands q)) + 1) |} |}).

(** The highest priority rank among [l], [-1] when there is none. *)
Fixpoint highest_rank (l : list RenderCommand) : Z :=
  match l with
  | [] => -1
  | c :: l' => Z.max (Priority.rank (priority c)) (highest_rank l')
  end.

(** Take out the oldest command of rank [k]. *)
Fixpoint take_oldest (k : Z) (l : list RenderCommand)
  : option (RenderCommand * list RenderCommand) :=
  match l with
  | [] => None
  | c :: l' =>
      if Priority.rank (priority c) =? k then Some (c, l')
      else
        match take_oldest k l' with
        | Some (d, rest) => Some (d, c :: rest)
        | None => None
        end
  end.

(** Modelled from the spec: [RenderCommandQueue::dequeue(command)] (section
    3: the consumer drains in priority-then-FIFO order, Critical > High >
    Normal > Low, ties by insertion order).  [None] is [return false]. *)
Definition dequeue (q : RenderCommandQueue)
  : option (RenderCommand * RenderCommandQueue) :=
  match take_oldest (highest_rank (m_commands q)) (m_commands q) with
  | Some (c, rest) =>
      Some (c,
            {| m_commands := rest; m_max_size := m_max_size q;
               m_stats := {| total_enqueued := total_enqueued (m_stats q);
                             total_dequeued := total_dequeued (m_stats q) + 1;
                             total_dropped := total_dropped (m_stats q);
                             peak_size := peak_size (m_stats q) |} |})
  | None => None
  end.

(** Modelled from the spec: [RenderCommandQueue::dequeueBatch(max_count)]
    (section 4.4: returns up to [max] commands; may return fewer, including
    zero, without blocking). *)
Fixpoint dequeueBatch (max_count : nat) (q : RenderCommandQueue)
  : list RenderCommand * RenderCommandQueue :=
  match max_count with
  | O => ([], q)
  | S n =>
      match dequeue q with
      | Some (c, q') =>
          let '(cs, q'') := dequeueBatch n q' in (c :: cs, q'')
      | None => ([], q)
      end
  end.

(** What one turn of [CommandProcessor::processingLoop] takes off the
    queue: [m_command_queue->dequeueBatch(1000)]. *)
Definition processingLoop_dequeue (q : RenderCommandQueue)
  : list RenderCommand * RenderCommandQueue :=
  dequeueBatch 1000 q.

(** Offer the commands of [cmds] one after the other. *)
Definition enqueue_all (cmds : list RenderCommand) (q : RenderCommandQueue)
  : RenderCommandQueue :=
  fold_left (fun q c => snd (enqueue c q)) cmds q.

End Commands.

(** ** KairosServer/src/Core/LayerManager.cpp *)

Module Layers.

Definition ticks_per_minute : Z := 60 * Session.ticks_per_second.

(** [std::chrono::duration_cast<std::chrono::minutes>(d).count()]:
    truncation toward zero. *)
Definition minutes (d : Z) : Z := Z.quot d ticks_per_minute.

Inductive BlendMode :=
  | ALPHA | ADDITIVE | MULTIPLIED | ADD_COLORS | SUBTRACT_COLORS
  | ALPHA_PREMULTIPLY | CUSTOM.

Definition BlendMode_eqb (a b : BlendMode) : bool :=
  match a, b with
  | ALPHA, ALPHA | ADDITIVE, ADDITIVE | MULTIPLIED, MULTIPLIED
  | ADD_COLORS, ADD_COLORS | SUBTRACT_COLORS, SUBTRACT_COLORS
  | ALPHA_PREMULTIPLY, ALPHA_PREMULTIPLY | CUSTOM, CUSTOM => true
  | _, _ => false
  end.

(** Modelled from the spec: [struct LayerManager::Layer].  The header that
    declares it (LayerManager.hpp) is not among the sources; the fields are
    the ones LayerManager.cpp reads and writes, which are the attributes
    section 3 of the spec lists for a layer.  [z_order] and [opacity] are
    [float] in the source and rationals here (no NaN); [render_texture] is
    kept as its [id]. *)
Record Layer := mkLayer {
  id : Z;                    (* uint8_t *)
  visible : bool;
  z_order : Q;
  blend_mode : BlendMode;
  opacity : Q;
  dirty : bool;
  created_time : Z;
  last_modified : Z;
  object_count : Z;          (* uint32_t *)
  vertex_count : Z;          (* uint32_t *)
  caching_enabled : bool;
  render_texture_id : Z
}.

(** The object state.  [m_layers] maps a layer id to the layer it owns; the
    container's type is declared in the missing header, and nothing below
    depends on the order in which it enumerates its elements.
    [m_layers_mutex] is a [std::mutex] (every [std::lock_guard<std::mutex>]
    in the file names it), not a recursive one: [true] while it is held. *)
Record LayerManager := mkLayerManager {
  m_layers : gmap Z Layer;
  m_max_layers : Z;          (* uint32_t *)
  m_needs_sort : bool;
  m_layers_mutex : bool
}.

Definition set_layers (ls : gmap Z Layer) (st : LayerManager) : LayerManager :=
  {| m_layers := ls; m_max_layers := m_max_layers st;
     m_needs_sort := m_needs_sort st; m_layers_mutex := m_layers_mutex st |}.

Definition set_needs_sort (b : bool) (st : LayerManager) : LayerManager :=
  {| m_layers := m_layers st; m_max_layers := m_max_layers st;
     m_needs_sort := b; m_layers_mutex := m_layers_mutex st |}.

Definition set_mutex (b : bool) (st : LayerManager) : LayerManager :=
  {| m_layers := m_layers st; m_max_layers := m_max_layers st;
     m_needs_sort := m_needs_sort st; m_layers_mutex := b |}.

(** *** Calls as state transformers that may block for ever

    All calls below are made from one thread.  [std::mutex] is not
    recursive: locking it from the thread that already owns it has no
    defined behaviour in the standard, and with the usual pthread mutex the
    call blocks for ever.  The model records that the call does not
    return. *)

Inductive Outcome (A : Type) :=
  | Returned (a : A) (st : LayerManager)
  | SelfDeadlock.

Arguments Returned {A} a st.
Arguments SelfDeadlock {A}.

Definition M (A : Type) : Type := LayerManager -> Outcome A.

Definition ret {A} (a : A) : M A := fun st => Returned a st.

Definition bind {A B} (m : M A) (k : A -> M B) : M B :=
  fun st =>
    match m st with
    | Returned a st' => k a st'
    | SelfDeadlock => SelfDeadlock
    end.

Notation "'let*' x ':=' m 'in' k" :=
  (bind m (fun x => k)) (at level 10, x name, m at level 100, k at level 200).

Definition get : M LayerManager := fun st => Returned st st.
Definition modify (f : LayerManager -> LayerManager) : M unit :=
  fun st => Returned tt (f st).

Definition lock : M unit :=
  fun st =>
    if m_layers_mutex st then SelfDeadlock
    else Returned tt (set_mutex true st).

Definition unlock : M unit := modify (set_mutex false).

(** A scope that opens with [std::lock_guard<std::mutex> lock(m_layers_mutex)]:
    the mutex is released however the scope is left. *)
Definition lock_guard {A} (body : M A) : M A :=
  let* _ := lock in
  let* result := body in
  let* _ := unlock in
  ret result.

(** Writing through a [Layer*] obtained earlier. *)
Definition write_layer (layer_id : Z) (f : Layer -> Layer) : M unit :=
  modify (fun st => set_layers (alter f layer_id (m_layers st)) st).

(** *** The member functions *)

Definition fresh_layer (layer_id now : Z) : Layer :=
  {| id := layer_id; visible := true;
     z_order := inject_Z layer_id;      (* Default z-order same as ID *)
     blend_mode := ALPHA; opacity := 1%Q; dirty := true;
     created_time := now; last_modified := 0;
     object_count := 0; vertex_count := 0;
     caching_enabled := false; render_texture_id := 0 |}.

Definition createLayer (layer_id now : Z) : M bool :=
  lock_guard (
    let* st := get in
    if layer_id >=? m_max_layers st then ret false
    else
      match m_layers st !! layer_id with
      | Some _ => ret true  (* Already exists, consider it success *)
      | None =>
          let* _ :=
            modify (set_layers (<[layer_id := fresh_layer layer_id now]> (m_layers st))) in
          ret true
      end).

Definition deleteLayer (layer_id : Z) : M bool :=
  if layer_id =? 0 then ret false
  else
    lock_guard (
      let* st := get in
      match m_layers st !! layer_id with
      | None => ret false
      | Some _ =>
          let* _ := modify (set_layers (delete layer_id (m_layers st))) in
          ret true
      end).

(** [getLayer]: the pointer is the layer's key, handed back with the object
    it points to; [None] is [nullptr]. *)
Definition getLayer (layer_id : Z) : M (option Layer) :=
  lock_guard (let* st := get in ret (m_layers st !! layer_id)).

Definition getOrCreateLayer (layer_id now : Z) : M (option Layer) :=
  let* found := lock_guard (let* st := get in ret (m_layers st !! layer_id)) in
  match found with
  | Some l => ret (Some l)
  | None =>
      (* Create layer if it doesn't exist *)
      let* created := createLayer layer_id now in
      if created
      then lock_guard (let* st := get in ret (m_layers st !! layer_id))
      else ret None
  end.

Definition setLayerVisibility (layer_id : Z) (visible_ : bool) : M bool :=
  let* layer := getLayer layer_id in
  match layer with
  | None => ret false
  | Some l =>
      let* _ :=
        if negb (eqb (visible l) visible_)
        then write_layer layer_id (fun l =>
               {| id := id l; visible := visible_; z_order := z_order l;
                  blend_mode := blend_mode l; opacity := opacity l;
                  dirty := true; created_time := created_time l;
                  last_modified := last_modified l;
                  object_count := object_count l;
                  vertex_count := vertex_count l;
                  caching_enabled := caching_enabled l;
                  render_texture_id := render_texture_id l |})
        else ret tt in
      ret true
  end.

(** [0.001f]: the [float] nearest to 1/1000, 8589935 / 2^33. *)
Definition epsilon : Q := 8589935 # 8589934592.

(** [std::clamp(v, 0.0f, 1.0f)] *)
Definition clamp01 (v : Q) : Q :=
  if Qlt_le_dec v 0 then 0%Q else if Qlt_le_dec 1 v then 1%Q else v.

Definition differs (u v : Q) : bool :=
  if Qlt_le_dec epsilon (Qabs (u - v)) then true else false.

Definition setLayerOpacity (layer_id : Z) (opacity_ : Q) : M bool :=
  let* layer := getLayer layer_id in
  match layer with
  | None => ret false
  | Some l =>
      let opacity_ := clamp01 opacity_ in
      let* _ :=
        if differs (opacity l) opacity_
        then write_layer layer_id (fun l =>
               {| id := id l; visible := visible l; z_order := z_order l;
                  blend_mode := blend_mode l; opacity := opacity_;
                  dirty := true; created_time := created_time l;
                  last_modified := last_modified l;
                  object_count := object_count l;
                  vertex_count := vertex_count l;
                  caching_enabled := caching_enabled l;
                  render_texture_id := render_texture_id l |})
        else ret tt in
      ret true
  end.

Definition setLayerBlendMode (layer_id : Z) (blend_mode_ : BlendMode) : M bool :=
  let* layer := getLayer layer_id in
  match layer with
  | None => ret false
  | Some l =>
      let* _ :=
        if negb (BlendMode_eqb (blend_mode l) blend_mode_)
        then write_layer layer_id (fun l =>
               {| id := id l; visible := visible l; z_order := z_order l;
                  blend_mode := blend_mode_; opacity := opacity l;
                  dirty := true; created_time := created_time l;
                  last_modified := last_modified l;
                  object_count := object_count l;
                  vertex_count := vertex_count l;
                  caching_enabled := caching_enabled l;
                  render_texture_id := render_texture_id l |})
        else ret tt in
      ret true
  end.

Definition setLayerZOrder (layer_id : Z) (z_order_ : Q) : M bool :=
  let* layer := getLayer layer_id in
  match layer with
  | None => ret false
  | Some l =>
      let* _ :=
        if differs (z_order l) z_order_
        then
          let* _ := write_layer layer_id (fun l =>
               {| id := id l; visible := visible l; z_order := z_order_;
                  blend_mode := blend_mode l; opacity := opacity l;
                  dirty := dirty l; created_time := created_time l;
                  last_modified := last_modified l;
                  object_count := object_count l;
                  vertex_count := vertex_count l;
                  caching_enabled := caching_enabled l;
                  render_texture_id := render_texture_id l |}) in
          modify (set_needs_sort true)
        else ret tt in
      ret true
  end.

(** What [clearLayer] and [clearAllLayers] do to one layer. *)
Definition cleared (now : Z) (l : Layer) : Layer :=
  {| id := id l; visible := visible l; z_order := z_order l;
     blend_mode := blend_mode l; opacity := opacity l;
     dirty := true; created_time := created_time l;
     last_modified := now;
     object_count := 0; vertex_count := 0;
     caching_enabled := caching_enabled l;
     render_texture_id := render_texture_id l |}.

Definition clearLayer (layer_id now : Z) : M bool :=
  let* layer := getLayer layer_id in
  match layer with
  | None => ret false
  | Some _ => let* _ := write_layer layer_id (cleared now) in ret true
  end.

(** One clock reading stands for the readings taken layer by layer. *)
Definition clearAllLayers (now : Z) : M unit :=
  lock_guard (modify (fun st => set_layers (cleared now <$> m_layers st) st)).

Definition markLayerDirty (layer_id now : Z) : M unit :=
  let* layer := getLayer layer_id in
  match layer with
  | None => ret tt
  | Some _ =>
      write_layer layer_id (fun l =>
        {| id := id l; visible := visible l; z_order := z_order l;
           blend_mode := blend_mode l; opacity := opacity l;
           dirty := true; created_time := created_time l;
           last_modified := now;
           object_count := object_count l; vertex_count := vertex_count l;
           caching_enabled := caching_enabled l;
           render_texture_id := render_texture_id l |})
  end.

Definition markLayerClean (layer_id : Z) : M unit :=
  let* layer := getLayer layer_id in
  match layer with
  | None => ret tt
  | Some _ =>
      write_layer layer_id (fun l =>
        {| id := id l; visible := visible l; z_order := z_order l;
           blend_mode := blend_mode l; opacity := opacity l;
           dirty := false; created_time := created_time l;
           last_modified := last_modified l;
           object_count := object_count l; vertex_count := vertex_count l;
           caching_enabled := caching_enabled l;
           render_texture_id := render_texture_id l |})
  end.

Definition with_cache (enabled : bool) (tex : Z) (mark_dirty : bool) (l : Layer)
  : Layer :=
  {| id := id l; visible := visible l; z_order := z_order l;
     blend_mode := blend_mode l; opacity := opacity l;
     dirty := if mark_dirty then true else dirty l;
     created_time := created_time l; last_modified := last_modified l;
     object_count := object_count l; vertex_count := vertex_count l;
     caching_enabled := enabled; render_texture_id := tex |}.

(** [enableLayerCaching(layer_id, width, height)]; [loaded] is the id of
    the texture [LoadRenderTexture(width, height)] hands back, 0 on
    failure. *)
Definition enableLayerCaching (layer_id : Z) (loaded : Z) : M bool :=
  let* layer := getLayer layer_id in
  match layer with
  | None => ret false
  | Some l =>
      if loaded =? 0
      then
        let* _ := write_layer layer_id (fun l => with_cache (caching_enabled l) 0 false l) in
        ret false
      else
        let* _ := write_layer layer_id (with_cache true loaded true) in
        ret true
  end.

Definition disableLayerCaching (layer_id : Z) : M bool :=
  let* layer := getLayer layer_id in
  match layer with
  | None => ret false
  | Some _ =>
      let* _ := write_layer layer_id (with_cache false 0 false) in
      ret true
  end.

Definition updateLayerStats (layer_id object_count_ vertex_count_ now : Z)
  : M unit :=
  let* layer := getLayer layer_id in
  match layer with
  | None => ret tt
  | Some _ =>
      write_layer layer_id (fun l =>
        {| id := id l; visible := visible l; z_order := z_order l;
           blend_mode := blend_mode l; opacity := opacity l;
           dirty := dirty l; created_time := created_time l;
           last_modified := now;
           object_count := object_count_; vertex_count := vertex_count_;
           caching_enabled := caching_enabled l;
           render_texture_id := render_texture_id l |})
  end.

(** [LayerManager::clear()].  The scope that holds the mutex calls
    [createLayer(0)], which opens with a lock on the same mutex. *)
Definition clear (now : Z) : M unit :=
  lock_guard (
    let* _ := modify (set_layers ∅) in
    (* Recreate default layer *)
    let* _ := createLayer 0 now in
    ret tt).

(** Layers [optimizeLayers] puts on its removal list. *)
Definition idle_and_empty (now : Z) (layer_id : Z) (l : Layer) : bool :=
  negb (layer_id =? 0)
  && (object_count l =? 0)
  && (minutes (now - last_modified l) >? 5).

(** Layers whose cache [optimizeLayers] drops. *)
Definition cache_is_stale (now : Z) (layer_id : Z) (l : Layer) : bool :=
  negb (layer_id =? 0)
  && caching_enabled l && (object_count l =? 0)
  && (minutes (now - last_modified l) >? 2).

Definition optimizeLayers (now : Z) : M unit :=
  lock_guard (
    modify (fun st =>
      let layers_to_remove :=
        filter (fun kv => idle_and_empty now kv.1 kv.2 = true) (m_layers st) in
      (* Disable caching for layers that are rarely used *)
      let uncached :=
        map_imap (fun k l =>
          Some (if cache_is_stale now k l then with_cache false 0 false l else l))
          (m_layers st) in
      (* Remove unused layers *)
      set_layers
        (filter (fun kv => layers_to_remove !! kv.1 = None) uncached) st)).

(** The visible layers, in the order the container enumerates them. *)
Definition visible_layers (st : LayerManager) : list Layer :=
  List.filter visible (snd <$> map_to_list (m_layers st)).

(** The comparator handed to [std::sort]. *)
Definition z_less (a b : Layer) : bool :=
  if Qlt_le_dec (z_order a) (z_order b) then true else false.

(** [std::sort(first, last, comp)], by its contract: the result is a
    rearrangement of the input in which no element compares less than one
    before it.  Which of the rearrangements that qualify is produced is
    left to the library; the order of elements that compare equivalent is
    not preserved. *)
Definition std_sort {A} (comp : A -> A -> bool) (input output : list A) : Prop :=
  Permutation input output /\
  forall i j a b,
    (i < j)%nat -> output !! i = Some a -> output !! j = Some b ->
    comp b a = false.

(** What [getLayersInRenderOrder] does to the object. *)
Definition sort_flag_after (st : LayerManager) : LayerManager :=
  if m_needs_sort st || (1 <? length (visible_layers st))%nat
  then set_needs_sort false st
  else st.

(** [getLayersInRenderOrder()]: [result] is a vector the call may return
    in state [st], leaving [st']. *)
Definition getLayersInRenderOrder (st : LayerManager) (result : list Layer)
    (st' : LayerManager) : Prop :=
  m_layers_mutex st = false /\
  st' = sort_flag_after st /\
  exists layers,
    (* the loop over m_layers, in the container's order *)
    Permutation layers (visible_layers st) /\
    (* Sort by z-order if needed *)
    if m_needs_sort st || (1 <? length layers)%nat
    then std_sort z_less layers result
    else result = layers.

(** *** Sequences of calls *)

Inductive Op :=
  | OpCreateLayer (layer_id now : Z)
  | OpDeleteLayer (layer_id : Z)
  | OpGetOrCreateLayer (layer_id now : Z)
  | OpSetLayerVisibility (layer_id : Z) (v : bool)
  | OpSetLayerOpacity (layer_id : Z) (o : Q)
  | OpSetLayerBlendMode (layer_id : Z) (m : BlendMode)
  | OpSetLayerZOrder (layer_id : Z) (z : Q)
  | OpClearLayer (layer_id now : Z)
  | OpClearAllLayers (now : Z)
  | OpMarkLayerDirty (layer_id now : Z)
  | OpMarkLayerClean (layer_id : Z)
  | OpEnableLayerCaching (layer_id loaded : Z)
  | OpDisableLayerCaching (layer_id : Z)
  | OpUpdateLayerStats (layer_id objects vertices now : Z)
  | OpGetLayersInRenderOrder
  | OpOptimizeLayers (now : Z)
  | OpClear (now : Z).

Definition is_clear (op : Op) : bool :=
  match op with OpClear _ => true | _ => false end.

Definition discard {A} (m : M A) : M unit := let* _ := m in ret tt.

Definition run_op (op : Op) : M unit :=
  match op with
  | OpCreateLayer i now => discard (createLayer i now)
  | OpDeleteLayer i => discard (deleteLayer i)
  | OpGetOrCreateLayer i now => discard (getOrCreateLayer i now)
  | OpSetLayerVisibility i v => discard (setLayerVisibility i v)
  | OpSetLayerOpacity i o => discard (setLayerOpacity i o)
  | OpSetLayerBlendMode i m => discard (setLayerBlendMode i m)
  | OpSetLayerZOrder i z => discard (setLayerZOrder i z)
  | OpClearLayer i now => discard (clearLayer i now)
  | OpClearAllLayers now => clearAllLayers now
  | OpMarkLayerDirty i now => markLayerDirty i now
  | OpMarkLayerClean i => markLayerClean i
  | OpEnableLayerCaching i loaded => discard (enableLayerCaching i loaded)
  | OpDisableLayerCaching i => discard (disableLayerCaching i)
  | OpUpdateLayerStats i o v now => updateLayerStats i o v now
  | OpGetLayersInRenderOrder => lock_guard (modify sort_flag_after)
  | OpOptimizeLayers now => optimizeLayers now
  | OpClear now => clear now
  end.

Fixpoint run (ops : list Op) : M unit :=
  match ops with
  | [] => ret tt
  | op :: ops' => let* _ := run_op op in run ops'
  end.

(** [LayerManager(max_layers)]: the members as initialised, then the
    constructor body.  [needs_sort] is the initial value of [m_needs_sort],
    set in the missing header. *)
Definition LayerManager_new (max_layers : Z) (needs_sort : bool) (now : Z)
  : Outcome unit :=
  discard (createLayer 0 now)
    {| m_layers := ∅; m_max_layers := max_layers;
       m_needs_sort := needs_sort; m_layers_mutex := false |}.

(** Construct, then make the calls of [ops]. *)
Definition lifetime (max_layers : Z) (needs_sort : bool) (now : Z)
    (ops : list Op) : Outcome unit :=
  match LayerManager_new max_layers needs_sort now with
  | Returned _ st => run ops st
  | SelfDeadlock => SelfDeadlock
  end.

Definition has_layer (layer_id : Z) (st : LayerManager) : Prop :=
  is_Some (m_layers st !! layer_id).

(** [getTotalObjectCount()], [getTotalVertexCount()] and
    [getDirtyLayerCount()]: one pass over [m_layers] under the mutex, with a
    [size_t] accumulator. *)
Definition getTotalObjectCount : M Z :=
  lock_guard (
    let* st := get in
    ret (map_fold (fun _ layer total => size_t (total + object_count layer)) 0
           (m_layers st))).

Definition getTotalVertexCount : M Z :=
  lock_guard (
    let* st := get in
    ret (map_fold (fun _ layer total => size_t (total + vertex_count layer)) 0
           (m_layers st))).

Definition getDirtyLayerCount : M Z :=
  lock_guard (
    let* st := get in
    ret (map_fold (fun _ layer count =>
                     if dirty layer then size_t (count + 1) else count) 0
           (m_layers st))).

End Layers.

(** ** KairosServer/src/Graphics/BatchRenderer.cpp,
       KairosServer/include/Graphics/BatchRenderer.hpp *)

Module Batching.

Import Types.

(** [struct BatchRenderer::RenderBatch] *)
Record RenderBatch := mkRenderBatch {
  texture_id : Z;            (* uint32_t *)
  layer_id : Z;              (* uint8_t *)
  blend_mode : Z;            (* int *)
  tint : Color;
  vertices : list TexturedVertex;
  indices : list Z;          (* uint16_t *)
  vertex_count : Z;          (* size_t *)
  index_count : Z            (* size_t *)
}.

(** [RenderBatch::clear()] *)
Definition RenderBatch_clear (b : RenderBatch) : RenderBatch :=
  {| texture_id := texture_id b; layer_id := layer_id b;
     blend_mode := blend_mode b; tint := tint b;
     vertices := []; indices := []; vertex_count := 0; index_count := 0 |}.

(** The batch key of the specification: (texture id, layer id, blend mode,
    tint rgba), as [findOrCreateBatch] stores it into a batch. *)
Definition key_of (b : RenderBatch) : Z * Z * Z * Z :=
  (texture_id b, layer_id b, blend_mode b, rgba (tint b)).

(** A merge as it happened: the target and the source before it, and the
    target after it.  The log is not program state; it records which
    batches the pass combined. *)
Record Merge := mkMerge {
  merge_target : RenderBatch;
  merge_source : RenderBatch;
  merge_result : RenderBatch
}.

(** The members of [BatchRenderer] that [optimizeBatches] reads and writes.
    Batches live where their [std::unique_ptr] put them: [objects] is that
    storage and a [RenderBatch*] is an index into it. *)
Record BatchRenderer := mkBatchRenderer {
  m_max_vertices_per_batch : Z;      (* size_t *)
  m_batch_merging_enabled : bool;
  objects : list RenderBatch;
  m_render_order : list nat;
  batches_merged : Z;                (* m_stats.batches_merged, uint64_t *)
  merges : list Merge                (* ghost *)
}.

Definition canMergeBatches (r : BatchRenderer) (batch1 batch2 : RenderBatch)
  : bool :=
  (texture_id batch1 =? texture_id batch2)
  && (layer_id batch1 =? layer_id batch2)
  && (blend_mode batch1 =? blend_mode batch2)
  && (rgba (tint batch1) =? rgba (tint batch2))
  && (size_t (vertex_count batch1 + vertex_count batch2)
      <=? m_max_vertices_per_batch r).

(** The target after the body of the [if] has appended the source to it. *)
Definition appended (target source : RenderBatch) : RenderBatch :=
  let vertex_offset := Z.of_nat (length (vertices target)) in
  {| texture_id := texture_id target; layer_id := layer_id target;
     blend_mode := blend_mode target; tint := tint target;
     vertices := vertices target ++ vertices source;
     (* Adjust indices from source batch *)
     indices :=
       indices target
       ++ List.map (fun index => uint16 (vertex_offset + index)) (indices source);
     vertex_count := size_t (vertex_count target + vertex_count source);
     index_count := size_t (index_count target + index_count source) |}.

(** The body of the [if]: merge batch [j] into batch [i], clear it and take
    it out of the render order.  [pi] and [pj] are the two pointers. *)
Definition merge_step (r : BatchRenderer) (j : nat) (pi pj : nat)
    (target source : RenderBatch) : BatchRenderer :=
  let objects1 := <[pi := appended target source]> (objects r) in
  (* Clear source batch *)
  let objects2 :=
    match objects1 !! pj with
    | Some s => <[pj := RenderBatch_clear s]> objects1
    | None => objects1
    end in
  {| m_max_vertices_per_batch := m_max_vertices_per_batch r;
     m_batch_merging_enabled := m_batch_merging_enabled r;
     objects := objects2;
     (* Remove from render order *)
     m_render_order := delete j (m_render_order r);
     batches_merged := uint64 (batches_merged r + 1);
     merges :=
       merges r ++ [ {| merge_target := target; merge_source := source;
                        merge_result := appended target source |} ] |}.

(** The inner [for] loop, from index [j] on, at most [fuel] turns.  A turn
    that merges leaves [j] where it is ([erase], [--j], [++j]).  [None]:
    the bound was hit, or a pointer in the render order points nowhere. *)
Fixpoint inner_loop (fuel : nat) (i j : nat) (r : BatchRenderer)
  : option BatchRenderer :=
  if (j <? length (m_render_order r))%nat then
    match fuel with
    | O => None
    | S fuel' =>
        match m_render_order r !! i, m_render_order r !! j with
        | Some pi, Some pj =>
            match objects r !! pi, objects r !! pj with
            | Some target, Some source =>
                if canMergeBatches r target source
                then inner_loop fuel' i j (merge_step r j pi pj target source)
                else inner_loop fuel' i (S j) r
            | _, _ => None
            end
        | _, _ => None
        end
    end
  else Some r.

(** The outer [for] loop, from index [i] on.  Its bound is
    [m_render_order.size() - 1], read anew on every turn. *)
Fixpoint outer_loop (fuel : nat) (i : nat) (r : BatchRenderer)
  : option BatchRenderer :=
  if Z.of_nat i <? size_t (Z.of_nat (length (m_render_order r)) - 1) then
    match fuel with
    | O => None
    | S fuel' =>
        match inner_loop (length (m_render_order r)) i (S i) r with
        | Some r' => outer_loop fuel' (S i) r'
        | None => None
        end
    end
  else Some r.

(** [BatchRenderer::optimizeBatches()] *)
Definition optimizeBatches (r : BatchRenderer) : option BatchRenderer :=
  if negb (m_batch_merging_enabled r)
     || (length (m_render_order r) <? 2)%nat
  then Some r
  else outer_loop (length (m_render_order r)) 0 r.

(** Sum of the vertex counts of the batches [ptrs] point to. *)
Definition total_vertices (objs : list RenderBatch) (ptrs : list nat) : Z :=
  foldr (fun p acc =>
           match objs !! p with
           | Some b => vertex_count b + acc
           | None => acc
           end) 0 ptrs.

(** The render order holds each batch once, every pointer in it points to a
    batch, and the counts are counts: none is negative and together they
    fit a [size_t], as does the length of the render order. *)
Definition well_formed (r : BatchRenderer) : Prop :=
  NoDup (m_render_order r) /\
  Forall (fun p => (p < length (objects r))%nat) (m_render_order r) /\
  Forall (fun b => 0 <= vertex_count b) (objects r) /\
  total_vertices (objects r) (m_render_order r) < 2 ^ 64 /\
  Z.of_nat (length (m_render_order r)) < 2 ^ 64.

(** What the batches [ptrs] point to hold, batch after batch: [f] picks
    the part of a batch that is gathered. *)
Definition gathered {A} (f : RenderBatch -> list A) (objs : list RenderBatch)
    (ptrs : list nat) : list A :=
  foldr (fun p acc =>
           match objs !! p with
           | Some b => f b ++ acc
           | None => acc
           end) [] ptrs.

(** The vertices of the batches in the render order. *)
Definition all_vertices (r : BatchRenderer) : list TexturedVertex :=
  gathered vertices (objects r) (m_render_order r).

(** What a batch draws: the vertex each of its indices names, in the order
    of the indices ([renderBatch] reads [batch.vertices[batch.indices[i]]]);
    [None] for an index that names no vertex. *)
Definition drawn (b : RenderBatch) : list (option TexturedVertex) :=
  (fun index => vertices b !! Z.to_nat index) <$> indices b.

Definition all_drawn (r : BatchRenderer) : list (option TexturedVertex) :=
  gathered drawn (objects r) (m_render_order r).

(** The counters of a batch count its vectors (the index counter as the
    [size_t] it is), and every index names a vertex of the batch. *)
Definition batch_consistent (batch : RenderBatch) : Prop :=
  vertex_count batch = Z.of_nat (length (vertices batch)) /\
  index_count batch = size_t (Z.of_nat (length (indices batch))) /\
  Forall (fun index => 0 <= index < Z.of_nat (length (vertices batch)))
         (indices batch).

(** Every batch of the render order is consistent. *)
Definition render_consistent (r : BatchRenderer) : Prop :=
  forall p b,
    p ∈ m_render_order r -> objects r !! p = Some b -> batch_consistent b.

(** A merge that combined two batches of one key into a batch of that key,
    within the capacity [max_vertices]: the result counts and holds the
    vertices of the target followed by those of the source, and the indices
    of the target followed by those of the source moved up by the number of
    vertices of the target (as 16-bit values). *)
Definition sound_merge (max_vertices : Z) (m : Merge) : Prop :=
  key_of (merge_target m) = key_of (merge_source m) /\
  key_of (merge_result m) = key_of (merge_target m) /\
  vertex_count (merge_result m)
  = vertex_count (merge_target m) + vertex_count (merge_source m) /\
  vertex_count (merge_result m) <= max_vertices /\
  vertices (merge_result m)
  = vertices (merge_target m) ++ vertices (merge_source m) /\
  indices (merge_result m)
  = indices (merge_target m)
    ++ List.map
         (fun index =>
            uint16 (Z.of_nat (length (vertices (merge_target m))) + index))
         (indices (merge_source m)).

(** [BatchRenderer::addQuadToBatch(batch, quad_vertices)].
    [ensureBatchCapacity] only reserves storage: it changes the capacity of
    the two vectors, not what they hold. *)
Definition addQuadToBatch (batch : RenderBatch)
    (quad_vertices : list TexturedVertex) : RenderBatch :=
  if negb (length quad_vertices =? 4)%nat then batch
  else
    (* Add vertices *)
    let vertex_offset := size_t (Z.of_nat (length (vertices batch))) in
    {| texture_id := texture_id batch; layer_id := layer_id batch;
       blend_mode := blend_mode batch; tint := tint batch;
       vertices := vertices batch ++ quad_vertices;
       (* Add indices for two triangles (quad) *)
       indices :=
         indices batch
         ++ [ uint16 (size_t (vertex_offset + 0));
              uint16 (size_t (vertex_offset + 1));
              uint16 (size_t (vertex_offset + 2));
              uint16 (size_t (vertex_offset + 0));
              uint16 (size_t (vertex_offset + 2));
              uint16 (size_t (vertex_offset + 3)) ];
       vertex_count := size_t (vertex_count batch + 4);
       index_count := size_t (index_count batch + 6) |}.

(** Successive calls of [addQuadToBatch] on one batch, one per quad of
    [quads]. *)
Definition addQuads (batch : RenderBatch) (quads : list (list TexturedVertex))
  : RenderBatch :=
  foldl addQuadToBatch batch quads.

(** The members of [BatchRenderer] that [setDefaultBlendMode],
    [pushBlendMode] and [popBlendMode] read and write. *)
Record BlendModes := mkBlendModes {
  m_blend_mode_stack : list Z;       (* std::vector<int> *)
  m_current_blend_mode : Z           (* int *)
}.

(** As the constructor leaves them. *)
Definition BlendModes_new : BlendModes :=
  {| m_blend_mode_stack := [0] (* Default BLEND_ALPHA *);
     m_current_blend_mode := 0 |}.

(** [setDefaultBlendMode(blend_mode)].  [m_blend_mode_stack[0]] on an empty
    vector has no defined behaviour: [None]. *)
Definition setDefaultBlendMode (blend_mode_ : Z) (s : BlendModes)
  : option BlendModes :=
  match m_blend_mode_stack s with
  | [] => None
  | _ :: _ =>
      let stack := <[0%nat := blend_mode_]> (m_blend_mode_stack s) in
      Some {| m_blend_mode_stack := stack;
              m_current_blend_mode :=
                if (length stack =? 1)%nat then blend_mode_
                else m_current_blend_mode s |}
  end.

(** [pushBlendMode(blend_mode)] *)
Definition pushBlendMode (blend_mode_ : Z) (s : BlendModes) : BlendModes :=
  {| m_blend_mode_stack := m_blend_mode_stack s ++ [blend_mode_];
     m_current_blend_mode := blend_mode_ |}.

(** [popBlendMode()].  [back()] is called on what is left of a vector that
    held more than one element. *)
Definition popBlendMode (s : BlendModes) : option BlendModes :=
  if (1 <? length (m_blend_mode_stack s))%nat then
    let stack := removelast (m_blend_mode_stack s) in
    match last stack with
    | Some top =>
        Some {| m_blend_mode_stack := stack; m_current_blend_mode := top |}
    | None => None
    end
  else Some s.

Inductive BlendCall :=
  | SetDefaultBlendMode (blend_mode_ : Z)
  | PushBlendMode (blend_mode_ : Z)
  | PopBlendMode.

Definition blend_call (call : BlendCall) (s : BlendModes) : option BlendModes :=
  match call with
  | SetDefaultBlendMode m => setDefaultBlendMode m s
  | PushBlendMode m => Some (pushBlendMode m s)
  | PopBlendMode => popBlendMode s
  end.

Fixpoint blend_calls (calls : list BlendCall) (s : BlendModes)
  : option BlendModes :=
  match calls with
  | [] => Some s
  | call :: calls' =>
      match blend_call call s with
      | Some s' => blend_calls calls' s'
      | None => None
      end
  end.

(** [BatchVertexUtils::multiplyVertexColors(vertices, tint)]: the body of
    the loop, then the loop.  The products are [int]s. *)
Definition multiplyVertexColor (tint_ : Color) (vertex : TexturedVertex)
  : TexturedVertex :=
  let vertex_color := Color_of_rgba (vcolor vertex) in
  let vertex_color :=
    {| r := uint8 (Z.quot (r vertex_color * r tint_) 255);
       g := g vertex_color; b := b vertex_color; a := a vertex_color;
       rgba := rgba vertex_color |} in
  let vertex_color :=
    {| r := r vertex_color;
       g := uint8 (Z.quot (g vertex_color * g tint_) 255);
       b := b vertex_color; a := a vertex_color;
       rgba := rgba vertex_color |} in
  let vertex_color :=
    {| r := r vertex_color; g := g vertex_color;
       b := uint8 (Z.quot (b vertex_color * b tint_) 255);
       a := a vertex_color; rgba := rgba vertex_color |} in
  let vertex_color :=
    {| r := r vertex_color; g := g vertex_color; b := b vertex_color;
       a := uint8 (Z.quot (a vertex_color * a tint_) 255);
       rgba := rgba vertex_color |} in
  {| vx := vx vertex; vy := vy vertex; vu := vu vertex; vv := vv vertex;
     vcolor := rgba vertex_color |}.

Definition multiplyVertexColors (vertices_ : list TexturedVertex)
    (tint_ : Color) : list TexturedVertex :=
  multiplyVertexColor tint_ <$> vertices_.

(** *** Where the batches live

    The members of [BatchRenderer] that own the batches, besides the ones
    [optimizeBatches] works on.  A [std::unique_ptr<RenderBatch>] is the
    index of the batch it owns in [objects]; a pointer that was moved from
    is null, [None].  [m_batch_mutex] is only taken by the flush functions
    and by [getBatchReport], none of which calls another of them. *)

(** [struct BatchKey]: texture id, layer id, blend mode, tint. *)
Definition BatchKey : Type := Z * Z * Z * Z.

(** The counters of [struct Stats] that the functions below write. *)
Record Stats := mkStats {
  stat_total_vertices : Z;           (* uint64_t *)
  stat_total_indices : Z;            (* uint64_t *)
  stat_draw_calls_issued : Z;        (* uint64_t *)
  stat_batches_created : Z;          (* uint64_t *)
  stat_batches_flushed : Z;          (* uint64_t *)
  stat_vertices_flushed : Z;         (* uint64_t *)
  stat_active_batches : Z            (* uint32_t *)
}.

Record BatchOwner := mkBatchOwner {
  renderer : BatchRenderer;
  blend : BlendModes;
  m_auto_flush_threshold : Z;                (* size_t *)
  m_batches : gmap BatchKey nat;
  m_batch_pool : list (option nat);
  m_next_batch_pool_index : nat;             (* size_t *)
  m_stats : Stats;
  rendered : list RenderBatch                (* ghost: calls of renderBatch *)
}.

Definition with_renderer (f : BatchRenderer -> BatchRenderer) (st : BatchOwner)
  : BatchOwner :=
  {| renderer := f (renderer st); blend := blend st;
     m_auto_flush_threshold := m_auto_flush_threshold st;
     m_batches := m_batches st; m_batch_pool := m_batch_pool st;
     m_next_batch_pool_index := m_next_batch_pool_index st;
     m_stats := m_stats st; rendered := rendered st |}.

Definition with_blend (b : BlendModes) (st : BatchOwner) : BatchOwner :=
  {| renderer := renderer st; blend := b;
     m_auto_flush_threshold := m_auto_flush_threshold st;
     m_batches := m_batches st; m_batch_pool := m_batch_pool st;
     m_next_batch_pool_index := m_next_batch_pool_index st;
     m_stats := m_stats st; rendered := rendered st |}.

Definition with_batches (m : gmap BatchKey nat) (st : BatchOwner) : BatchOwner :=
  {| renderer := renderer st; blend := blend st;
     m_auto_flush_threshold := m_auto_flush_threshold st;
     m_batches := m; m_batch_pool := m_batch_pool st;
     m_next_batch_pool_index := m_next_batch_pool_index st;
     m_stats := m_stats st; rendered := rendered st |}.

Definition with_pool (pool : list (option nat)) (next : nat) (st : BatchOwner)
  : BatchOwner :=
  {| renderer := renderer st; blend := blend st;
     m_auto_flush_threshold := m_auto_flush_threshold st;
     m_batches := m_batches st; m_batch_pool := pool;
     m_next_batch_pool_index := next;
     m_stats := m_stats st; rendered := rendered st |}.

Definition with_stats (f : Stats -> Stats) (st : BatchOwner) : BatchOwner :=
  {| renderer := renderer st; blend := blend st;
     m_auto_flush_threshold := m_auto_flush_threshold st;
     m_batches := m_batches st; m_batch_pool := m_batch_pool st;
     m_next_batch_pool_index := m_next_batch_pool_index st;
     m_stats := f (m_stats st); rendered := rendered st |}.

Definition with_rendered (log : list RenderBatch) (st : BatchOwner) : BatchOwner :=
  {| renderer := renderer st; blend := blend st;
     m_auto_flush_threshold := m_auto_flush_threshold st;
     m_batches := m_batches st; m_batch_pool := m_batch_pool st;
     m_next_batch_pool_index := m_next_batch_pool_index st;
     m_stats := m_stats st; rendered := log |}.

Definition set_objects (objs : list RenderBatch) (r : BatchRenderer)
  : BatchRenderer :=
  {| m_max_vertices_per_batch := m_max_vertices_per_batch r;
     m_batch_merging_enabled := m_batch_merging_enabled r;
     objects := objs; m_render_order := m_render_order r;
     batches_merged := batches_merged r; merges := merges r |}.

Definition set_render_order (order : list nat) (r : BatchRenderer)
  : BatchRenderer :=
  {| m_max_vertices_per_batch := m_max_vertices_per_batch r;
     m_batch_merging_enabled := m_batch_merging_enabled r;
     objects := objects r; m_render_order := order;
     batches_merged := batches_merged r; merges := merges r |}.

Definition set_batches_merged (n : Z) (r : BatchRenderer) : BatchRenderer :=
  {| m_max_vertices_per_batch := m_max_vertices_per_batch r;
     m_batch_merging_enabled := m_batch_merging_enabled r;
     objects := objects r; m_render_order := m_render_order r;
     batches_merged := n; merges := merges r |}.

(** Writing through a [RenderBatch*]. *)
Definition write_batch (p : nat) (b : RenderBatch) (st : BatchOwner)
  : BatchOwner :=
  with_renderer (fun r => set_objects (<[p := b]> (objects r)) r) st.

(** A [RenderBatch] as its default member initialisers make it. *)
Definition RenderBatch_default : RenderBatch :=
  {| texture_id := 0; layer_id := 0; blend_mode := 0; tint := WHITE;
     vertices := []; indices := []; vertex_count := 0; index_count := 0 |}.

(** [BatchRenderer(max_vertices_per_batch)] *)
Definition BatchOwner_new (max_vertices_per_batch : Z) : BatchOwner :=
  {| renderer :=
       {| m_max_vertices_per_batch := max_vertices_per_batch;
          m_batch_merging_enabled := true;
          objects := []; m_render_order := [];
          batches_merged := 0; merges := [] |};
     blend := BlendModes_new;
     m_auto_flush_threshold := max_vertices_per_batch / 2;
     m_batches := ∅; m_batch_pool := []; m_next_batch_pool_index := 0;
     m_stats := mkStats 0 0 0 0 0 0 0;
     rendered := [] |}.

(** One turn of the loop of [initialize()]: a new batch goes to the pool. *)
Definition pool_one_more (st : BatchOwner) : BatchOwner :=
  let p := length (objects (renderer st)) in
  with_pool (m_batch_pool st ++ [Some p]) (m_next_batch_pool_index st)
    (with_renderer
       (fun r => set_objects (objects r ++ [RenderBatch_default]) r) st).

(** [initialize()]: create the initial batch pool. *)
Definition initialize (st : BatchOwner) : BatchOwner :=
  Nat.iter 16 pool_one_more st.

(** The batch after "Configure batch" in [findOrCreateBatch]. *)
Definition configure (key : BatchKey) (batch : RenderBatch) : RenderBatch :=
  let '(key_texture_id, key_layer_id, key_blend_mode, key_tint_rgba) := key in
  RenderBatch_clear
    {| texture_id := key_texture_id; layer_id := key_layer_id;
       blend_mode := key_blend_mode; tint := Color_of_rgba key_tint_rgba;
       vertices := vertices batch; indices := indices batch;
       vertex_count := vertex_count batch;
       index_count := index_count batch |}.

(** [findOrCreateBatch(key)].  [None]: the pool slot holds a null pointer, or
    a pointer to no batch, which the configuration would write through. *)
Definition findOrCreateBatch (key : BatchKey) (st : BatchOwner)
  : option (nat * BatchOwner) :=
  match m_batches st !! key with
  | Some p => Some (p, st)
  | None =>
      (* Try to get batch from pool *)
      let taken :=
        if (m_next_batch_pool_index st <? length (m_batch_pool st))%nat then
          match m_batch_pool st !! m_next_batch_pool_index st with
          | Some (Some p) =>
              Some (p,
                    with_pool
                      (<[m_next_batch_pool_index st := None]> (m_batch_pool st))
                      (S (m_next_batch_pool_index st)) st)
          | _ => None
          end
        else
          (* Create new batch *)
          Some (length (objects (renderer st)),
                with_renderer
                  (fun r => set_objects (objects r ++ [RenderBatch_default]) r)
                  st) in
      match taken with
      | None => None
      | Some (p, st1) =>
          match objects (renderer st1) !! p with
          | None => None
          | Some batch =>
              let st2 := write_batch p (configure key batch) st1 in
              let st3 := with_batches (<[key := p]> (m_batches st2)) st2 in
              let st4 :=
                with_renderer
                  (fun r => set_render_order (m_render_order r ++ [p]) r) st3 in
              Some (p,
                    with_stats
                      (fun s =>
                         {| stat_total_vertices := stat_total_vertices s;
                            stat_total_indices := stat_total_indices s;
                            stat_draw_calls_issued := stat_draw_calls_issued s;
                            stat_batches_created :=
                              uint64 (stat_batches_created s + 1);
                            stat_batches_flushed := stat_batches_flushed s;
                            stat_vertices_flushed := stat_vertices_flushed s;
                            stat_active_batches :=
                              uint32 (stat_active_batches s + 1) |}) st4)
          end
      end
  end.

(** [flushBatch(batch)], the batch given by its pointer.  [renderBatch]
    hands the batch to the graphics library; the log records the call. *)
Definition flushBatch (p : nat) (st : BatchOwner) : option BatchOwner :=
  match objects (renderer st) !! p with
  | None => None
  | Some batch =>
      if vertex_count batch =? 0 then Some st
      else
        let st1 := with_rendered (rendered st ++ [batch]) st in
        let st2 :=
          with_stats
            (fun s =>
               {| stat_total_vertices := stat_total_vertices s;
                  stat_total_indices := stat_total_indices s;
                  stat_draw_calls_issued := uint64 (stat_draw_calls_issued s + 1);
                  stat_batches_created := stat_batches_created s;
                  stat_batches_flushed := uint64 (stat_batches_flushed s + 1);
                  stat_vertices_flushed :=
                    uint64 (stat_vertices_flushed s + vertex_count batch);
                  stat_active_batches := stat_active_batches s |}) st1 in
        Some (write_batch p (RenderBatch_clear batch) st2)
  end.

(** The loop of [drawQuads] over the vertices from index [i] on, four at a
    time; [fuel] bounds the number of turns. *)
Fixpoint drawQuads_loop (fuel : nat) (p : nat)
    (vertices_ : list TexturedVertex) (st : BatchOwner) : option BatchOwner :=
  match fuel, vertices_ with
  | S fuel', _ :: _ =>
      match objects (renderer st) !! p with
      | None => None
      | Some batch =>
          let batch' := addQuadToBatch batch (take 4 vertices_) in
          let st1 := write_batch p batch' st in
          (* Auto-flush if batch is getting full *)
          let flushed :=
            if vertex_count batch' >=? m_auto_flush_threshold st1
            then flushBatch p st1 else Some st1 in
          match flushed with
          | Some st2 => drawQuads_loop fuel' p (drop 4 vertices_) st2
          | None => None
          end
      end
  | _, _ => Some st
  end.

Definition add_total_vertices (n : Z) (s : Stats) : Stats :=
  {| stat_total_vertices := uint64 (stat_total_vertices s + n);
     stat_total_indices := stat_total_indices s;
     stat_draw_calls_issued := stat_draw_calls_issued s;
     stat_batches_created := stat_batches_created s;
     stat_batches_flushed := stat_batches_flushed s;
     stat_vertices_flushed := stat_vertices_flushed s;
     stat_active_batches := stat_active_batches s |}.

Definition add_total_indices (n : Z) (s : Stats) : Stats :=
  {| stat_total_vertices := stat_total_vertices s;
     stat_total_indices := uint64 (stat_total_indices s + n);
     stat_draw_calls_issued := stat_draw_calls_issued s;
     stat_batches_created := stat_batches_created s;
     stat_batches_flushed := stat_batches_flushed s;
     stat_vertices_flushed := stat_vertices_flushed s;
     stat_active_batches := stat_active_batches s |}.

(** [drawQuads(vertices, texture_id, tint, layer_id)] *)
Definition drawQuads (vertices_ : list TexturedVertex) (texture_id_ : Z)
    (tint_ : Color) (layer_id_ : Z) (st : BatchOwner) : option BatchOwner :=
  if (length vertices_ =? 0)%nat || negb (length vertices_ mod 4 =? 0)%nat
  then Some st
  else
    (* Create batch key *)
    let key : BatchKey :=
      (texture_id_, layer_id_, m_current_blend_mode (blend st), rgba tint_) in
    (* Find or create batch *)
    match findOrCreateBatch key st with
    | None => None
    | Some (p, st1) =>
        (* Add vertices to batch *)
        match drawQuads_loop (length vertices_) p vertices_ st1 with
        | None => None
        | Some st2 =>
            Some (with_stats
                    (add_total_vertices (Z.of_nat (length vertices_))) st2)
        end
    end.

(** [drawVertices(vertices, indices, texture_id, tint, layer_id)].  The
    call of [multiplyVertexColors] is made on a vector built from the new
    vertices, a copy; the batch is not touched by it. *)
Definition drawVertices (vertices_ : list TexturedVertex) (indices_ : list Z)
    (texture_id_ : Z) (tint_ : Color) (layer_id_ : Z) (st : BatchOwner)
  : option BatchOwner :=
  if (length vertices_ =? 0)%nat || (length indices_ =? 0)%nat then Some st
  else
    let key : BatchKey :=
      (texture_id_, layer_id_, m_current_blend_mode (blend st), rgba tint_) in
    match findOrCreateBatch key st with
    | None => None
    | Some (p, st1) =>
        match objects (renderer st1) !! p with
        | None => None
        | Some batch =>
            (* Add vertices and indices to batch *)
            let vertex_offset := size_t (Z.of_nat (length (vertices batch))) in
            let batch' :=
              {| texture_id := texture_id batch; layer_id := layer_id batch;
                 blend_mode := blend_mode batch; tint := tint batch;
                 vertices := vertices batch ++ vertices_;
                 (* Adjust indices for vertex offset *)
                 indices :=
                   indices batch
                   ++ List.map (fun index =>
                                  uint16 (size_t (vertex_offset + index)))
                        indices_;
                 vertex_count :=
                   size_t (vertex_count batch + Z.of_nat (length vertices_));
                 index_count :=
                   size_t (index_count batch + Z.of_nat (length indices_)) |} in
            let st2 := write_batch p batch' st1 in
            let st3 :=
              with_stats
                (fun s =>
                   add_total_indices (Z.of_nat (length indices_))
                     (add_total_vertices (Z.of_nat (length vertices_)) s))
                st2 in
            (* Auto-flush if batch is getting full *)
            if vertex_count batch'
               >=? m_max_vertices_per_batch (renderer st3)
            then flushBatch p st3 else Some st3
        end
    end.

(** [batch->clear()] for every batch [m_batches] owns. *)
Definition clear_owned (m : gmap BatchKey nat) (objs : list RenderBatch)
  : list RenderBatch :=
  map_fold (fun _ p objs =>
              match objs !! p with
              | Some batch => <[p := RenderBatch_clear batch]> objs
              | None => objs
              end) objs m.

(** [beginFrame()] *)
Definition beginFrame (st : BatchOwner) : BatchOwner :=
  (* Clear render order but keep batches for reuse *)
  let st1 := with_renderer (set_render_order []) st in
  let st2 :=
    with_renderer
      (fun r => set_objects (clear_owned (m_batches st1) (objects r)) r) st1 in
  (* Reset statistics for this frame *)
  with_renderer (set_batches_merged 0)
    (with_stats
       (fun s =>
          {| stat_total_vertices := stat_total_vertices s;
             stat_total_indices := stat_total_indices s;
             stat_draw_calls_issued := stat_draw_calls_issued s;
             stat_batches_created := 0;
             stat_batches_flushed := stat_batches_flushed s;
             stat_vertices_flushed := stat_vertices_flushed s;
             stat_active_batches := 0 |}) st2).

(** The first loop of [flushAll()]. *)
Fixpoint flush_each (ptrs : list nat) (st : BatchOwner) : option BatchOwner :=
  match ptrs with
  | [] => Some st
  | p :: ptrs' =>
      match flushBatch p st with
      | Some st' => flush_each ptrs' st'
      | None => None
      end
  end.

(** [flushAll()].  [releaseBatch] clears a batch when a pool slot has been
    used before; [m_batches.clear()] then destroys the batches, whose
    places in [objects] nothing refers to any more. *)
Definition flushAll (st : BatchOwner) : option BatchOwner :=
  match flush_each (m_render_order (renderer st)) st with
  | None => None
  | Some st1 =>
      (* Clear render order for next frame *)
      let st2 := with_renderer (set_render_order []) st1 in
      (* Return batches to pool *)
      let st3 :=
        if (0 <? m_next_batch_pool_index st2)%nat
        then with_renderer
               (fun r => set_objects (clear_owned (m_batches st2) (objects r)) r)
               st2
        else st2 in
      Some (with_batches ∅ st3)
  end.

(** Calls of the renderer's interface. *)
Inductive RendererCall :=
  | Initialize
  | DrawQuads (vertices_ : list TexturedVertex) (texture_id_ : Z)
              (tint_ : Color) (layer_id_ : Z)
  | DrawVertices (vertices_ : list TexturedVertex) (indices_ : list Z)
                 (texture_id_ : Z) (tint_ : Color) (layer_id_ : Z)
  | BlendModeCall (call : BlendCall)
  | BeginFrame
  | OptimizeBatches
  | FlushAll.

Definition renderer_call (call : RendererCall) (st : BatchOwner)
  : option BatchOwner :=
  match call with
  | Initialize => Some (initialize st)
  | DrawQuads vs texture_id_ tint_ layer_id_ =>
      drawQuads vs texture_id_ tint_ layer_id_ st
  | DrawVertices vs ixs texture_id_ tint_ layer_id_ =>
      drawVertices vs ixs texture_id_ tint_ layer_id_ st
  | BlendModeCall call =>
      match blend_call call (blend st) with
      | Some b => Some (with_blend b st)
      | None => None
      end
  | BeginFrame => Some (beginFrame st)
  | OptimizeBatches =>
      match optimizeBatches (renderer st) with
      | Some r => Some (with_renderer (fun _ => r) st)
      | None => None
      end
  | FlushAll => flushAll st
  end.

Fixpoint renderer_calls (calls : list RendererCall) (st : BatchOwner)
  : option BatchOwner :=
  match calls with
  | [] => Some st
  | call :: calls' =>
      match renderer_call call st with
      | Some st' => renderer_calls calls' st'
      | None => None
      end
  end.

End Batching.

(* ===================================================================== *)
(** * Part II: theorems                                                   *)
(* ===================================================================== *)

(** ** Bytes and byte order *)

Section ByteFacts.

Lemma Z_of_byte_range (b : byte) : 0 <= Z_of_byte b < 256.
Proof.
  unfold Z_of_byte. pose proof (Byte.to_N_bounded b). lia.
Qed.

Lemma Z_of_byte_of_Z (z : Z) : Z_of_byte (byte_of_Z z) = z mod 256.
Proof.
  unfold Z_of_byte, byte_of_Z.
  pose proof (Z.mod_pos_bound z 256 ltac:(lia)) as Hz.
  destruct (Byte.of_N (Z.to_N (z mod 256))) as [b|] eqn:E.
  - simpl. rewrite (Byte.to_of_N _ E). lia.
  - apply Byte.of_N_None_iff in E. lia.
Qed.

Lemma byte_of_Z_of_byte (b : byte) : byte_of_Z (Z_of_byte b) = b.
Proof.
  unfold byte_of_Z. pose proof (Z_of_byte_range b) as Hb.
  rewrite Z.mod_small by lia. unfold Z_of_byte.
  rewrite N2Z.id, Byte.of_to_N. reflexivity.
Qed.

Lemma length_encode_le (n : nat) (x : Z) : length (encode_le n x) = n.
Proof. revert x. induction n as [|n IH]; intros x; simpl; [|rewrite IH]; reflexivity. Qed.

Lemma length_encode_be (n : nat) (x : Z) : length (encode_be n x) = n.
Proof. unfold encode_be. rewrite length_rev. apply length_encode_le. Qed.

Lemma decode_le_range (bs : list byte) :
  0 <= decode_le bs < 256 ^ Z.of_nat (length bs).
Proof.
  induction bs as [|b bs IH]; simpl decode_le; simpl length.
  - simpl. lia.
  - pose proof (Z_of_byte_range b) as Hb.
    rewrite Nat2Z.inj_succ, Z.pow_succ_r by lia. lia.
Qed.

Lemma decode_encode_le (n : nat) (x : Z) :
  decode_le (encode_le n x) = x mod 256 ^ Z.of_nat n.
Proof.
  revert x. induction n as [|n IH]; intros x.
  - simpl. symmetry. apply Z.mod_1_r.
  - cbn [encode_le decode_le]. rewrite IH, Z_of_byte_of_Z.
    rewrite Nat2Z.inj_succ, Z.pow_succ_r by lia.
    rewrite Z.rem_mul_r by lia. reflexivity.
Qed.

Lemma encode_decode_le (bs : list byte) :
  encode_le (length bs) (decode_le bs) = bs.
Proof.
  induction bs as [|b bs IH]; [reflexivity|].
  cbn [length encode_le decode_le].
  pose proof (Z_of_byte_range b) as Hb.
  replace (Z_of_byte b + 256 * decode_le bs)
    with (Z_of_byte b + decode_le bs * 256) by lia.
  assert (Hmod : (Z_of_byte b + decode_le bs * 256) mod 256 = Z_of_byte b).
  { rewrite Z.mod_add by lia. apply Z.mod_small; lia. }
  assert (Hdiv : (Z_of_byte b + decode_le bs * 256) / 256 = decode_le bs).
  { rewrite Z.div_add by lia. rewrite Z.div_small by lia. lia. }
  rewrite Hdiv, IH. f_equal.
  unfold byte_of_Z at 1. rewrite Hmod.
  rewrite <- (Z.mod_small (Z_of_byte b) 256) by lia.
  apply byte_of_Z_of_byte.
Qed.

Lemma decode_encode_be (n : nat) (x : Z) :
  decode_be (encode_be n x) = x mod 256 ^ Z.of_nat n.
Proof.
  unfold decode_be, encode_be. rewrite rev_involutive. apply decode_encode_le.
Qed.

Lemma encode_decode_be (bs : list byte) :
  encode_be (length bs) (decode_be bs) = bs.
Proof.
  unfold decode_be, encode_be.
  rewrite <- (length_rev bs), encode_decode_le. apply rev_involutive.
Qed.

Lemma slice_app_skip (a rest : list byte) (off n : nat) :
  (length a <= off)%nat -> slice off n (a ++ rest) = slice (off - length a) n rest.
Proof. intros H. unfold slice. rewrite drop_app_ge by exact H. reflexivity. Qed.

Lemma slice_app_hit (a rest : list byte) (n : nat) :
  n = length a -> slice 0 n (a ++ rest) = a.
Proof. intros H. unfold slice. rewrite drop_0. apply take_app_length'. exact H. Qed.

End ByteFacts.

Section HostFacts.

Import Protocol.

Variable host : ByteOrder.

Lemma length_store (n : nat) (x : Z) : length (store host n x) = n.
Proof.
  unfold store. destruct host; [apply length_encode_le | apply length_encode_be].
Qed.

Lemma store_load (bs : list byte) : store host (length bs) (load host bs) = bs.
Proof.
  unfold store, load.
  destruct host; [apply encode_decode_le | apply encode_decode_be].
Qed.

Lemma load_store (n : nat) (x : Z) :
  load host (store host n x) = x mod 256 ^ Z.of_nat n.
Proof.
  unfold store, load.
  destruct host; [apply decode_encode_le | apply decode_encode_be].
Qed.

Lemma store_1 (x : Z) : store host 1 x = [byte_of_Z x].
Proof. unfold store. destruct host; reflexivity. Qed.

Lemma load_1 (b : byte) : load host [b] = Z_of_byte b.
Proof. unfold load, decode_be. destruct host; simpl; lia. Qed.

(** What goes out is big-endian whatever the host is. *)
Lemma store_hton (n : nat) (x : Z) :
  store host n (load host (encode_be n x)) = encode_be n x.
Proof.
  rewrite <- (length_encode_be n x) at 1. apply store_load.
Qed.

Lemma ntoh_hton (n : nat) (x : Z) :
  0 <= x < 256 ^ Z.of_nat n ->
  decode_be (store host n (load host (encode_be n x))) = x.
Proof.
  intros Hx. rewrite store_hton, decode_encode_be. apply Z.mod_small. exact Hx.
Qed.

Lemma ntohl_htonl (x : Z) : in_range 32 x -> ntohl host (htonl host x) = x.
Proof. intros H. apply (ntoh_hton 4). exact H. Qed.

Lemma ntohs_htons (x : Z) : in_range 16 x -> ntohs host (htons host x) = x.
Proof. intros H. apply (ntoh_hton 2). exact H. Qed.

Lemma be64toh_htobe64 (x : Z) : in_range 64 x -> be64toh host (htobe64 host x) = x.
Proof. intros H. apply (ntoh_hton 8). exact H. Qed.

(** The wire image of a header: every multi-byte field big-endian. *)
Lemma header_bytes_hostToNetwork (h : MessageHeader) :
  header_bytes host (hostToNetwork host h) =
    encode_be 4 (magic h) ++ encode_be 4 (protocol_version h) ++
    [byte_of_Z (type h)] ++ [byte_of_Z (layer_id h)] ++
    encode_be 2 (reserved h) ++ encode_be 4 (client_id h) ++
    encode_be 4 (sequence h) ++ encode_be 4 (data_size h) ++
    encode_be 8 (timestamp h).
Proof.
  unfold header_bytes, hostToNetwork, htonl, htons, htobe64.
  cbn [magic protocol_version type layer_id reserved client_id sequence
       data_size timestamp].
  rewrite !store_hton, !store_1. reflexivity.
Qed.

Lemma length_header_bytes (h : MessageHeader) :
  length (header_bytes host h) = sizeof_MessageHeader.
Proof.
  unfold header_bytes. rewrite !length_app, !length_store. reflexivity.
Qed.

(** Reading a header back from its wire image. *)
Lemma header_roundtrip (h : MessageHeader) (rest : list byte) :
  header_typed h ->
  networkToHost host
    (header_of_bytes host (header_bytes host (hostToNetwork host h) ++ rest)) = h.
Proof.
  intros (Hm & Hv & Ht & Hl & Hr & Hc & Hs & Hd & Hts).
  rewrite header_bytes_hostToNetwork.
  unfold header_of_bytes, networkToHost, ntohl, ntohs, be64toh.
  cbn [magic protocol_version type layer_id reserved client_id sequence
       data_size timestamp].
  rewrite <- !app_assoc.
  repeat match goal with
  | |- context [slice ?off ?n (?a ++ ?r)] =>
      first
        [ rewrite (slice_app_hit a r n)
            by (rewrite ?length_encode_be; reflexivity)
        | rewrite (slice_app_skip a r off n)
            by (rewrite ?length_encode_be; simpl; lia);
          rewrite ?length_encode_be; cbn [length Nat.sub] ]
  end.
  rewrite !load_1, !Z_of_byte_of_Z.
  rewrite !ntoh_hton by assumption.
  unfold in_range in Ht, Hl.
  rewrite !Z.mod_small by lia.
  destruct h; reflexivity.
Qed.

End HostFacts.

(** ** Header validation *)

Section ValidateHeader.

Import Protocol.

(** The third test of [validateHeader] compares a byte with 0xFF and can
    never fire. *)
Lemma type_test_never_fires (t : Z) : (uint8 t >? uint8 DISCONNECT) = false.
Proof.
  unfold uint8, wrap, DISCONNECT.
  pose proof (Z.mod_pos_bound t (2 ^ 8) ltac:(lia)) as Ht.
  change (255 mod 2 ^ 8) with 255. change (2 ^ 8) with 256 in *.
  destruct (t mod 256 >? 255) eqn:E; [|reflexivity]. lia.
Qed.

Lemma validateHeader_spec (h : MessageHeader) :
  validateHeader h = true <->
  magic h = KARO /\ protocol_version h = PROTOCOL_VERSION /\
  data_size h <= 10 * 1024 * 1024.
Proof.
  unfold validateHeader. rewrite type_test_never_fires.
  destruct (magic h =? KARO) eqn:Em; simpl;
    [apply Z.eqb_eq in Em | apply Z.eqb_neq in Em; intuition congruence].
  destruct (protocol_version h =? PROTOCOL_VERSION) eqn:Ev; simpl;
    [apply Z.eqb_eq in Ev | apply Z.eqb_neq in Ev; intuition congruence].
  destruct (data_size h >? 10 * 1024 * 1024) eqn:Ed; split; intros H;
    try discriminate; try tauto; try lia.
Qed.

(** The header the code is run on for claim C2: right magic, right version,
    empty payload, and the byte 0x03 where the message type goes. *)
Definition header_with_tag_0x03 : MessageHeader :=
  {| magic := KARO; protocol_version := PROTOCOL_VERSION;
     type := 0x03; layer_id := 0; reserved := 0; client_id := 1;
     sequence := 1; data_size := 0; timestamp := 0 |}.

(** C2 (the code at the failing input).  0x03 and 0x60 are none of the
    enumerators of [MessageType], the header above is well typed and has
    the right magic, version and size, and [validateHeader] returns true
    for it; more generally the value returned never depends on the
    message-type byte. *)
Theorem validateHeader_accepts_unknown_tag :
  known_tag 0x03 = false /\ known_tag 0x60 = false /\
  header_typed header_with_tag_0x03 /\
  validateHeader header_with_tag_0x03 = true /\
  forall h t,
    validateHeader
      {| magic := magic h; protocol_version := protocol_version h;
         type := t; layer_id := layer_id h; reserved := reserved h;
         client_id := client_id h; sequence := sequence h;
         data_size := data_size h; timestamp := timestamp h |}
    = validateHeader h.
Proof.
  split; [reflexivity|]. split; [reflexivity|].
  split.
  { unfold header_typed, in_range, header_with_tag_0x03, KARO,
      PROTOCOL_VERSION; simpl. lia. }
  split; [reflexivity|].
  intros h t. unfold validateHeader. simpl.
  rewrite !type_test_never_fires. reflexivity.
Qed.

End ValidateHeader.

(** ** Framing round trip *)

Section RoundTrip.

Import Protocol Session.

Variable host : ByteOrder.

Lemma createMessage_bytes (h : MessageHeader) (payload : list byte) :
  0 <= data_size h ->
  Z.of_nat (length payload) = data_size h ->
  createMessage host h (Some payload)
  = header_bytes host (hostToNetwork host h) ++ payload.
Proof.
  intros Hd Hlen. unfold createMessage, memcpy.
  set (hb := header_bytes host (hostToNetwork host h)).
  assert (Hhb : length hb = sizeof_MessageHeader) by apply length_header_bytes.
  assert (Hn : Z.to_nat (data_size h) = length payload) by lia.
  rewrite Hn.
  assert (Hfirst :
    take 0 (replicate (sizeof_MessageHeader + length payload) x00)
    ++ take sizeof_MessageHeader hb
    ++ drop (0 + sizeof_MessageHeader)
         (replicate (sizeof_MessageHeader + length payload) x00)
    = hb ++ replicate (length payload) x00).
  { rewrite take_0, take_ge by lia. simpl app at 1.
    rewrite drop_replicate. do 2 f_equal. lia. }
  rewrite Hfirst.
  destruct (data_size h >? 0) eqn:E.
  - rewrite take_app_length' by (symmetry; exact Hhb).
    rewrite (take_ge payload) by lia.
    rewrite drop_ge.
    + rewrite app_nil_r. reflexivity.
    + rewrite length_app, length_replicate. lia.
  - assert (length payload = 0)%nat as Hz by lia.
    destruct payload; [|discriminate]. reflexivity.
Qed.

Lemma length_createMessage (h : MessageHeader) (payload : list byte) :
  0 <= data_size h ->
  Z.of_nat (length payload) = data_size h ->
  length (createMessage host h (Some payload))
  = (sizeof_MessageHeader + length payload)%nat.
Proof.
  intros Hd Hlen. rewrite createMessage_bytes by assumption.
  rewrite length_app, length_header_bytes. reflexivity.
Qed.

Lemma parse_one_whole_message (h : MessageHeader) (payload : list byte)
    (c : Client) :
  header_typed h ->
  validateHeader h = true ->
  Z.of_nat (length payload) = data_size h ->
  data_size h <= max_message_size (m_config c) ->
  drop (m_receive_buffer_pos c) (m_receive_buffer c)
    = createMessage host h (Some payload) ->
  pending c = Z.of_nat (sizeof_MessageHeader + length payload) /\
  parse_one host c
  = Parsed (set_receive (m_receive_buffer c) (length (m_receive_buffer c))
              (m_parsed_messages c ++ [(h, payload)]) c).
Proof.
  intros Hty Hval Hlen Hcap Hdrop.
  assert (Hd0 : 0 <= data_size h) by lia.
  pose proof (proj1 (validateHeader_spec h) Hval) as (_ & _ & Hd1).
  rewrite createMessage_bytes in Hdrop by assumption.
  set (buf := m_receive_buffer c) in *.
  set (pos := m_receive_buffer_pos c) in *.
  set (hb := header_bytes host (hostToNetwork host h)) in *.
  assert (Hhb : length hb = sizeof_MessageHeader) by apply length_header_bytes.
  assert (Hl : (length buf - pos = sizeof_MessageHeader + length payload)%nat).
  { rewrite <- length_drop, Hdrop, length_app, Hhb. reflexivity. }
  assert (Hsz : sizeof_MessageHeader = 32%nat) by reflexivity.
  assert (Hpend : pending c = Z.of_nat (sizeof_MessageHeader + length payload)).
  { unfold pending, size_t, wrap. fold buf pos.
    rewrite Z.mod_small; lia. }
  split; [exact Hpend|].
  unfold parse_one. fold buf pos.
  assert (Hslice : slice pos sizeof_MessageHeader buf = hb ++ []).
  { unfold slice. rewrite Hdrop, app_nil_r.
    apply take_app_length'. symmetry. exact Hhb. }
  rewrite Hslice. unfold hb. rewrite header_roundtrip by exact Hty.
  assert (Hv : validateMessageHeader c h = true).
  { unfold validateMessageHeader, validateMessageSize.
    apply andb_true_intro. split.
    - exact Hval.
    - apply Z.leb_le. exact Hcap. }
  rewrite Hv. cbn [negb].
  assert (Hms : size_t (Z.of_nat sizeof_MessageHeader + data_size h)
                = Z.of_nat (sizeof_MessageHeader + length payload)).
  { unfold size_t, wrap. rewrite Z.mod_small; lia. }
  rewrite Hms, Hpend, Z.ltb_irrefl.
  assert (Hdata :
    (if data_size h >? 0
     then slice (pos + sizeof_MessageHeader) (Z.to_nat (data_size h)) buf
     else []) = payload).
  { destruct (data_size h >? 0) eqn:E.
    - unfold slice. rewrite <- drop_drop, Hdrop.
      rewrite drop_app_length' by (symmetry; exact Hhb).
      apply take_ge. lia.
    - destruct payload; [reflexivity|]. simpl in Hlen. lia. }
  rewrite Hdata. do 2 f_equal. lia.
Qed.

Lemma data_size_parsed_nonneg (bs : list byte) :
  0 <= data_size (networkToHost host (header_of_bytes host bs)).
Proof.
  unfold networkToHost, ntohl, decode_be. cbn [data_size].
  apply decode_le_range.
Qed.

Lemma magic_of_no_bytes :
  magic (networkToHost host (header_of_bytes host [])) = 0.
Proof. destruct host; reflexivity. Qed.

(** The loop of [parseMessages] ends within the turns it is given. *)
Lemma parse_loop_total (fuel : nat) (c : Client) :
  (length (m_receive_buffer c) - m_receive_buffer_pos c < fuel)%nat ->
  parse_loop host fuel c <> None.
Proof.
  revert c. induction fuel as [|fuel IH]; intros c Hfuel; [lia|].
  cbn [parse_loop].
  destruct (pending c >=? Z.of_nat sizeof_MessageHeader) eqn:Ep;
    [|discriminate].
  unfold parse_one.
  set (header := networkToHost host _).
  destruct (validateMessageHeader c header) eqn:Ev; cbn [negb];
    [|discriminate].
  set (message_size := size_t _).
  destruct (pending c <? message_size) eqn:El; [discriminate|].
  apply IH. cbn [set_receive m_receive_buffer m_receive_buffer_pos].
  apply andb_prop in Ev as [Hval _].
  apply validateHeader_spec in Hval as (Hmagic & _ & Hd).
  destruct (le_lt_dec (length (m_receive_buffer c)) (m_receive_buffer_pos c))
    as [Hge|Hlt].
  - (* nothing left to read: the header is all zeroes and was refused *)
    exfalso. subst header. unfold slice in Hmagic.
    rewrite drop_ge in Hmagic by exact Hge. rewrite take_nil in Hmagic.
    rewrite magic_of_no_bytes in Hmagic. discriminate.
  - pose proof (data_size_parsed_nonneg
                  (slice (m_receive_buffer_pos c) sizeof_MessageHeader
                     (m_receive_buffer c))) as Hd0.
    fold header in Hd0.
    assert (Hms : message_size = 32 + data_size header).
    { subst message_size. unfold size_t, wrap.
      rewrite Z.mod_small; [reflexivity|].
      change (Z.of_nat sizeof_MessageHeader) with 32. lia. }
    assert (Hp : pending c
                 <= Z.of_nat (length (m_receive_buffer c))
                    - Z.of_nat (m_receive_buffer_pos c)).
    { unfold pending, size_t, wrap. apply Z.mod_le; lia. }
    lia.
Qed.

Lemma parseMessages_total (c : Client) : parseMessages host c <> None.
Proof.
  unfold parseMessages.
  pose proof (parse_loop_total (S (length (m_receive_buffer c))) c
                ltac:(lia)) as H.
  destruct (parse_loop host (S (length (m_receive_buffer c))) c)
    as [[[] c']|]; [| |congruence].
  - destruct (_ <? _)%nat; discriminate.
  - discriminate.
Qed.

(** C1.  A well-formed message (typed header, right magic, negotiated
    version, known tag, at most 10 MiB of payload, payload of exactly
    [data_size] bytes) that [createMessage] has encoded and that is what a
    session has left to read is handed back by [parseMessages] as the
    header and the payload it was made of: the call returns true, the pair
    is appended to the parsed queue, the buffer is consumed, and nothing
    else in the session changes.  The session's own size cap is the
    protocol's 10 MiB or more, as in every session the server creates. *)
Theorem createMessage_parseMessages_roundtrip
    (h : MessageHeader) (payload : list byte) (c : Client) :
  header_typed h ->
  magic h = KARO ->
  protocol_version h = PROTOCOL_VERSION ->
  known_tag (type h) = true ->
  data_size h <= MAX_MESSAGE_SIZE ->
  Z.of_nat (length payload) = data_size h ->
  MAX_MESSAGE_SIZE <= max_message_size (m_config c) ->
  drop (m_receive_buffer_pos c) (m_receive_buffer c)
    = createMessage host h (Some payload) ->
  validateHeader h = true /\
  parseMessages host c
  = Some (true,
          set_receive [] 0 (m_parsed_messages c ++ [(h, payload)]) c).
Proof.
  intros Hty Hmagic Hver Htag Hsize Hlen Hcap Hdrop.
  assert (Hval : validateHeader h = true).
  { apply validateHeader_spec. unfold MAX_MESSAGE_SIZE in Hsize. tauto. }
  split; [exact Hval|].
  destruct (parse_one_whole_message h payload c Hty Hval Hlen
              ltac:(lia) Hdrop) as [Hpend Hone].
  unfold parseMessages. cbn [parse_loop].
  rewrite Hpend.
  assert (H32 : (Z.of_nat (sizeof_MessageHeader + length payload)
                 >=? Z.of_nat sizeof_MessageHeader) = true).
  { apply Z.geb_le. lia. }
  rewrite H32, Hone.
  set (c1 := set_receive _ _ _ c).
  assert (Hp1 : pending c1 = 0).
  { unfold pending, c1. cbn [set_receive m_receive_buffer m_receive_buffer_pos].
    rewrite Z.sub_diag. reflexivity. }
  assert (Hdone : parse_loop host (length (m_receive_buffer c)) c1
                  = Some (true, c1)).
  { destruct (length (m_receive_buffer c)); cbn [parse_loop];
      rewrite Hp1; reflexivity. }
  rewrite Hdone.
  assert (Hpos : (0 < length (m_receive_buffer c))%nat).
  { assert (length (drop (m_receive_buffer_pos c) (m_receive_buffer c))
            = (sizeof_MessageHeader + length payload)%nat) as Hl.
    { rewrite Hdrop. apply length_createMessage; lia. }
    rewrite length_drop in Hl. unfold sizeof_MessageHeader in Hl. lia. }
  unfold c1 at 1 2.
  cbn [set_receive m_receive_buffer m_receive_buffer_pos].
  assert (Hhalf : (length (m_receive_buffer c) / 2
                   <? length (m_receive_buffer c))%nat = true).
  { apply Nat.ltb_lt. apply Nat.div_lt; lia. }
  rewrite Hhalf. unfold compactReceiveBuffer, c1.
  cbn [set_receive m_receive_buffer m_receive_buffer_pos m_parsed_messages].
  assert (Hz : (0 <? length (m_receive_buffer c))%nat = true)
    by (apply Nat.ltb_lt; exact Hpos).
  rewrite Hz, drop_all. reflexivity.
Qed.

End RoundTrip.

Section RoundTripExample.

Import Protocol Session.

(** A keep-alive message with an eight-byte payload, and a connected
    session on a little-endian host that has exactly this message to
    read. *)
Definition ping_header : MessageHeader :=
  {| magic := KARO; protocol_version := PROTOCOL_VERSION; type := PING;
     layer_id := 0; reserved := 0; client_id := 7; sequence := 42;
     data_size := 8; timestamp := 1234567890123 |}.

Definition ping_payload : list byte :=
  [x01; x02; x03; x04; x05; x06; x07; x08].

Definition fresh_session (buffer : list byte) : Client :=
  {| m_socket := 5; m_config := default_Config;
     m_info := {| info_client_id := 7; messages_sent := 0;
                  messages_received := 0; bytes_sent := 0;
                  bytes_received := 0; errors := 0 |};
     m_state := CONNECTED; m_receive_buffer := buffer;
     m_receive_buffer_pos := 0; m_parsed_messages := [];
     m_message_times := []; m_consecutive_errors := 0;
     m_disconnect_reason := EmptyString; m_events := [] |}.

Lemma createMessage_parseMessages_roundtrip_witness :
  validateHeader ping_header = true /\
  parseMessages LittleEndian
    (fresh_session (createMessage LittleEndian ping_header (Some ping_payload)))
  = Some (true,
          set_receive [] 0 [(ping_header, ping_payload)]
            (fresh_session
               (createMessage LittleEndian ping_header (Some ping_payload)))).
Proof.
  apply (createMessage_parseMessages_roundtrip LittleEndian ping_header
           ping_payload
           (fresh_session
              (createMessage LittleEndian ping_header (Some ping_payload)))).
  - unfold header_typed, in_range; repeat split; vm_compute; congruence.
  - reflexivity.
  - reflexivity.
  - reflexivity.
  - vm_compute; discriminate.
  - reflexivity.
  - vm_compute; discriminate.
  - reflexivity.
Defined.

End RoundTripExample.

(** ** Session: disconnect and the rate limiter *)

Section SessionFacts.

Import Session.

Lemma State_eqb_eq (a b : State) : State_eqb a b = true <-> a = b.
Proof. destruct a, b; simpl; split; intros H; congruence. Qed.

Lemma m_state_setState (s : State) (c : Client) : m_state (setState s c) = s.
Proof. unfold setState. destruct (negb _); reflexivity. Qed.

Lemma disconnect_reaches_DISCONNECTED (reason : string) (c : Client) :
  m_state (disconnect reason c) = DISCONNECTED.
Proof.
  unfold disconnect.
  destruct (State_eqb (m_state c) DISCONNECTED) eqn:E.
  - apply State_eqb_eq. exact E.
  - apply m_state_setState.
Qed.

(** C10.  In the DISCONNECTED state [disconnect] returns at once and leaves
    the whole object as it was (state, socket handle, stored reason, and
    no line logged, no descriptor closed); [disconnect] always ends in that
    state, so a second call after a first changes nothing, whatever the
    two reasons are. *)
Theorem disconnect_idempotent (reason reason' : string) (c : Client) :
  (m_state c = DISCONNECTED -> disconnect reason c = c) /\
  m_state (disconnect reason c) = DISCONNECTED /\
  disconnect reason' (disconnect reason c) = disconnect reason c.
Proof.
  assert (Hstop : forall r d, m_state d = DISCONNECTED -> disconnect r d = d).
  { intros r d Hd. unfold disconnect. rewrite Hd. reflexivity. }
  split; [apply Hstop|].
  split; [apply disconnect_reaches_DISCONNECTED|].
  apply Hstop. apply disconnect_reaches_DISCONNECTED.
Qed.

(** *** The sliding window *)

Lemma drop_expired_fresh (now t0 : Z) (w : list Z) :
  now <= t0 + ticks_per_second ->
  Forall (fun t => t0 <= t) w ->
  drop_expired now w = w.
Proof.
  intros Hnow Hw. destruct w as [|front w]; [reflexivity|].
  apply Forall_cons in Hw as [Hfront _]. cbn [drop_expired].
  destruct (now - front >? ticks_per_second) eqn:E; [lia|reflexivity].
Qed.

Lemma drop_expired_stale (now : Z) (w : list Z) :
  Forall (fun t => now - t > ticks_per_second) w ->
  drop_expired now w = [].
Proof.
  induction 1 as [|t w Ht _ IH]; [reflexivity|].
  cbn [drop_expired].
  destruct (now - t >? ticks_per_second) eqn:E; [exact IH|lia].
Qed.

(** The part of a session [checkRateLimit] never touches. *)
Definition same_but_limiter (c c' : Client) : Prop :=
  m_socket c' = m_socket c /\ m_config c' = m_config c /\
  m_state c' = m_state c /\ m_receive_buffer c' = m_receive_buffer c /\
  m_receive_buffer_pos c' = m_receive_buffer_pos c /\
  m_parsed_messages c' = m_parsed_messages c /\
  m_consecutive_errors c' = m_consecutive_errors c /\
  m_disconnect_reason c' = m_disconnect_reason c /\
  m_events c' = m_events c.

Lemma same_but_limiter_refl (c : Client) : same_but_limiter c c.
Proof. unfold same_but_limiter. tauto. Qed.

Lemma same_but_limiter_trans (c1 c2 c3 : Client) :
  same_but_limiter c1 c2 -> same_but_limiter c2 c3 -> same_but_limiter c1 c3.
Proof. unfold same_but_limiter. intuition congruence. Qed.

Lemma checkRateLimit_frame (now : Z) (c : Client) :
  same_but_limiter c (snd (checkRateLimit now c)).
Proof.
  unfold checkRateLimit. destruct (_ >=? _); unfold same_but_limiter; simpl; tauto.
Qed.

(** One call that is turned down. *)
Lemma checkRateLimit_rejection (now : Z) (c c' : Client) :
  checkRateLimit now c = (false, c') ->
  errors (m_info c') = uint32 (errors (m_info c) + 1) /\
  m_state c' = m_state c /\
  m_message_times c' = drop_expired now (m_message_times c).
Proof.
  unfold checkRateLimit. destruct (_ >=? _); intros H; inversion H; subst.
  simpl. tauto.
Qed.

(** With [k] readings of the current second already in the window, the
    next [1000 - k] calls are let through and the rest turned down. *)
Lemma checkRateLimit_calls_in_window (t0 : Z) (times : list Z) (c : Client) :
  Forall (fun t => t0 <= t) (m_message_times c) ->
  Forall (fun now => t0 <= now <= t0 + ticks_per_second) times ->
  let room := (1000 - length (m_message_times c))%nat in
  let admitted := Nat.min (length times) room in
  let rejected := (length times - admitted)%nat in
  let '(results, c') := checkRateLimit_calls times c in
  results = replicate admitted true ++ replicate rejected false /\
  errors (m_info c')
  = Nat.iter rejected (fun e => uint32 (e + 1)) (errors (m_info c)) /\
  m_message_times c' = m_message_times c ++ take admitted times /\
  same_but_limiter c c'.
Proof.
  revert c. induction times as [|now later IH]; intros c Hw Htimes.
  - cbn. rewrite app_nil_r. auto using same_but_limiter_refl.
  - apply Forall_cons in Htimes as [Hnow Hlater].
    cbn [checkRateLimit_calls].
    pose proof (checkRateLimit_frame now c) as Hframe.
    unfold checkRateLimit in *.
    rewrite (drop_expired_fresh now t0) in * by (lia || assumption).
    cbn [set_message_times m_message_times] in *.
    unfold MAX_MESSAGES_PER_SECOND in *.
    destruct (Z.of_nat (length (m_message_times c)) >=? 1000) eqn:Efull.
    + (* full: turned down, and so is every later call *)
      cbn [snd] in Hframe.
      set (c1 := set_info _ _) in *.
      specialize (IH c1 Hw Hlater).
      destruct (checkRateLimit_calls later c1) as [rest c2].
      cbn [m_message_times set_info set_message_times c1] in IH.
      assert (Hroom : (1000 - length (m_message_times c) = 0)%nat) by lia.
      rewrite Hroom in *. rewrite Nat.min_0_r in *.
      destruct IH as (Hres & Herr & Hwin & Hsame).
      cbn [length]. rewrite Nat.sub_0_r in *.
      split; [|split; [|split]].
      * cbn. rewrite Hres. reflexivity.
      * rewrite Herr, Nat.iter_succ_r. reflexivity.
      * rewrite Hwin. reflexivity.
      * eapply same_but_limiter_trans; [exact Hframe|exact Hsame].
    + cbn [snd] in Hframe.
      set (c1 := set_message_times _ _) in *.
      assert (Hw1 : Forall (fun t => t0 <= t) (m_message_times c1)).
      { unfold c1. cbn [m_message_times set_message_times].
        apply Forall_app. split; [exact Hw|]. constructor; [lia|constructor]. }
      specialize (IH c1 Hw1 Hlater).
      destruct (checkRateLimit_calls later c1) as [rest c2].
      unfold c1 in IH.
      cbn [m_message_times set_message_times m_info] in IH.
      rewrite length_app in IH. cbn [length] in IH.
      destruct IH as (Hres & Herr & Hwin & Hsame).
      assert (Hlt : (length (m_message_times c) < 1000)%nat) by lia.
      assert (Hmin : Nat.min (S (length later))
                       (1000 - length (m_message_times c))
                     = S (Nat.min (length later)
                            (1000 - (length (m_message_times c) + 1)))) by lia.
      cbn [length]. rewrite Hmin.
      replace (S (length later)
               - S (Nat.min (length later)
                      (1000 - (length (m_message_times c) + 1))))%nat
        with (length later
              - Nat.min (length later)
                  (1000 - (length (m_message_times c) + 1)))%nat by lia.
      split; [|split; [|split]].
      * cbn. rewrite Hres. reflexivity.
      * rewrite Herr. reflexivity.
      * rewrite Hwin. cbn [take]. rewrite <- app_assoc. reflexivity.
      * eapply same_but_limiter_trans; [exact Hframe|exact Hsame].
Qed.

Lemma checkRateLimit_stale_window (now : Z) (c : Client) :
  drop_expired now (m_message_times c) = [] ->
  checkRateLimit now c = checkRateLimit now (set_message_times [] c).
Proof.
  intros H. unfold checkRateLimit.
  cbn [m_message_times set_message_times drop_expired]. rewrite H. reflexivity.
Qed.

(** What claim C9 says of [times], the clock readings of N calls, made on
    session [c]: the first min(N, 1000) calls return true and the others
    false; the error counter has been incremented once for every call
    turned down; the session state, like everything else outside the
    limiter, is as before. *)
Definition rate_limited_as_claimed (times : list Z) (c : Client) : Prop :=
  let admitted :=
    Nat.min (length times) (Z.to_nat MAX_MESSAGES_PER_SECOND) in
  let rejected := (length times - admitted)%nat in
  let '(results, c') := checkRateLimit_calls times c in
  results = replicate admitted true ++ replicate rejected false /\
  length (List.filter id results) = admitted /\
  errors (m_info c')
  = Nat.iter rejected (fun e => uint32 (e + 1)) (errors (m_info c)) /\
  m_state c' = m_state c /\
  same_but_limiter c c'.

(** C9, as amended.  N calls of [checkRateLimit] whose clock readings all
    lie within one second of each other (between [t0] and [t0] plus a
    second), on a session whose window holds nothing from the second
    before [t0]:
    exactly min(N, 1000) of them return true, namely the first ones; each
    call that returns false has incremented the session's error counter by
    one and left the session state alone.  The ceiling is the constant
    [MAX_MESSAGES_PER_SECOND]. *)
Theorem checkRateLimit_one_second (t0 : Z) (times : list Z) (c : Client) :
  Forall (fun now => t0 <= now <= t0 + ticks_per_second) times ->
  Forall (fun t => t0 - t > ticks_per_second) (m_message_times c) ->
  rate_limited_as_claimed times c /\
  forall now d d',
    checkRateLimit now d = (false, d') ->
    errors (m_info d') = uint32 (errors (m_info d) + 1) /\
    m_state d' = m_state d.
Proof.
  intros Htimes Hstale. split.
  2:{ intros now d d' H. apply checkRateLimit_rejection in H. tauto. }
  unfold rate_limited_as_claimed.
  change (Z.to_nat MAX_MESSAGES_PER_SECOND) with 1000%nat.
  assert (Hcount : forall n m,
            length (List.filter id (replicate n true ++ replicate m false)) = n).
  { intros n m. rewrite List.filter_app, length_app.
    assert (forall k, length (List.filter id (replicate k true)) = k) as Ht.
    { induction k; simpl; congruence. }
    assert (forall k, length (List.filter id (replicate k false)) = 0%nat) as Hf.
    { induction k; simpl; congruence. }
    rewrite Ht, Hf. lia. }
  destruct times as [|now later].
  - cbn. pose proof (same_but_limiter_refl c). tauto.
  - assert (Hdrop : drop_expired now (m_message_times c) = []).
    { apply drop_expired_stale. apply Forall_cons in Htimes as [Hnow _].
      eapply Forall_impl; [exact Hstale|]. cbn. intros t Ht. lia. }
    assert (Hsame : checkRateLimit_calls (now :: later) c
                    = checkRateLimit_calls (now :: later)
                        (set_message_times [] c)).
    { cbn [checkRateLimit_calls].
      rewrite (checkRateLimit_stale_window now c Hdrop). reflexivity. }
    rewrite Hsame.
    pose proof (checkRateLimit_calls_in_window t0 (now :: later)
                  (set_message_times [] c)) as H.
    cbn [m_message_times set_message_times length] in H.
    specialize (H ltac:(constructor) Htimes).
    rewrite Nat.sub_0_r in H.
    destruct (checkRateLimit_calls (now :: later) (set_message_times [] c))
      as [results c'].
    destruct H as (Hres & Herr & _ & Hframe).
    cbn [length]. split; [exact Hres|]. split; [rewrite Hres; apply Hcount|].
    split; [exact Herr|].
    unfold same_but_limiter in *. cbn in Hframe. tauto.
Qed.

End SessionFacts.

Section RateLimitExample.

Import Session.

(** 1002 calls, one clock tick apart, on a session that has made none
    before: two more than the ceiling. *)
Definition burst : list Z := Z.of_nat <$> seq 0 1002.

Lemma checkRateLimit_one_second_witness :
  rate_limited_as_claimed burst (fresh_session []) /\
  forall now d d',
    checkRateLimit now d = (false, d') ->
    errors (m_info d') = uint32 (errors (m_info d) + 1) /\
    m_state d' = m_state d.
Proof.
  apply (checkRateLimit_one_second 0 burst (fresh_session [])).
  - apply (bool_decide_unpack _). vm_compute. exact I.
  - constructor.
Defined.

(** A session that has just let 1000 calls through, all at tick 0. *)
Definition full_second : Client :=
  (checkRateLimit_calls (replicate 1000 0) (fresh_session [])).2.

(** C9 as stated fails on a session whose window is not empty: ten calls
    at ticks 1 to 10, well within one second of each other, made right
    after the 1000 calls of tick 0, are all refused, where the claim has
    min(10, 1000) = 10 of them return true.  The window slides: what was
    let through during the second before still counts. *)
Lemma checkRateLimit_counts_the_second_before :
  Forall (fun now => 1 <= now <= 1 + ticks_per_second) (Z.of_nat <$> seq 1 10) /\
  (checkRateLimit_calls (Z.of_nat <$> seq 1 10) full_second).1
  = replicate 10 false /\
  ~ rate_limited_as_claimed (Z.of_nat <$> seq 1 10) full_second.
Proof.
  assert (Hrefused :
            (checkRateLimit_calls (Z.of_nat <$> seq 1 10) full_second).1
            = replicate 10 false) by (vm_compute; reflexivity).
  split; [apply (bool_decide_unpack _); vm_compute; exact I|].
  split; [exact Hrefused|].
  unfold rate_limited_as_claimed. cbv zeta.
  destruct (checkRateLimit_calls (Z.of_nat <$> seq 1 10) full_second)
    as [results c'].
  cbn [fst] in Hrefused. subst results.
  intros [Hresults _]. vm_compute in Hresults. discriminate Hresults.
Qed.

End RateLimitExample.

(** ** Priority assignment *)

Section AssignPriority.

Import Protocol Commands.

(** C4.  [assignPriority] is a function of the message type and the layer
    id alone, defined for every pair: layer 0 gives HIGH; on any other
    layer CLEAR_LAYER and CLEAR_ALL_LAYERS give HIGH, DRAW_TEXT and
    DRAW_TEXTURED_QUADS give NORMAL, and every other message type gives
    NORMAL. *)
Theorem assignPriority_cases (message_type layer : Z) :
  (layer = 0 -> assignPriority message_type layer = Priority.HIGH) /\
  (layer <> 0 ->
     (message_type = CLEAR_LAYER \/ message_type = CLEAR_ALL_LAYERS ->
      assignPriority message_type layer = Priority.HIGH) /\
     (message_type = DRAW_TEXT \/ message_type = DRAW_TEXTURED_QUADS ->
      assignPriority message_type layer = Priority.NORMAL) /\
     (message_type <> CLEAR_LAYER -> message_type <> CLEAR_ALL_LAYERS ->
      assignPriority message_type layer = Priority.NORMAL)).
Proof.
  unfold assignPriority. split.
  - intros ->. reflexivity.
  - intros Hl. apply Z.eqb_neq in Hl. rewrite Hl.
    split; [|split].
    + intros [-> | ->]; reflexivity.
    + intros [-> | ->]; reflexivity.
    + intros H1 H2. apply Z.eqb_neq in H1, H2. rewrite H1, H2. simpl.
      destruct (_ || _); reflexivity.
Qed.

End AssignPriority.

(** ** Command construction *)

Section CommandConstruction.

Import Protocol Types Serialization Commands.

(** A DRAW_TEXT message for claim C5: the payload is the 24-byte prefix
    and nothing else, and the prefix declares a text of five bytes. *)
Definition short_text_header : MessageHeader :=
  {| magic := KARO; protocol_version := PROTOCOL_VERSION; type := DRAW_TEXT;
     layer_id := 1; reserved := 0; client_id := 7; sequence := 3;
     data_size := 24; timestamp := 0 |}.

Definition short_text_payload : list byte :=
  [ x01; x00; x00; x00;    (* gc_id = 1 *)
    x02; x00; x00; x00;    (* font_id = 2 *)
    x00; x00; x00; x00;    (* position.x *)
    x00; x00; x00; x00;    (* position.y *)
    x00; x00; x80; x41;    (* font_size = 16.0f *)
    x05; x00;              (* text_length = 5 *)
    x00; x00 ].            (* reserved *)

(** What happens to lie behind the payload in memory. *)
Definition bytes_behind : list byte := [x73; x65; x63; x72; x65; x74; x21].

(** A DRAW_TEXTURED_QUADS message: the payload is the 16-byte prefix and
    nothing else, and the prefix declares one quad. *)
Definition short_quads_header : MessageHeader :=
  {| magic := KARO; protocol_version := PROTOCOL_VERSION;
     type := DRAW_TEXTURED_QUADS;
     layer_id := 1; reserved := 0; client_id := 7; sequence := 4;
     data_size := 16; timestamp := 0 |}.

Definition short_quads_payload : list byte :=
  [ x01; x00; x00; x00;    (* gc_id = 1 *)
    x09; x00; x00; x00;    (* texture_id = 9 *)
    x01; x00; x00; x00;    (* quad_count = 1 *)
    x00; x00; x00; x00 ].  (* reserved *)

(** C5 (the code at the failing inputs).  Both headers pass
    [validateHeader], and both declare a tail that the payload does not
    hold.  [fromNetworkMessage] builds a command from each: a DRAW_TEXT
    command whose text is the five bytes behind the payload, and a
    DRAW_TEXTURED_QUADS command with four vertices read from behind the
    payload.  It cannot do otherwise: [data_size] is never read.  The
    helpers of Serialization.cpp turn the same two messages down. *)
Theorem fromNetworkMessage_ignores_payload_size
    (sizeof_RenderCommand now : Z) :
  let text_cmd :=
    fromNetworkMessage LittleEndian sizeof_RenderCommand now
      short_text_header (short_text_payload ++ bytes_behind) in
  let quads_cmd :=
    fromNetworkMessage LittleEndian sizeof_RenderCommand now
      short_quads_header (short_quads_payload ++ bytes_behind) in
  validateHeader short_text_header = true /\
  validateHeader short_quads_header = true /\
  cmd_type text_cmd = CmdType.DRAW_TEXT /\
  text_string text_cmd = take 5 bytes_behind /\
  cmd_type quads_cmd = CmdType.DRAW_TEXTURED_QUADS /\
  length (vertices quads_cmd) = 4%nat /\
  parseDrawTextMessage LittleEndian
    (createMessage LittleEndian short_text_header (Some short_text_payload))
    = None /\
  parseDrawTexturedQuadsMessage LittleEndian
    (createMessage LittleEndian short_quads_header (Some short_quads_payload))
    = None /\
  forall host h mem size,
    fromNetworkMessage host sizeof_RenderCommand now
      {| magic := magic h; protocol_version := protocol_version h;
         type := type h; layer_id := layer_id h; reserved := reserved h;
         client_id := client_id h; sequence := sequence h;
         data_size := size; timestamp := timestamp h |} mem
    = fromNetworkMessage host sizeof_RenderCommand now h mem.
Proof.
  cbv zeta.
  split; [reflexivity|]. split; [reflexivity|].
  split; [reflexivity|]. split; [reflexivity|].
  split; [reflexivity|]. split; [reflexivity|].
  split; [vm_compute; reflexivity|]. split; [vm_compute; reflexivity|].
  intros host h mem size. reflexivity.
Qed.

End CommandConstruction.

(** ** The command queue *)

Section QueueFacts.

Import Commands.

Definition rank_of (c : RenderCommand) : Z := Priority.rank (priority c).

(** The commands of rank [k] in [l], in the order of [l]. *)
Definition of_rank (k : Z) (l : list RenderCommand) : list RenderCommand :=
  List.filter (fun c => rank_of c =? k) l.

Lemma highest_rank_upper (l : list RenderCommand) (c : RenderCommand) :
  In c l -> rank_of c <= highest_rank l.
Proof.
  induction l as [|d l IH]; [intros []|].
  intros [-> | H]; cbn [highest_rank]; [unfold rank_of; lia|].
  specialize (IH H). lia.
Qed.

Lemma take_oldest_Some (k : Z) (l : list RenderCommand) c rest :
  take_oldest k l = Some (c, rest) ->
  exists l1 l2,
    l = l1 ++ c :: l2 /\ rest = l1 ++ l2 /\ rank_of c = k /\
    Forall (fun d => rank_of d <> k) l1.
Proof.
  revert c rest. induction l as [|d l IH]; intros c rest H; [discriminate|].
  cbn [take_oldest] in H.
  destruct (Priority.rank (priority d) =? k) eqn:E.
  - injection H as Hc Hrest. subst c rest. exists [], l. apply Z.eqb_eq in E.
    repeat split; auto.
  - destruct (take_oldest k l) as [[d' rest']|] eqn:Et; [|discriminate].
    injection H as Hc Hrest. subst c rest.
    destruct (IH _ _ eq_refl) as (l1 & l2 & Hl & Hr & Hk & Hl1). subst l rest'.
    exists (d :: l1), l2. repeat split; auto.
    constructor; [|exact Hl1]. apply Z.eqb_neq in E. exact E.
Qed.

Lemma take_oldest_None (k : Z) (l : list RenderCommand) :
  take_oldest k l = None -> Forall (fun d => rank_of d <> k) l.
Proof.
  induction l as [|d l IH]; intros H; [constructor|].
  cbn [take_oldest] in H.
  destruct (Priority.rank (priority d) =? k) eqn:E; [discriminate|].
  destruct (take_oldest k l) as [[d' rest']|]; [discriminate|].
  constructor; [apply Z.eqb_neq in E; exact E | apply IH; reflexivity].
Qed.

Lemma highest_rank_attained (l : list RenderCommand) :
  l <> [] -> exists c, In c l /\ rank_of c = highest_rank l.
Proof.
  induction l as [|d l IH]; [congruence|]. intros _.
  destruct l as [|e l].
  - exists d. split; [left; reflexivity|].
    cbn. unfold rank_of. destruct (priority d); reflexivity.
  - destruct IH as (c & Hc & Hr); [discriminate|].
    cbn [highest_rank] in *.
    destruct (Z_le_gt_dec (Z.max (Priority.rank (priority e)) (highest_rank l))
                (Priority.rank (priority d))).
    + exists d. split; [left; reflexivity|]. unfold rank_of. lia.
    + exists c. split; [right; exact Hc|]. lia.
Qed.

(** One [dequeue]: the command handed out is the oldest among those of the
    highest priority present; the others stay, in their order. *)
Lemma dequeue_Some (q : RenderCommandQueue) c q' :
  dequeue q = Some (c, q') ->
  exists l1 l2,
    m_commands q = l1 ++ c :: l2 /\ m_commands q' = l1 ++ l2 /\
    Forall (fun d => rank_of d < rank_of c) l1 /\
    Forall (fun d => rank_of d <= rank_of c) l2.
Proof.
  unfold dequeue. intros H.
  destruct (take_oldest _ _) as [[d rest]|] eqn:E; [|discriminate].
  injection H as Hc Hq'. subst d q'. cbn [m_commands].
  destruct (take_oldest_Some _ _ _ _ E) as (l1 & l2 & Hl & Hr & Hk & Hl1).
  subst rest.
  exists l1, l2. rewrite Hl in *. repeat split; auto.
  - apply Forall_forall. intros d Hd.
    pose proof (highest_rank_upper (l1 ++ c :: l2) d) as Hu.
    rewrite Forall_forall in Hl1. specialize (Hl1 d Hd).
    assert (In d (l1 ++ c :: l2)) as Hin.
    { apply in_or_app. left. apply list_elem_of_In. exact Hd. }
    specialize (Hu Hin). lia.
  - apply Forall_forall. intros d Hd.
    pose proof (highest_rank_upper (l1 ++ c :: l2) d) as Hu.
    assert (In d (l1 ++ c :: l2)) as Hin.
    { apply in_or_app. right. right. apply list_elem_of_In. exact Hd. }
    specialize (Hu Hin). lia.
Qed.

Lemma dequeue_None (q : RenderCommandQueue) :
  dequeue q = None -> m_commands q = [].
Proof.
  unfold dequeue. intros H.
  destruct (take_oldest _ _) as [[d rest]|] eqn:E; [discriminate|].
  apply take_oldest_None in E.
  destruct (m_commands q) as [|c l] eqn:El; [reflexivity|].
  destruct (highest_rank_attained (c :: l)) as (d & Hd & Hr); [discriminate|].
  rewrite Forall_forall in E. apply list_elem_of_In in Hd.
  specialize (E d Hd). congruence.
Qed.

Lemma of_rank_app (k : Z) (l1 l2 : list RenderCommand) :
  of_rank k (l1 ++ l2) = of_rank k l1 ++ of_rank k l2.
Proof. apply List.filter_app. Qed.

Lemma of_rank_none (k : Z) (l : list RenderCommand) :
  Forall (fun d => rank_of d <> k) l -> of_rank k l = [].
Proof.
  induction 1 as [|d l Hd _ IH]; [reflexivity|].
  cbn. apply Z.eqb_neq in Hd. rewrite Hd. exact IH.
Qed.

(** What a batch taken off the queue looks like. *)
Definition drained_in_order (before : list RenderCommand) (max_count : nat)
    (out after : list RenderCommand) : Prop :=
  length out = Nat.min max_count (length before) /\
  Permutation before (out ++ after) /\
  (* strict priority: nothing is handed out before a command that outranks it *)
  (forall i j a b,
     (i < j)%nat -> out !! i = Some a -> out !! j = Some b ->
     rank_of b <= rank_of a) /\
  (* ... and nothing is left behind that outranks a command handed out *)
  (forall a b, In a out -> In b after -> rank_of b <= rank_of a) /\
  (* FIFO within a class: each class comes out in the order it went in *)
  (forall k, of_rank k before = of_rank k out ++ of_rank k after).

Lemma dequeueBatch_drained (max_count : nat) (q : RenderCommandQueue) :
  drained_in_order (m_commands q) max_count
    (fst (dequeueBatch max_count q)) (m_commands (snd (dequeueBatch max_count q))).
Proof.
  revert q. induction max_count as [|n IH]; intros q.
  - cbn. unfold drained_in_order. repeat split; auto.
    + intros i j a b _ H. rewrite lookup_nil in H. discriminate.
    + intros a b [].
  - cbn [dequeueBatch].
    destruct (dequeue q) as [[c q1]|] eqn:Ed.
    + specialize (IH q1).
      destruct (dequeueBatch n q1) as [cs q2]. cbn [fst snd] in *.
      destruct (dequeue_Some _ _ _ Ed) as (l1 & l2 & Hq & Hq1 & Hl1 & Hl2).
      destruct IH as (Hlen & Hperm & Hsorted & Hleft & Hfifo).
      rewrite Hq1 in *. rewrite Hq.
      assert (Hall : forall d, In d (l1 ++ l2) -> rank_of d <= rank_of c).
      { intros d Hd. apply in_app_or in Hd as [Hd|Hd];
          apply list_elem_of_In in Hd.
        - rewrite Forall_forall in Hl1. specialize (Hl1 d Hd). lia.
        - rewrite Forall_forall in Hl2. apply Hl2. exact Hd. }
      assert (Hsub : forall d, In d (cs ++ m_commands q2) -> In d (l1 ++ l2)).
      { intros d Hd. eapply Permutation_in; [symmetry; exact Hperm|exact Hd]. }
      unfold drained_in_order. split; [|split; [|split; [|split]]].
      * cbn [length]. rewrite Hlen, !length_app. cbn [length]. lia.
      * cbn [app]. etransitivity; [symmetry; apply Permutation_middle|].
        constructor. exact Hperm.
      * intros i j a b Hij Ha Hb.
        destruct j as [|j]; [lia|]. cbn in Hb.
        destruct i as [|i].
        -- cbn in Ha. inversion Ha; subst a.
           apply Hall, Hsub, in_or_app. left.
           apply list_elem_of_In. eapply list_elem_of_lookup_2. exact Hb.
        -- cbn in Ha. apply (Hsorted i j); [lia|assumption|assumption].
      * intros a b [<- | Ha] Hb.
        -- apply Hall, Hsub, in_or_app. right. exact Hb.
        -- apply Hleft; assumption.
      * intros k. rewrite of_rank_app. cbn [of_rank List.filter]. fold (of_rank k l2).
        destruct (rank_of c =? k) eqn:Ek.
        -- apply Z.eqb_eq in Ek.
           assert (Hnone : of_rank k l1 = []).
           { apply of_rank_none. eapply Forall_impl; [exact Hl1|].
             cbn. intros d Hd. lia. }
           rewrite Hnone. cbn [app]. f_equal. fold (of_rank k cs).
           rewrite <- Hfifo, of_rank_app, Hnone. reflexivity.
        -- fold (of_rank k cs). rewrite <- Hfifo, of_rank_app. reflexivity.
    + cbn [fst snd]. apply dequeue_None in Ed. rewrite Ed.
      unfold drained_in_order. cbn [length app of_rank List.filter].
      rewrite Nat.min_0_r.
      repeat split; auto.
      * intros i j a b _ H. rewrite lookup_nil in H. discriminate.
      * intros a b [].
Qed.

Lemma enqueue_resident (cmd : RenderCommand) (q : RenderCommandQueue) :
  m_max_size (snd (enqueue cmd q)) = m_max_size q /\
  m_commands (snd (enqueue cmd q))
  = if fst (enqueue cmd q) then m_commands q ++ [cmd] else m_commands q.
Proof. unfold enqueue. destruct (full q); cbn; auto. Qed.

Lemma enqueue_all_resident (cmds : list RenderCommand) (q : RenderCommandQueue) :
  m_commands (enqueue_all cmds q)
  = m_commands q ++ take (m_max_size q - length (m_commands q)) cmds.
Proof.
  revert q. induction cmds as [|c cmds IH]; intros q.
  - cbn. rewrite take_nil, app_nil_r. reflexivity.
  - cbn [enqueue_all fold_left]. fold (enqueue_all cmds (snd (enqueue c q))).
    rewrite IH. unfold enqueue, full.
    destruct (m_max_size q <=? length (m_commands q))%nat eqn:E;
      cbn [snd m_commands m_max_size].
    + apply Nat.leb_le in E.
      replace (m_max_size q - length (m_commands q))%nat with 0%nat by lia.
      reflexivity.
    + apply Nat.leb_gt in E. rewrite length_app. cbn [length].
      replace (m_max_size q - length (m_commands q))%nat
        with (S (m_max_size q - (length (m_commands q) + 1)))%nat by lia.
      cbn [take]. rewrite <- app_assoc. reflexivity.
Qed.

(** C3.  Commands offered to a queue of capacity [capacity] stay in it in
    the order they were offered, as long as there is room (the others are
    dropped).  Whatever number of commands the consumer then asks for, in
    particular the 1000 that [processingLoop] asks for: it is handed that
    many commands or all there are; among the commands handed out, and
    between them and those left in the queue, a command of higher priority
    always comes first (Critical > High > Normal > Low), whatever the order
    of arrival; and the commands of one priority class come out in the
    order they went in.  The same holds for a batch taken from a queue in
    any state. *)
Theorem dequeue_priority_then_fifo
    (capacity : nat) (cmds : list RenderCommand) (max_count : nat) :
  let q := enqueue_all cmds (RenderCommandQueue_new capacity) in
  m_commands q = take capacity cmds /\
  drained_in_order (m_commands q) max_count
    (fst (dequeueBatch max_count q))
    (m_commands (snd (dequeueBatch max_count q))) /\
  drained_in_order (m_commands q) 1000
    (fst (processingLoop_dequeue q))
    (m_commands (snd (processingLoop_dequeue q))) /\
  forall q0 : RenderCommandQueue,
    drained_in_order (m_commands q0) max_count
      (fst (dequeueBatch max_count q0))
      (m_commands (snd (dequeueBatch max_count q0))).
Proof.
  cbv zeta. split.
  - rewrite enqueue_all_resident. cbn. rewrite Nat.sub_0_r. reflexivity.
  - split; [apply dequeueBatch_drained|].
    split; [apply dequeueBatch_drained|].
    intros q0. apply dequeueBatch_drained.
Qed.

End QueueFacts.

(** ** The layer registry *)

Section LayerFacts.

Import Layers.

(** The state between two calls: the mutex is free and layer 0 is there. *)
Definition settled (st : LayerManager) : Prop :=
  m_layers_mutex st = false /\ has_layer 0 st.

Ltac open_state st :=
  destruct st as [ls mx ns mu]; cbn [m_layers_mutex m_layers] in *; subst.

Ltac reduce_calls :=
  cbv [bind ret get modify lock unlock lock_guard write_layer discard
       set_mutex set_layers set_needs_sort
       m_layers m_max_layers m_needs_sort m_layers_mutex] in *.

Ltac step_calls :=
  reduce_calls;
  repeat
    (match goal with
     | |- context [match ?x with _ => _ end] =>
         lazymatch x with
         | context [match _ with _ => _ end] => fail
         | _ => destruct x eqn:?
         end
     end; reduce_calls).

Lemma has_layer_alter (f : Layer -> Layer) (i j : Z) (ls : gmap Z Layer) :
  is_Some (ls !! j) -> is_Some (alter f i ls !! j).
Proof.
  intros H. rewrite lookup_alter. case_decide; [subst|exact H].
  apply fmap_is_Some. exact H.
Qed.

Lemma has_layer_insert (l : Layer) (i j : Z) (ls : gmap Z Layer) :
  is_Some (ls !! j) -> is_Some (<[i := l]> ls !! j).
Proof.
  intros H. rewrite lookup_insert. case_decide; [eauto|exact H].
Qed.

Lemma createLayer_settled (i now : Z) (st : LayerManager) :
  settled st ->
  exists r st', createLayer i now st = Returned r st' /\ settled st' /\
                m_max_layers st' = m_max_layers st.
Proof.
  intros [Hmu H0]. open_state st. unfold createLayer, settled, has_layer in *.
  step_calls; do 2 eexists; (split; [reflexivity|]); cbn; auto.
  split; [split; [reflexivity|]|reflexivity]. apply has_layer_insert. exact H0.
Qed.

Lemma getLayer_settled (i : Z) (st : LayerManager) :
  m_layers_mutex st = false ->
  getLayer i st = Returned (m_layers st !! i) st.
Proof.
  intros Hmu. open_state st. reflexivity.
Qed.

(** The setters: look the layer up, then write through the pointer. *)
Lemma write_after_getLayer {A} (i : Z) (k : option Layer -> M A)
    (st : LayerManager) :
  m_layers_mutex st = false ->
  (let* layer := getLayer i in k layer) st = k (m_layers st !! i) st.
Proof.
  intros Hmu. unfold bind at 1. rewrite getLayer_settled by exact Hmu.
  reflexivity.
Qed.

Lemma settled_write (i : Z) (f : Layer -> Layer) (st : LayerManager) :
  settled st -> settled (set_layers (alter f i (m_layers st)) st).
Proof.
  intros [Hmu H0]. split; [exact Hmu|].
  unfold has_layer. cbn. apply has_layer_alter. exact H0.
Qed.

Lemma deleteLayer_zero (st : LayerManager) :
  deleteLayer 0 st = Returned false st.
Proof. reflexivity. Qed.

Lemma deleteLayer_settled (i : Z) (st : LayerManager) :
  settled st ->
  exists r st', deleteLayer i st = Returned r st' /\ settled st' /\
                m_max_layers st' = m_max_layers st.
Proof.
  intros [Hmu H0]. unfold deleteLayer.
  destruct (i =? 0) eqn:Ei.
  - exists false, st. repeat split; auto.
  - apply Z.eqb_neq in Ei. open_state st. unfold settled, has_layer in *.
    step_calls; do 2 eexists; (split; [reflexivity|]); cbn; auto.
    split; [split; [reflexivity|]|reflexivity].
    rewrite lookup_delete_ne by exact Ei. exact H0.
Qed.

Lemma idle_and_empty_zero (now : Z) (l : Layer) : idle_and_empty now 0 l = false.
Proof. reflexivity. Qed.

Lemma optimizeLayers_settled (now : Z) (st : LayerManager) :
  settled st ->
  exists st', optimizeLayers now st = Returned tt st' /\ settled st' /\
              m_max_layers st' = m_max_layers st.
Proof.
  intros [Hmu [l0 H0]]. open_state st. unfold optimizeLayers.
  step_calls. eexists. split; [reflexivity|]. cbn.
  split; [split; [reflexivity|]|reflexivity].
  unfold has_layer. cbn.
  eexists. apply map_lookup_filter_Some. split.
  - rewrite map_lookup_imap, H0. cbn. reflexivity.
  - cbn. apply map_lookup_filter_None. right. intros x Hx Hidle.
    cbn in Hidle. discriminate Hidle.
Qed.

(** [clear] never returns: either the mutex is held already, or [clear]
    takes it and [createLayer] waits for it. *)
Lemma clear_never_returns (now : Z) (st : LayerManager) :
  clear now st = SelfDeadlock.
Proof.
  destruct st as [ls mx ns [|]]; reflexivity.
Qed.

(** Every call but [clear], made between calls, returns, and leaves the
    registry between calls. *)
Lemma run_op_settled (op : Op) (st : LayerManager) :
  is_clear op = false ->
  settled st ->
  exists st', run_op op st = Returned tt st' /\ settled st' /\
              m_max_layers st' = m_max_layers st.
Proof.
  intros Hop Hst.
  destruct op; try discriminate; cbn [run_op]; unfold discard.
  - destruct (createLayer_settled layer_id now st Hst) as (r & st' & E & H).
    exists st'. unfold bind. rewrite E. auto.
  - destruct (deleteLayer_settled layer_id st Hst) as (r & st' & E & H).
    exists st'. unfold bind. rewrite E. auto.
  - (* getOrCreateLayer *)
    destruct Hst as [Hmu H0]. unfold getOrCreateLayer.
    unfold bind at 1 2. fold (getLayer layer_id).
    rewrite getLayer_settled by exact Hmu.
    destruct (m_layers st !! layer_id) as [l|] eqn:El.
    + exists st. cbn. repeat split; auto.
    + destruct (createLayer_settled layer_id now st (conj Hmu H0))
        as (r & st' & E & [Hmu' H0'] & Hmx).
      unfold bind at 1. rewrite E.
      destruct r.
      * fold (getLayer layer_id). rewrite getLayer_settled by exact Hmu'.
        exists st'. cbn. repeat split; auto.
      * exists st'. cbn. repeat split; auto.
  - (* setLayerVisibility *)
    unfold setLayerVisibility. unfold bind at 1.
    rewrite write_after_getLayer by apply Hst.
    destruct (m_layers st !! layer_id) as [l|]; [|exists st; auto].
    destruct (negb _); cbn; eexists; (split; [reflexivity|]); auto.
    split; [apply settled_write; exact Hst|reflexivity].
  - (* setLayerOpacity *)
    unfold setLayerOpacity. unfold bind at 1.
    rewrite write_after_getLayer by apply Hst.
    destruct (m_layers st !! layer_id) as [l|]; [|exists st; auto].
    cbv zeta. destruct (differs _ _); cbn; eexists; (split; [reflexivity|]); auto.
    split; [apply settled_write; exact Hst|reflexivity].
  - (* setLayerBlendMode *)
    unfold setLayerBlendMode. unfold bind at 1.
    rewrite write_after_getLayer by apply Hst.
    destruct (m_layers st !! layer_id) as [l|]; [|exists st; auto].
    destruct (negb _); cbn; eexists; (split; [reflexivity|]); auto.
    split; [apply settled_write; exact Hst|reflexivity].
  - (* setLayerZOrder *)
    unfold setLayerZOrder. unfold bind at 1.
    rewrite write_after_getLayer by apply Hst.
    destruct (m_layers st !! layer_id) as [l|]; [|exists st; auto].
    destruct (differs _ _); cbn; eexists; (split; [reflexivity|]); auto.
    split; [|reflexivity].
    destruct (settled_write layer_id
                (fun l => {| id := id l; visible := visible l; z_order := z;
                   blend_mode := blend_mode l; opacity := opacity l;
                   dirty := dirty l; created_time := created_time l;
                   last_modified := last_modified l;
                   object_count := object_count l;
                   vertex_count := vertex_count l;
                   caching_enabled := caching_enabled l;
                   render_texture_id := render_texture_id l |}) st Hst)
      as [Hmu' H0'].
    split; [exact Hmu'|exact H0'].
  - (* clearLayer *)
    unfold clearLayer. unfold bind at 1.
    rewrite write_after_getLayer by apply Hst.
    destruct (m_layers st !! layer_id) as [l|]; [|exists st; auto].
    cbn; eexists; (split; [reflexivity|]).
    split; [apply settled_write; exact Hst|reflexivity].
  - (* clearAllLayers *)
    destruct Hst as [Hmu H0]. open_state st. unfold clearAllLayers.
    step_calls. eexists. split; [reflexivity|]. cbn.
    split; [split; [reflexivity|]|reflexivity].
    unfold has_layer in *. cbn. rewrite lookup_fmap. apply fmap_is_Some. exact H0.
  - (* markLayerDirty *)
    unfold markLayerDirty. rewrite write_after_getLayer by apply Hst.
    destruct (m_layers st !! layer_id) as [l|]; [|exists st; auto].
    cbn; eexists; (split; [reflexivity|]).
    split; [apply settled_write; exact Hst|reflexivity].
  - (* markLayerClean *)
    unfold markLayerClean. rewrite write_after_getLayer by apply Hst.
    destruct (m_layers st !! layer_id) as [l|]; [|exists st; auto].
    cbn; eexists; (split; [reflexivity|]).
    split; [apply settled_write; exact Hst|reflexivity].
  - (* enableLayerCaching *)
    unfold enableLayerCaching. unfold bind at 1.
    rewrite write_after_getLayer by apply Hst.
    destruct (m_layers st !! layer_id) as [l|]; [|exists st; auto].
    destruct (loaded =? 0); cbn; eexists; (split; [reflexivity|]);
      (split; [apply settled_write; exact Hst|reflexivity]).
  - (* disableLayerCaching *)
    unfold disableLayerCaching. unfold bind at 1.
    rewrite write_after_getLayer by apply Hst.
    destruct (m_layers st !! layer_id) as [l|]; [|exists st; auto].
    cbn; eexists; (split; [reflexivity|]).
    split; [apply settled_write; exact Hst|reflexivity].
  - (* updateLayerStats *)
    unfold updateLayerStats. rewrite write_after_getLayer by apply Hst.
    destruct (m_layers st !! layer_id) as [l|]; [|exists st; auto].
    cbn; eexists; (split; [reflexivity|]).
    split; [apply settled_write; exact Hst|reflexivity].
  - (* getLayersInRenderOrder *)
    destruct Hst as [Hmu H0]. open_state st.
    cbv [lock_guard bind lock unlock modify ret m_layers_mutex].
    eexists. split; [reflexivity|].
    unfold sort_flag_after, settled, has_layer in *.
    destruct (_ || _); cbn; auto.
  - apply optimizeLayers_settled. exact Hst.
Qed.

Lemma run_settled (ops : list Op) (st : LayerManager) :
  forallb (fun op => negb (is_clear op)) ops = true ->
  settled st ->
  exists st', run ops st = Returned tt st' /\ settled st' /\
              m_max_layers st' = m_max_layers st.
Proof.
  revert st. induction ops as [|op ops IH]; intros st Hops Hst.
  - exists st. auto.
  - cbn [forallb] in Hops. apply andb_prop in Hops as [Hop Hops].
    apply negb_true_iff in Hop.
    destruct (run_op_settled op st Hop Hst) as (st1 & E1 & Hst1 & Hmx1).
    destruct (IH st1 Hops Hst1) as (st2 & E2 & Hst2 & Hmx2).
    exists st2. cbn [run]. unfold bind. rewrite E1.
    repeat split; try apply Hst2; [exact E2|congruence].
Qed.

Lemma LayerManager_new_settled (max_layers : Z) (needs_sort : bool) (now : Z) :
  0 < max_layers ->
  exists st, LayerManager_new max_layers needs_sort now = Returned tt st /\
             settled st /\ m_max_layers st = max_layers.
Proof.
  intros Hmax. unfold LayerManager_new, discard, createLayer.
  assert (Hroom : (0 >=? max_layers) = false)
    by (destruct (0 >=? max_layers) eqn:E; [lia|reflexivity]).
  reduce_calls. rewrite Hroom, lookup_empty.
  eexists. split; [reflexivity|].
  split; [split; [reflexivity|]|reflexivity].
  unfold has_layer. cbn. rewrite lookup_insert_eq. eauto.
Qed.

(** C6, as amended.  A registry built with room for at least one layer has
    layer 0 from construction on, and every sequence of calls to the
    registry's operations other than [clear()] returns and leaves layer 0
    in place.  In the state reached, [deleteLayer(0)] returns false and
    changes nothing, and [optimizeLayers] returns with layer 0 still
    there, whatever the clock says. *)
Theorem layer_zero_durable
    (max_layers : Z) (needs_sort : bool) (now : Z) (ops : list Op) :
  0 < max_layers ->
  forallb (fun op => negb (is_clear op)) ops = true ->
  exists st,
    lifetime max_layers needs_sort now ops = Returned tt st /\
    has_layer 0 st /\
    deleteLayer 0 st = Returned false st /\
    forall later, exists st',
      optimizeLayers later st = Returned tt st' /\ has_layer 0 st'.
Proof.
  intros Hmax Hops.
  destruct (LayerManager_new_settled max_layers needs_sort now Hmax)
    as (st0 & E0 & Hst0 & _).
  destruct (run_settled ops st0 Hops Hst0) as (st & E & Hst & _).
  exists st. unfold lifetime. rewrite E0.
  split; [exact E|]. split; [apply Hst|]. split; [reflexivity|].
  intros later.
  destruct (optimizeLayers_settled later st Hst) as (st' & E' & Hst' & _).
  exists st'. split; [exact E'|apply Hst'].
Qed.

End LayerFacts.

Section LayerExamples.

Import Layers.

Definition busy_day : list Op :=
  [ OpCreateLayer 3 10; OpSetLayerZOrder 3 (1 # 2); OpDeleteLayer 0;
    OpUpdateLayerStats 3 12 48 20; OpGetLayersInRenderOrder;
    OpOptimizeLayers 900000000000; OpDeleteLayer 3; OpClearAllLayers 30 ].

Lemma layer_zero_durable_witness :
  exists st,
    lifetime 255 false 0 busy_day = Returned tt st /\
    has_layer 0 st /\
    deleteLayer 0 st = Returned false st /\
    forall later, exists st',
      optimizeLayers later st = Returned tt st' /\ has_layer 0 st'.
Proof.
  apply (layer_zero_durable 255 false 0 busy_day).
  - lia.
  - reflexivity.
Defined.

(** C6 as stated fails on a registry built with [max_layers = 0]:
    [createLayer(0)] in the constructor finds 0 >= 0 and creates nothing. *)
Lemma layer_zero_absent_without_room :
  exists st,
    lifetime 0 false 0 [] = Returned tt st /\ ~ has_layer 0 st.
Proof.
  eexists. split; [reflexivity|].
  unfold has_layer. cbn. rewrite lookup_empty. intros [l Hl]. discriminate Hl.
Qed.

End LayerExamples.

Section RenderOrder.

Import Layers.

Definition z_le (a b : Layer) : Prop := z_less b a = false.

Lemma z_le_Qle (a b : Layer) : z_le a b <-> (z_order a <= z_order b)%Q.
Proof.
  unfold z_le, z_less.
  destruct (Qlt_le_dec (z_order b) (z_order a)) as [Hlt|Hle]; split; intros H;
    try discriminate; try reflexivity; try exact Hle.
  exfalso. exact (Qlt_not_le _ _ Hlt H).
Qed.

#[local] Instance z_le_dec : RelDecision z_le.
Proof. intros a b. unfold z_le. apply _. Defined.

#[local] Instance z_le_trans : Transitive z_le.
Proof.
  intros a b c Hab Hbc. apply z_le_Qle in Hab, Hbc. apply z_le_Qle.
  eapply Qle_trans; eassumption.
Qed.

#[local] Instance z_le_total : Total z_le.
Proof.
  intros a b. unfold z_le, z_less.
  destruct (Qlt_le_dec (z_order b) (z_order a)) as [Hlt|Hle]; [right|left; reflexivity].
  destruct (Qlt_le_dec (z_order a) (z_order b)) as [Hlt'|Hle']; [|reflexivity].
  exfalso. exact (Qlt_irrefl _ (Qlt_trans _ _ _ Hlt Hlt')).
Qed.

Lemma StronglySorted_by_index {A} (R : relation A) (l : list A) :
  StronglySorted R l ->
  forall i j a b, (i < j)%nat -> l !! i = Some a -> l !! j = Some b -> R a b.
Proof.
  induction 1 as [|x l Hl IH Hx]; intros i j a b Hij Ha Hb.
  - rewrite lookup_nil in Ha. discriminate.
  - destruct j as [|j]; [lia|]. cbn in Hb. destruct i as [|i].
    + cbn in Ha. injection Ha as <-.
      rewrite Forall_forall in Hx. apply Hx.
      eapply list_elem_of_lookup_2. exact Hb.
    + cbn in Ha. apply (IH i j); [lia|assumption|assumption].
Qed.

(** [std::sort] has a result on every input ordered by [z_less]. *)
Lemma std_sort_z_less_exists (layers : list Layer) :
  exists result, std_sort z_less layers result.
Proof.
  exists (merge_sort z_le layers). split.
  - symmetry. apply merge_sort_Permutation.
  - intros i j a b Hij Ha Hb.
    apply (StronglySorted_by_index z_le (merge_sort z_le layers)
             (StronglySorted_merge_sort z_le layers) i j a b Hij Ha Hb).
Qed.

(** The call returns whenever the mutex is free. *)
Lemma getLayersInRenderOrder_returns (st : LayerManager) :
  m_layers_mutex st = false ->
  exists result st', getLayersInRenderOrder st result st'.
Proof.
  intros Hmu.
  destruct (std_sort_z_less_exists (visible_layers st)) as [sorted Hsorted].
  exists (if m_needs_sort st || (1 <? length (visible_layers st))%nat
          then sorted else visible_layers st), (sort_flag_after st).
  split; [exact Hmu|]. split; [reflexivity|].
  exists (visible_layers st). split; [reflexivity|].
  destruct (_ || _); [exact Hsorted|reflexivity].
Qed.

Lemma elem_of_visible_layers (st : LayerManager) (l : Layer) :
  In l (visible_layers st) <->
  exists k, m_layers st !! k = Some l /\ visible l = true.
Proof.
  unfold visible_layers. rewrite List.filter_In, <- list_elem_of_In.
  rewrite list_elem_of_fmap. split.
  - intros [[[k l'] [-> Hkl]] Hv]. exists k. split; [|exact Hv].
    apply elem_of_map_to_list. exact Hkl.
  - intros (k & Hk & Hv). split; [|exact Hv].
    exists (k, l). split; [reflexivity|]. apply elem_of_map_to_list. exact Hk.
Qed.

(** C8, as amended.  What [getLayersInRenderOrder] returns is a
    rearrangement of the visible layers of the registry, each entry of the
    registry that is visible appearing once and no other layer appearing,
    in ascending z-order: a layer never comes after one of larger z-order.
    The registry's layers are left as they were.  (Nothing is said of two
    layers of equal z-order.) *)
Theorem render_order_visible_ascending_z
    (st : LayerManager) (result : list Layer) (st' : LayerManager) :
  getLayersInRenderOrder st result st' ->
  Permutation (visible_layers st) result /\
  (forall l, In l result <->
             exists k, m_layers st !! k = Some l /\ visible l = true) /\
  (forall i j a b,
     (i < j)%nat -> result !! i = Some a -> result !! j = Some b ->
     (z_order a <= z_order b)%Q) /\
  m_layers st' = m_layers st.
Proof.
  intros (Hmu & -> & layers & Hperm & Hsort).
  assert (Hres : Permutation (visible_layers st) result /\
                 forall i j a b,
                   (i < j)%nat -> result !! i = Some a -> result !! j = Some b ->
                   (z_order a <= z_order b)%Q).
  { destruct (m_needs_sort st || (1 <? length layers)%nat) eqn:Econd.
    - destruct Hsort as [Hp Hs]. split.
      + etransitivity; [symmetry; exact Hperm|exact Hp].
      + intros i j a b Hij Ha Hb. apply z_le_Qle. exact (Hs i j a b Hij Ha Hb).
    - subst result. split; [symmetry; exact Hperm|].
      intros i j a b Hij Ha Hb. exfalso.
      apply orb_false_elim in Econd as [_ Hlen]. apply Nat.ltb_ge in Hlen.
      apply lookup_lt_Some in Hb. lia. }
  destruct Hres as [Hp Hs]. split; [exact Hp|]. split; [|split; [exact Hs|]].
  - intros l. rewrite <- elem_of_visible_layers. split; intros H.
    + eapply Permutation_in; [symmetry; exact Hp|exact H].
    + eapply Permutation_in; [exact Hp|exact H].
  - unfold sort_flag_after.
    destruct (m_needs_sort st || (1 <? length (visible_layers st))%nat);
      reflexivity.
Qed.

End RenderOrder.

Section RenderOrderExamples.

Import Layers.

(** A layer as [createLayer] makes it at time 0, with z-order [z]. *)
Definition plain_layer (i : Z) (z : Q) : Layer :=
  {| id := i; visible := true; z_order := z; blend_mode := ALPHA;
     opacity := 1%Q; dirty := true; created_time := 0; last_modified := 0;
     object_count := 0; vertex_count := 0; caching_enabled := false;
     render_texture_id := 0 |}.

Lemma std_sort_intro (input output : list Layer) :
  Permutation input output ->
  StronglySorted z_le output ->
  std_sort z_less input output.
Proof.
  intros Hp Hs. split; [exact Hp|].
  intros i j a b Hij Ha Hb.
  exact (StronglySorted_by_index z_le output Hs i j a b Hij Ha Hb).
Qed.

(** Scenario 6 of the spec: layers 1 (z = 1.0) and 2 (z = 0.5), besides
    layer 0. *)
Definition scenario_registry : LayerManager :=
  {| m_layers :=
       <[2 := plain_layer 2 (1 # 2)]>
         (<[1 := plain_layer 1 1]> (<[0 := plain_layer 0 0]> ∅));
     m_max_layers := 255; m_needs_sort := true; m_layers_mutex := false |}.

Definition scenario_order : list Layer :=
  [plain_layer 0 0; plain_layer 2 (1 # 2); plain_layer 1 1].

Lemma scenario_registry_reached :
  lifetime 255 false 0
    [OpCreateLayer 1 0; OpCreateLayer 2 0; OpSetLayerZOrder 2 (1 # 2)]
  = Returned tt scenario_registry.
Proof. vm_compute. reflexivity. Qed.

Lemma scenario_render_order :
  getLayersInRenderOrder scenario_registry scenario_order
    (sort_flag_after scenario_registry).
Proof.
  split; [reflexivity|]. split; [reflexivity|].
  exists (visible_layers scenario_registry). split; [reflexivity|].
  cbn [m_needs_sort scenario_registry orb].
  apply std_sort_intro.
  - vm_compute. symmetry.
    apply (Permutation_cons_app
             [plain_layer 2 (1 # 2); plain_layer 1 1] [] (plain_layer 0 0)).
    reflexivity.
  - repeat constructor; vm_compute; reflexivity.
Defined.

Lemma render_order_visible_ascending_z_witness :
  Permutation (visible_layers scenario_registry) scenario_order /\
  (forall l, In l scenario_order <->
             exists k, m_layers scenario_registry !! k = Some l /\
                       visible l = true) /\
  (forall i j a b,
     (i < j)%nat -> scenario_order !! i = Some a ->
     scenario_order !! j = Some b ->
     (z_order a <= z_order b)%Q) /\
  m_layers (sort_flag_after scenario_registry) = m_layers scenario_registry.
Proof.
  apply (render_order_visible_ascending_z scenario_registry scenario_order
           (sort_flag_after scenario_registry)).
  exact scenario_render_order.
Defined.

(** C8 as stated fails on the tie-break.  After [createLayer(1)] and
    [setLayerZOrder(1, 0)] layers 0 and 1 are both visible with z-order 0;
    the comparator looks at the z-order only, so the vector with layer 1
    first is sorted as far as [std::sort] is concerned, and
    [getLayersInRenderOrder] may return it. *)
Lemma render_order_tie_not_by_id :
  exists st result st',
    lifetime 255 false 0 [OpCreateLayer 1 0; OpSetLayerZOrder 1 0]
    = Returned tt st /\
    getLayersInRenderOrder st result st' /\
    exists a b,
      result = [a; b] /\ (z_order a == z_order b)%Q /\ id a = 1 /\ id b = 0.
Proof.
  exists {| m_layers := <[1 := plain_layer 1 0]> (<[0 := plain_layer 0 0]> ∅);
            m_max_layers := 255; m_needs_sort := true;
            m_layers_mutex := false |}.
  exists [plain_layer 1 0; plain_layer 0 0].
  eexists. split; [vm_compute; reflexivity|]. split.
  - split; [reflexivity|]. split; [reflexivity|].
    exists [plain_layer 1 0; plain_layer 0 0]. split.
    + vm_compute. reflexivity.
    + cbn [m_needs_sort orb]. apply std_sort_intro; [reflexivity|].
      repeat constructor; vm_compute; reflexivity.
  - exists (plain_layer 1 0), (plain_layer 0 0).
    repeat split; reflexivity.
Qed.

End RenderOrderExamples.

(** ** Batch merging *)

Section BatchFacts.

Import Batching.

Lemma total_vertices_cons (objs : list RenderBatch) (p : nat) (ptrs : list nat) :
  total_vertices objs (p :: ptrs)
  = match objs !! p with
    | Some b => vertex_count b + total_vertices objs ptrs
    | None => total_vertices objs ptrs
    end.
Proof. reflexivity. Qed.

Lemma total_vertices_nonneg (objs : list RenderBatch) (ptrs : list nat) :
  Forall (fun b => 0 <= vertex_count b) objs ->
  0 <= total_vertices objs ptrs.
Proof.
  intros Hobjs. induction ptrs as [|p ptrs IH]; [cbn; lia|].
  rewrite total_vertices_cons.
  destruct (objs !! p) as [b|] eqn:E; [|exact IH].
  pose proof (Forall_lookup_1 _ _ _ _ Hobjs E) as Hb. cbn in Hb. lia.
Qed.

Lemma total_vertices_insert_other (objs : list RenderBatch) (p : nat)
    (b : RenderBatch) (ptrs : list nat) :
  p ∉ ptrs ->
  total_vertices (<[p := b]> objs) ptrs = total_vertices objs ptrs.
Proof.
  induction ptrs as [|q ptrs IH]; intros Hp; [reflexivity|].
  apply not_elem_of_cons in Hp as [Hpq Hp].
  rewrite !total_vertices_cons.
  rewrite list_lookup_insert_ne by exact Hpq. rewrite (IH Hp). reflexivity.
Qed.

Lemma total_vertices_insert_one (objs : list RenderBatch) (p : nat)
    (old b : RenderBatch) (ptrs : list nat) :
  NoDup ptrs -> p ∈ ptrs -> objs !! p = Some old ->
  total_vertices (<[p := b]> objs) ptrs
  = total_vertices objs ptrs - vertex_count old + vertex_count b.
Proof.
  intros Hnd Hin Hold. induction ptrs as [|q ptrs IH]; [inversion Hin|].
  apply NoDup_cons in Hnd as [Hq Hnd].
  destruct (decide (p = q)) as [->|Hpq].
  - rewrite !total_vertices_cons.
    rewrite list_lookup_insert_eq by (eapply lookup_lt_Some; exact Hold).
    rewrite Hold, total_vertices_insert_other by exact Hq. lia.
  - apply elem_of_cons in Hin as [Hin|Hin]; [contradiction|].
    rewrite !total_vertices_cons.
    rewrite list_lookup_insert_ne by exact Hpq.
    rewrite (IH Hnd Hin). destruct (objs !! q); lia.
Qed.

Lemma total_vertices_delete (objs : list RenderBatch) (ptrs : list nat)
    (j p : nat) (s : RenderBatch) :
  ptrs !! j = Some p -> objs !! p = Some s ->
  total_vertices objs (delete j ptrs)
  = total_vertices objs ptrs - vertex_count s.
Proof.
  revert j. induction ptrs as [|q ptrs IH]; intros j Hj Hs.
  - rewrite lookup_nil in Hj. discriminate.
  - destruct j as [|j]; cbn in Hj.
    + injection Hj as ->. change (delete 0%nat (p :: ptrs)) with ptrs.
      rewrite total_vertices_cons, Hs. lia.
    + change (delete (S j) (q :: ptrs)) with (q :: delete j ptrs).
      rewrite !total_vertices_cons, (IH j Hj Hs).
      destruct (objs !! q); lia.
Qed.

Lemma not_elem_of_delete_NoDup (ptrs : list nat) (j p : nat) :
  NoDup ptrs -> ptrs !! j = Some p -> p ∉ delete j ptrs.
Proof.
  intros Hnd Hj Hin.
  apply list_elem_of_lookup_1 in Hin as [k Hk].
  destruct (decide (k < j)%nat) as [Hlt|Hge].
  - rewrite list_lookup_delete_lt in Hk by exact Hlt.
    pose proof (NoDup_lookup _ _ _ _ Hnd Hj Hk). lia.
  - rewrite list_lookup_delete_ge in Hk by lia.
    pose proof (NoDup_lookup _ _ _ _ Hnd Hj Hk). lia.
Qed.


Lemma elem_of_delete_orig (ptrs : list nat) (j p : nat) :
  p ∈ delete j ptrs -> p ∈ ptrs.
Proof.
  intros Hin. apply list_elem_of_lookup_1 in Hin as [k Hk].
  destruct (decide (k < j)%nat) as [Hlt|Hge].
  - rewrite list_lookup_delete_lt in Hk by exact Hlt.
    eapply list_elem_of_lookup_2. exact Hk.
  - rewrite list_lookup_delete_ge in Hk by lia.
    eapply list_elem_of_lookup_2. exact Hk.
Qed.

(** What is gathered from the render order, up to the order of the
    batches. *)
Lemma gathered_cons {A} (f : RenderBatch -> list A) (objs : list RenderBatch)
    (p : nat) (ptrs : list nat) :
  gathered f objs (p :: ptrs)
  = match objs !! p with
    | Some b => f b ++ gathered f objs ptrs
    | None => gathered f objs ptrs
    end.
Proof. reflexivity. Qed.

Lemma gathered_insert_other {A} (f : RenderBatch -> list A)
    (objs : list RenderBatch) (p : nat) (b : RenderBatch) (ptrs : list nat) :
  p ∉ ptrs ->
  gathered f (<[p := b]> objs) ptrs = gathered f objs ptrs.
Proof.
  induction ptrs as [|q ptrs IH]; intros Hp; [reflexivity|].
  apply not_elem_of_cons in Hp as [Hpq Hp].
  rewrite !gathered_cons.
  rewrite list_lookup_insert_ne by exact Hpq. rewrite (IH Hp). reflexivity.
Qed.

Lemma gathered_delete {A} (f : RenderBatch -> list A)
    (objs : list RenderBatch) (ptrs : list nat) (j p : nat) (s : RenderBatch) :
  ptrs !! j = Some p -> objs !! p = Some s ->
  gathered f objs ptrs ≡ₚ f s ++ gathered f objs (delete j ptrs).
Proof.
  revert j. induction ptrs as [|q ptrs IH]; intros j Hj Hs.
  - rewrite lookup_nil in Hj. discriminate.
  - destruct j as [|j]; cbn in Hj.
    + injection Hj as ->. change (delete 0%nat (p :: ptrs)) with ptrs.
      rewrite gathered_cons, Hs. reflexivity.
    + change (delete (S j) (q :: ptrs)) with (q :: delete j ptrs).
      rewrite !gathered_cons.
      destruct (objs !! q) as [b|]; [|exact (IH j Hj Hs)].
      rewrite (IH j Hj Hs), !app_assoc.
      apply Permutation_app_tail. apply Permutation_app_comm.
Qed.

Lemma gathered_insert_at {A} (f : RenderBatch -> list A)
    (objs : list RenderBatch) (ptrs : list nat) (i p : nat)
    (old b : RenderBatch) :
  NoDup ptrs -> ptrs !! i = Some p -> objs !! p = Some old ->
  gathered f (<[p := b]> objs) ptrs ≡ₚ f b ++ gathered f objs (delete i ptrs).
Proof.
  intros Hnd Hi Hold.
  rewrite (gathered_delete f (<[p := b]> objs) ptrs i p b Hi)
    by (apply list_lookup_insert_eq; eapply lookup_lt_Some; exact Hold).
  rewrite gathered_insert_other
    by (apply not_elem_of_delete_NoDup; assumption).
  reflexivity.
Qed.

(** A batch that two consistent batches were merged into is consistent:
    an index moved up names a vertex of the merged batch even when the
    16-bit value wraps. *)
Lemma batch_consistent_appended (target source : RenderBatch) :
  batch_consistent target -> batch_consistent source ->
  vertex_count target + vertex_count source < 2 ^ 64 ->
  batch_consistent (appended target source).
Proof.
  intros (Hvt & Hit & Hrt) (Hvs & His & Hrs) Hroom.
  unfold batch_consistent, appended.
  cbn [vertices indices vertex_count index_count].
  rewrite !length_app, length_map.
  split; [|split].
  - unfold size_t, wrap. rewrite Z.mod_small by lia. lia.
  - rewrite Hit, His. unfold size_t, wrap.
    rewrite <- Zplus_mod. f_equal. lia.
  - apply Forall_app. split.
    + eapply Forall_impl; [exact Hrt|]. cbn beta. intros index Hi. lia.
    + apply Forall_forall. intros moved Hm.
      apply list_elem_of_In, in_map_iff in Hm as (index & <- & Hin).
      apply list_elem_of_In in Hin.
      pose proof (proj1 (Forall_forall _ _) Hrs index Hin) as Hi.
      cbn beta in Hi. unfold uint16, wrap.
      pose proof (Z.mod_pos_bound
                    (Z.of_nat (length (vertices target)) + index) (2 ^ 16)
                    ltac:(reflexivity)) as Hpos.
      pose proof (Z.mod_le (Z.of_nat (length (vertices target)) + index)
                    (2 ^ 16) ltac:(lia) ltac:(reflexivity)) as Hle.
      lia.
Qed.

(** Within 65536 vertices the merged batch draws what the target drew,
    then what the source drew. *)
Lemma drawn_appended (target source : RenderBatch) :
  batch_consistent target -> batch_consistent source ->
  vertex_count target + vertex_count source <= 65536 ->
  drawn (appended target source) = drawn target ++ drawn source.
Proof.
  intros (Hvt & _ & Hrt) (Hvs & _ & Hrs) Hroom.
  unfold drawn, appended. cbn [vertices indices].
  rewrite fmap_app. f_equal.
  - apply Forall_fmap_ext. eapply Forall_impl; [exact Hrt|].
    cbn beta. intros index Hi. apply lookup_app_l. lia.
  - change (List.map ?g ?l) with (g <$> l). rewrite <- list_fmap_compose.
    apply Forall_fmap_ext. eapply Forall_impl; [exact Hrs|].
    cbn beta. intros index Hi. unfold compose.
    assert (uint16 (Z.of_nat (length (vertices target)) + index)
            = Z.of_nat (length (vertices target)) + index) as ->.
    { unfold uint16, wrap. apply Z.mod_small.
      change (2 ^ 16) with 65536. lia. }
    rewrite lookup_app_r by lia. f_equal. lia.
Qed.

(** The pass so far, seen from the state [r0] it started in. *)
Definition optimizing (r0 r : BatchRenderer) : Prop :=
  well_formed r /\
  m_max_vertices_per_batch r = m_max_vertices_per_batch r0 /\
  m_batch_merging_enabled r = m_batch_merging_enabled r0 /\
  total_vertices (objects r) (m_render_order r)
  = total_vertices (objects r0) (m_render_order r0) /\
  (forall p, p ∈ m_render_order r -> p ∈ m_render_order r0) /\
  all_vertices r ≡ₚ all_vertices r0 /\
  (render_consistent r0 ->
   render_consistent r /\
   (m_max_vertices_per_batch r0 <= 65536 -> all_drawn r ≡ₚ all_drawn r0)) /\
  exists new,
    merges r = merges r0 ++ new /\
    Forall (sound_merge (m_max_vertices_per_batch r0)) new /\
    batches_merged r
    = Nat.iter (length new) (fun n => uint64 (n + 1)) (batches_merged r0).

Lemma optimizing_start (r : BatchRenderer) : well_formed r -> optimizing r r.
Proof.
  intros H. unfold optimizing.
  split; [exact H|]. split; [reflexivity|]. split; [reflexivity|].
  split; [reflexivity|]. split; [auto|]. split; [reflexivity|].
  split; [intros Hc; split; [exact Hc|reflexivity]|].
  exists []. rewrite app_nil_r. repeat split; auto.
Qed.

Lemma canMergeBatches_true (r : BatchRenderer) (b1 b2 : RenderBatch) :
  canMergeBatches r b1 b2 = true ->
  key_of b1 = key_of b2 /\
  size_t (vertex_count b1 + vertex_count b2) <= m_max_vertices_per_batch r.
Proof.
  unfold canMergeBatches, key_of. intros H.
  apply andb_prop in H as [H H5]. apply andb_prop in H as [H H4].
  apply andb_prop in H as [H H3]. apply andb_prop in H as [H1 H2].
  apply Z.eqb_eq in H1, H2, H3, H4. apply Z.leb_le in H5.
  split; [|exact H5]. rewrite H1, H2, H3, H4. reflexivity.
Qed.

Lemma merge_step_optimizing (r0 r : BatchRenderer) (i j pi pj : nat)
    (target source : RenderBatch) :
  optimizing r0 r ->
  (i < j)%nat ->
  m_render_order r !! i = Some pi ->
  m_render_order r !! j = Some pj ->
  objects r !! pi = Some target ->
  objects r !! pj = Some source ->
  canMergeBatches r target source = true ->
  optimizing r0 (merge_step r j pi pj target source) /\
  length (m_render_order (merge_step r j pi pj target source))
  = (length (m_render_order r) - 1)%nat.
Proof.
  intros (Hwf & Hmax & Hen & Htot & Hsub & Hverts & Hcons
          & new & Hlog & Hsound & Hcount)
         Hij Hi Hj Ht Hs Hcan.
  destruct Hwf as (Hnd & Hvalid & Hnonneg & Hfit & Hlen).
  assert (Hne : pi <> pj).
  { intros ->. pose proof (NoDup_lookup _ _ _ _ Hnd Hi Hj). lia. }
  pose proof (Forall_lookup_1 _ _ _ _ Hnonneg Ht) as Ht0.
  pose proof (Forall_lookup_1 _ _ _ _ Hnonneg Hs) as Hs0.
  cbn beta in Ht0, Hs0.
  (* the render order without the source *)
  assert (Hi' : delete j (m_render_order r) !! i = Some pi).
  { rewrite list_lookup_delete_lt by exact Hij. exact Hi. }
  pose proof (total_vertices_delete (objects r) _ j pj source Hj Hs) as Hdel.
  pose proof (total_vertices_delete (objects r) _ i pi target Hi' Ht) as Hdel'.
  pose proof (total_vertices_nonneg (objects r)
                (delete i (delete j (m_render_order r))) Hnonneg) as Hrest.
  assert (Hroom : 0 <= vertex_count target + vertex_count source < 2 ^ 64) by lia.
  apply canMergeBatches_true in Hcan as [Hkey Hcap].
  unfold size_t, wrap in Hcap. rewrite Z.mod_small in Hcap by exact Hroom.
  assert (Hvc : vertex_count (appended target source)
                = vertex_count target + vertex_count source).
  { cbn. unfold size_t, wrap. apply Z.mod_small. exact Hroom. }
  (* the objects after the step *)
  assert (Hpj1 : <[pi := appended target source]> (objects r) !! pj
                 = Some source).
  { rewrite list_lookup_insert_ne by exact Hne. exact Hs. }
  unfold merge_step. rewrite Hpj1.
  set (objects1 := <[pi := appended target source]> (objects r)).
  set (objects2 := <[pj := RenderBatch_clear source]> objects1).
  assert (Hnd' : NoDup (delete j (m_render_order r))).
  { eapply sublist_NoDup; [exact Hnd|apply sublist_delete]. }
  assert (Hgone : pj ∉ delete j (m_render_order r))
    by (apply not_elem_of_delete_NoDup; assumption).
  assert (Htot' : total_vertices objects2 (delete j (m_render_order r))
                  = total_vertices (objects r) (m_render_order r)).
  { unfold objects2.
    rewrite total_vertices_insert_other by exact Hgone.
    unfold objects1.
    rewrite (total_vertices_insert_one _ pi target)
      by (try assumption; eapply list_elem_of_lookup_2; exact Hi').
    rewrite Hvc. lia. }
  (* what is gathered from the batches after the step *)
  assert (Hgather : forall (A : Type) (f : RenderBatch -> list A),
            f (appended target source) = f target ++ f source ->
            gathered f objects2 (delete j (m_render_order r))
            ≡ₚ gathered f (objects r) (m_render_order r)).
  { intros A f Hf. unfold objects2.
    rewrite gathered_insert_other by exact Hgone.
    unfold objects1.
    rewrite (gathered_insert_at f (objects r) _ i pi target _ Hnd' Hi' Ht).
    rewrite (gathered_delete f (objects r) _ j pj source Hj Hs).
    rewrite (gathered_delete f (objects r) _ i pi target Hi' Ht).
    rewrite Hf, !app_assoc. apply Permutation_app_tail.
    apply Permutation_app_comm. }
  (* the batches of the render order after the step *)
  assert (Hafter : forall p b,
            p ∈ delete j (m_render_order r) -> objects2 !! p = Some b ->
            (p = pi /\ b = appended target source) \/
            (p <> pi /\ p ∈ m_render_order r /\ objects r !! p = Some b)).
  { intros p b Hp Hb.
    assert (p <> pj) by (intros ->; contradiction).
    unfold objects2 in Hb. rewrite list_lookup_insert_ne in Hb by congruence.
    unfold objects1 in Hb.
    destruct (decide (p = pi)) as [->|Hpi].
    - left. split; [reflexivity|].
      rewrite list_lookup_insert_eq in Hb
        by (eapply lookup_lt_Some; exact Ht).
      congruence.
    - right. rewrite list_lookup_insert_ne in Hb by congruence.
      split; [exact Hpi|]. split; [|exact Hb].
      eapply elem_of_delete_orig. exact Hp. }
  split; [|apply length_delete; eauto].
  unfold optimizing, well_formed, all_vertices, all_drawn, render_consistent.
  cbn [m_render_order objects m_max_vertices_per_batch
       m_batch_merging_enabled merges batches_merged].
  split; [split; [|split; [|split; [|split]]]|].
  - exact Hnd'.
  - apply Forall_delete.
    unfold objects2, objects1. rewrite !length_insert. exact Hvalid.
  - unfold objects2, objects1.
    apply Forall_insert; [apply Forall_insert|]; [exact Hnonneg| |].
    + cbn beta. rewrite Hvc. lia.
    + cbn. lia.
  - rewrite Htot'. exact Hfit.
  - pose proof (length_delete (m_render_order r) j ltac:(eauto)). lia.
  - split; [exact Hmax|]. split; [exact Hen|].
    split; [rewrite Htot'; exact Htot|].
    split; [intros p Hp; apply Hsub; eapply elem_of_delete_orig; exact Hp|].
    split; [rewrite (Hgather _ vertices eq_refl); exact Hverts|].
    split.
    + intros Hc0. destruct (Hcons Hc0) as [Hc Hdrawn].
      assert (Htc : batch_consistent target)
        by (apply (Hc pi); [eapply list_elem_of_lookup_2; exact Hi|exact Ht]).
      assert (Hsc : batch_consistent source)
        by (apply (Hc pj); [eapply list_elem_of_lookup_2; exact Hj|exact Hs]).
      split.
      * intros p b Hp Hb.
        destruct (Hafter p b Hp Hb) as [[-> ->]|(_ & Hp' & Hb')].
        -- apply batch_consistent_appended; [exact Htc|exact Hsc|lia].
        -- exact (Hc p b Hp' Hb').
      * intros H16.
        rewrite (Hgather _ drawn); [exact (Hdrawn H16)|].
        apply drawn_appended; [exact Htc|exact Hsc|lia].
    + exists (new ++ [ {| merge_target := target; merge_source := source;
                          merge_result := appended target source |} ]).
      split; [rewrite Hlog, app_assoc; reflexivity|].
      split.
      * apply Forall_app. split; [exact Hsound|].
        constructor; [|constructor].
        unfold sound_merge. cbn [merge_target merge_source merge_result].
        rewrite Hvc.
        split; [exact Hkey|]. split; [reflexivity|]. split; [reflexivity|].
        split; [lia|]. split; reflexivity.
      * rewrite length_app. cbn [length]. rewrite Nat.add_1_r.
        cbn [Nat.iter nat_rect]. rewrite Hcount. reflexivity.
Qed.


Lemma inner_loop_optimizing (r0 : BatchRenderer) (fuel i j : nat)
    (r : BatchRenderer) :
  optimizing r0 r ->
  (i < j)%nat ->
  (i < length (m_render_order r))%nat ->
  (length (m_render_order r) - j <= fuel)%nat ->
  exists r',
    inner_loop fuel i j r = Some r' /\ optimizing r0 r' /\
    (i < length (m_render_order r'))%nat /\
    (length (m_render_order r') <= length (m_render_order r))%nat.
Proof.
  revert j r. induction fuel as [|fuel IH]; intros j r Hopt Hij Hi Hfuel.
  - exists r. cbn [inner_loop].
    assert ((j <? length (m_render_order r))%nat = false) as ->
      by (apply Nat.ltb_ge; lia).
    auto.
  - cbn [inner_loop].
    destruct (j <? length (m_render_order r))%nat eqn:Ej;
      [|exists r; auto].
    apply Nat.ltb_lt in Ej.
    destruct (lookup_lt_is_Some_2 (m_render_order r) i Hi) as [pi Hpi].
    destruct (lookup_lt_is_Some_2 (m_render_order r) j Ej) as [pj Hpj].
    rewrite Hpi, Hpj.
    pose proof Hopt as ((_ & Hvalid & _) & _).
    pose proof (Forall_lookup_1 _ _ _ _ Hvalid Hpi) as Hpi_ok.
    pose proof (Forall_lookup_1 _ _ _ _ Hvalid Hpj) as Hpj_ok.
    cbn beta in Hpi_ok, Hpj_ok.
    destruct (lookup_lt_is_Some_2 (objects r) pi Hpi_ok) as [target Ht].
    destruct (lookup_lt_is_Some_2 (objects r) pj Hpj_ok) as [source Hs].
    rewrite Ht, Hs.
    destruct (canMergeBatches r target source) eqn:Ecan.
    + destruct (merge_step_optimizing r0 r i j pi pj target source
                  Hopt Hij Hpi Hpj Ht Hs Ecan) as [Hopt' Hlen'].
      destruct (IH j (merge_step r j pi pj target source) Hopt' Hij
                  ltac:(lia) ltac:(lia)) as (r' & E & Hr' & Hi' & Hle).
      exists r'. split; [exact E|]. split; [exact Hr'|].
      split; [exact Hi'|]. lia.
    + destruct (IH (S j) r Hopt ltac:(lia) Hi ltac:(lia))
        as (r' & E & Hr' & Hi' & Hle).
      exists r'. auto.
Qed.

Lemma outer_loop_optimizing (r0 : BatchRenderer) (fuel i : nat)
    (r : BatchRenderer) :
  optimizing r0 r ->
  (i <= length (m_render_order r))%nat ->
  (1 <= length (m_render_order r))%nat ->
  (length (m_render_order r) - i <= fuel)%nat ->
  exists r', outer_loop fuel i r = Some r' /\ optimizing r0 r'.
Proof.
  revert i r. induction fuel as [|fuel IH]; intros i r Hopt Hi Hone Hfuel;
    cbn [outer_loop];
    pose proof Hopt as ((_ & _ & _ & _ & Hlen) & _);
    assert (Hbound : size_t (Z.of_nat (length (m_render_order r)) - 1)
                     = Z.of_nat (length (m_render_order r)) - 1)
      by (unfold size_t, wrap; apply Z.mod_small; lia);
    rewrite Hbound.
  - assert ((Z.of_nat i <? Z.of_nat (length (m_render_order r)) - 1) = false)
      as -> by (apply Z.ltb_ge; lia).
    exists r. auto.
  - destruct (Z.of_nat i <? Z.of_nat (length (m_render_order r)) - 1) eqn:Ei;
      [|exists r; auto].
    apply Z.ltb_lt in Ei.
    destruct (inner_loop_optimizing r0 (length (m_render_order r)) i (S i) r
                Hopt ltac:(lia) ltac:(lia) ltac:(lia))
      as (r1 & E1 & Hopt1 & Hi1 & Hle1).
    rewrite E1.
    apply IH; [exact Hopt1|lia|lia|lia].
Qed.

Lemma total_vertices_counts_vertices (r : BatchRenderer) :
  render_consistent r ->
  total_vertices (objects r) (m_render_order r)
  = Z.of_nat (length (all_vertices r)).
Proof.
  unfold render_consistent, all_vertices.
  generalize (m_render_order r) as ptrs.
  induction ptrs as [|p ptrs IH]; intros Hc; [reflexivity|].
  rewrite total_vertices_cons, gathered_cons.
  rewrite IH by (intros q b Hq; apply Hc; right; exact Hq).
  destruct (objects r !! p) as [b|] eqn:E; [|reflexivity].
  destruct (Hc p b ltac:(left) E) as (Hv & _).
  rewrite Hv, length_app. lia.
Qed.

(** C7.  On a renderer whose render order names each batch once, the pass
    returns, and afterwards: the vertex counts of the batches left in the
    render order add up to what they added up to before, and the vertices
    these batches hold are the vertices held before, each as often as
    before; every merge the pass made combined two batches with the same
    (texture id, layer id, blend mode, tint) key into a batch of that key,
    whose vertices are the target's followed by the source's and whose
    indices are the target's followed by the source's moved up; and no
    batch produced by a merge holds more vertices than
    [m_max_vertices_per_batch].  When the counters of the batches counted
    their vectors and the indices named vertices before, they do so
    afterwards, the sum of the vertex counts is the number of vertices
    held, and, with a capacity within the 65536 vertices a 16-bit index
    can name, the batches draw the same vertices as before.  The counter
    [batches_merged] went up by one per merge, and no batch was added to
    the render order. *)
Theorem optimizeBatches_preserves_geometry (r : BatchRenderer) :
  well_formed r ->
  exists r',
    optimizeBatches r = Some r' /\
    well_formed r' /\
    total_vertices (objects r') (m_render_order r')
    = total_vertices (objects r) (m_render_order r) /\
    (forall p, p ∈ m_render_order r' -> p ∈ m_render_order r) /\
    all_vertices r' ≡ₚ all_vertices r /\
    (render_consistent r ->
     render_consistent r' /\
     total_vertices (objects r') (m_render_order r')
     = Z.of_nat (length (all_vertices r')) /\
     (m_max_vertices_per_batch r <= 65536 -> all_drawn r' ≡ₚ all_drawn r)) /\
    exists new,
      merges r' = merges r ++ new /\
      Forall (sound_merge (m_max_vertices_per_batch r)) new /\
      batches_merged r'
      = Nat.iter (length new) (fun n => uint64 (n + 1)) (batches_merged r).
Proof.
  intros Hwf.
  assert (Hgoal : exists r', optimizeBatches r = Some r' /\ optimizing r r').
  { unfold optimizeBatches.
    destruct (negb (m_batch_merging_enabled r)
              || (length (m_render_order r) <? 2)%nat) eqn:Eearly.
    - exists r. split; [reflexivity|]. apply optimizing_start. exact Hwf.
    - apply orb_false_elim in Eearly as [_ Hlen]. apply Nat.ltb_ge in Hlen.
      apply outer_loop_optimizing;
        [apply optimizing_start; exact Hwf|lia|lia|lia]. }
  destruct Hgoal
    as (r' & E & Hwf' & _ & _ & Htot & Hsub & Hverts & Hcons & Hlog).
  exists r'. split; [exact E|]. split; [exact Hwf'|]. split; [exact Htot|].
  split; [exact Hsub|]. split; [exact Hverts|]. split; [|exact Hlog].
  intros Hc. destruct (Hcons Hc) as [Hc' Hdrawn].
  split; [exact Hc'|]. split; [|exact Hdrawn].
  apply total_vertices_counts_vertices. exact Hc'.
Qed.

End BatchFacts.

Section BatchExample.

Import Types Batching.

Definition corner : TexturedVertex :=
  {| vx := 0; vy := 0; vu := 0; vv := 0; vcolor := 0xFFFFFFFF |}.

(** A batch of [quads] quads with the given texture, on layer 0. *)
Definition quad_batch (texture : Z) (quads : nat) : RenderBatch :=
  {| texture_id := texture; layer_id := 0; blend_mode := 0; tint := WHITE;
     vertices := replicate (4 * quads) corner;
     indices := replicate (6 * quads) 0;
     vertex_count := Z.of_nat (4 * quads);
     index_count := Z.of_nat (6 * quads) |}.

(** Three batches in the render order; the first and the third share a
    key. *)
Definition three_batches : BatchRenderer :=
  {| m_max_vertices_per_batch := 10000; m_batch_merging_enabled := true;
     objects := [quad_batch 1 1; quad_batch 2 1; quad_batch 1 2];
     m_render_order := [0; 1; 2]%nat;
     batches_merged := 0; merges := [] |}.

Lemma three_batches_well_formed : well_formed three_batches.
Proof.
  unfold well_formed. split; [|split; [|split; [|split]]].
  - apply (bool_decide_unpack _). vm_compute. exact I.
  - repeat constructor.
  - repeat constructor; vm_compute; discriminate.
  - reflexivity.
  - reflexivity.
Defined.

(** The pass merges the third batch into the first. *)
Example three_batches_optimized :
  exists r',
    optimizeBatches three_batches = Some r' /\
    m_render_order r' = [0; 1]%nat /\
    (vertex_count <$> objects r') = [12; 4; 0] /\
    batches_merged r' = 1.
Proof. eexists. split; [vm_compute; reflexivity|]. repeat split. Qed.

(** The counters of the three batches count their vectors. *)
Lemma three_batches_consistent : render_consistent three_batches.
Proof.
  assert (Hone : forall texture quads,
            (quads = 1 \/ quads = 2)%nat ->
            batch_consistent (quad_batch texture quads)).
  { intros texture quads [-> | ->];
      (split; [reflexivity|]; split; [reflexivity|]);
      cbn [quad_batch indices vertices replicate Nat.mul Nat.add length];
      repeat (apply Forall_cons; split; [lia|]); apply Forall_nil; exact I. }
  intros p b _ Hb. unfold three_batches in Hb. cbn [objects] in Hb.
  destruct p as [|[|[|p]]]; cbn in Hb; try discriminate Hb;
    injection Hb as <-; apply Hone; auto.
Qed.

(** Two triangles with one key, in batches of their own: the pass puts
    them into one batch, the second triangle's indices moved up by three,
    and the batch draws the six vertices the two batches drew. *)
Definition vertex_at (x y : Z) : TexturedVertex :=
  {| vx := x; vy := y; vu := 0; vv := 0; vcolor := 0xFFFFFFFF |}.

Definition triangle_batch (a b c : TexturedVertex) (order : list Z)
  : RenderBatch :=
  {| texture_id := 7; layer_id := 1; blend_mode := 0; tint := WHITE;
     vertices := [a; b; c]; indices := order;
     vertex_count := 3; index_count := 3 |}.

Definition two_triangles : BatchRenderer :=
  {| m_max_vertices_per_batch := 10000; m_batch_merging_enabled := true;
     objects :=
       [ triangle_batch (vertex_at 1 1) (vertex_at 2 1) (vertex_at 1 2)
           [0; 1; 2];
         triangle_batch (vertex_at 5 5) (vertex_at 6 5) (vertex_at 5 6)
           [0; 2; 1] ];
     m_render_order := [0; 1]%nat;
     batches_merged := 0; merges := [] |}.

Example two_triangles_optimized :
  exists r',
    optimizeBatches two_triangles = Some r' /\
    m_render_order r' = [0]%nat /\
    (vertices <$> objects r')
    = [ [vertex_at 1 1; vertex_at 2 1; vertex_at 1 2;
         vertex_at 5 5; vertex_at 6 5; vertex_at 5 6]; [] ] /\
    (indices <$> objects r') = [ [0; 1; 2; 3; 5; 4]; [] ] /\
    all_drawn r' = all_drawn two_triangles /\
    all_drawn r'
    = [ Some (vertex_at 1 1); Some (vertex_at 2 1); Some (vertex_at 1 2);
        Some (vertex_at 5 5); Some (vertex_at 5 6); Some (vertex_at 6 5) ].
Proof. eexists. split; [vm_compute; reflexivity|]. repeat split. Qed.

Lemma optimizeBatches_preserves_geometry_witness :
  exists r',
    optimizeBatches three_batches = Some r' /\
    well_formed r' /\
    total_vertices (objects r') (m_render_order r')
    = total_vertices (objects three_batches) (m_render_order three_batches) /\
    (forall p, p ∈ m_render_order r' -> p ∈ m_render_order three_batches) /\
    all_vertices r' ≡ₚ all_vertices three_batches /\
    (render_consistent three_batches ->
     render_consistent r' /\
     total_vertices (objects r') (m_render_order r')
     = Z.of_nat (length (all_vertices r')) /\
     (m_max_vertices_per_batch three_batches <= 65536 ->
      all_drawn r' ≡ₚ all_drawn three_batches)) /\
    exists new,
      merges r' = merges three_batches ++ new /\
      Forall (sound_merge (m_max_vertices_per_batch three_batches)) new /\
      batches_merged r'
      = Nat.iter (length new) (fun n => uint64 (n + 1))
          (batches_merged three_batches).
Proof.
  apply (optimizeBatches_preserves_geometry three_batches).
  exact three_batches_well_formed.
Defined.

End BatchExample.

(* ===================================================================== *)
(** * Part III: further properties of the embedded code                  *)
(* ===================================================================== *)

(** ** More of the protocol helper *)

(** Bounds of the fixed-width types, as numerals. *)
Ltac ranges :=
  unfold in_range in *;
  change (2 ^ 8) with 256 in *;
  change (2 ^ 16) with 65536 in *;
  change (2 ^ 32) with 4294967296 in *;
  change (2 ^ 64) with 18446744073709551616 in *.

(** A closed instance of [in_range]. *)
Ltac closed_range :=
  unfold in_range; split; [vm_compute; discriminate | vm_compute; reflexivity].

Section ProtocolHelpers.

Import Protocol.

Variable host : ByteOrder.

Lemma hton_ntoh (n : nat) (x : Z) :
  0 <= x < 256 ^ Z.of_nat n ->
  load host (encode_be n (decode_be (store host n x))) = x.
Proof.
  intros Hx.
  pose proof (encode_decode_be (store host n x)) as H.
  rewrite length_store in H. rewrite H, load_store.
  apply Z.mod_small. exact Hx.
Qed.

Lemma networkToHost_hostToNetwork (h : MessageHeader) :
  header_typed h -> networkToHost host (hostToNetwork host h) = h.
Proof.
  intros (Hm & Hv & Ht & Hl & Hr & Hc & Hs & Hd & Hts).
  unfold networkToHost, hostToNetwork.
  cbn [magic protocol_version type layer_id reserved client_id sequence
       data_size timestamp].
  rewrite !ntohl_htonl, ntohs_htons, be64toh_htobe64 by assumption.
  destruct h; reflexivity.
Qed.

Lemma hostToNetwork_networkToHost (h : MessageHeader) :
  header_typed h -> hostToNetwork host (networkToHost host h) = h.
Proof.
  intros (Hm & Hv & Ht & Hl & Hr & Hc & Hs & Hd & Hts).
  unfold networkToHost, hostToNetwork, htonl, htons, htobe64, ntohl, ntohs,
    be64toh.
  cbn [magic protocol_version type layer_id reserved client_id sequence
       data_size timestamp].
  rewrite !(hton_ntoh 4), (hton_ntoh 2), (hton_ntoh 8) by assumption.
  destruct h; reflexivity.
Qed.

(** X1.  The two conversions are inverse to each other. *)
Theorem hostToNetwork_networkToHost_inverse (h : MessageHeader) :
  header_typed h ->
  networkToHost host (hostToNetwork host h) = h /\
  hostToNetwork host (networkToHost host h) = h.
Proof.
  intros Hty. split.
  - apply networkToHost_hostToNetwork. exact Hty.
  - apply hostToNetwork_networkToHost. exact Hty.
Qed.


(** The bytes [createMessage] lays out, whatever it is handed. *)
Lemma createMessage_Some (h : MessageHeader) (d : list byte) :
  (Z.to_nat (data_size h) <= length d)%nat ->
  createMessage host h (Some d)
  = header_bytes host (hostToNetwork host h) ++ take (Z.to_nat (data_size h)) d.
Proof.
  intros Hlen. unfold createMessage, memcpy.
  set (hb := header_bytes host (hostToNetwork host h)).
  set (n := Z.to_nat (data_size h)) in *.
  assert (Hhb : length hb = sizeof_MessageHeader) by apply length_header_bytes.
  assert (Hfirst :
    take 0 (replicate (sizeof_MessageHeader + n) x00)
    ++ take sizeof_MessageHeader hb
    ++ drop (0 + sizeof_MessageHeader) (replicate (sizeof_MessageHeader + n) x00)
    = hb ++ replicate n x00).
  { rewrite take_0, take_ge by lia. simpl app at 1.
    rewrite drop_replicate. do 2 f_equal. lia. }
  rewrite Hfirst.
  destruct (data_size h >? 0) eqn:E.
  - rewrite take_app_length' by (symmetry; exact Hhb).
    rewrite drop_ge.
    + rewrite app_nil_r. reflexivity.
    + rewrite length_app, length_replicate. lia.
  - assert (n = 0%nat) as -> by (unfold n; lia).
    rewrite take_0. reflexivity.
Qed.

Lemma createMessage_None (h : MessageHeader) :
  createMessage host h None
  = header_bytes host (hostToNetwork host h)
    ++ replicate (Z.to_nat (data_size h)) x00.
Proof.
  unfold createMessage, memcpy.
  set (hb := header_bytes host (hostToNetwork host h)).
  assert (Hhb : length hb = sizeof_MessageHeader) by apply length_header_bytes.
  rewrite take_0, take_ge by lia. simpl app at 1.
  rewrite drop_replicate. do 2 f_equal. lia.
Qed.

(** X2.  The layout of a message.  The vector [createMessage] returns is the
    32-byte wire header followed by [data_size] payload bytes: the first
    [data_size] bytes found at [data], or zeroes when [data] is null. *)
Theorem createMessage_layout (h : MessageHeader) :
  createMessage host h None
  = header_bytes host (hostToNetwork host h)
    ++ replicate (Z.to_nat (data_size h)) x00 /\
  (forall d,
     (Z.to_nat (data_size h) <= length d)%nat ->
     createMessage host h (Some d)
     = header_bytes host (hostToNetwork host h)
       ++ take (Z.to_nat (data_size h)) d) /\
  (forall data,
     match data with
     | Some d => (Z.to_nat (data_size h) <= length d)%nat
     | None => True
     end ->
     length (createMessage host h data)
     = (sizeof_MessageHeader + Z.to_nat (data_size h))%nat).
Proof.
  split; [apply createMessage_None|].
  split; [apply createMessage_Some|].
  intros [d|] Hd.
  - rewrite createMessage_Some by exact Hd.
    rewrite length_app, length_header_bytes, length_take. lia.
  - rewrite createMessage_None.
    rewrite length_app, length_header_bytes, length_replicate. reflexivity.
Qed.

End ProtocolHelpers.

Section WireFormat.

Import Protocol.

(** X3.  Headers cross byte orders.  Whatever the byte order of the machine
    that runs [createMessage], the first 32 bytes of the message are the
    header's fields in big-endian order, and a machine of either byte order
    reads the header back with [memcpy] and [networkToHost]. *)
Theorem header_crosses_byte_orders (sender receiver : ByteOrder)
    (h : MessageHeader) (data : option (list byte)) :
  header_typed h ->
  match data with
  | Some d => (Z.to_nat (data_size h) <= length d)%nat
  | None => True
  end ->
  slice 0 sizeof_MessageHeader (createMessage sender h data)
  = encode_be 4 (magic h) ++ encode_be 4 (protocol_version h) ++
    [byte_of_Z (type h)] ++ [byte_of_Z (layer_id h)] ++
    encode_be 2 (reserved h) ++ encode_be 4 (client_id h) ++
    encode_be 4 (sequence h) ++ encode_be 4 (data_size h) ++
    encode_be 8 (timestamp h) /\
  networkToHost receiver
    (header_of_bytes receiver
       (slice 0 sizeof_MessageHeader (createMessage sender h data))) = h.
Proof.
  intros Hty Hdata.
  assert (Himage :
    slice 0 sizeof_MessageHeader (createMessage sender h data)
    = header_bytes sender (hostToNetwork sender h)).
  { destruct data as [d|].
    - rewrite createMessage_Some by exact Hdata.
      apply slice_app_hit. symmetry. apply length_header_bytes.
    - rewrite createMessage_None.
      apply slice_app_hit. symmetry. apply length_header_bytes. }
  rewrite Himage. split; [apply header_bytes_hostToNetwork|].
  rewrite (header_bytes_hostToNetwork sender).
  rewrite <- (header_bytes_hostToNetwork receiver).
  rewrite <- (app_nil_r (header_bytes receiver (hostToNetwork receiver h))).
  apply header_roundtrip. exact Hty.
Qed.

End WireFormat.

Section Handshake.

Import Protocol.

Variable host : ByteOrder.

(** Reading fields back out of a struct's bytes. *)
Ltac read_fields :=
  rewrite <- ?app_assoc;
  repeat match goal with
  | |- context [slice ?off ?n (?a ++ ?r)] =>
      first
        [ rewrite (slice_app_hit a r n)
            by (rewrite ?length_store, ?length_encode_be; reflexivity)
        | rewrite (slice_app_skip a r off n)
            by (rewrite ?length_store, ?length_encode_be; simpl; lia);
          rewrite ?length_store, ?length_encode_be; cbn [length Nat.sub] ]
  end.

Lemma load_store_small (n : nat) (x : Z) :
  0 <= x < 256 ^ Z.of_nat n -> load host (store host n x) = x.
Proof. intros H. rewrite load_store. apply Z.mod_small. exact H. Qed.

Lemma length_ServerHello_bytes (s : ServerHello) :
  length (ServerHello_bytes host s) = sizeof_ServerHello.
Proof.
  unfold ServerHello_bytes. rewrite !length_app, !length_store. reflexivity.
Qed.

Lemma ServerHello_at_bytes (s : ServerHello) (rest : list byte) :
  ServerHello_typed s ->
  ServerHello_at host (ServerHello_bytes host s ++ rest) = s.
Proof.
  intros (H1 & H2 & H3 & H4 & H5).
  unfold ServerHello_at, ServerHello_bytes. read_fields.
  rewrite !(load_store_small 4) by assumption.
  destruct s; reflexivity.
Qed.

Lemma createHeader_typed (now_us ty cid seq size layer : Z) :
  in_range 64 now_us -> in_range 8 ty -> in_range 32 cid ->
  in_range 32 seq -> in_range 32 size -> in_range 8 layer ->
  header_typed (createHeader now_us ty cid seq size layer).
Proof.
  unfold header_typed, createHeader, PROTOCOL_VERSION.
  cbn [magic protocol_version type layer_id reserved client_id sequence
       data_size timestamp].
  ranges. intros. repeat split; lia.
Qed.

Lemma createServerHello_typed (cid version : Z) :
  in_range 32 cid -> in_range 32 version ->
  ServerHello_typed (createServerHello cid version).
Proof.
  unfold ServerHello_typed, createServerHello.
  cbn [server_version max_clients assigned_client_id server_capabilities
       hello_max_layers].
  ranges. intros Hc Hv. repeat split; try lia;
    first [vm_compute; discriminate | vm_compute; reflexivity].
Qed.

(** X4.  The handshake reply survives the wire.  A SERVER_HELLO built as
    [handleClientHello] builds it ([createHeader] with
    [sizeof(ServerHello)], [serialize]) is read back by [deserialize] as the
    same header and the same struct, whatever lies behind the struct in
    memory; the reply [createServerHello] makes announces 32 clients, 255
    layers and the capability bits 0x7F.  A buffer shorter than header plus
    struct is refused, and so is any message whose header gives another
    payload size than [sizeof(ServerHello)]. *)
Theorem serialize_deserialize_ServerHello
    (now_us cid seq layer : Z) (hello : ServerHello) (behind : list byte) :
  in_range 64 now_us -> in_range 32 cid -> in_range 32 seq ->
  in_range 8 layer -> ServerHello_typed hello ->
  let header :=
    createHeader now_us SERVER_HELLO cid seq (Z.of_nat sizeof_ServerHello)
                 layer in
  deserialize_ServerHello host
    (serialize host header (ServerHello_bytes host hello ++ behind))
  = Some (header, hello) /\
  createServerHello cid PROTOCOL_VERSION
  = {| server_version := 1; max_clients := 32; assigned_client_id := cid;
       server_capabilities := 0x7F; hello_max_layers := 255 |} /\
  (forall buffer,
     (length buffer < sizeof_MessageHeader + sizeof_ServerHello)%nat ->
     deserialize_ServerHello host buffer = None) /\
  (forall size object,
     in_range 32 size -> size <> Z.of_nat sizeof_ServerHello ->
     (Z.to_nat size <= length object)%nat ->
     deserialize_ServerHello host
       (serialize host
          (createHeader now_us SERVER_HELLO cid seq size layer) object)
     = None).
Proof.
  intros Hnow Hcid Hseq Hlayer Hhello header.
  assert (Hty : forall size, in_range 32 size ->
            header_typed (createHeader now_us SERVER_HELLO cid seq size layer)).
  { intros size Hsize. apply createHeader_typed; try assumption.
    closed_range. }
  split; [|split; [reflexivity|split]].
  - unfold deserialize_ServerHello, deserialize, serialize.
    assert (Hds : Z.to_nat (data_size header) = sizeof_ServerHello)
      by reflexivity.
    rewrite createMessage_Some
      by (rewrite Hds, length_app, length_ServerHello_bytes; lia).
    rewrite Hds.
    rewrite take_app_length' by (symmetry; apply length_ServerHello_bytes).
    set (hb := header_bytes host (hostToNetwork host header)).
    assert (Hhb : length hb = sizeof_MessageHeader)
      by apply length_header_bytes.
    assert ((length (hb ++ ServerHello_bytes host hello)
             <? sizeof_MessageHeader + sizeof_ServerHello)%nat = false) as ->.
    { apply Nat.ltb_ge. rewrite length_app, Hhb, length_ServerHello_bytes.
      lia. }
    rewrite (slice_app_hit hb) by (symmetry; exact Hhb).
    unfold hb.
    rewrite <- (app_nil_r (header_bytes host (hostToNetwork host header))).
    rewrite header_roundtrip by (apply Hty; closed_range).
    assert (validateHeader header = true) as -> by reflexivity.
    cbn [negb orb data_size header createHeader].
    rewrite Z.eqb_refl. cbn [negb].
    rewrite app_nil_r. fold hb.
    rewrite (slice_app_skip hb) by lia.
    rewrite Hhb, Nat.sub_diag.
    unfold slice. rewrite drop_0, take_ge
      by (rewrite length_ServerHello_bytes; lia).
    rewrite <- (app_nil_r (ServerHello_bytes host hello)).
    rewrite ServerHello_at_bytes by exact Hhello. reflexivity.
  - intros buffer Hshort.
    unfold deserialize_ServerHello, deserialize.
    apply Nat.ltb_lt in Hshort. rewrite Hshort. reflexivity.
  - intros size object Hsize Hne Hobj.
    unfold deserialize_ServerHello, deserialize, serialize.
    destruct (_ <? _)%nat; [reflexivity|].
    rewrite createMessage_Some by exact Hobj.
    rewrite (slice_app_hit (header_bytes host _))
      by (symmetry; apply length_header_bytes).
    rewrite <- (app_nil_r (header_bytes host (hostToNetwork host _))).
    rewrite header_roundtrip by (apply Hty; exact Hsize).
    cbn [data_size createHeader].
    assert ((size =? Z.of_nat sizeof_ServerHello) = false) as ->
      by (apply Z.eqb_neq; exact Hne).
    cbn [negb]. rewrite orb_true_r. reflexivity.
Qed.

End Handshake.

Section HandshakeExample.

Import Protocol.

Lemma serialize_deserialize_ServerHello_witness :
  let header :=
    createHeader 1000 SERVER_HELLO 7 0 (Z.of_nat sizeof_ServerHello) 0 in
  deserialize_ServerHello LittleEndian
    (serialize LittleEndian header
       (ServerHello_bytes LittleEndian (createServerHello 7 PROTOCOL_VERSION)
        ++ [x2a]))
  = Some (header, createServerHello 7 PROTOCOL_VERSION) /\
  createServerHello 7 PROTOCOL_VERSION
  = {| server_version := 1; max_clients := 32; assigned_client_id := 7;
       server_capabilities := 0x7F; hello_max_layers := 255 |} /\
  (forall buffer,
     (length buffer < sizeof_MessageHeader + sizeof_ServerHello)%nat ->
     deserialize_ServerHello LittleEndian buffer = None) /\
  (forall size object,
     in_range 32 size -> size <> Z.of_nat sizeof_ServerHello ->
     (Z.to_nat size <= length object)%nat ->
     deserialize_ServerHello LittleEndian
       (serialize LittleEndian
          (createHeader 1000 SERVER_HELLO 7 0 size 0) object)
     = None).
Proof.
  apply (serialize_deserialize_ServerHello LittleEndian 1000 7 0 0
           (createServerHello 7 PROTOCOL_VERSION) [x2a]).
  - closed_range.
  - closed_range.
  - closed_range.
  - closed_range.
  - unfold ServerHello_typed; repeat split; vm_compute; congruence.
Defined.

End HandshakeExample.

Section ErrorResponses.

Import Protocol.

Lemma c_str_app_nul (l rest : list byte) :
  c_str (l ++ x00 :: rest) = c_str l.
Proof.
  induction l as [|b l IH]; [reflexivity|].
  cbn [app c_str]. destruct (Byte.eqb b x00); [reflexivity|].
  rewrite IH. reflexivity.
Qed.

Lemma length_c_str (l : list byte) : (length (c_str l) <= length l)%nat.
Proof.
  induction l as [|b l IH]; [reflexivity|].
  cbn [c_str]. destruct (Byte.eqb b x00); cbn [length]; lia.
Qed.

(** X5.  An error response never overflows its message field.  Whatever the
    array held before and however long the message is, the field keeps its
    128 bytes, and the C string it carries is the message cut at 127
    bytes. *)
Theorem createErrorResponse_terminated
    (uninit message : list byte) (code seq : Z) :
  length uninit = sizeof_error_message ->
  let response := createErrorResponse uninit code message seq in
  length (error_message response) = sizeof_error_message /\
  c_str (error_message response) = c_str (take 127 message) /\
  (length (c_str (error_message response)) <= 127)%nat /\
  error_code response = code /\ original_sequence response = seq.
Proof.
  intros Hlen response.
  set (n := Nat.min (length message) (sizeof_error_message - 1)).
  assert (Hn : (n <= 127)%nat) by (unfold n, sizeof_error_message; lia).
  assert (Htake : take n message = take 127 message).
  { unfold n, sizeof_error_message.
    destruct (le_lt_dec (length message) 127) as [Hle|Hgt].
    - rewrite Nat.min_l by lia. rewrite !take_ge by lia. reflexivity.
    - rewrite Nat.min_r by lia. reflexivity. }
  assert (Hltake : length (take n message) = n).
  { rewrite length_take. unfold n. lia. }
  destruct (drop n uninit) as [|u rest] eqn:Edrop.
  { apply (f_equal length) in Edrop. rewrite length_drop, Hlen in Edrop.
    unfold sizeof_error_message in Edrop. cbn [length] in Edrop. lia. }
  assert (Hfield : error_message response = take n message ++ x00 :: rest).
  { unfold response, createErrorResponse, memcpy. fold n.
    cbn [error_message]. rewrite take_0, Nat.add_0_l, Edrop. cbn [app].
    rewrite insert_app_r_alt by lia.
    rewrite Hltake, Nat.sub_diag. reflexivity. }
  assert (Hrest : length rest = (127 - n)%nat).
  { apply (f_equal length) in Edrop. rewrite length_drop, Hlen in Edrop.
    unfold sizeof_error_message in Edrop. cbn [length] in Edrop. lia. }
  rewrite Hfield, c_str_app_nul, Htake.
  split; [|split; [reflexivity|split; [|split; reflexivity]]].
  - rewrite <- Htake, length_app, Hltake. cbn [length]. rewrite Hrest.
    unfold sizeof_error_message. lia.
  - pose proof (length_c_str (take 127 message)) as Hc.
    rewrite length_take in Hc. lia.
Qed.

Lemma createErrorResponse_terminated_witness :
  let response :=
    createErrorResponse (replicate 128 xff) 7 (replicate 300 x41) 9 in
  length (error_message response) = sizeof_error_message /\
  c_str (error_message response) = c_str (take 127 (replicate 300 x41)) /\
  (length (c_str (error_message response)) <= 127)%nat /\
  error_code response = 7 /\ original_sequence response = 9.
Proof.
  apply (createErrorResponse_terminated (replicate 128 xff)
           (replicate 300 x41) 7 9).
  reflexivity.
Defined.

End ErrorResponses.

Section WireFormatExamples.

Import Protocol.

Lemma ping_header_typed : header_typed ping_header.
Proof. unfold header_typed, in_range; repeat split; vm_compute; congruence. Defined.

Lemma hostToNetwork_networkToHost_inverse_witness :
  networkToHost LittleEndian (hostToNetwork LittleEndian ping_header)
  = ping_header /\
  hostToNetwork LittleEndian (networkToHost LittleEndian ping_header)
  = ping_header.
Proof.
  apply (hostToNetwork_networkToHost_inverse LittleEndian ping_header).
  exact ping_header_typed.
Defined.

Lemma header_crosses_byte_orders_witness :
  slice 0 sizeof_MessageHeader
    (createMessage LittleEndian ping_header (Some ping_payload))
  = encode_be 4 (magic ping_header)
    ++ encode_be 4 (protocol_version ping_header) ++
    [byte_of_Z (type ping_header)] ++ [byte_of_Z (layer_id ping_header)] ++
    encode_be 2 (reserved ping_header) ++ encode_be 4 (client_id ping_header) ++
    encode_be 4 (sequence ping_header) ++ encode_be 4 (data_size ping_header) ++
    encode_be 8 (timestamp ping_header) /\
  networkToHost BigEndian
    (header_of_bytes BigEndian
       (slice 0 sizeof_MessageHeader
          (createMessage LittleEndian ping_header (Some ping_payload))))
  = ping_header.
Proof.
  apply (header_crosses_byte_orders LittleEndian BigEndian ping_header
           (Some ping_payload)).
  - exact ping_header_typed.
  - vm_compute. lia.
Defined.

End WireFormatExamples.

(** ** Message builders and parsers of Serialization.cpp *)

Section SerializationFacts.

Import Protocol Types Serialization.

Variable host : ByteOrder.

Ltac read_fields :=
  rewrite <- ?app_assoc;
  repeat match goal with
  | |- context [slice ?off ?n (?a ++ ?r)] =>
      first
        [ rewrite (slice_app_hit a r n)
            by (rewrite ?length_store, ?length_encode_be; reflexivity)
        | rewrite (slice_app_skip a r off n)
            by (rewrite ?length_store, ?length_encode_be; simpl; lia);
          rewrite ?length_store, ?length_encode_be; cbn [length Nat.sub Nat.add] ]
  end.

(** A copy that lands right behind what has been written so far. *)
Lemma memcpy_behind (written old src : list byte) (off n : nat) :
  length written = off -> length src = n ->
  memcpy (written ++ old) off src n = written ++ src ++ drop n old.
Proof.
  intros Hw Hs. unfold memcpy.
  rewrite take_app_length' by (symmetry; exact Hw).
  rewrite take_ge by lia.
  rewrite <- drop_drop, drop_app_length' by (symmetry; exact Hw).
  reflexivity.
Qed.

Lemma memcpy_start (old src : list byte) (n : nat) :
  length src = n -> memcpy old 0 src n = src ++ drop n old.
Proof. intros Hs. apply (memcpy_behind [] old src 0 n eq_refl Hs). Qed.

Lemma length_Point_bytes (p : Point) : length (Point_bytes host p) = 8%nat.
Proof. unfold Point_bytes. rewrite length_app, !length_store. reflexivity. Qed.

Lemma length_DrawTextData_bytes (d : DrawTextData) :
  length (DrawTextData_bytes host d) = sizeof_DrawTextData.
Proof.
  unfold DrawTextData_bytes, Point_bytes.
  rewrite !length_app, !length_store. reflexivity.
Qed.

Lemma length_DrawTexturedQuadsData_bytes (d : DrawTexturedQuadsData) :
  length (DrawTexturedQuadsData_bytes host d) = sizeof_DrawTexturedQuadsData.
Proof.
  unfold DrawTexturedQuadsData_bytes.
  rewrite !length_app, !length_store. reflexivity.
Qed.

Lemma length_TexturedVertex_bytes (v : TexturedVertex) :
  length (TexturedVertex_bytes host v) = sizeof_TexturedVertex.
Proof.
  unfold TexturedVertex_bytes. rewrite !length_app, !length_store. reflexivity.
Qed.

Lemma length_TexturedVertices_bytes (vs : list TexturedVertex) :
  length (TexturedVertices_bytes host vs)
  = (length vs * sizeof_TexturedVertex)%nat.
Proof.
  unfold TexturedVertices_bytes.
  induction vs as [|v vs IH]; [reflexivity|].
  cbn [List.map concat length]. rewrite length_app, IH.
  rewrite length_TexturedVertex_bytes. lia.
Qed.

Lemma DrawTextData_at_bytes (d : DrawTextData) (rest : list byte) :
  DrawTextData_typed d ->
  DrawTextData_at host (DrawTextData_bytes host d ++ rest) = d.
Proof.
  intros (H1 & H2 & (H3 & H4) & H5 & H6 & H7).
  unfold DrawTextData_at, DrawTextData_bytes, Point_at, Point_bytes.
  read_fields.
  rewrite !(load_store_small host 4), !(load_store_small host 2)
    by assumption.
  destruct d as [? ? [] ? ? ?]; reflexivity.
Qed.

Lemma DrawTexturedQuadsData_at_bytes (d : DrawTexturedQuadsData)
    (rest : list byte) :
  DrawTexturedQuadsData_typed d ->
  DrawTexturedQuadsData_at host (DrawTexturedQuadsData_bytes host d ++ rest) = d.
Proof.
  intros (H1 & H2 & H3 & H4).
  unfold DrawTexturedQuadsData_at, DrawTexturedQuadsData_bytes.
  read_fields.
  rewrite !(load_store_small host 4) by assumption.
  destruct d; reflexivity.
Qed.

Lemma TexturedVertex_at_bytes (v : TexturedVertex) (pre rest : list byte) :
  TexturedVertex_typed v ->
  TexturedVertex_at host (length pre)
    (pre ++ TexturedVertex_bytes host v ++ rest) = v.
Proof.
  intros (H1 & H2 & H3 & H4 & H5).
  unfold TexturedVertex_at, TexturedVertex_bytes.
  rewrite !(slice_app_skip pre) by lia.
  replace (length pre - length pre)%nat with 0%nat by lia.
  replace (length pre + 4 - length pre)%nat with 4%nat by lia.
  replace (length pre + 8 - length pre)%nat with 8%nat by lia.
  replace (length pre + 12 - length pre)%nat with 12%nat by lia.
  replace (length pre + 16 - length pre)%nat with 16%nat by lia.
  read_fields.
  rewrite !(load_store_small host 4) by assumption.
  destruct v; reflexivity.
Qed.

Lemma TexturedVertices_at_bytes (n : nat) (vs : list TexturedVertex)
    (pre rest : list byte) :
  Forall TexturedVertex_typed vs ->
  (n <= length vs)%nat ->
  TexturedVertices_at host n (length pre)
    (pre ++ TexturedVertices_bytes host vs ++ rest) = take n vs.
Proof.
  revert vs pre. induction n as [|n IH]; intros vs pre Hty Hn;
    [rewrite take_0; reflexivity|].
  destruct vs as [|v vs]; [cbn in Hn; lia|].
  apply Forall_cons in Hty as [Hv Hvs].
  cbn [TexturedVertices_at firstn take].
  unfold TexturedVertices_bytes. cbn [List.map concat].
  fold (TexturedVertices_bytes host vs).
  rewrite <- app_assoc.
  rewrite TexturedVertex_at_bytes by exact Hv.
  f_equal.
  replace (length pre + sizeof_TexturedVertex)%nat
    with (length (pre ++ TexturedVertex_bytes host v))
    by (rewrite length_app, length_TexturedVertex_bytes; reflexivity).
  rewrite (app_assoc pre).
  apply IH; [exact Hvs|cbn in Hn; lia].
Qed.

(** The bytes the two builders lay out. *)
Lemma createDrawTextMessage_bytes (now_us cid seq layer : Z)
    (td : DrawTextData) (text : list byte) :
  createDrawTextMessage host now_us cid seq layer td text
  = header_bytes host
      (hostToNetwork host
         (createHeader now_us DRAW_TEXT cid seq
            (uint32 (Z.of_nat sizeof_DrawTextData + Z.of_nat (length text)))
            layer))
    ++ DrawTextData_bytes host td ++ text.
Proof.
  unfold createDrawTextMessage.
  set (hb := header_bytes host _).
  assert (Hhb : length hb = sizeof_MessageHeader) by apply length_header_bytes.
  pose proof (length_DrawTextData_bytes td) as Htd.
  rewrite memcpy_start by exact Hhb.
  rewrite drop_replicate.
  rewrite (memcpy_behind hb) by assumption.
  rewrite drop_replicate.
  rewrite (app_assoc hb).
  rewrite (memcpy_behind (hb ++ DrawTextData_bytes host td))
    by (rewrite ?length_app, ?Hhb, ?Htd; reflexivity).
  rewrite drop_replicate.
  replace (sizeof_MessageHeader + sizeof_DrawTextData + length text
           - sizeof_MessageHeader - sizeof_DrawTextData - length text)%nat
    with 0%nat by lia.
  cbn [replicate]. rewrite app_nil_r, <- app_assoc. reflexivity.
Qed.

Lemma createDrawTexturedQuadsMessage_bytes (now_us cid seq layer : Z)
    (qd : DrawTexturedQuadsData) (vs : list TexturedVertex) :
  createDrawTexturedQuadsMessage host now_us cid seq layer qd vs
  = header_bytes host
      (hostToNetwork host
         (createHeader now_us DRAW_TEXTURED_QUADS cid seq
            (uint32 (Z.of_nat sizeof_DrawTexturedQuadsData
                     + Z.of_nat (length vs * sizeof_TexturedVertex)))
            layer))
    ++ DrawTexturedQuadsData_bytes host qd ++ TexturedVertices_bytes host vs.
Proof.
  unfold createDrawTexturedQuadsMessage.
  set (hb := header_bytes host _).
  assert (Hhb : length hb = sizeof_MessageHeader) by apply length_header_bytes.
  pose proof (length_DrawTexturedQuadsData_bytes qd) as Hqd.
  pose proof (length_TexturedVertices_bytes vs) as Hvs.
  rewrite memcpy_start by exact Hhb.
  rewrite drop_replicate.
  rewrite (memcpy_behind hb) by assumption.
  rewrite drop_replicate.
  rewrite (app_assoc hb).
  rewrite (memcpy_behind (hb ++ DrawTexturedQuadsData_bytes host qd))
    by (rewrite ?length_app, ?Hhb, ?Hqd; reflexivity || exact Hvs).
  rewrite drop_replicate.
  replace (sizeof_MessageHeader + sizeof_DrawTexturedQuadsData
           + length vs * sizeof_TexturedVertex
           - sizeof_MessageHeader - sizeof_DrawTexturedQuadsData
           - length vs * sizeof_TexturedVertex)%nat
    with 0%nat by lia.
  cbn [replicate]. rewrite app_nil_r, <- app_assoc. reflexivity.
Qed.


(** X6.  Text messages, built and parsed.  On a message built by
    [createDrawTextMessage] for a text that fits the 10 MiB payload limit,
    [parseDrawTextMessage] returns the header the builder made, the struct
    it was given, and the first [text_length] bytes of the text: the whole
    text when [text_length] is its length.  When [text_length] exceeds the
    text, the message is refused. *)
Theorem createDrawTextMessage_parseDrawTextMessage
    (now_us cid seq layer : Z) (td : DrawTextData) (text : list byte) :
  in_range 64 now_us -> in_range 32 cid -> in_range 32 seq ->
  in_range 8 layer -> DrawTextData_typed td ->
  Z.of_nat sizeof_DrawTextData + Z.of_nat (length text) <= MAX_MESSAGE_SIZE ->
  parseDrawTextMessage host
    (createDrawTextMessage host now_us cid seq layer td text)
  = if text_length td <=? Z.of_nat (length text)
    then Some (createHeader now_us DRAW_TEXT cid seq
                 (Z.of_nat sizeof_DrawTextData + Z.of_nat (length text)) layer,
               td, take (Z.to_nat (text_length td)) text)
    else None.
Proof.
  intros Hnow Hcid Hseq Hlayer Htd Hfit.
  rewrite createDrawTextMessage_bytes.
  assert (Hsize : uint32 (Z.of_nat sizeof_DrawTextData + Z.of_nat (length text))
                  = Z.of_nat sizeof_DrawTextData + Z.of_nat (length text)).
  { unfold uint32, wrap. apply Z.mod_small.
    unfold MAX_MESSAGE_SIZE in Hfit. lia. }
  rewrite Hsize.
  set (header := createHeader _ _ _ _ _ _).
  assert (Hty : header_typed header).
  { apply createHeader_typed; try assumption; [closed_range|].
    unfold MAX_MESSAGE_SIZE in Hfit. ranges. lia. }
  set (hb := header_bytes host (hostToNetwork host header)).
  assert (Hhb : length hb = sizeof_MessageHeader) by apply length_header_bytes.
  pose proof (length_DrawTextData_bytes td) as Hltd.
  unfold parseDrawTextMessage.
  assert ((length (hb ++ DrawTextData_bytes host td ++ text)
           <? sizeof_MessageHeader + sizeof_DrawTextData)%nat = false) as ->.
  { apply Nat.ltb_ge. rewrite !length_app, Hhb, Hltd. lia. }
  rewrite (slice_app_hit hb) by (symmetry; exact Hhb).
  assert (Hdec : networkToHost host (header_of_bytes host hb) = header).
  { unfold hb.
    rewrite <- (app_nil_r (header_bytes host (hostToNetwork host header))).
    apply header_roundtrip. exact Hty. }
  rewrite !Hdec.
  assert (Hval : validateHeader header = true).
  { apply validateHeader_spec. cbn [magic protocol_version data_size header
      createHeader]. unfold MAX_MESSAGE_SIZE in Hfit.
    repeat split; try reflexivity. exact Hfit. }
  rewrite Hval. change (negb true) with false. rewrite orb_false_l.
  assert (Hds : data_size header
                = Z.of_nat sizeof_DrawTextData + Z.of_nat (length text))
    by reflexivity.
  rewrite Hds.
  assert ((Z.of_nat sizeof_DrawTextData + Z.of_nat (length text)
           <? Z.of_nat sizeof_DrawTextData) = false) as ->
    by (apply Z.ltb_ge; lia).
  rewrite drop_app_length' by (symmetry; exact Hhb).
  rewrite DrawTextData_at_bytes by exact Htd.
  assert (Hroom : size_t (Z.of_nat sizeof_DrawTextData + Z.of_nat (length text)
                          - Z.of_nat sizeof_DrawTextData)
                  = Z.of_nat (length text)).
  { unfold size_t, wrap. rewrite Z.mod_small.
    - lia.
    - unfold MAX_MESSAGE_SIZE in Hfit. lia. }
  rewrite Hroom.
  destruct (text_length td <=? Z.of_nat (length text)) eqn:Etl.
  - apply Z.leb_le in Etl.
    assert ((text_length td >? Z.of_nat (length text)) = false) as ->
      by (rewrite Z.gtb_ltb; apply Z.ltb_ge; lia).
    do 2 f_equal.
    rewrite app_assoc, slice_app_skip
      by (rewrite length_app, Hhb, Hltd; lia).
    rewrite length_app, Hhb, Hltd, Nat.sub_diag.
    unfold slice. rewrite drop_0. reflexivity.
  - apply Z.leb_gt in Etl.
    assert ((text_length td >? Z.of_nat (length text)) = true) as ->
      by (rewrite Z.gtb_ltb; apply Z.ltb_lt; lia).
    reflexivity.
Qed.

(** X7.  What a successful [parseDrawTextMessage] guarantees.  The buffer
    holds at least a header and the fixed part of the payload, the header
    validates, and the declared text length fits the declared payload
    size.  If moreover the buffer holds the whole message the header
    describes, the text returned has exactly [text_length] bytes, all of
    them from inside the message. *)
Theorem parseDrawTextMessage_sound (buffer : list byte)
    (h : MessageHeader) (td : DrawTextData) (text : list byte) :
  parseDrawTextMessage host buffer = Some (h, td, text) ->
  (sizeof_MessageHeader + sizeof_DrawTextData <= length buffer)%nat /\
  validateHeader h = true /\
  Z.of_nat sizeof_DrawTextData <= data_size h /\
  text_length td <= data_size h - Z.of_nat sizeof_DrawTextData /\
  (Z.of_nat sizeof_MessageHeader + data_size h <= Z.of_nat (length buffer) ->
   0 <= text_length td ->
   Z.of_nat (length text) = text_length td /\
   exists before after,
     buffer = before ++ text ++ after /\
     length before = (sizeof_MessageHeader + sizeof_DrawTextData)%nat /\
     Z.of_nat (length (before ++ text))
     <= Z.of_nat sizeof_MessageHeader + data_size h).
Proof.
  unfold parseDrawTextMessage. intros H.
  destruct (_ <? _)%nat eqn:Elen; [discriminate|].
  apply Nat.ltb_ge in Elen.
  set (header := networkToHost host _) in H.
  destruct (validateHeader header) eqn:Evalid; cbn [negb orb] in H;
    [|discriminate].
  destruct (data_size header <? Z.of_nat sizeof_DrawTextData) eqn:Eds;
    [discriminate|].
  apply Z.ltb_ge in Eds.
  set (text_data := DrawTextData_at host _) in H.
  destruct (text_length text_data >? _) eqn:Etl; [discriminate|].
  assert (h = header /\ td = text_data /\
          text = slice (sizeof_MessageHeader + sizeof_DrawTextData)
                       (Z.to_nat (text_length text_data)) buffer)
    as (-> & -> & ->) by (repeat split; congruence).
  clear H.
  pose proof (proj1 (validateHeader_spec header) Evalid) as (_ & _ & Hcap).
  assert (Hroom : size_t (data_size header - Z.of_nat sizeof_DrawTextData)
                  = data_size header - Z.of_nat sizeof_DrawTextData).
  { unfold size_t, wrap. apply Z.mod_small. lia. }
  rewrite Hroom in Etl.
  rewrite Z.gtb_ltb in Etl. apply Z.ltb_ge in Etl.
  split; [exact Elen|]. split; [exact Evalid|]. split; [exact Eds|].
  split; [exact Etl|].
  intros Hwhole Hnonneg.
  unfold slice.
  assert (Hlen : length (take (Z.to_nat (text_length text_data))
                           (drop (sizeof_MessageHeader + sizeof_DrawTextData)
                                 buffer))
                 = Z.to_nat (text_length text_data)).
  { rewrite length_take, length_drop.
    change (Z.of_nat sizeof_DrawTextData) with 24 in *.
    change (Z.of_nat sizeof_MessageHeader) with 32 in *.
    unfold sizeof_MessageHeader, sizeof_DrawTextData in *. lia. }
  split; [rewrite Hlen; lia|].
  exists (take (sizeof_MessageHeader + sizeof_DrawTextData) buffer),
         (drop (Z.to_nat (text_length text_data))
               (drop (sizeof_MessageHeader + sizeof_DrawTextData) buffer)).
  split; [rewrite take_drop, take_drop; reflexivity|].
  split; [rewrite length_take; lia|].
  rewrite length_app, Hlen, length_take.
  change (Z.of_nat sizeof_DrawTextData) with 24 in *.
  change (Z.of_nat sizeof_MessageHeader) with 32 in *.
  unfold sizeof_MessageHeader, sizeof_DrawTextData in *. lia.
Qed.

(** X8.  Textured quads, built and parsed.  On a message built by
    [createDrawTexturedQuadsMessage] that fits the 10 MiB payload limit,
    [parseDrawTexturedQuadsMessage] returns the header the builder made,
    the struct it was given and the first [4 * quad_count] vertices (the
    product taken in 32 bits); when the vertex vector is shorter than that,
    the message is refused. *)
Theorem createDrawTexturedQuadsMessage_parseDrawTexturedQuadsMessage
    (now_us cid seq layer : Z) (qd : DrawTexturedQuadsData)
    (vs : list TexturedVertex) :
  in_range 64 now_us -> in_range 32 cid -> in_range 32 seq ->
  in_range 8 layer -> DrawTexturedQuadsData_typed qd ->
  Forall TexturedVertex_typed vs ->
  Z.of_nat sizeof_DrawTexturedQuadsData
  + Z.of_nat (length vs * sizeof_TexturedVertex) <= MAX_MESSAGE_SIZE ->
  parseDrawTexturedQuadsMessage host
    (createDrawTexturedQuadsMessage host now_us cid seq layer qd vs)
  = if uint32 (quad_count qd * 4) <=? Z.of_nat (length vs)
    then Some (createHeader now_us DRAW_TEXTURED_QUADS cid seq
                 (Z.of_nat sizeof_DrawTexturedQuadsData
                  + Z.of_nat (length vs * sizeof_TexturedVertex)) layer,
               qd, take (Z.to_nat (uint32 (quad_count qd * 4))) vs)
    else None.
Proof.
  intros Hnow Hcid Hseq Hlayer Hqd Hvs Hfit.
  rewrite createDrawTexturedQuadsMessage_bytes.
  set (payload_size := Z.of_nat sizeof_DrawTexturedQuadsData
                       + Z.of_nat (length vs * sizeof_TexturedVertex)) in *.
  assert (Hsize : uint32 payload_size = payload_size).
  { unfold uint32, wrap. apply Z.mod_small.
    unfold MAX_MESSAGE_SIZE in Hfit. unfold payload_size in *. lia. }
  rewrite Hsize.
  set (header := createHeader _ _ _ _ _ _).
  assert (Hty : header_typed header).
  { apply createHeader_typed; try assumption; [closed_range|].
    unfold MAX_MESSAGE_SIZE in Hfit. unfold payload_size in *. ranges. lia. }
  set (hb := header_bytes host (hostToNetwork host header)).
  assert (Hhb : length hb = sizeof_MessageHeader) by apply length_header_bytes.
  pose proof (length_DrawTexturedQuadsData_bytes qd) as Hlqd.
  unfold parseDrawTexturedQuadsMessage.
  assert ((length (hb ++ DrawTexturedQuadsData_bytes host qd
                      ++ TexturedVertices_bytes host vs)
           <? sizeof_MessageHeader + sizeof_DrawTexturedQuadsData)%nat
          = false) as ->.
  { apply Nat.ltb_ge. rewrite !length_app, Hhb, Hlqd. lia. }
  rewrite (slice_app_hit hb) by (symmetry; exact Hhb).
  assert (Hdec : networkToHost host (header_of_bytes host hb) = header).
  { unfold hb.
    rewrite <- (app_nil_r (header_bytes host (hostToNetwork host header))).
    apply header_roundtrip. exact Hty. }
  rewrite !Hdec.
  assert (Hval : validateHeader header = true).
  { apply validateHeader_spec. cbn [magic protocol_version data_size header
      createHeader]. unfold MAX_MESSAGE_SIZE in Hfit.
    repeat split; try reflexivity. exact Hfit. }
  rewrite Hval. change (negb true) with false. rewrite orb_false_l.
  assert (Hds : data_size header = payload_size) by reflexivity.
  rewrite Hds.
  assert ((payload_size <? Z.of_nat sizeof_DrawTexturedQuadsData) = false)
    as -> by (apply Z.ltb_ge; unfold payload_size; lia).
  rewrite drop_app_length' by (symmetry; exact Hhb).
  rewrite DrawTexturedQuadsData_at_bytes by exact Hqd.
  set (count := uint32 (quad_count qd * 4)).
  assert (Hcount : 0 <= count < 2 ^ 32).
  { unfold count, uint32, wrap. apply Z.mod_pos_bound. lia. }
  assert (Hexp : size_t (count * Z.of_nat sizeof_TexturedVertex)
                 = count * 20).
  { unfold size_t, wrap. change (Z.of_nat sizeof_TexturedVertex) with 20.
    apply Z.mod_small. ranges. lia. }
  assert (Hroom : size_t (payload_size - Z.of_nat sizeof_DrawTexturedQuadsData)
                  = Z.of_nat (length vs) * 20).
  { unfold size_t, wrap, payload_size. rewrite Z.mod_small.
    - unfold sizeof_TexturedVertex. lia.
    - unfold MAX_MESSAGE_SIZE, payload_size in Hfit.
      unfold sizeof_TexturedVertex in *. lia. }
  rewrite Hexp, Hroom.
  destruct (count <=? Z.of_nat (length vs)) eqn:Ec.
  - apply Z.leb_le in Ec.
    assert ((count * 20 >? Z.of_nat (length vs) * 20) = false) as ->
      by (rewrite Z.gtb_ltb; apply Z.ltb_ge; lia).
    do 2 f_equal.
    rewrite app_assoc.
    replace (sizeof_MessageHeader + sizeof_DrawTexturedQuadsData)%nat
      with (length (hb ++ DrawTexturedQuadsData_bytes host qd))
      by (rewrite length_app, Hhb, Hlqd; reflexivity).
    rewrite <- (app_nil_r (TexturedVertices_bytes host vs)).
    apply TexturedVertices_at_bytes; [exact Hvs|lia].
  - apply Z.leb_gt in Ec.
    assert ((count * 20 >? Z.of_nat (length vs) * 20) = true) as ->
      by (rewrite Z.gtb_ltb; apply Z.ltb_lt; lia).
    reflexivity.
Qed.

End SerializationFacts.

Section SerializationExamples.

Import Protocol Types Serialization.

(** "Hello" at (10, 20) in a 16-point font, and one quad. *)
Definition hello_text : list byte := [x48; x65; x6c; x6c; x6f].

Definition hello_text_data : DrawTextData :=
  {| dt_gc_id := 1; dt_font_id := 2;
     dt_position := {| Point_x := 0x41200000; Point_y := 0x41a00000 |};
     dt_font_size := 0x41800000; text_length := 5; dt_reserved := 0 |}.

Definition one_quad_data : DrawTexturedQuadsData :=
  {| dq_gc_id := 1; dq_texture_id := 9; quad_count := 1; dq_reserved := 0 |}.

Definition one_quad : list TexturedVertex :=
  [ {| vx := 0; vy := 0; vu := 0; vv := 0; vcolor := 0xFFFFFFFF |};
    {| vx := 0x3F800000; vy := 0; vu := 0x3F800000; vv := 0;
       vcolor := 0xFFFFFFFF |};
    {| vx := 0x3F800000; vy := 0x3F800000; vu := 0x3F800000;
       vv := 0x3F800000; vcolor := 0xFFFFFFFF |};
    {| vx := 0; vy := 0x3F800000; vu := 0; vv := 0x3F800000;
       vcolor := 0xFFFFFFFF |} ].

Lemma createDrawTextMessage_parseDrawTextMessage_witness :
  parseDrawTextMessage LittleEndian
    (createDrawTextMessage LittleEndian 1000 7 1 3 hello_text_data hello_text)
  = if text_length hello_text_data <=? Z.of_nat (length hello_text)
    then Some (createHeader 1000 DRAW_TEXT 7 1
                 (Z.of_nat sizeof_DrawTextData + Z.of_nat (length hello_text))
                 3,
               hello_text_data,
               take (Z.to_nat (text_length hello_text_data)) hello_text)
    else None.
Proof.
  apply (createDrawTextMessage_parseDrawTextMessage LittleEndian 1000 7 1 3
           hello_text_data hello_text).
  - closed_range.
  - closed_range.
  - closed_range.
  - closed_range.
  - unfold DrawTextData_typed, Point_typed; repeat split;
      vm_compute; congruence.
  - vm_compute; discriminate.
Defined.

Lemma parseDrawTextMessage_sound_witness :
  let buffer :=
    createDrawTextMessage BigEndian 1000 7 1 3 hello_text_data hello_text in
  let h := createHeader 1000 DRAW_TEXT 7 1 29 3 in
  (sizeof_MessageHeader + sizeof_DrawTextData <= length buffer)%nat /\
  validateHeader h = true /\
  Z.of_nat sizeof_DrawTextData <= data_size h /\
  text_length hello_text_data <= data_size h - Z.of_nat sizeof_DrawTextData /\
  (Z.of_nat sizeof_MessageHeader + data_size h <= Z.of_nat (length buffer) ->
   0 <= text_length hello_text_data ->
   Z.of_nat (length hello_text) = text_length hello_text_data /\
   exists before after,
     buffer = before ++ hello_text ++ after /\
     length before = (sizeof_MessageHeader + sizeof_DrawTextData)%nat /\
     Z.of_nat (length (before ++ hello_text))
     <= Z.of_nat sizeof_MessageHeader + data_size h).
Proof.
  apply (parseDrawTextMessage_sound BigEndian
           (createDrawTextMessage BigEndian 1000 7 1 3 hello_text_data
              hello_text)
           (createHeader 1000 DRAW_TEXT 7 1 29 3) hello_text_data hello_text).
  vm_compute. reflexivity.
Defined.

Lemma createDrawTexturedQuadsMessage_parseDrawTexturedQuadsMessage_witness :
  parseDrawTexturedQuadsMessage LittleEndian
    (createDrawTexturedQuadsMessage LittleEndian 1000 7 1 3 one_quad_data
       one_quad)
  = if uint32 (quad_count one_quad_data * 4) <=? Z.of_nat (length one_quad)
    then Some (createHeader 1000 DRAW_TEXTURED_QUADS 7 1
                 (Z.of_nat sizeof_DrawTexturedQuadsData
                  + Z.of_nat (length one_quad * sizeof_TexturedVertex)) 3,
               one_quad_data,
               take (Z.to_nat (uint32 (quad_count one_quad_data * 4)))
                    one_quad)
    else None.
Proof.
  apply (createDrawTexturedQuadsMessage_parseDrawTexturedQuadsMessage
           LittleEndian 1000 7 1 3 one_quad_data one_quad).
  - closed_range.
  - closed_range.
  - closed_range.
  - closed_range.
  - unfold DrawTexturedQuadsData_typed; repeat split; vm_compute; congruence.
  - unfold one_quad. repeat constructor; vm_compute; congruence.
  - vm_compute; discriminate.
Defined.

End SerializationExamples.

(** ** Framing: what [parseMessages] does to any buffer *)

Section Framing.

Import Protocol Session.

Variable host : ByteOrder.

Lemma load_range (bs : list byte) :
  0 <= load host bs < 256 ^ Z.of_nat (length bs).
Proof.
  unfold load, decode_be. destruct host.
  - apply decode_le_range.
  - rewrite <- length_rev. apply decode_le_range.
Qed.

Lemma length_slice_le (off n : nat) (bs : list byte) :
  (length (slice off n bs) <= n)%nat.
Proof. unfold slice. rewrite length_take. lia. Qed.

Lemma load_slice_range (off n : nat) (bs : list byte) :
  0 <= load host (slice off n bs) < 256 ^ Z.of_nat n.
Proof.
  pose proof (load_range (slice off n bs)) as H.
  pose proof (length_slice_le off n bs) as Hl.
  assert (256 ^ Z.of_nat (length (slice off n bs)) <= 256 ^ Z.of_nat n)
    by (apply Z.pow_le_mono_r; lia).
  lia.
Qed.

Lemma ntoh_range (n : nat) (x : Z) :
  0 <= decode_be (store host n x) < 256 ^ Z.of_nat n.
Proof.
  unfold decode_be.
  pose proof (decode_le_range (rev (store host n x))) as H.
  rewrite length_rev, length_store in H. exact H.
Qed.

(** A header read off the wire holds a value of its C type in every
    field. *)
Lemma networkToHost_typed (bs : list byte) :
  header_typed (networkToHost host (header_of_bytes host bs)).
Proof.
  unfold header_typed, networkToHost, header_of_bytes, ntohl, ntohs, be64toh.
  cbn [magic protocol_version type layer_id reserved client_id sequence
       data_size timestamp].
  repeat split;
    first [ apply (ntoh_range 4) | apply (ntoh_range 2) | apply (ntoh_range 8)
          | apply (load_slice_range _ 1) ].
Qed.

Lemma header_of_bytes_typed (bs : list byte) :
  header_typed (header_of_bytes host bs).
Proof.
  unfold header_typed, header_of_bytes.
  cbn [magic protocol_version type layer_id reserved client_id sequence
       data_size timestamp].
  repeat split;
    first [ apply (load_slice_range _ 4) | apply (load_slice_range _ 2)
          | apply (load_slice_range _ 8) | apply (load_slice_range _ 1) ].
Qed.

Lemma store_load_slice (off n : nat) (bs : list byte) :
  (off + n <= length bs)%nat ->
  store host n (load host (slice off n bs)) = slice off n bs.
Proof.
  intros H.
  pose proof (store_load host (slice off n bs)) as E.
  assert (length (slice off n bs) = n) as Hl
    by (unfold slice; rewrite length_take, length_drop; lia).
  rewrite Hl in E. exact E.
Qed.

Lemma slice_then (off n : nat) (bs : list byte) :
  slice off n bs ++ drop (off + n) bs = drop off bs.
Proof.
  unfold slice. rewrite <- drop_drop. apply take_drop.
Qed.

(** The 32 bytes a header was read from are the bytes it is written as. *)
Lemma header_bytes_of_bytes (bs : list byte) :
  length bs = sizeof_MessageHeader ->
  header_bytes host (header_of_bytes host bs) = bs.
Proof.
  intros Hlen. unfold sizeof_MessageHeader in Hlen.
  unfold header_bytes, header_of_bytes.
  cbn [magic protocol_version type layer_id reserved client_id sequence
       data_size timestamp].
  rewrite !store_load_slice by lia.
  rewrite <- (drop_0 bs) at 10.
  rewrite <- (slice_then 0 4), <- (slice_then 4 4), <- (slice_then 8 1),
    <- (slice_then 9 1), <- (slice_then 10 2), <- (slice_then 12 4),
    <- (slice_then 16 4), <- (slice_then 20 4), <- (slice_then 24 8).
  cbn [Nat.add]. rewrite (drop_ge bs 32) by lia.
  rewrite app_nil_r. reflexivity.
Qed.

Lemma wire_header_of_decoded (bs : list byte) :
  length bs = sizeof_MessageHeader ->
  header_bytes host
    (hostToNetwork host (networkToHost host (header_of_bytes host bs))) = bs.
Proof.
  intros Hlen.
  rewrite hostToNetwork_networkToHost by apply header_of_bytes_typed.
  apply header_bytes_of_bytes. exact Hlen.
Qed.


(** The bytes a session has received and not yet parsed. *)
Definition unread (c : Client) : list byte :=
  drop (m_receive_buffer_pos c) (m_receive_buffer c).

(** The header [parseMessages] reads at the read position. *)
Definition next_header (c : Client) : MessageHeader :=
  networkToHost host
    (header_of_bytes host
       (slice (m_receive_buffer_pos c) sizeof_MessageHeader
              (m_receive_buffer c))).

(** A message as [createMessage] puts it on the wire. *)
Definition wire (m : MessageHeader * list byte) : list byte :=
  createMessage host m.1 (Some m.2).

(** A message a session with size cap [cap] hands on: typed header that
    validates, payload within the cap and as long as the header says. *)
Definition deliverable (cap : Z) (m : MessageHeader * list byte) : Prop :=
  header_typed m.1 /\ validateHeader m.1 = true /\ data_size m.1 <= cap /\
  Z.of_nat (length m.2) = data_size m.1.

(** The read position lies inside the buffer, which is a vector. *)
Definition buffer_ok (c : Client) : Prop :=
  (m_receive_buffer_pos c <= length (m_receive_buffer c))%nat /\
  Z.of_nat (length (m_receive_buffer c)) < 2 ^ 64.

Lemma pending_unread (c : Client) :
  buffer_ok c -> pending c = Z.of_nat (length (unread c)).
Proof.
  intros [Hpos Hlen]. unfold pending, unread, size_t, wrap.
  rewrite length_drop, Z.mod_small; lia.
Qed.

Lemma validateMessageHeader_spec (c : Client) (h : MessageHeader) :
  validateMessageHeader c h = true <->
  validateHeader h = true /\ data_size h <= max_message_size (m_config c).
Proof.
  unfold validateMessageHeader, validateMessageSize.
  rewrite andb_true_iff, Z.leb_le. reflexivity.
Qed.

(** One turn of the loop that finds a whole valid message. *)
Lemma parse_one_Parsed (c : Client) :
  buffer_ok c ->
  validateMessageHeader c (next_header c) = true ->
  Z.of_nat sizeof_MessageHeader + data_size (next_header c)
  <= Z.of_nat (length (unread c)) ->
  let h := next_header c in
  let n := Z.to_nat (data_size h) in
  let d := slice (m_receive_buffer_pos c + sizeof_MessageHeader) n
                 (m_receive_buffer c) in
  let pos' := (m_receive_buffer_pos c + (sizeof_MessageHeader + n))%nat in
  parse_one host c
  = Parsed (set_receive (m_receive_buffer c) pos'
              (m_parsed_messages c ++ [(h, d)]) c) /\
  deliverable (max_message_size (m_config c)) (h, d) /\
  unread c = wire (h, d) ++ drop pos' (m_receive_buffer c) /\
  (pos' <= length (m_receive_buffer c))%nat.
Proof.
  intros Hok Hvalid Hwhole h n d pos'.
  pose proof (pending_unread c Hok) as Hpend.
  pose proof (data_size_parsed_nonneg host
                (slice (m_receive_buffer_pos c) sizeof_MessageHeader
                       (m_receive_buffer c))) as Hd0.
  fold (next_header c) in Hd0. fold h in Hd0, Hvalid, Hwhole.
  pose proof (proj1 (validateMessageHeader_spec c h) Hvalid) as [Hval Hcap].
  pose proof (proj1 (validateHeader_spec h) Hval) as (_ & _ & Hd1).
  assert (H32 : Z.of_nat sizeof_MessageHeader = 32) by reflexivity.
  assert (Hms : size_t (Z.of_nat sizeof_MessageHeader + data_size h)
                = Z.of_nat (sizeof_MessageHeader + n)).
  { unfold size_t, wrap. rewrite Z.mod_small by lia. unfold n. lia. }
  assert (Hun : length (unread c)
                = (length (m_receive_buffer c) - m_receive_buffer_pos c)%nat)
    by (unfold unread; apply length_drop).
  assert (Hld : length d = n).
  { unfold d, slice. rewrite length_take, length_drop. unfold n. lia. }
  assert (Hdata :
    (if data_size h >? 0
     then slice (m_receive_buffer_pos c + sizeof_MessageHeader)
                (Z.to_nat (data_size h)) (m_receive_buffer c)
     else []) = d).
  { destruct (data_size h >? 0) eqn:E; [reflexivity|].
    assert (n = 0%nat) as Hn0 by (unfold n; lia).
    unfold d, slice. rewrite Hn0, take_0. reflexivity. }
  split.
  { unfold parse_one. fold (next_header c). fold h.
    rewrite Hvalid. cbn [negb]. rewrite Hms, Hpend.
    assert ((Z.of_nat (length (unread c))
             <? Z.of_nat (sizeof_MessageHeader + n)) = false) as ->
      by (apply Z.ltb_ge; unfold n; lia).
    rewrite Hdata, Nat2Z.id. reflexivity. }
  split.
  { unfold deliverable. cbn [fst snd].
    split; [apply networkToHost_typed|].
    split; [exact Hval|]. split; [exact Hcap|].
    rewrite Hld. unfold n. lia. }
  split; [|unfold pos', n; lia].
  unfold wire. cbn [fst snd].
  rewrite createMessage_bytes by (rewrite ?Hld; unfold n; lia).
  unfold h, next_header.
  rewrite wire_header_of_decoded
    by (unfold slice; rewrite length_take, length_drop; lia).
  unfold unread, d, pos'.
  rewrite <- (slice_then (m_receive_buffer_pos c) sizeof_MessageHeader).
  rewrite <- (slice_then (m_receive_buffer_pos c + sizeof_MessageHeader) n).
  rewrite <- app_assoc, Nat.add_assoc. reflexivity.
Qed.


Lemma setState_receive (s : State) (c : Client) :
  m_receive_buffer (setState s c) = m_receive_buffer c /\
  m_receive_buffer_pos (setState s c) = m_receive_buffer_pos c /\
  m_parsed_messages (setState s c) = m_parsed_messages c /\
  m_config (setState s c) = m_config c.
Proof. unfold setState. destruct (negb _); repeat split. Qed.

(** The outcome of parsing: [c'] is [c] after [new] has been taken off the
    front of the unread bytes and queued, stopped for lack of bytes
    ([ok]) or by a header that does not validate. *)
Definition parsed_as (c : Client) (ok : bool) (c' : Client)
    (new : list (MessageHeader * list byte)) : Prop :=
  buffer_ok c' /\
  m_config c' = m_config c /\
  m_parsed_messages c' = m_parsed_messages c ++ new /\
  Forall (deliverable (max_message_size (m_config c))) new /\
  unread c = concat (wire <$> new) ++ unread c' /\
  if ok
  then
    c' = set_receive (m_receive_buffer c') (m_receive_buffer_pos c')
                     (m_parsed_messages c') c /\
    ((length (unread c') < sizeof_MessageHeader)%nat \/
     (validateMessageHeader c (next_header c') = true /\
      Z.of_nat (length (unread c'))
      < Z.of_nat sizeof_MessageHeader + data_size (next_header c')))
  else
    m_state c' = ERROR /\
    (sizeof_MessageHeader <= length (unread c'))%nat /\
    validateMessageHeader c (next_header c') = false.

Lemma set_receive_self (c : Client) :
  c = set_receive (m_receive_buffer c) (m_receive_buffer_pos c)
                  (m_parsed_messages c) c.
Proof. destruct c; reflexivity. Qed.

Lemma parse_loop_spec (fuel : nat) (c : Client) :
  buffer_ok c ->
  (length (unread c) < fuel)%nat ->
  exists ok c' new,
    parse_loop host fuel c = Some (ok, c') /\ parsed_as c ok c' new.
Proof.
  revert c. induction fuel as [|fuel IH]; intros c Hok Hfuel; [lia|].
  cbn [parse_loop]. rewrite (pending_unread c Hok).
  change (Z.of_nat sizeof_MessageHeader) with 32.
  destruct (Z.of_nat (length (unread c)) >=? 32) eqn:E32.
  2:{ (* fewer than 32 bytes: the loop is not entered *)
      rewrite Z.geb_leb in E32. apply Z.leb_gt in E32.
      exists true, c, []. split; [reflexivity|].
      unfold parsed_as. rewrite app_nil_r.
      split; [exact Hok|]. split; [reflexivity|]. split; [reflexivity|].
      split; [constructor|]. split; [reflexivity|].
      split; [apply set_receive_self|].
      left. unfold sizeof_MessageHeader. lia. }
  rewrite Z.geb_leb in E32. apply Z.leb_le in E32.
  destruct (validateMessageHeader c (next_header c)) eqn:Ev.
  2:{ (* the header is refused *)
      exists false, (setState ERROR (emit LogError c)), [].
      split.
      { unfold parse_one. fold (next_header c). rewrite Ev. reflexivity. }
      destruct (setState_receive ERROR (emit LogError c))
        as (Hb & Hp & Hq & Hc).
      unfold parsed_as, buffer_ok, unread, next_header.
      rewrite Hb, Hp, Hq, Hc, app_nil_r.
      cbn [emit m_receive_buffer m_receive_buffer_pos m_parsed_messages
           m_config].
      split; [exact Hok|]. split; [reflexivity|]. split; [reflexivity|].
      split; [constructor|]. split; [reflexivity|].
      split; [apply m_state_setState|].
      split; [|exact Ev].
      fold (unread c). unfold sizeof_MessageHeader. lia. }
  destruct (Z.of_nat (length (unread c))
            <? 32 + data_size (next_header c)) eqn:Ewhole.
  { (* the message is not all there yet *)
    apply Z.ltb_lt in Ewhole.
    exists true, c, []. split.
    { unfold parse_one. fold (next_header c). rewrite Ev. cbn [negb].
      pose proof (data_size_parsed_nonneg host
                    (slice (m_receive_buffer_pos c) sizeof_MessageHeader
                           (m_receive_buffer c))) as Hd0.
      fold (next_header c) in Hd0.
      pose proof (proj1 (validateMessageHeader_spec c _) Ev) as [Hval _].
      pose proof (proj1 (validateHeader_spec _) Hval) as (_ & _ & Hd1).
      assert (size_t (Z.of_nat sizeof_MessageHeader
                      + data_size (next_header c))
              = 32 + data_size (next_header c)) as ->.
      { unfold size_t, wrap. change (Z.of_nat sizeof_MessageHeader) with 32.
        apply Z.mod_small. lia. }
      rewrite (pending_unread c Hok).
      apply Z.ltb_lt in Ewhole. rewrite Ewhole. reflexivity. }
    unfold parsed_as. rewrite app_nil_r.
    split; [exact Hok|]. split; [reflexivity|]. split; [reflexivity|].
    split; [constructor|]. split; [reflexivity|].
    split; [apply set_receive_self|].
    right. split; [exact Ev|].
    change (Z.of_nat sizeof_MessageHeader) with 32. exact Ewhole. }
  (* a whole message *)
  apply Z.ltb_ge in Ewhole.
  destruct (parse_one_Parsed c Hok Ev Ewhole) as (Hone & Hdel & Hun & Hpos).
  rewrite Hone.
  set (h := next_header c) in *.
  set (n := Z.to_nat (data_size h)) in *.
  set (d := slice (m_receive_buffer_pos c + sizeof_MessageHeader) n
                  (m_receive_buffer c)) in *.
  set (pos' := (m_receive_buffer_pos c + (sizeof_MessageHeader + n))%nat) in *.
  set (c1 := set_receive (m_receive_buffer c) pos'
               (m_parsed_messages c ++ [(h, d)]) c) in *.
  assert (Hok1 : buffer_ok c1).
  { unfold buffer_ok, c1.
    cbn [set_receive m_receive_buffer m_receive_buffer_pos].
    split; [exact Hpos|apply Hok]. }
  assert (Hfuel1 : (length (unread c1) < fuel)%nat).
  { unfold unread in *. unfold c1.
    cbn [set_receive m_receive_buffer m_receive_buffer_pos].
    rewrite length_drop in *. unfold pos', sizeof_MessageHeader. lia. }
  destruct (IH c1 Hok1 Hfuel1)
    as (ok & c' & new & Hloop & Hok' & Hcfg & Hq & Hall & Hunread & Hend).
  exists ok, c', ((h, d) :: new). split; [exact Hloop|].
  unfold parsed_as.
  split; [exact Hok'|]. split; [exact Hcfg|].
  split.
  { rewrite Hq. unfold c1. cbn [set_receive m_parsed_messages].
    rewrite <- app_assoc. reflexivity. }
  split; [constructor; [exact Hdel|exact Hall]|].
  split.
  { rewrite Hun. cbn [fmap list_fmap concat]. rewrite <- app_assoc.
    f_equal. exact Hunread. }
  destruct ok; exact Hend.
Qed.

Lemma parseMessages_outcome (c : Client) :
  buffer_ok c ->
  exists ok c' new,
    parseMessages host c = Some (ok, c') /\ parsed_as c ok c' new.
Proof.
  intros Hok.
  destruct (parse_loop_spec (S (length (m_receive_buffer c))) c Hok)
    as (ok & c' & new & Hloop & Hok' & Hcfg & Hq & Hall & Hunread & Hend).
  { unfold unread. rewrite length_drop. lia. }
  unfold parseMessages. rewrite Hloop.
  destruct ok.
  2:{ exists false, c', new. split; [reflexivity|].
      unfold parsed_as. auto 10. }
  destruct Hend as [Hsame Hstop].
  destruct (length (m_receive_buffer c') / 2 <? m_receive_buffer_pos c')%nat
    eqn:Ehalf.
  2:{ exists true, c', new. split; [reflexivity|].
      unfold parsed_as. auto 10. }
  (* the buffer is compacted *)
  apply Nat.ltb_lt in Ehalf.
  assert ((0 <? m_receive_buffer_pos c')%nat = true) as Hz
    by (apply Nat.ltb_lt; lia).
  exists true, (compactReceiveBuffer c'), new. split; [reflexivity|].
  unfold compactReceiveBuffer. rewrite Hz.
  set (c2 := set_receive _ 0%nat _ c').
  assert (Hun2 : unread c2 = unread c').
  { unfold unread, c2.
    cbn [set_receive m_receive_buffer m_receive_buffer_pos].
    apply drop_0. }
  assert (Hnext2 : next_header c2 = next_header c').
  { unfold next_header, c2, slice.
    cbn [set_receive m_receive_buffer m_receive_buffer_pos].
    rewrite drop_0. reflexivity. }
  unfold parsed_as. rewrite Hun2, Hnext2.
  split.
  { unfold buffer_ok, c2.
    cbn [set_receive m_receive_buffer m_receive_buffer_pos].
    destruct Hok' as [_ Hlen]. rewrite length_drop. lia. }
  split; [exact Hcfg|].
  split; [exact Hq|]. split; [exact Hall|]. split; [exact Hunread|].
  split; [|exact Hstop].
  assert (Hsr : forall b p q, set_receive b p q c' = set_receive b p q c)
    by (intros; rewrite Hsame; reflexivity).
  unfold c2. apply Hsr.
Qed.

(** X9.  The contract of [parseMessages], on any buffer.  The call returns.
    What it has queued ([new]) are messages whose header validates and
    whose payload is as long as the header says and within the session's
    cap; their wire images, in order, followed by the bytes left unread,
    are exactly the bytes that were unread before: nothing is skipped,
    invented or reordered.  It returns true when it ran out of bytes
    (fewer than a header, or a valid header whose payload has not all
    arrived), and then nothing but the buffer, the read position and the
    queue has changed; it returns false when the next header does not
    validate, and then the session is in state ERROR with that header
    still unread. *)
Theorem parseMessages_contract (c : Client) :
  buffer_ok c ->
  exists ok c' new,
    parseMessages host c = Some (ok, c') /\
    buffer_ok c' /\
    m_parsed_messages c' = m_parsed_messages c ++ new /\
    Forall (deliverable (max_message_size (m_config c))) new /\
    unread c = concat (wire <$> new) ++ unread c' /\
    if ok
    then
      c' = set_receive (m_receive_buffer c') (m_receive_buffer_pos c')
                       (m_parsed_messages c') c /\
      ((length (unread c') < sizeof_MessageHeader)%nat \/
       (validateMessageHeader c (next_header c') = true /\
        Z.of_nat (length (unread c'))
        < Z.of_nat sizeof_MessageHeader + data_size (next_header c')))
    else
      m_state c' = ERROR /\
      (sizeof_MessageHeader <= length (unread c'))%nat /\
      validateMessageHeader c (next_header c') = false.
Proof.
  intros Hok.
  destruct (parseMessages_outcome c Hok)
    as (ok & c' & new & Hrun & Hok' & _ & Hq & Hall & Hunread & Hend).
  exists ok, c', new.
  split; [exact Hrun|]. split; [exact Hok'|]. split; [exact Hq|].
  split; [exact Hall|]. split; [exact Hunread|]. exact Hend.
Qed.


Lemma wire_bytes (m : MessageHeader * list byte) (cap : Z) :
  deliverable cap m ->
  wire m = header_bytes host (hostToNetwork host m.1) ++ m.2.
Proof.
  intros (_ & _ & _ & Hlen). unfold wire.
  apply createMessage_bytes; lia.
Qed.

(** One turn of the loop on a buffer that starts with a message. *)
Lemma parse_one_wire (c : Client) (m : MessageHeader * list byte)
    (more : list byte) :
  buffer_ok c ->
  deliverable (max_message_size (m_config c)) m ->
  unread c = wire m ++ more ->
  exists pos',
    parse_one host c
    = Parsed (set_receive (m_receive_buffer c) pos'
                (m_parsed_messages c ++ [m]) c) /\
    drop pos' (m_receive_buffer c) = more /\
    (pos' <= length (m_receive_buffer c))%nat.
Proof.
  intros Hok Hdel Hun.
  pose proof Hdel as (Hty & Hval & Hcap & Hlen).
  rewrite (wire_bytes m _ Hdel), <- app_assoc in Hun.
  set (hb := header_bytes host (hostToNetwork host m.1)) in *.
  assert (Hhb : length hb = sizeof_MessageHeader) by apply length_header_bytes.
  assert (Hnext : next_header c = m.1).
  { unfold next_header, slice. fold (unread c). rewrite Hun.
    rewrite take_app_length' by (symmetry; exact Hhb).
    unfold hb.
    rewrite <- (app_nil_r (header_bytes host (hostToNetwork host m.1))).
    apply header_roundtrip. exact Hty. }
  assert (Hv : validateMessageHeader c (next_header c) = true).
  { rewrite Hnext. apply validateMessageHeader_spec. split; assumption. }
  assert (Hwhole : Z.of_nat sizeof_MessageHeader + data_size (next_header c)
                   <= Z.of_nat (length (unread c))).
  { rewrite Hnext, Hun, !length_app, Hhb. lia. }
  destruct (parse_one_Parsed c Hok Hv Hwhole) as (Hone & _ & Hun' & Hpos).
  rewrite Hnext in Hone, Hun', Hpos.
  set (n := Z.to_nat (data_size m.1)) in *.
  assert (Hd : slice (m_receive_buffer_pos c + sizeof_MessageHeader) n
                     (m_receive_buffer c) = m.2).
  { unfold slice. rewrite <- drop_drop. fold (unread c). rewrite Hun.
    rewrite drop_app_length' by (symmetry; exact Hhb).
    rewrite take_app_length' by (unfold n; lia). reflexivity. }
  rewrite Hd in Hone, Hun'.
  exists (m_receive_buffer_pos c + (sizeof_MessageHeader + n))%nat.
  replace (m.1, m.2) with m in * by (destruct m; reflexivity).
  split; [exact Hone|]. split; [|exact Hpos].
  rewrite (wire_bytes m _ Hdel) in Hun'. fold hb in Hun'.
  rewrite Hun, <- !app_assoc in Hun'.
  apply app_inv_head in Hun'. apply app_inv_head in Hun'.
  symmetry. exact Hun'.
Qed.

Lemma parse_loop_stream (fuel : nat) (c : Client)
    (msgs : list (MessageHeader * list byte)) (tail : list byte) :
  buffer_ok c ->
  Forall (deliverable (max_message_size (m_config c))) msgs ->
  unread c = concat (wire <$> msgs) ++ tail ->
  (length tail < sizeof_MessageHeader)%nat ->
  (length (unread c) < fuel)%nat ->
  parse_loop host fuel c
  = Some (true,
          set_receive (m_receive_buffer c)
            (length (m_receive_buffer c) - length tail)
            (m_parsed_messages c ++ msgs) c).
Proof.
  revert fuel c. induction msgs as [|m msgs IH];
    intros fuel c Hok Hall Hun Htail Hfuel.
  - cbn [fmap list_fmap concat app] in Hun.
    destruct fuel as [|fuel]; [lia|]. cbn [parse_loop].
    rewrite (pending_unread c Hok), Hun.
    assert ((Z.of_nat (length tail) >=? Z.of_nat sizeof_MessageHeader)
            = false) as ->
      by (rewrite Z.geb_leb; apply Z.leb_gt; lia).
    rewrite app_nil_r.
    assert (m_receive_buffer_pos c
            = (length (m_receive_buffer c) - length tail)%nat) as <-.
    { rewrite <- Hun. unfold unread. rewrite length_drop.
      destruct Hok as [Hpos _]. lia. }
    rewrite <- set_receive_self. reflexivity.
  - apply Forall_cons in Hall as [Hm Hall].
    cbn [fmap list_fmap concat] in Hun. rewrite <- app_assoc in Hun.
    destruct (parse_one_wire c m _ Hok Hm Hun) as (pos' & Hone & Hrest & Hpos).
    assert (Hlw : (sizeof_MessageHeader <= length (wire m))%nat).
    { rewrite (wire_bytes m _ Hm), length_app, length_header_bytes. lia. }
    destruct fuel as [|fuel]; [lia|]. cbn [parse_loop].
    rewrite (pending_unread c Hok).
    assert ((Z.of_nat (length (unread c)) >=? Z.of_nat sizeof_MessageHeader)
            = true) as ->.
    { rewrite Z.geb_leb. apply Z.leb_le. rewrite Hun, length_app. lia. }
    rewrite Hone.
    set (c1 := set_receive (m_receive_buffer c) pos'
                 (m_parsed_messages c ++ [m]) c).
    assert (Hok1 : buffer_ok c1).
    { unfold buffer_ok, c1.
      cbn [set_receive m_receive_buffer m_receive_buffer_pos].
      split; [exact Hpos|apply Hok]. }
    assert (Hun1 : unread c1 = concat (wire <$> msgs) ++ tail) by exact Hrest.
    rewrite (IH fuel c1 Hok1 Hall Hun1 Htail).
    + unfold c1. cbn [set_receive m_receive_buffer m_parsed_messages].
      rewrite <- app_assoc. reflexivity.
    + rewrite Hun1. rewrite Hun, length_app in Hfuel.
      unfold sizeof_MessageHeader in *. lia.
Qed.

Lemma parseMessages_of_stream (c : Client)
    (msgs : list (MessageHeader * list byte)) (tail : list byte) :
  buffer_ok c ->
  Forall (deliverable (max_message_size (m_config c))) msgs ->
  unread c = concat (wire <$> msgs) ++ tail ->
  (length tail < sizeof_MessageHeader)%nat ->
  exists c',
    parseMessages host c = Some (true, c') /\
    m_parsed_messages c' = m_parsed_messages c ++ msgs /\
    unread c' = tail /\
    c' = set_receive (m_receive_buffer c') (m_receive_buffer_pos c')
                     (m_parsed_messages c') c.
Proof.
  intros Hok Hall Hun Htail.
  unfold parseMessages.
  rewrite (parse_loop_stream _ c msgs tail Hok Hall Hun Htail)
    by (unfold unread; rewrite length_drop; lia).
  set (c1 := set_receive _ _ _ c).
  assert (Hlt : (length tail <= length (m_receive_buffer c))%nat).
  { apply (f_equal length) in Hun. unfold unread in Hun.
    rewrite length_drop, length_app in Hun. lia. }
  assert (Hun1 : unread c1 = tail).
  { unfold unread, c1.
    cbn [set_receive m_receive_buffer m_receive_buffer_pos].
    assert (Hl : (length (m_receive_buffer c) - m_receive_buffer_pos c
                  = length (concat (wire <$> msgs)) + length tail)%nat).
    { rewrite <- length_app, <- Hun. unfold unread.
      rewrite length_drop. reflexivity. }
    replace (length (m_receive_buffer c) - length tail)%nat
      with (m_receive_buffer_pos c + length (concat (wire <$> msgs)))%nat
      by (destruct Hok as [Hpos _]; lia).
    rewrite <- drop_drop. fold (unread c). rewrite Hun.
    apply drop_app_length. }
  destruct (_ <? _)%nat eqn:Ehalf.
  - exists (compactReceiveBuffer c1). split; [reflexivity|].
    unfold compactReceiveBuffer.
    destruct (0 <? m_receive_buffer_pos c1)%nat eqn:Ez.
    + unfold unread.
      cbn [set_receive m_receive_buffer m_receive_buffer_pos
           m_parsed_messages].
      rewrite drop_0. fold (unread c1).
      split; [reflexivity|]. split; [exact Hun1|]. reflexivity.
    + split; [reflexivity|]. split; [exact Hun1|]. reflexivity.
  - exists c1. split; [reflexivity|].
    split; [reflexivity|]. split; [exact Hun1|]. reflexivity.
Qed.

(** X10.  A stream of messages is taken apart as it was put together.  When
    the unread bytes are the wire images of any number of deliverable
    messages, one after the other, followed by fewer than 32 further bytes,
    [parseMessages] returns true and queues exactly these messages in
    order; the further bytes stay unread and nothing else in the session
    changes. *)
Theorem parseMessages_stream (c : Client)
    (msgs : list (MessageHeader * list byte)) (tail : list byte) :
  buffer_ok c ->
  Forall (deliverable (max_message_size (m_config c))) msgs ->
  unread c = concat (wire <$> msgs) ++ tail ->
  (length tail < sizeof_MessageHeader)%nat ->
  exists c',
    parseMessages host c = Some (true, c') /\
    m_parsed_messages c' = m_parsed_messages c ++ msgs /\
    unread c' = tail /\
    c' = set_receive (m_receive_buffer c') (m_receive_buffer_pos c')
                     (m_parsed_messages c') c.
Proof.
  intros Hok Hall Hun Htail.
  destruct (parseMessages_of_stream c msgs tail Hok Hall Hun Htail)
    as (c' & Hrun & Hq & Hrest & Hsame).
  exists c'. split; [exact Hrun|]. split; [exact Hq|].
  split; [exact Hrest|exact Hsame].
Qed.

End Framing.

Section FramingExamples.

Import Protocol Session.

(** Two keep-alive messages back to back and the first two bytes of a
    third. *)
Definition two_pings : list (MessageHeader * list byte) :=
  [(ping_header, ping_payload); (ping_header, ping_payload)].

Definition two_pings_and_a_bit : list byte :=
  concat (wire LittleEndian <$> two_pings) ++ [x4b; x41].

Lemma fresh_session_buffer_ok (buffer : list byte) :
  Z.of_nat (length buffer) < 2 ^ 64 -> buffer_ok (fresh_session buffer).
Proof.
  intros H. split; [cbn; lia|exact H].
Qed.

Lemma parseMessages_contract_witness :
  exists ok c' new,
    parseMessages LittleEndian (fresh_session two_pings_and_a_bit)
    = Some (ok, c') /\
    buffer_ok c' /\
    m_parsed_messages c'
    = m_parsed_messages (fresh_session two_pings_and_a_bit) ++ new /\
    Forall (deliverable
              (max_message_size
                 (m_config (fresh_session two_pings_and_a_bit)))) new /\
    unread (fresh_session two_pings_and_a_bit)
    = concat (wire LittleEndian <$> new) ++ unread c' /\
    if ok
    then
      c' = set_receive (m_receive_buffer c') (m_receive_buffer_pos c')
                       (m_parsed_messages c')
                       (fresh_session two_pings_and_a_bit) /\
      ((length (unread c') < sizeof_MessageHeader)%nat \/
       (validateMessageHeader (fresh_session two_pings_and_a_bit)
          (next_header LittleEndian c') = true /\
        Z.of_nat (length (unread c'))
        < Z.of_nat sizeof_MessageHeader
          + data_size (next_header LittleEndian c')))
    else
      m_state c' = ERROR /\
      (sizeof_MessageHeader <= length (unread c'))%nat /\
      validateMessageHeader (fresh_session two_pings_and_a_bit)
        (next_header LittleEndian c') = false.
Proof.
  apply (parseMessages_contract LittleEndian
           (fresh_session two_pings_and_a_bit)).
  apply fresh_session_buffer_ok. vm_compute. reflexivity.
Defined.

Lemma parseMessages_stream_witness :
  exists c',
    parseMessages LittleEndian (fresh_session two_pings_and_a_bit)
    = Some (true, c') /\
    m_parsed_messages c'
    = m_parsed_messages (fresh_session two_pings_and_a_bit) ++ two_pings /\
    unread c' = [x4b; x41] /\
    c' = set_receive (m_receive_buffer c') (m_receive_buffer_pos c')
                     (m_parsed_messages c')
                     (fresh_session two_pings_and_a_bit).
Proof.
  apply (parseMessages_stream LittleEndian
           (fresh_session two_pings_and_a_bit) two_pings [x4b; x41]).
  - apply fresh_session_buffer_ok. vm_compute. reflexivity.
  - assert (Hping : deliverable
                      (max_message_size
                         (m_config (fresh_session two_pings_and_a_bit)))
                      (ping_header, ping_payload)).
    { unfold deliverable. cbn [fst snd].
      split; [unfold header_typed, in_range; repeat split;
              vm_compute; congruence|].
      split; [reflexivity|].
      split; [vm_compute; discriminate|reflexivity]. }
    unfold two_pings.
    apply Forall_cons; split; [exact Hping|].
    apply Forall_cons; split; [exact Hping|apply Forall_nil; exact I].
  - reflexivity.
  - unfold sizeof_MessageHeader. cbn [length]. lia.
Defined.

End FramingExamples.

(** ** The session's rate limiter as a sliding window *)

Section SlidingWindow.

Import Session.

(** The timestamps of [w] that are at most one second older than [now]. *)
Definition recent (now : Z) (w : list Z) : list Z :=
  List.filter (fun t => now - t <=? ticks_per_second) w.

Lemma recent_all (now : Z) (w : list Z) :
  Forall (fun t => now - t <= ticks_per_second) w -> recent now w = w.
Proof.
  unfold recent. induction w as [|t w IH]; intros H; [reflexivity|].
  apply Forall_cons in H as [Ht Hw]. cbn [List.filter].
  apply Z.leb_le in Ht. rewrite Ht, (IH Hw). reflexivity.
Qed.

(** On timestamps in the order they were taken, popping expired fronts
    leaves the recent ones. *)
Lemma drop_expired_recent (now : Z) (w : list Z) :
  StronglySorted Z.le w -> drop_expired now w = recent now w.
Proof.
  induction w as [|t w IH]; intros Hs; [reflexivity|].
  apply StronglySorted_inv in Hs as [Hs Ht].
  cbn [drop_expired]. unfold recent. cbn [List.filter].
  destruct (now - t >? ticks_per_second) eqn:E.
  - rewrite Z.gtb_ltb in E. apply Z.ltb_lt in E.
    assert ((now - t <=? ticks_per_second) = false) as ->
      by (apply Z.leb_gt; lia).
    apply IH. exact Hs.
  - rewrite Z.gtb_ltb in E. apply Z.ltb_ge in E.
    assert ((now - t <=? ticks_per_second) = true) as ->
      by (apply Z.leb_le; lia).
    f_equal. symmetry. apply recent_all.
    eapply Forall_impl; [exact Ht|]. cbn. intros u Hu. lia.
Qed.

Lemma recent_sorted (now : Z) (w : list Z) :
  StronglySorted Z.le w -> StronglySorted Z.le (recent now w).
Proof.
  unfold recent. induction w as [|t w IH]; intros Hs; [constructor|].
  apply StronglySorted_inv in Hs as [Hs Ht]. cbn [List.filter].
  destruct (now - t <=? ticks_per_second); [|exact (IH Hs)].
  constructor; [exact (IH Hs)|].
  apply Forall_forall. intros u Hu.
  apply list_elem_of_In, filter_In in Hu as [Hu _].
  rewrite Forall_forall in Ht. apply Ht, list_elem_of_In. exact Hu.
Qed.

Lemma recent_bound (now : Z) (w : list Z) :
  Forall (fun t => t <= now) w -> Forall (fun t => t <= now) (recent now w).
Proof.
  intros H. apply Forall_forall. intros u Hu.
  apply list_elem_of_In, filter_In in Hu as [Hu _].
  rewrite Forall_forall in H. apply H, list_elem_of_In. exact Hu.
Qed.

Lemma StronglySorted_snoc (w : list Z) (now : Z) :
  StronglySorted Z.le w -> Forall (fun t => t <= now) w ->
  StronglySorted Z.le (w ++ [now]).
Proof.
  induction w as [|t w IH]; intros Hs Hb.
  - repeat constructor.
  - apply StronglySorted_inv in Hs as [Hs Ht].
    apply Forall_cons in Hb as [Hb Hw]. cbn [app].
    constructor; [exact (IH Hs Hw)|].
    apply Forall_app. split; [exact Ht|]. repeat constructor. exact Hb.
Qed.

(** X11.  The limiter is a sliding window.  With a clock that does not run
    backwards, the queue holds the times of the calls let through, oldest
    first; a call is let through exactly when fewer than 1000 of them are
    at most one second old, and is then recorded; otherwise the error
    counter goes up.  Either way the queue afterwards holds only calls at
    most one second old, still in order and none later than the call. *)
Theorem checkRateLimit_sliding_window (now : Z) (c : Client) :
  StronglySorted Z.le (m_message_times c) ->
  Forall (fun t => t <= now) (m_message_times c) ->
  let window := recent now (m_message_times c) in
  checkRateLimit now c
  = (if Z.of_nat (length window) <? MAX_MESSAGES_PER_SECOND
     then (true, set_message_times (window ++ [now]) c)
     else (false,
           set_info (bump_errors (m_info c)) (set_message_times window c))) /\
  StronglySorted Z.le (m_message_times (checkRateLimit now c).2) /\
  Forall (fun t => t <= now /\ now - t <= ticks_per_second)
         (m_message_times (checkRateLimit now c).2).
Proof.
  intros Hs Hb window.
  assert (Hrun :
    checkRateLimit now c
    = (if Z.of_nat (length window) <? MAX_MESSAGES_PER_SECOND
       then (true, set_message_times (window ++ [now]) c)
       else (false,
             set_info (bump_errors (m_info c))
                      (set_message_times window c)))).
  { unfold checkRateLimit.
    cbn [set_message_times m_message_times m_info].
    rewrite (drop_expired_recent now _ Hs). fold window.
    rewrite Z.geb_leb.
    destruct (Z.of_nat (length window) <? MAX_MESSAGES_PER_SECOND) eqn:E.
    - apply Z.ltb_lt in E.
      assert ((MAX_MESSAGES_PER_SECOND <=? Z.of_nat (length window)) = false)
        as -> by (apply Z.leb_gt; exact E).
      reflexivity.
    - apply Z.ltb_ge in E.
      assert ((MAX_MESSAGES_PER_SECOND <=? Z.of_nat (length window)) = true)
        as -> by (apply Z.leb_le; exact E).
      reflexivity. }
  split; [exact Hrun|].
  pose proof (recent_sorted now _ Hs) as Hws.
  pose proof (recent_bound now _ Hb) as Hwb.
  assert (Hwr : Forall (fun t => now - t <= ticks_per_second) window).
  { apply Forall_forall. intros u Hu.
    apply list_elem_of_In, filter_In in Hu as [_ Hu].
    apply Z.leb_le. exact Hu. }
  fold window in Hws, Hwb.
  rewrite Hrun.
  destruct (Z.of_nat (length window) <? MAX_MESSAGES_PER_SECOND);
    cbn [snd set_message_times set_info m_message_times].
  - split; [apply StronglySorted_snoc; assumption|].
    apply Forall_app. split.
    + apply Forall_forall. intros u Hu.
      rewrite Forall_forall in Hwb, Hwr. split; auto.
    + repeat constructor; unfold ticks_per_second; lia.
  - split; [exact Hws|].
    apply Forall_forall. intros u Hu.
    rewrite Forall_forall in Hwb, Hwr. split; auto.
Qed.

Lemma length_drop_expired (now : Z) (w : list Z) :
  (length (drop_expired now w) <= length w)%nat.
Proof.
  induction w as [|t w IH]; [reflexivity|].
  cbn [drop_expired]. destruct (now - t >? ticks_per_second);
    cbn [length]; lia.
Qed.

Lemma checkRateLimit_bounded (now : Z) (c : Client) :
  Z.of_nat (length (m_message_times c)) <= MAX_MESSAGES_PER_SECOND ->
  Z.of_nat (length (m_message_times (checkRateLimit now c).2))
  <= MAX_MESSAGES_PER_SECOND.
Proof.
  intros H. unfold checkRateLimit.
  cbn [set_message_times m_message_times m_info].
  pose proof (length_drop_expired now (m_message_times c)) as Hd.
  destruct (_ >=? _) eqn:E;
    cbn [snd set_message_times set_info m_message_times].
  - lia.
  - rewrite Z.geb_leb in E. apply Z.leb_gt in E.
    rewrite length_app. cbn [length]. lia.
Qed.

(** X12.  The limiter's memory is bounded.  Whatever the clock readings, in
    whatever order, a queue of at most 1000 timestamps (an empty one, at
    construction) never grows beyond 1000. *)
Theorem checkRateLimit_window_bounded (times : list Z) (c : Client) :
  Z.of_nat (length (m_message_times c)) <= MAX_MESSAGES_PER_SECOND ->
  Z.of_nat (length (m_message_times (checkRateLimit_calls times c).2))
  <= MAX_MESSAGES_PER_SECOND.
Proof.
  revert c. induction times as [|now times IH]; intros c H; [exact H|].
  cbn [checkRateLimit_calls].
  pose proof (checkRateLimit_bounded now c H) as H1.
  destruct (checkRateLimit now c) as [ok c1]. cbn [snd] in H1.
  specialize (IH c1 H1).
  destruct (checkRateLimit_calls times c1) as [rest c2]. exact IH.
Qed.

End SlidingWindow.

Section SlidingWindowExamples.

Import Session.

(** A session that let calls through at 100 ns, 200 ns and 1.5 s. *)
Definition busy_session : Client :=
  set_message_times [100; 200; 1500000000] (fresh_session []).

Lemma checkRateLimit_sliding_window_witness :
  let window := recent 1600000000 (m_message_times busy_session) in
  checkRateLimit 1600000000 busy_session
  = (if Z.of_nat (length window) <? MAX_MESSAGES_PER_SECOND
     then (true, set_message_times (window ++ [1600000000]) busy_session)
     else (false,
           set_info (bump_errors (m_info busy_session))
                    (set_message_times window busy_session))) /\
  StronglySorted Z.le
    (m_message_times (checkRateLimit 1600000000 busy_session).2) /\
  Forall (fun t => t <= 1600000000 /\ 1600000000 - t <= ticks_per_second)
         (m_message_times (checkRateLimit 1600000000 busy_session).2).
Proof.
  apply (checkRateLimit_sliding_window 1600000000 busy_session).
  - cbn. repeat constructor; lia.
  - cbn. repeat constructor; lia.
Defined.

Lemma checkRateLimit_window_bounded_witness :
  Z.of_nat (length (m_message_times
                      (checkRateLimit_calls burst (fresh_session [])).2))
  <= MAX_MESSAGES_PER_SECOND.
Proof.
  apply (checkRateLimit_window_bounded burst (fresh_session [])).
  vm_compute. discriminate.
Defined.

End SlidingWindowExamples.

(** ** What a disconnect does *)

Section Disconnect.

Import Session.

Definition closes (e : Event) : bool :=
  match e with SysClose _ => true | _ => false end.

Lemma filter_closes_app (l1 l2 : list Event) :
  List.filter closes (l1 ++ l2) = List.filter closes l1 ++ List.filter closes l2.
Proof. apply List.filter_app. Qed.

Lemma setState_events (s : State) (c : Client) :
  List.filter closes (m_events (setState s c)) = List.filter closes (m_events c).
Proof.
  unfold setState. destruct (negb _); cbn [emit set_state m_events];
    [|reflexivity].
  rewrite filter_closes_app. cbn. apply app_nil_r.
Qed.

Lemma setState_frame (s : State) (c : Client) :
  m_socket (setState s c) = m_socket c /\
  m_info (setState s c) = m_info c /\
  m_disconnect_reason (setState s c) = m_disconnect_reason c /\
  m_message_times (setState s c) = m_message_times c.
Proof. unfold setState. destruct (negb _); repeat split. Qed.

(** X13.  A disconnect closes the socket once.  On a session that is not
    DISCONNECTED, [disconnect(reason)] ends in state DISCONNECTED with the
    reason recorded and the descriptor set to -1; [close] is called exactly
    once, on the descriptor the session held, and not at all when it held
    none; the session is no longer connected, and its buffers, queue,
    limiter and counters are as they were. *)
Theorem disconnect_closes_once (reason : string) (c : Client) :
  m_state c <> DISCONNECTED ->
  let c' := disconnect reason c in
  m_state c' = DISCONNECTED /\
  isConnected c' = false /\
  m_socket c' = -1 /\
  m_disconnect_reason c' = reason /\
  List.filter closes (m_events c')
  = List.filter closes (m_events c)
    ++ (if m_socket c =? -1 then [] else [SysClose (m_socket c)]) /\
  m_receive_buffer c' = m_receive_buffer c /\
  m_receive_buffer_pos c' = m_receive_buffer_pos c /\
  m_parsed_messages c' = m_parsed_messages c /\
  m_message_times c' = m_message_times c /\
  m_info c' = m_info c.
Proof.
  intros Hstate c'.
  assert (Hne : State_eqb (m_state c) DISCONNECTED = false).
  { destruct (State_eqb (m_state c) DISCONNECTED) eqn:E; [|reflexivity].
    apply State_eqb_eq in E. contradiction. }
  assert (Hst : m_state c' = DISCONNECTED).
  { unfold c', disconnect. rewrite Hne. apply m_state_setState. }
  split; [exact Hst|].
  split; [unfold isConnected; rewrite Hst; reflexivity|].
  unfold c', disconnect. rewrite Hne.
  set (c1 := setState DISCONNECTING
               (set_disconnect_reason reason (emit LogInfo c))).
  assert (Hsock1 : m_socket c1 = m_socket c).
  { unfold c1. rewrite (proj1 (setState_frame _ _)). reflexivity. }
  rewrite Hsock1.
  destruct (setState_receive DISCONNECTING
              (set_disconnect_reason reason (emit LogInfo c)))
    as (Hb1 & Hp1 & Hq1 & _).
  destruct (setState_frame DISCONNECTING
              (set_disconnect_reason reason (emit LogInfo c)))
    as (_ & Hi1 & Hr1 & Ht1).
  fold c1 in Hb1, Hp1, Hq1, Hi1, Hr1, Ht1.
  pose proof (setState_events DISCONNECTING
                (set_disconnect_reason reason (emit LogInfo c))) as He1.
  fold c1 in He1.
  cbn [set_disconnect_reason emit m_events m_receive_buffer
       m_receive_buffer_pos m_parsed_messages m_info m_disconnect_reason
       m_message_times] in Hb1, Hp1, Hq1, Hi1, Hr1, Ht1, He1.
  rewrite filter_closes_app in He1. cbn [List.filter closes] in He1.
  rewrite app_nil_r in He1.
  destruct (m_socket c =? -1) eqn:Esock; cbn [negb].
  - destruct (setState_receive DISCONNECTED c1) as (Hb & Hp & Hq & _).
    destruct (setState_frame DISCONNECTED c1) as (Hs & Hi & Hr & Ht).
    rewrite (setState_events DISCONNECTED c1).
    rewrite Hs, Hr, Hb, Hp, Hq, Ht, Hi, Hsock1, Hr1, Hb1, Hp1, Hq1, Ht1, Hi1,
      He1, app_nil_r.
    apply Z.eqb_eq in Esock. repeat split; auto.
  - set (c2 := set_socket (-1) (emit (SysClose (m_socket c)) c1)).
    destruct (setState_receive DISCONNECTED c2) as (Hb & Hp & Hq & _).
    destruct (setState_frame DISCONNECTED c2) as (Hs & Hi & Hr & Ht).
    rewrite (setState_events DISCONNECTED c2).
    rewrite Hs, Hr, Hb, Hp, Hq, Ht, Hi. unfold c2.
    cbn [set_socket emit m_socket m_events m_receive_buffer
         m_receive_buffer_pos m_parsed_messages m_info m_disconnect_reason
         m_message_times].
    rewrite filter_closes_app, He1, Hr1, Hb1, Hp1, Hq1, Ht1, Hi1.
    repeat split; auto.
Qed.

Lemma disconnect_closes_once_witness :
  let c' := disconnect "Timeout" (fresh_session []) in
  m_state c' = DISCONNECTED /\
  isConnected c' = false /\
  m_socket c' = -1 /\
  m_disconnect_reason c' = "Timeout"%string /\
  List.filter closes (m_events c')
  = List.filter closes (m_events (fresh_session []))
    ++ (if m_socket (fresh_session []) =? -1 then []
        else [SysClose (m_socket (fresh_session []))]) /\
  m_receive_buffer c' = m_receive_buffer (fresh_session []) /\
  m_receive_buffer_pos c' = m_receive_buffer_pos (fresh_session []) /\
  m_parsed_messages c' = m_parsed_messages (fresh_session []) /\
  m_message_times c' = m_message_times (fresh_session []) /\
  m_info c' = m_info (fresh_session []).
Proof.
  apply (disconnect_closes_once "Timeout" (fresh_session [])).
  cbn. discriminate.
Defined.

End Disconnect.

(** ** The network manager: validation and the command limiter *)

Section NetworkFacts.

Import Protocol Network.

Variable host : ByteOrder.

Lemma deliverable_validateMessage (nm : NetworkManager) (cap : Z)
    (m : MessageHeader * list byte) :
  cap <= max_message_size nm ->
  deliverable cap m -> validateMessage nm m.1 m.2 = true.
Proof.
  intros Hcap (_ & Hval & Hsize & Hlen). unfold validateMessage.
  rewrite Hval. cbn [negb].
  assert ((Z.of_nat (length m.2) =? data_size m.1) = true) as ->
    by (apply Z.eqb_eq; exact Hlen).
  cbn [negb].
  assert ((data_size m.1 >? max_message_size nm) = false) as ->
    by (rewrite Z.gtb_ltb; apply Z.ltb_ge; lia).
  reflexivity.
Qed.

(** X14.  What a session parses, the manager accepts.  Every message
    [Client::parseMessages] queues passes
    [NetworkManager::validateMessage], provided the manager's size cap is
    not below the session's (both default to 10 MiB). *)
Theorem parsed_messages_pass_validateMessage (nm : NetworkManager)
    (c : Session.Client) :
  buffer_ok c ->
  Session.max_message_size (Session.m_config c) <= max_message_size nm ->
  exists ok c' new,
    Session.parseMessages host c = Some (ok, c') /\
    Session.m_parsed_messages c' = Session.m_parsed_messages c ++ new /\
    Forall (fun m => validateMessage nm m.1 m.2 = true) new.
Proof.
  intros Hok Hcap.
  destruct (parseMessages_outcome host c Hok)
    as (ok & c' & new & Hrun & _ & _ & Hq & Hall & _).
  exists ok, c', new. split; [exact Hrun|]. split; [exact Hq|].
  eapply Forall_impl; [exact Hall|].
  intros m Hm. eapply deliverable_validateMessage; eassumption.
Qed.

End NetworkFacts.

Section CommandLimiter.

Import Network.

Definition entry (client_id : Z) (nm : NetworkManager) : RateLimitInfo :=
  default RateLimitInfo_new (m_rate_limits nm !! client_id).

(** The flag is set exactly when the count is over the limit. *)
Definition flag_in_step (nm : NetworkManager) (ri : RateLimitInfo) : Prop :=
  is_limited ri = (command_count ri >? max_commands_per_second nm).

Lemma entry_insert (client_id : Z) (ri : RateLimitInfo)
    (m : gmap Z RateLimitInfo) (nm : NetworkManager) :
  entry client_id (set_rate_limits (<[client_id := ri]> m) nm) = ri.
Proof.
  unfold entry. cbn [set_rate_limits m_rate_limits].
  rewrite lookup_insert_eq. reflexivity.
Qed.

(** One call, on an entry whose counter does not wrap. *)
Lemma checkRateLimit_eq (client_id : Z) (nm : NetworkManager) :
  enable_rate_limiting nm = true ->
  flag_in_step nm (entry client_id nm) ->
  0 <= command_count (entry client_id nm) ->
  command_count (entry client_id nm) + 1 < 2 ^ 32 ->
  let k := command_count (entry client_id nm) + 1 in
  checkRateLimit client_id nm
  = (k <=? max_commands_per_second nm,
     set_rate_limits
       (<[client_id :=
            {| command_count := k;
               last_reset := last_reset (entry client_id nm);
               is_limited := k >? max_commands_per_second nm |}]>
          (m_rate_limits nm))
       (if (k >? max_commands_per_second nm)
           && negb (is_limited (entry client_id nm))
        then log_warning nm else nm)).
Proof.
  intros Hen Hflag H0 Hroom k.
  unfold checkRateLimit. rewrite Hen. cbn [negb].
  fold (entry client_id nm).
  cbn [command_count last_reset is_limited].
  assert (Hk : uint32 (command_count (entry client_id nm) + 1) = k).
  { unfold uint32, wrap. apply Z.mod_small. unfold k. lia. }
  rewrite Hk.
  assert (Hle : (k <=? max_commands_per_second nm)
                = negb (k >? max_commands_per_second nm)).
  { rewrite Z.gtb_ltb, Z.leb_antisym. reflexivity. }
  rewrite Hle.
  destruct (k >? max_commands_per_second nm) eqn:Eover; cbn [negb andb].
  - destruct (is_limited (entry client_id nm)) eqn:Elim; cbn [negb];
      reflexivity.
  - assert (Hold : is_limited (entry client_id nm) = false).
    { rewrite Hflag. rewrite Z.gtb_ltb. apply Z.ltb_ge.
      rewrite Z.gtb_ltb in Eover. apply Z.ltb_ge in Eover. unfold k in Eover.
      lia. }
    rewrite Hold. reflexivity.
Qed.

(** [n] calls in a row on an entry that has counted [k] commands. *)
Lemma checkRateLimit_repeat_from (n : nat) (client_id : Z)
    (nm : NetworkManager) :
  enable_rate_limiting nm = true ->
  flag_in_step nm (entry client_id nm) ->
  0 <= command_count (entry client_id nm) ->
  command_count (entry client_id nm) + Z.of_nat n < 2 ^ 32 ->
  let k := command_count (entry client_id nm) in
  let limit := max_commands_per_second nm in
  let '(results, nm') := checkRateLimit_repeat n client_id nm in
  length results = n /\
  (forall i, (i < n)%nat ->
     results !! i = Some (k + Z.of_nat i + 1 <=? limit)) /\
  command_count (entry client_id nm') = k + Z.of_nat n /\
  last_reset (entry client_id nm') = last_reset (entry client_id nm) /\
  (forall other, other <> client_id ->
     m_rate_limits nm' !! other = m_rate_limits nm !! other) /\
  is_limited (entry client_id nm') = (k + Z.of_nat n >? limit) /\
  warnings_logged nm'
  = (warnings_logged nm
     + (if ((k <=? limit)%Z && (limit <? k + Z.of_nat n)%Z) then 1 else 0))%nat.
Proof.
  revert nm. induction n as [|n IH]; intros nm Hen Hflag H0 Hroom k limit.
  - cbn [checkRateLimit_repeat].
    split; [reflexivity|]. split; [intros i Hi; lia|].
    split; [lia|]. split; [reflexivity|]. split; [reflexivity|].
    split; [rewrite Hflag, Z.add_0_r; reflexivity|].
    assert ((limit <? k + Z.of_nat 0) = false \/ (k <=? limit) = false)
      as [-> | ->].
    { destruct (k <=? limit) eqn:E; [left|right; reflexivity].
      apply Z.leb_le in E. apply Z.ltb_ge. lia. }
    + rewrite andb_false_r. lia.
    + cbn [andb]. lia.
  - cbn [checkRateLimit_repeat].
    rewrite (checkRateLimit_eq client_id nm Hen Hflag H0 ltac:(lia)).
    fold k limit.
    set (nm1 := set_rate_limits _ _).
    assert (He1 : entry client_id nm1
                  = {| command_count := k + 1;
                       last_reset := last_reset (entry client_id nm);
                       is_limited := k + 1 >? limit |})
      by apply entry_insert.
    assert (Hmax1 : max_commands_per_second nm1 = limit).
    { unfold nm1. destruct (_ && _); reflexivity. }
    assert (Hen1 : enable_rate_limiting nm1 = true).
    { unfold nm1. destruct (_ && _); exact Hen. }
    assert (Hflag1 : flag_in_step nm1 (entry client_id nm1)).
    { unfold flag_in_step. rewrite He1, Hmax1. reflexivity. }
    specialize (IH nm1 Hen1 Hflag1).
    rewrite He1, Hmax1 in IH.
    cbn [command_count last_reset is_limited] in IH.
    specialize (IH ltac:(lia) ltac:(lia)).
    destruct (checkRateLimit_repeat n client_id nm1) as [rest nm'].
    destruct IH as (Hlen & Hres & Hcount & Hreset & Hothers & Hlim & Hwarn).
    assert (Hw1 : warnings_logged nm1
                  = (warnings_logged nm
                     + (if ((k + 1 >? limit)%Z
                            && negb (is_limited (entry client_id nm)))
                        then 1 else 0))%nat).
    { unfold nm1. destruct (_ && _); cbn; lia. }
    split; [cbn [length]; rewrite Hlen; reflexivity|].
    split.
    { intros [|i] Hi.
      - cbn [lookup list_lookup]. do 2 f_equal. lia.
      - change (rest !! i = Some (k + Z.of_nat (S i) + 1 <=? limit)).
        rewrite (Hres i ltac:(lia)). do 2 f_equal. lia. }
    split; [rewrite Hcount; lia|]. split; [exact Hreset|].
    split.
    { intros other Hne. rewrite (Hothers other Hne). unfold nm1.
      destruct (_ && _);
        cbn [set_rate_limits log_warning m_rate_limits];
        apply lookup_insert_ne; congruence. }
    split; [rewrite Hlim; f_equal; lia|].
    rewrite Hwarn, Hw1.
    unfold flag_in_step in Hflag. fold k limit in Hflag. rewrite Hflag.
    rewrite !Z.gtb_ltb.
    destruct (limit <? k + 1) eqn:E1; destruct (limit <? k) eqn:E2;
      destruct (k + 1 <=? limit) eqn:E3; destruct (k <=? limit) eqn:E4;
      destruct (limit <? k + 1 + Z.of_nat n) eqn:E5;
      destruct (limit <? k + Z.of_nat (S n)) eqn:E6;
      cbn [andb negb];
      repeat match goal with
             | H : (_ <? _) = true |- _ => apply Z.ltb_lt in H
             | H : (_ <? _) = false |- _ => apply Z.ltb_ge in H
             | H : (_ <=? _) = true |- _ => apply Z.leb_le in H
             | H : (_ <=? _) = false |- _ => apply Z.leb_gt in H
             end; lia.
Qed.

(** X15.  The manager's limiter is a fixed window.  With rate limiting on,
    once [updateRateLimits] has found a client's window at least one second
    old and reset it, the next commands of that client are admitted up to
    [max_commands_per_second] and refused beyond it (fewer than 2^32
    commands, so that the counter does not wrap); a warning is logged once,
    at the first refusal; other clients' counters are not touched. *)
Theorem checkRateLimit_fixed_window (nm : NetworkManager) (client_id now : Z)
    (ri : RateLimitInfo) (n : nat) :
  enable_rate_limiting nm = true ->
  0 <= max_commands_per_second nm ->
  m_rate_limits nm !! client_id = Some ri ->
  now - last_reset ri >= Session.ticks_per_second ->
  Z.of_nat n < 2 ^ 32 ->
  let limit := max_commands_per_second nm in
  let nm0 := updateRateLimits now nm in
  let '(results, nm') := checkRateLimit_repeat n client_id nm0 in
  m_rate_limits nm0 !! client_id
  = Some {| command_count := 0; last_reset := now; is_limited := false |} /\
  length results = n /\
  (forall i, (i < n)%nat -> results !! i = Some (Z.of_nat i + 1 <=? limit)) /\
  entry client_id nm'
  = {| command_count := Z.of_nat n; last_reset := now;
       is_limited := Z.of_nat n >? limit |} /\
  (forall other, other <> client_id ->
     m_rate_limits nm' !! other = m_rate_limits nm0 !! other) /\
  warnings_logged nm'
  = (warnings_logged nm + (if (limit <? Z.of_nat n)%Z then 1 else 0))%nat.
Proof.
  intros Hen Hmax Hri Hold Hn limit nm0.
  assert (Hnm0 : nm0
                 = set_rate_limits
                     ((fun rate_info =>
                         if now - last_reset rate_info
                            >=? Session.ticks_per_second
                         then {| command_count := 0; last_reset := now;
                                 is_limited := false |}
                         else rate_info) <$> m_rate_limits nm) nm).
  { unfold nm0, updateRateLimits. rewrite Hen. reflexivity. }
  assert (Hentry : m_rate_limits nm0 !! client_id
                   = Some {| command_count := 0; last_reset := now;
                             is_limited := false |}).
  { rewrite Hnm0. cbn [set_rate_limits m_rate_limits].
    rewrite lookup_fmap, Hri. cbn [fmap option_fmap option_map].
    assert ((now - last_reset ri >=? Session.ticks_per_second) = true) as ->
      by (rewrite Z.geb_leb; apply Z.leb_le; lia).
    reflexivity. }
  assert (He0 : entry client_id nm0
                = {| command_count := 0; last_reset := now;
                     is_limited := false |}).
  { unfold entry. rewrite Hentry. reflexivity. }
  assert (Hen0 : enable_rate_limiting nm0 = true)
    by (rewrite Hnm0; exact Hen).
  assert (Hmax0 : max_commands_per_second nm0 = limit)
    by (rewrite Hnm0; reflexivity).
  assert (Hw0 : warnings_logged nm0 = warnings_logged nm)
    by (rewrite Hnm0; reflexivity).
  assert (Hflag0 : flag_in_step nm0 (entry client_id nm0)).
  { unfold flag_in_step. rewrite He0, Hmax0. cbn [is_limited command_count].
    symmetry. rewrite Z.gtb_ltb. apply Z.ltb_ge. exact Hmax. }
  pose proof (checkRateLimit_repeat_from n client_id nm0 Hen0 Hflag0) as H.
  rewrite He0, Hmax0 in H. cbn [command_count last_reset] in H.
  specialize (H ltac:(lia) ltac:(lia)).
  destruct (checkRateLimit_repeat n client_id nm0) as [results nm'] eqn:Erun.
  destruct H as (Hlen & Hres & Hcount & Hreset & Hothers & Hlim & Hwarn).
  split; [exact Hentry|]. split; [exact Hlen|].
  split; [intros i Hi; rewrite (Hres i Hi); do 2 f_equal; lia|].
  split.
  { destruct (entry client_id nm') as [cnt lr lim].
    cbn [command_count last_reset is_limited] in Hcount, Hreset, Hlim.
    rewrite Hcount, Hreset, Hlim. reflexivity. }
  split; [exact Hothers|].
  rewrite Hwarn, Hw0.
  assert ((0 <=? limit) = true) as -> by (apply Z.leb_le; exact Hmax).
  cbn [andb]. reflexivity.
Qed.

End CommandLimiter.

Section NetworkExamples.

Import Protocol Network.

(** A manager that admits three commands a second, and a client whose
    window was opened at the clock's epoch and is used up. *)
Definition used_up : RateLimitInfo :=
  {| command_count := 10; last_reset := 0; is_limited := true |}.

Definition small_manager : NetworkManager :=
  {| max_message_size := 10 * 1024 * 1024;
     enable_rate_limiting := true;
     max_commands_per_second := 3;
     m_rate_limits := {[ 7 := used_up ]};
     warnings_logged := 1 |}.

Lemma parsed_messages_pass_validateMessage_witness :
  exists ok c' new,
    Session.parseMessages LittleEndian (fresh_session two_pings_and_a_bit)
    = Some (ok, c') /\
    Session.m_parsed_messages c'
    = Session.m_parsed_messages (fresh_session two_pings_and_a_bit) ++ new /\
    Forall (fun m => validateMessage small_manager m.1 m.2 = true) new.
Proof.
  apply (parsed_messages_pass_validateMessage LittleEndian small_manager
           (fresh_session two_pings_and_a_bit)).
  - apply fresh_session_buffer_ok. vm_compute. reflexivity.
  - vm_compute. discriminate.
Defined.

Lemma checkRateLimit_fixed_window_witness :
  let limit := max_commands_per_second small_manager in
  let nm0 := updateRateLimits 2000000000 small_manager in
  let '(results, nm') := checkRateLimit_repeat 5 7 nm0 in
  m_rate_limits nm0 !! 7
  = Some {| command_count := 0; last_reset := 2000000000;
            is_limited := false |} /\
  length results = 5%nat /\
  (forall i, (i < 5)%nat -> results !! i = Some (Z.of_nat i + 1 <=? limit)) /\
  entry 7 nm'
  = {| command_count := Z.of_nat 5; last_reset := 2000000000;
       is_limited := Z.of_nat 5 >? limit |} /\
  (forall other, other <> 7 ->
     m_rate_limits nm' !! other = m_rate_limits nm0 !! other) /\
  warnings_logged nm'
  = (warnings_logged small_manager
     + (if (limit <? Z.of_nat 5)%Z then 1 else 0))%nat.
Proof.
  apply (checkRateLimit_fixed_window small_manager 7 2000000000 used_up 5).
  - reflexivity.
  - cbn. lia.
  - apply lookup_singleton_eq.
  - cbn. unfold Session.ticks_per_second. lia.
  - cbn. lia.
Defined.

End NetworkExamples.

(** ** From the wire to a render command *)

Section Conversion.

Import Protocol Types Serialization Session Commands.

Variable host : ByteOrder.
Variable sizeof_RenderCommand : Z.
Variable now : Z.

(** X16.  A text message, end to end.  A message built by
    [createDrawTextMessage] with [text_length] set to the length of the
    text, once it is what a session has left to read, is queued by
    [parseMessages] as one message, and [fromNetworkMessage] turns that
    message into the DRAW_TEXT command of the struct and the text it was
    built from, on the header's layer, whatever lies in memory behind the
    payload. *)
Theorem draw_text_end_to_end
    (now_us cid seq layer : Z) (td : DrawTextData) (text behind : list byte)
    (c : Client) :
  in_range 64 now_us -> in_range 32 cid -> in_range 32 seq ->
  in_range 8 layer -> DrawTextData_typed td ->
  text_length td = Z.of_nat (length text) ->
  Z.of_nat sizeof_DrawTextData + Z.of_nat (length text) <= MAX_MESSAGE_SIZE ->
  Z.of_nat sizeof_DrawTextData + Z.of_nat (length text)
  <= max_message_size (m_config c) ->
  buffer_ok c ->
  unread c = createDrawTextMessage host now_us cid seq layer td text ->
  let header :=
    createHeader now_us DRAW_TEXT cid seq
      (Z.of_nat sizeof_DrawTextData + Z.of_nat (length text)) layer in
  exists c' payload,
    parseMessages host c = Some (true, c') /\
    m_parsed_messages c' = m_parsed_messages c ++ [(header, payload)] /\
    unread c' = [] /\
    fromNetworkMessage host sizeof_RenderCommand now header (payload ++ behind)
    = fromDrawTextData sizeof_RenderCommand now td text layer.
Proof.
  intros Hnow Hcid Hseq Hlayer Htd Htl Hfit Hcap Hok Hun header.
  set (payload := DrawTextData_bytes host td ++ text).
  pose proof (length_DrawTextData_bytes host td) as Hltd.
  assert (Hty : header_typed header).
  { apply createHeader_typed; try assumption; [closed_range|].
    unfold MAX_MESSAGE_SIZE in Hfit. ranges. lia. }
  assert (Hdel : deliverable (max_message_size (m_config c)) (header, payload)).
  { unfold deliverable. cbn [fst snd].
    split; [exact Hty|]. split.
    { apply validateHeader_spec.
      cbn [magic protocol_version data_size header createHeader].
      unfold MAX_MESSAGE_SIZE in Hfit. repeat split; try reflexivity.
      exact Hfit. }
    split; [exact Hcap|].
    unfold payload. rewrite length_app, Hltd.
    cbn [data_size header createHeader]. lia. }
  assert (Hwire : unread c = concat (wire host <$> [(header, payload)]) ++ []).
  { cbn [fmap list_fmap concat]. rewrite !app_nil_r.
    rewrite (wire_bytes host _ _ Hdel). cbn [fst snd].
    rewrite Hun, createDrawTextMessage_bytes.
    assert (uint32 (Z.of_nat sizeof_DrawTextData + Z.of_nat (length text))
            = Z.of_nat sizeof_DrawTextData + Z.of_nat (length text)) as ->.
    { unfold uint32, wrap. apply Z.mod_small.
      unfold MAX_MESSAGE_SIZE in Hfit. lia. }
    reflexivity. }
  destruct (parseMessages_of_stream host c [(header, payload)] []
              Hok ltac:(apply Forall_cons; split; [exact Hdel | apply Forall_nil; exact I]) Hwire
              ltac:(cbn; unfold sizeof_MessageHeader; lia))
    as (c' & Hrun & Hq & Hrest & _).
  exists c', payload.
  split; [exact Hrun|]. split; [exact Hq|]. split; [exact Hrest|].
  unfold fromNetworkMessage.
  assert (Htype : type header = DRAW_TEXT) by reflexivity.
  assert (Hlay : Protocol.layer_id header = layer) by reflexivity.
  rewrite Htype, Hlay.
  change (DRAW_TEXT =? DRAW_POINT) with false.
  change (DRAW_TEXT =? DRAW_LINE) with false.
  change (DRAW_TEXT =? DRAW_RECTANGLE) with false.
  change (DRAW_TEXT =? FILL_RECTANGLE) with false.
  change (DRAW_TEXT =? DRAW_TEXT) with true.
  cbv iota zeta.
  unfold payload. rewrite <- app_assoc.
  rewrite DrawTextData_at_bytes by exact Htd.
  rewrite slice_app_skip by lia.
  rewrite Hltd, Nat.sub_diag, Htl, Nat2Z.id.
  unfold slice. rewrite drop_0, take_app_length. reflexivity.
Qed.

(** X17.  What the converter can produce.  [fromNetworkMessage] yields one of
    six command types, always with the constructor's NORMAL priority and
    zeroed client id, sequence number and timestamp; FILL_RECTANGLE becomes
    a filled DRAW_RECTANGLE; and every message type other than the seven it
    handles becomes the default command: a DRAW_POINT on layer 0 with no
    position written, whatever layer the header names. *)
Theorem fromNetworkMessage_outputs (header : MessageHeader) (mem : list byte) :
  let command := fromNetworkMessage host sizeof_RenderCommand now header mem in
  cmd_type command ∈
    [CmdType.DRAW_POINT; CmdType.DRAW_LINE; CmdType.DRAW_RECTANGLE;
     CmdType.DRAW_TEXT; CmdType.DRAW_TEXTURED_QUADS; CmdType.CLEAR_LAYER] /\
  priority command = Priority.NORMAL /\
  cmd_client_id command = 0 /\ sequence_id command = 0 /\
  cmd_timestamp command = 0 /\ created_time command = now /\
  (type header = FILL_RECTANGLE ->
   cmd_type command = CmdType.DRAW_RECTANGLE /\
   exists position width height color,
     payload command = rectangle position width height color true) /\
  (type header ∉ [DRAW_POINT; DRAW_LINE; DRAW_RECTANGLE; FILL_RECTANGLE;
                  DRAW_TEXT; DRAW_TEXTURED_QUADS; CLEAR_LAYER] ->
   command = RenderCommand_default now /\
   cmd_type command = CmdType.DRAW_POINT /\ cmd_layer_id command = 0 /\
   payload command = unwritten).
Proof.
  intros command. unfold command, fromNetworkMessage. cbv zeta.
  destruct (type header =? DRAW_POINT) eqn:E1;
  [|destruct (type header =? DRAW_LINE) eqn:E2;
  [|destruct (type header =? DRAW_RECTANGLE) eqn:E3;
  [|destruct (type header =? FILL_RECTANGLE) eqn:E4;
  [|destruct (type header =? DRAW_TEXT) eqn:E5;
  [|destruct (type header =? DRAW_TEXTURED_QUADS) eqn:E6;
  [|destruct (type header =? CLEAR_LAYER) eqn:E7]]]]]];
    repeat match goal with
           | H : (_ =? _) = true |- _ => apply Z.eqb_eq in H
           | H : (_ =? _) = false |- _ => apply Z.eqb_neq in H
           end;
    (split; [cbn; set_solver|]);
    (split; [reflexivity|]); (split; [reflexivity|]);
    (split; [reflexivity|]); (split; [reflexivity|]);
    (split; [reflexivity|]);
    (split;
     [ intros Hfill;
       first [ solve [ exfalso; rewrite Hfill in *;
                       first [ congruence
                             | match goal with
                               | H : _ = _ |- _ => vm_compute in H; discriminate H
                               end ] ]
             | split; [reflexivity | do 4 eexists; reflexivity] ]
     | intros Hnot;
       first [ repeat split; reflexivity
             | exfalso; apply Hnot; set_solver ] ]).
Qed.

End Conversion.

Section ConversionExamples.

Import Protocol Types Serialization Session Commands.

(** A session whose buffer holds exactly one "Hello" text message. *)
Definition hello_session : Client :=
  fresh_session
    (createDrawTextMessage LittleEndian 1000 7 1 3 hello_text_data hello_text).

Lemma draw_text_end_to_end_witness :
  exists c' payload,
    parseMessages LittleEndian hello_session = Some (true, c') /\
    m_parsed_messages c'
    = m_parsed_messages hello_session
      ++ [(createHeader 1000 DRAW_TEXT 7 1
             (Z.of_nat sizeof_DrawTextData + Z.of_nat (length hello_text)) 3,
           payload)] /\
    unread c' = [] /\
    fromNetworkMessage LittleEndian 128 0
      (createHeader 1000 DRAW_TEXT 7 1
         (Z.of_nat sizeof_DrawTextData + Z.of_nat (length hello_text)) 3)
      (payload ++ [x00; xff])
    = fromDrawTextData 128 0 hello_text_data hello_text 3.
Proof.
  apply (draw_text_end_to_end LittleEndian 128 0 1000 7 1 3
           hello_text_data hello_text [x00; xff] hello_session).
  - closed_range.
  - closed_range.
  - closed_range.
  - closed_range.
  - unfold DrawTextData_typed, Point_typed; repeat split;
      vm_compute; congruence.
  - reflexivity.
  - vm_compute; discriminate.
  - vm_compute; discriminate.
  - apply fresh_session_buffer_ok. vm_compute. reflexivity.
  - reflexivity.
Defined.

End ConversionExamples.

(** ** The layer registry between calls *)

Section RegistryFacts.

Import Layers.

Ltac open_registry st :=
  destruct st as [ls mx ns mu]; cbn [m_layers_mutex m_layers m_max_layers] in *;
  subst.

Ltac run_calls :=
  cbv [bind ret get modify lock unlock lock_guard write_layer discard
       set_mutex set_layers set_needs_sort
       m_layers m_max_layers m_needs_sort m_layers_mutex] in *.

(** What every layer of a registry satisfies: it sits under its own id,
    the id is below the registry's bound, and its opacity is a proportion. *)
Definition layer_ok (max_layers : Z) (i : Z) (l : Layer) : Prop :=
  i < max_layers /\ id l = i /\ (0 <= opacity l)%Q /\ (opacity l <= 1)%Q.

Definition layers_ok (max_layers : Z) (ls : gmap Z Layer) : Prop :=
  forall i l, ls !! i = Some l -> layer_ok max_layers i l.

Lemma clamp01_range (v : Q) : (0 <= clamp01 v)%Q /\ (clamp01 v <= 1)%Q.
Proof.
  unfold clamp01.
  destruct (Qlt_le_dec v 0) as [H0|H0]; [split; [apply Qle_refl|discriminate]|].
  destruct (Qlt_le_dec 1 v) as [H1|H1]; [split; [discriminate|apply Qle_refl]|].
  split; assumption.
Qed.

Lemma layers_ok_alter (mx : Z) (f : Layer -> Layer) (i : Z) (ls : gmap Z Layer) :
  (forall l, layer_ok mx i l -> layer_ok mx i (f l)) ->
  layers_ok mx ls -> layers_ok mx (alter f i ls).
Proof.
  intros Hf Hok j l Hj. rewrite lookup_alter in Hj.
  case_decide as Hij.
  - subst j. destruct (ls !! i) as [l0|] eqn:E; [|discriminate].
    cbn in Hj. injection Hj as <-. apply Hf, Hok, E.
  - apply Hok, Hj.
Qed.

Lemma layers_ok_keep (mx : Z) (i : Z) (l : Layer)
    (v : bool) (z : Q) (bm : BlendMode) (d : bool) (ct lm oc vc : Z)
    (ce : bool) (rt : Z) :
  layer_ok mx i l ->
  layer_ok mx i
    {| id := id l; visible := v; z_order := z; blend_mode := bm;
       opacity := opacity l; dirty := d; created_time := ct;
       last_modified := lm; object_count := oc; vertex_count := vc;
       caching_enabled := ce; render_texture_id := rt |}.
Proof. intros H. exact H. Qed.

Lemma layer_ok_fresh (mx i now : Z) : i < mx -> layer_ok mx i (fresh_layer i now).
Proof.
  intros H. unfold layer_ok. cbn. repeat split; try assumption; discriminate.
Qed.

Lemma layers_ok_optimize (mx now : Z) (ls : gmap Z Layer) :
  layers_ok mx ls ->
  layers_ok mx
    (filter (fun kv =>
               filter (fun kv => idle_and_empty now kv.1 kv.2 = true) ls
               !! kv.1 = None)
       (map_imap (fun k l =>
          Some (if cache_is_stale now k l then with_cache false 0 false l
                else l)) ls)).
Proof.
  intros Hok i l Hl. apply map_lookup_filter_Some in Hl as [Hl _].
  rewrite map_lookup_imap in Hl.
  destruct (ls !! i) as [l0|] eqn:E; [|discriminate].
  cbn in Hl. injection Hl as <-.
  specialize (Hok i l0 E). destruct (cache_is_stale now i l0); exact Hok.
Qed.

(** Every call but [clear], made with the mutex free, returns with the
    mutex free, leaves the bound alone and keeps the layers in order. *)
Lemma run_op_layers_ok (op : Op) (st : LayerManager) :
  is_clear op = false ->
  m_layers_mutex st = false ->
  layers_ok (m_max_layers st) (m_layers st) ->
  exists st', run_op op st = Returned tt st' /\
              m_layers_mutex st' = false /\
              m_max_layers st' = m_max_layers st /\
              layers_ok (m_max_layers st') (m_layers st').
Proof.
  intros Hop Hmu Hok. open_registry st.
  destruct op; try discriminate; cbn [run_op];
    lazymatch goal with
    | |- context [sort_flag_after] =>
        cbv [lock_guard bind lock unlock modify ret m_layers_mutex set_mutex];
        eexists; split; [reflexivity|];
        unfold sort_flag_after; cbn; destruct (_ || _); cbn; auto
    | _ => idtac
    end;
    unfold createLayer, deleteLayer, getOrCreateLayer, setLayerVisibility,
      setLayerOpacity, setLayerBlendMode, setLayerZOrder, clearLayer,
      clearAllLayers, markLayerDirty, markLayerClean, enableLayerCaching,
      disableLayerCaching, updateLayerStats, optimizeLayers, getLayer,
      createLayer;
    run_calls; cbv zeta;
    repeat match goal with
           | |- context [match ?x with _ => _ end] =>
               lazymatch x with
               | context [match _ with _ => _ end] => fail
               | _ => destruct x eqn:?
               end; run_calls
           end;
    try discriminate;
    (eexists; split; [reflexivity|]; cbn;
     split; [reflexivity|]; split; [reflexivity|]);
    try exact Hok;
    try (apply layers_ok_alter; [|exact Hok]; intros l0 Hl0;
         first [ exact Hl0
               | destruct Hl0 as (? & ? & ? & ?); unfold layer_ok; cbn;
                 repeat split; try assumption; apply clamp01_range ]).
  - (* createLayer *)
    intros j lj Hj. rewrite lookup_insert in Hj. case_decide.
    + subst j. injection Hj as <-. apply layer_ok_fresh. lia.
    + apply Hok, Hj.
  - (* deleteLayer *)
    intros j lj Hj. apply lookup_delete_Some in Hj as [_ Hj]. apply Hok, Hj.
  - (* getOrCreateLayer *)
    intros j lj Hj. rewrite lookup_insert in Hj. case_decide.
    + subst j. injection Hj as <-. apply layer_ok_fresh. lia.
    + apply Hok, Hj.
  - (* clearAllLayers *)
    intros j lj Hj. rewrite lookup_fmap in Hj.
    destruct (ls !! j) as [l0|] eqn:E; [|discriminate].
    cbn in Hj. injection Hj as <-. apply (Hok j l0 E).
  - (* optimizeLayers *)
    apply layers_ok_optimize. exact Hok.
Qed.

Lemma run_layers_ok (ops : list Op) (st : LayerManager) :
  forallb (fun op => negb (is_clear op)) ops = true ->
  m_layers_mutex st = false ->
  layers_ok (m_max_layers st) (m_layers st) ->
  exists st', run ops st = Returned tt st' /\
              m_layers_mutex st' = false /\
              m_max_layers st' = m_max_layers st /\
              layers_ok (m_max_layers st') (m_layers st').
Proof.
  revert st. induction ops as [|op ops IH]; intros st Hops Hmu Hok.
  - exists st. auto.
  - cbn [forallb] in Hops. apply andb_prop in Hops as [Hop Hops].
    apply negb_true_iff in Hop.
    destruct (run_op_layers_ok op st Hop Hmu Hok) as (st1 & E1 & Hmu1 & Hmx1 & Hok1).
    destruct (IH st1 Hops Hmu1 Hok1) as (st2 & E2 & Hmu2 & Hmx2 & Hok2).
    exists st2. cbn [run]. unfold bind. rewrite E1.
    split; [exact E2|]. split; [exact Hmu2|]. split; [congruence|exact Hok2].
Qed.

(** X18.  What a registry keeps true.  Whatever [max_layers] it was built
    with, every sequence of calls other than [clear()] returns with the
    mutex free, and in the state reached every layer is stored under its
    own id, that id is below [max_layers], and its opacity lies between 0
    and 1. *)
Theorem registry_layers_stay_in_bounds
    (max_layers : Z) (needs_sort : bool) (now : Z) (ops : list Op) :
  forallb (fun op => negb (is_clear op)) ops = true ->
  exists st,
    lifetime max_layers needs_sort now ops = Returned tt st /\
    m_layers_mutex st = false /\
    m_max_layers st = max_layers /\
    forall i l, m_layers st !! i = Some l ->
      i < max_layers /\ id l = i /\ (0 <= opacity l)%Q /\ (opacity l <= 1)%Q.
Proof.
  intros Hops.
  set (st0 := {| m_layers := ∅; m_max_layers := max_layers;
                 m_needs_sort := needs_sort; m_layers_mutex := false |}).
  assert (Hok0 : layers_ok (m_max_layers st0) (m_layers st0)).
  { intros i l Hl. cbn in Hl. rewrite lookup_empty in Hl. discriminate Hl. }
  destruct (run_op_layers_ok (OpCreateLayer 0 now) st0 eq_refl eq_refl Hok0)
    as (st1 & E1 & Hmu1 & Hmx1 & Hok1).
  destruct (run_layers_ok ops st1 Hops Hmu1 Hok1)
    as (st & E & Hmu & Hmx & Hok).
  exists st. unfold lifetime, LayerManager_new. fold st0.
  change (discard (createLayer 0 now) st0) with (run_op (OpCreateLayer 0 now) st0).
  rewrite E1. split; [exact E|]. split; [exact Hmu|].
  assert (Hmax : m_max_layers st = max_layers) by (rewrite Hmx, Hmx1; reflexivity).
  split; [exact Hmax|].
  intros i l Hl. rewrite <- Hmax. exact (Hok i l Hl).
Qed.

(** *** The idle-layer reaper *)

Lemma minutes_more_than (d k : Z) :
  0 <= k -> (minutes d >? k) = true <-> (k + 1) * ticks_per_minute <= d.
Proof.
  intros Hk. unfold minutes.
  assert (Htpm : 0 < ticks_per_minute) by reflexivity.
  rewrite Z.gtb_ltb, Z.ltb_lt.
  destruct (Z.lt_ge_cases d 0) as [Hneg|Hpos].
  - assert (Hq : Z.quot d ticks_per_minute <= 0)
      by (apply Z.quot_le_upper_bound; lia).
    split; [lia|]. intros Hd. nia.
  - rewrite Z.quot_div_nonneg by lia.
    split.
    + intros Hlt. assert (Hle : k + 1 <= d / ticks_per_minute) by lia.
      pose proof (Z.mul_div_le d ticks_per_minute Htpm) as Hm. nia.
    + intros Hd.
      assert (Hle : k + 1 <= d / ticks_per_minute)
        by (apply Z.div_le_lower_bound; lia).
      lia.
Qed.

Lemma idle_and_empty_iff (now i : Z) (l : Layer) :
  idle_and_empty now i l = true <->
  i <> 0 /\ object_count l = 0 /\
  6 * ticks_per_minute <= now - last_modified l.
Proof.
  unfold idle_and_empty.
  rewrite !andb_true_iff, negb_true_iff, Z.eqb_neq, Z.eqb_eq.
  rewrite (minutes_more_than _ 5) by lia. change (5 + 1) with 6. tauto.
Qed.

Lemma cache_is_stale_iff (now i : Z) (l : Layer) :
  cache_is_stale now i l = true <->
  i <> 0 /\ caching_enabled l = true /\ object_count l = 0 /\
  3 * ticks_per_minute <= now - last_modified l.
Proof.
  unfold cache_is_stale.
  rewrite !andb_true_iff, negb_true_iff, Z.eqb_neq, Z.eqb_eq.
  rewrite (minutes_more_than _ 2) by lia. change (2 + 1) with 3. tauto.
Qed.

(** X19.  What [optimizeLayers] removes.  Called with the mutex free it
    returns, and the layers it removes are exactly those other than layer 0
    that hold no objects and were last modified at least six whole minutes
    before: five minutes and fifty-nine seconds of idleness are not enough,
    because the idle time is truncated to minutes before it is compared
    with 5.  A layer that stays keeps everything but its cache, which is
    switched off after three whole idle minutes without objects. *)
Theorem optimizeLayers_removes_idle_empty (now : Z) (st : LayerManager) :
  m_layers_mutex st = false ->
  exists st',
    optimizeLayers now st = Returned tt st' /\
    m_layers_mutex st' = false /\
    m_max_layers st' = m_max_layers st /\
    m_needs_sort st' = m_needs_sort st /\
    forall i,
      match m_layers st !! i with
      | None => m_layers st' !! i = None
      | Some l =>
          (i <> 0 /\ object_count l = 0 /\
           6 * ticks_per_minute <= now - last_modified l ->
           m_layers st' !! i = None) /\
          (i = 0 \/ object_count l <> 0 \/
           now - last_modified l < 6 * ticks_per_minute ->
           exists l',
             m_layers st' !! i = Some l' /\
             id l' = id l /\ visible l' = visible l /\
             z_order l' = z_order l /\ Layers.blend_mode l' = Layers.blend_mode l /\
             opacity l' = opacity l /\ dirty l' = dirty l /\
             created_time l' = created_time l /\
             last_modified l' = last_modified l /\
             object_count l' = object_count l /\
             Layers.vertex_count l' = Layers.vertex_count l /\
             if decide (i <> 0 /\ caching_enabled l = true /\
                        object_count l = 0 /\
                        3 * ticks_per_minute <= now - last_modified l)
             then caching_enabled l' = false /\ render_texture_id l' = 0
             else l' = l)
      end.
Proof.
  intros Hmu. open_registry st. unfold optimizeLayers. run_calls.
  eexists. split; [reflexivity|]. cbn.
  split; [reflexivity|]. split; [reflexivity|]. split; [reflexivity|].
  intros i. destruct (ls !! i) as [l|] eqn:E.
  - split.
    + intros Hidle. apply map_lookup_filter_None. right.
      intros l' _ Hkept. cbn in Hkept.
      apply map_lookup_filter_None in Hkept as [Hkept|Hkept].
      * rewrite E in Hkept. discriminate Hkept.
      * apply (Hkept l E). cbn. apply idle_and_empty_iff. exact Hidle.
    + intros Hkeep.
      eexists. split.
      * apply map_lookup_filter_Some. split.
        -- rewrite map_lookup_imap, E. cbn. reflexivity.
        -- cbn. apply map_lookup_filter_None. right.
           intros l' Hl' Hidle. cbn in Hidle.
           rewrite E in Hl'. injection Hl' as <-.
           apply idle_and_empty_iff in Hidle. lia.
      * destruct (cache_is_stale now i l) eqn:Es.
        -- apply cache_is_stale_iff in Es.
           rewrite decide_True by exact Es. cbn. repeat split; reflexivity.
        -- rewrite decide_False.
           ++ repeat split; reflexivity.
           ++ intros Hs. apply cache_is_stale_iff in Hs. congruence.
  - apply map_lookup_filter_None. left.
    rewrite map_lookup_imap, E. reflexivity.
Qed.

(** *** Looking a layer up, creating it when it is missing *)

(** X20.  [getOrCreateLayer].  Called with the mutex free it returns with the
    mutex free.  It returns [nullptr] exactly when the layer is missing and
    its id is not below [max_layers], and then nothing has changed.  A layer
    that is there is returned as it is, and nothing has changed.  A missing
    layer with an id below the bound is created with the defaults of
    [createLayer] and returned.  No other layer is touched, and what is
    returned is what the registry holds under that id afterwards. *)
Theorem getOrCreateLayer_returns_registered
    (layer_id now : Z) (st : LayerManager) :
  m_layers_mutex st = false ->
  exists result st',
    getOrCreateLayer layer_id now st = Returned result st' /\
    m_layers_mutex st' = false /\
    m_max_layers st' = m_max_layers st /\
    m_needs_sort st' = m_needs_sort st /\
    result = m_layers st' !! layer_id /\
    (forall other, other <> layer_id ->
       m_layers st' !! other = m_layers st !! other) /\
    match m_layers st !! layer_id with
    | Some l => result = Some l /\ st' = st
    | None =>
        if decide (layer_id < m_max_layers st)
        then result = Some (fresh_layer layer_id now)
        else result = None /\ st' = st
    end.
Proof.
  intros Hmu. open_registry st. unfold getOrCreateLayer, createLayer.
  run_calls.
  destruct (ls !! layer_id) as [l|] eqn:E.
  - do 2 eexists. split; [reflexivity|]. cbn. rewrite E. auto 10.
  - rewrite E. destruct (layer_id >=? mx) eqn:Emx.
    + rewrite Z.geb_leb in Emx. apply Z.leb_le in Emx.
      do 2 eexists. split; [reflexivity|]. cbn.
      rewrite E, decide_False by lia. auto 10.
    + rewrite Z.geb_leb in Emx. apply Z.leb_gt in Emx.
      do 2 eexists. split; [reflexivity|]. cbn.
      rewrite lookup_insert_eq, decide_True by lia.
      repeat split; try reflexivity.
      intros other Hother. rewrite lookup_insert_ne by congruence. reflexivity.
Qed.

(** *** Clearing every layer *)

Lemma total_of_cleared {A} (count : A -> Z) (ls : gmap Z A) :
  (forall i l, ls !! i = Some l -> count l = 0) ->
  map_fold (fun _ layer total => size_t (total + count layer)) 0 ls = 0.
Proof.
  induction ls as [|i x m Hi Hfold IH] using map_first_key_ind.
  - intros _. apply map_fold_empty.
  - intros Hall. rewrite map_fold_insert_first_key by assumption.
    rewrite IH.
    + rewrite (Hall i x) by apply lookup_insert_eq. reflexivity.
    + intros j l Hj. apply (Hall j l).
      rewrite lookup_insert_ne; [exact Hj|]. intros ->. congruence.
Qed.

Lemma count_of_dirty (ls : gmap Z Layer) :
  (forall i l, ls !! i = Some l -> dirty l = true) ->
  map_fold (fun _ layer count =>
              if dirty layer then size_t (count + 1) else count) 0 ls
  = size_t (Z.of_nat (size ls)).
Proof.
  induction ls as [|i x m Hi Hfold IH] using map_first_key_ind.
  - intros _. rewrite map_fold_empty, map_size_empty. reflexivity.
  - intros Hall. rewrite map_fold_insert_first_key by assumption.
    rewrite IH.
    + rewrite (Hall i x) by apply lookup_insert_eq.
      rewrite map_size_insert_None by exact Hi.
      unfold size_t, wrap. rewrite Nat2Z.inj_succ, <- Z.add_1_r.
      rewrite Zplus_mod_idemp_l. reflexivity.
    + intros j l Hj. apply (Hall j l).
      rewrite lookup_insert_ne; [exact Hj|]. intros ->. congruence.
Qed.

(** X21.  [clearAllLayers] empties every layer and removes none.  Called with
    the mutex free it returns; the registry then has the same layer ids as
    before, each layer keeps its id, visibility, z-order, blend mode,
    opacity and cache, and the statistics read zero objects, zero vertices
    and as many dirty layers as there are layers. *)
Theorem clearAllLayers_empties_every_layer (now : Z) (st : LayerManager) :
  m_layers_mutex st = false ->
  exists st',
    clearAllLayers now st = Returned tt st' /\
    (forall i,
       match m_layers st !! i with
       | None => m_layers st' !! i = None
       | Some l =>
           exists l',
             m_layers st' !! i = Some l' /\
             object_count l' = 0 /\ Layers.vertex_count l' = 0 /\
             dirty l' = true /\ last_modified l' = now /\
             id l' = id l /\ visible l' = visible l /\
             z_order l' = z_order l /\
             Layers.blend_mode l' = Layers.blend_mode l /\
             opacity l' = opacity l /\
             caching_enabled l' = caching_enabled l /\
             render_texture_id l' = render_texture_id l
       end) /\
    getTotalObjectCount st' = Returned 0 st' /\
    getTotalVertexCount st' = Returned 0 st' /\
    getDirtyLayerCount st'
    = Returned (size_t (Z.of_nat (size (m_layers st)))) st'.
Proof.
  intros Hmu. open_registry st.
  unfold clearAllLayers, getTotalObjectCount, getTotalVertexCount,
    getDirtyLayerCount.
  run_calls. eexists. split; [reflexivity|]. cbn.
  assert (Hcleared : forall i l, (cleared now <$> ls) !! i = Some l ->
            object_count l = 0 /\ Layers.vertex_count l = 0 /\ dirty l = true).
  { intros i l Hl. rewrite lookup_fmap in Hl.
    destruct (ls !! i); [|discriminate]. cbn in Hl. injection Hl as <-.
    repeat split; reflexivity. }
  split; [|split; [|split]].
  - intros i. rewrite lookup_fmap. destruct (ls !! i) as [l|]; [|reflexivity].
    eexists. split; [reflexivity|]. cbn. repeat split; reflexivity.
  - rewrite (total_of_cleared object_count); [reflexivity|].
    intros i l Hl. apply (Hcleared i l Hl).
  - rewrite (total_of_cleared Layers.vertex_count); [reflexivity|].
    intros i l Hl. apply (Hcleared i l Hl).
  - rewrite count_of_dirty, map_size_fmap; [reflexivity|].
    intros i l Hl. apply (Hcleared i l Hl).
Qed.

End RegistryFacts.

Section RegistryExamples.

Import Layers.

Lemma registry_layers_stay_in_bounds_witness :
  exists st,
    lifetime 255 false 0 busy_day = Returned tt st /\
    m_layers_mutex st = false /\
    m_max_layers st = 255 /\
    forall i l, m_layers st !! i = Some l ->
      i < 255 /\ id l = i /\ (0 <= opacity l)%Q /\ (opacity l <= 1)%Q.
Proof.
  apply (registry_layers_stay_in_bounds 255 false 0 busy_day).
  reflexivity.
Defined.

(** Seven minutes after the layers of the scenario were made. *)
Definition seven_minutes : Z := 7 * ticks_per_minute.

Lemma optimizeLayers_removes_idle_empty_witness :
  exists st',
    optimizeLayers seven_minutes scenario_registry = Returned tt st' /\
    m_layers_mutex st' = false /\
    m_max_layers st' = m_max_layers scenario_registry /\
    m_needs_sort st' = m_needs_sort scenario_registry /\
    forall i,
      match m_layers scenario_registry !! i with
      | None => m_layers st' !! i = None
      | Some l =>
          (i <> 0 /\ object_count l = 0 /\
           6 * ticks_per_minute <= seven_minutes - last_modified l ->
           m_layers st' !! i = None) /\
          (i = 0 \/ object_count l <> 0 \/
           seven_minutes - last_modified l < 6 * ticks_per_minute ->
           exists l',
             m_layers st' !! i = Some l' /\
             id l' = id l /\ visible l' = visible l /\
             z_order l' = z_order l /\ Layers.blend_mode l' = Layers.blend_mode l /\
             opacity l' = opacity l /\ dirty l' = dirty l /\
             created_time l' = created_time l /\
             last_modified l' = last_modified l /\
             object_count l' = object_count l /\
             Layers.vertex_count l' = Layers.vertex_count l /\
             if decide (i <> 0 /\ caching_enabled l = true /\
                        object_count l = 0 /\
                        3 * ticks_per_minute
                        <= seven_minutes - last_modified l)
             then caching_enabled l' = false /\ render_texture_id l' = 0
             else l' = l)
      end.
Proof.
  apply (optimizeLayers_removes_idle_empty seven_minutes scenario_registry).
  reflexivity.
Defined.

Lemma getOrCreateLayer_returns_registered_witness :
  exists result st',
    getOrCreateLayer 7 40 scenario_registry = Returned result st' /\
    m_layers_mutex st' = false /\
    m_max_layers st' = m_max_layers scenario_registry /\
    m_needs_sort st' = m_needs_sort scenario_registry /\
    result = m_layers st' !! 7 /\
    (forall other, other <> 7 ->
       m_layers st' !! other = m_layers scenario_registry !! other) /\
    match m_layers scenario_registry !! 7 with
    | Some l => result = Some l /\ st' = scenario_registry
    | None =>
        if decide (7 < m_max_layers scenario_registry)
        then result = Some (fresh_layer 7 40)
        else result = None /\ st' = scenario_registry
    end.
Proof.
  apply (getOrCreateLayer_returns_registered 7 40 scenario_registry).
  reflexivity.
Defined.

Lemma clearAllLayers_empties_every_layer_witness :
  exists st',
    clearAllLayers 50 scenario_registry = Returned tt st' /\
    (forall i,
       match m_layers scenario_registry !! i with
       | None => m_layers st' !! i = None
       | Some l =>
           exists l',
             m_layers st' !! i = Some l' /\
             object_count l' = 0 /\ Layers.vertex_count l' = 0 /\
             dirty l' = true /\ last_modified l' = 50 /\
             id l' = id l /\ visible l' = visible l /\
             z_order l' = z_order l /\
             Layers.blend_mode l' = Layers.blend_mode l /\
             opacity l' = opacity l /\
             caching_enabled l' = caching_enabled l /\
             render_texture_id l' = render_texture_id l
       end) /\
    getTotalObjectCount st' = Returned 0 st' /\
    getTotalVertexCount st' = Returned 0 st' /\
    getDirtyLayerCount st'
    = Returned (size_t (Z.of_nat (size (m_layers scenario_registry)))) st'.
Proof.
  apply (clearAllLayers_empties_every_layer 50 scenario_registry).
  reflexivity.
Defined.

End RegistryExamples.

(** ** Colours, vertices and blend modes *)

Section ColorFacts.

Import Types.

Lemma lor_shiftl_low (hi lo k : Z) :
  0 <= k -> 0 <= lo < 2 ^ k ->
  Z.lor (Z.shiftl hi k) lo = hi * 2 ^ k + lo.
Proof.
  intros Hk Hlo.
  assert (Hdisj : Z.land (Z.shiftl hi k) lo = 0).
  { apply Z.bits_inj'. intros n Hn.
    rewrite Z.land_spec, Z.bits_0.
    destruct (Z.lt_ge_cases n k) as [Hlt|Hge].
    - rewrite Z.shiftl_spec_low by exact Hlt. reflexivity.
    - replace lo with (lo mod 2 ^ k) by (apply Z.mod_small; exact Hlo).
      rewrite Z.mod_pow2_bits_high by lia. apply andb_false_r. }
  rewrite <- Z.lxor_lor by exact Hdisj.
  rewrite <- Z.add_nocarry_lxor by exact Hdisj.
  rewrite Z.shiftl_mul_pow2 by exact Hk. reflexivity.
Qed.

Lemma pack_components (r_ g_ b_ a_ : Z) :
  0 <= g_ < 256 -> 0 <= b_ < 256 -> 0 <= a_ < 256 ->
  Z.lor (Z.lor (Z.lor (Z.shiftl r_ 24) (Z.shiftl g_ 16)) (Z.shiftl b_ 8)) a_
  = ((r_ * 256 + g_) * 256 + b_) * 256 + a_.
Proof.
  intros Hg Hb Ha.
  replace (Z.shiftl r_ 24) with (Z.shiftl (Z.shiftl r_ 8) 16)
    by (rewrite Z.shiftl_shiftl by lia; reflexivity).
  rewrite <- Z.shiftl_lor.
  rewrite (lor_shiftl_low r_ g_ 8) by (change (2 ^ 8) with 256; lia).
  change (2 ^ 8) with 256.
  replace (Z.shiftl (r_ * 256 + g_) 16)
    with (Z.shiftl (Z.shiftl (r_ * 256 + g_) 8) 8)
    by (rewrite Z.shiftl_shiftl by lia; reflexivity).
  rewrite <- Z.shiftl_lor.
  rewrite (lor_shiftl_low (r_ * 256 + g_) b_ 8) by (change (2 ^ 8) with 256; lia).
  change (2 ^ 8) with 256.
  rewrite (lor_shiftl_low _ a_ 8) by (change (2 ^ 8) with 256; lia).
  reflexivity.
Qed.

Lemma unpack_byte (x k : Z) :
  0 <= k -> Z.land (Z.shiftr x k) 0xFF = (x / 2 ^ k) mod 256.
Proof.
  intros Hk. change 0xFF with (Z.ones 8).
  rewrite Z.land_ones by lia. rewrite Z.shiftr_div_pow2 by exact Hk.
  reflexivity.
Qed.

Lemma low_byte (x : Z) : Z.land x 0xFF = x mod 256.
Proof. change 0xFF with (Z.ones 8). apply Z.land_ones. lia. Qed.

(** X22.  The two constructors of [Color] agree.  Four component bytes are
    packed with the red byte on top, [rgba = r * 2^24 + g * 2^16 + b * 2^8
    + a], and [Color(rgba)] of that word gives the same colour back; the
    other way round, the components [Color(rgba)] extracts from a 32-bit
    word pack to the same colour. *)
Theorem Color_constructors_round_trip (r_ g_ b_ a_ rgba_ : Z) :
  in_range 8 r_ -> in_range 8 g_ -> in_range 8 b_ -> in_range 8 a_ ->
  in_range 32 rgba_ ->
  rgba (Color_of_components r_ g_ b_ a_)
  = r_ * 2 ^ 24 + g_ * 2 ^ 16 + b_ * 2 ^ 8 + a_ /\
  Color_of_rgba (rgba (Color_of_components r_ g_ b_ a_))
  = Color_of_components r_ g_ b_ a_ /\
  Color_of_components (r (Color_of_rgba rgba_)) (g (Color_of_rgba rgba_))
    (b (Color_of_rgba rgba_)) (a (Color_of_rgba rgba_))
  = Color_of_rgba rgba_.
Proof.
  intros Hr Hg Hb Ha Hx. ranges.
  assert (Hpack : rgba (Color_of_components r_ g_ b_ a_)
                  = ((r_ * 256 + g_) * 256 + b_) * 256 + a_).
  { cbn [rgba Color_of_components].
    rewrite pack_components by assumption.
    unfold uint32, wrap. apply Z.mod_small.
    change (2 ^ 32) with 4294967296. lia. }
  split; [|split].
  - rewrite Hpack. change (2 ^ 24) with 16777216.
    change (2 ^ 16) with 65536. change (2 ^ 8) with 256. lia.
  - unfold Color_of_rgba. rewrite Hpack.
    rewrite !unpack_byte by lia. rewrite low_byte.
    change (2 ^ 24) with 16777216. change (2 ^ 16) with 65536.
    change (2 ^ 8) with 256.
    set (x := ((r_ * 256 + g_) * 256 + b_) * 256 + a_).
    assert (Er : (x / 16777216) mod 256 = r_)
      by (unfold x; Z.div_mod_to_equations; lia).
    assert (Eg : (x / 65536) mod 256 = g_)
      by (unfold x; Z.div_mod_to_equations; lia).
    assert (Eb : (x / 256) mod 256 = b_)
      by (unfold x; Z.div_mod_to_equations; lia).
    assert (Ea : x mod 256 = a_)
      by (unfold x; Z.div_mod_to_equations; lia).
    rewrite Er, Eg, Eb, Ea.
    unfold Color_of_components. f_equal.
    rewrite pack_components by assumption.
    unfold uint32, wrap. symmetry. apply Z.mod_small.
    change (2 ^ 32) with 4294967296. unfold x. lia.
  - unfold Color_of_rgba. cbn [r g b a].
    rewrite !unpack_byte by lia. rewrite low_byte.
    change (2 ^ 24) with 16777216. change (2 ^ 16) with 65536.
    change (2 ^ 8) with 256.
    unfold Color_of_components. f_equal.
    rewrite pack_components by (apply Z.mod_pos_bound; lia).
    unfold uint32, wrap. change (2 ^ 32) with 4294967296.
    Z.div_mod_to_equations. lia.
Qed.

End ColorFacts.

Section VertexFacts.

Import Types Batching.

(** X23.  Tinting changes nothing.  [multiplyVertexColors] multiplies the four
    components of a copy of each vertex colour by the tint, and then stores
    the copy's [rgba] word, which the component assignments never update:
    for every list of vertices and every tint the vertices come back as
    they were. *)
Theorem multiplyVertexColors_changes_nothing
    (vertices_ : list TexturedVertex) (tint_ : Color) :
  multiplyVertexColors vertices_ tint_ = vertices_.
Proof.
  unfold multiplyVertexColors.
  induction vertices_ as [|vertex rest IH]; [reflexivity|].
  rewrite fmap_cons, IH. f_equal.
  destruct vertex as [x y u v color]. reflexivity.
Qed.

(** *** One batch *)

(** The indices of the two triangles of the quad that starts at vertex
    [first]. *)
Definition quad_indices (first : Z) : list Z :=
  [first + 0; first + 1; first + 2; first + 0; first + 2; first + 3].

Lemma addQuadToBatch_step (batch : RenderBatch) (quad : list TexturedVertex) :
  batch_consistent batch ->
  length quad = 4%nat ->
  Z.of_nat (length (vertices batch)) + 4 <= 65536 ->
  batch_consistent (addQuadToBatch batch quad) /\
  vertices (addQuadToBatch batch quad) = vertices batch ++ quad /\
  indices (addQuadToBatch batch quad)
  = indices batch ++ quad_indices (Z.of_nat (length (vertices batch))) /\
  key_of (addQuadToBatch batch quad) = key_of batch.
Proof.
  intros (Hvc & Hic & Hidx) Hquad Hroom.
  unfold addQuadToBatch. rewrite Hquad. cbn [Nat.eqb negb].
  set (n := Z.of_nat (length (vertices batch))) in *.
  assert (Hn : 0 <= n) by (unfold n; lia).
  assert (Hoff : size_t n = n)
    by (unfold size_t, wrap; apply Z.mod_small; lia).
  assert (Hcast : forall k, 0 <= k < 4 -> uint16 (size_t (n + k)) = n + k).
  { intros k Hk. unfold uint16, size_t, wrap.
    rewrite (Z.mod_small (n + k)) by lia.
    apply Z.mod_small. change (2 ^ 16) with 65536. lia. }
  rewrite Hoff.
  rewrite !Hcast by lia.
  unfold batch_consistent, key_of.
  cbn [vertices indices vertex_count index_count texture_id layer_id
       blend_mode tint].
  split; [split; [|split]|split; [|split]]; try reflexivity.
  - rewrite Hvc, length_app, Hquad. fold n.
    unfold size_t, wrap. rewrite Z.mod_small by lia. lia.
  - rewrite Hic, length_app. cbn [length].
    unfold size_t, wrap. rewrite Zplus_mod_idemp_l. f_equal. lia.
  - rewrite length_app, Hquad. fold n.
    apply Forall_app. split.
    + eapply Forall_impl; [exact Hidx|]. cbn beta. intros index Hi. lia.
    + repeat (apply Forall_cons; split; [lia|]). apply Forall_nil. exact I.
Qed.

(** X24.  Quads added to a batch.  Starting from a batch whose counters count
    its vectors and whose indices all name vertices of the batch, adding
    quads of four vertices each, while the batch stays within the 65536
    vertices a 16-bit index can name, keeps it so: the vertices are
    appended in order, each quad gets the six indices of its two triangles
    (0, 1, 2 and 0, 2, 3 from its first vertex), and the batch key is
    unchanged. *)
Theorem addQuads_keeps_batch_consistent
    (batch : RenderBatch) (quads : list (list TexturedVertex)) :
  batch_consistent batch ->
  Forall (fun quad => length quad = 4%nat) quads ->
  Z.of_nat (length (vertices batch)) + 4 * Z.of_nat (length quads) <= 65536 ->
  batch_consistent (addQuads batch quads) /\
  vertices (addQuads batch quads) = vertices batch ++ concat quads /\
  indices (addQuads batch quads)
  = indices batch
    ++ concat (imap (fun k _ =>
                       quad_indices (Z.of_nat (length (vertices batch))
                                     + 4 * Z.of_nat k)) quads) /\
  key_of (addQuads batch quads) = key_of batch.
Proof.
  unfold addQuads. revert batch.
  induction quads as [|quad quads IH]; intros batch Hb Hquads Hroom.
  - cbn. rewrite !app_nil_r. auto.
  - apply Forall_cons in Hquads as [Hquad Hquads].
    cbn [length] in Hroom. cbn [foldl].
    destruct (addQuadToBatch_step batch quad Hb Hquad ltac:(lia))
      as (Hb1 & Hv1 & Hi1 & Hk1).
    assert (Hlen1 : Z.of_nat (length (vertices (addQuadToBatch batch quad)))
                    = Z.of_nat (length (vertices batch)) + 4).
    { rewrite Hv1, length_app, Hquad. lia. }
    destruct (IH (addQuadToBatch batch quad) Hb1 Hquads ltac:(lia))
      as (Hb2 & Hv2 & Hi2 & Hk2).
    split; [exact Hb2|]. split; [|split].
    + rewrite Hv2, Hv1, <- app_assoc. reflexivity.
    + rewrite Hi2, Hi1, <- app_assoc. f_equal.
      rewrite imap_cons. cbn [concat].
      rewrite Z.mul_0_r, Z.add_0_r. f_equal. f_equal.
      apply imap_ext. intros k q _. cbn. f_equal. lia.
    + rewrite Hk2. exact Hk1.
Qed.

End VertexFacts.

Section BlendFacts.

Import Batching.

(** The current blend mode is the top of the stack. *)
Definition blend_modes_ok (s : BlendModes) : Prop :=
  last (m_blend_mode_stack s) = Some (m_current_blend_mode s).

Lemma blend_call_ok (call : BlendCall) (s : BlendModes) :
  blend_modes_ok s ->
  exists s', blend_call call s = Some s' /\ blend_modes_ok s'.
Proof.
  unfold blend_modes_ok. destruct s as [stack current].
  cbn [m_blend_mode_stack m_current_blend_mode]. intros Hs.
  destruct call as [m|m|]; cbn [blend_call].
  - unfold setDefaultBlendMode. cbn [m_blend_mode_stack m_current_blend_mode].
    destruct stack as [|bottom rest]; [discriminate Hs|].
    eexists. split; [reflexivity|].
    cbn [m_blend_mode_stack m_current_blend_mode].
    destruct rest as [|second rest]; [reflexivity|].
    cbn. exact Hs.
  - eexists. split; [reflexivity|].
    cbn [pushBlendMode m_blend_mode_stack m_current_blend_mode].
    apply last_snoc.
  - unfold popBlendMode. cbn [m_blend_mode_stack m_current_blend_mode].
    destruct (1 <? length stack)%nat eqn:E.
    + apply Nat.ltb_lt in E.
      destruct (last (removelast stack)) as [top|] eqn:El.
      * eexists. split; [reflexivity|]. exact El.
      * apply last_None in El.
        destruct stack as [|x [|y rest]]; cbn [length] in E; try lia.
        cbn in El. destruct rest; discriminate El.
    + eexists. split; [reflexivity|]. exact Hs.
Qed.

Lemma blend_calls_ok (calls : list BlendCall) (s : BlendModes) :
  blend_modes_ok s ->
  exists s', blend_calls calls s = Some s' /\ blend_modes_ok s'.
Proof.
  revert s. induction calls as [|call calls IH]; intros s Hs.
  - exists s. auto.
  - destruct (blend_call_ok call s Hs) as (s1 & E1 & Hs1).
    cbn [blend_calls]. rewrite E1. apply IH, Hs1.
Qed.

(** X25.  The blend-mode stack.  After any sequence of [setDefaultBlendMode],
    [pushBlendMode] and [popBlendMode] calls on a renderer as constructed,
    every call was defined (the stack was never empty when its bottom was
    written), the stack still holds at least one mode and the current
    blend mode is the one on top of it; and from there a push followed by a
    pop brings the renderer back to exactly that state. *)
Theorem blend_mode_stack_discipline (calls : list BlendCall) :
  exists s,
    blend_calls calls BlendModes_new = Some s /\
    m_blend_mode_stack s <> [] /\
    last (m_blend_mode_stack s) = Some (m_current_blend_mode s) /\
    forall blend_mode_, popBlendMode (pushBlendMode blend_mode_ s) = Some s.
Proof.
  destruct (blend_calls_ok calls BlendModes_new eq_refl) as (s & E & Hs).
  exists s. split; [exact E|].
  unfold blend_modes_ok in Hs. destruct s as [stack current]. cbn in *.
  split; [intros ->; discriminate Hs|]. split; [exact Hs|].
  intros m. unfold popBlendMode, pushBlendMode.
  cbn [m_blend_mode_stack m_current_blend_mode].
  rewrite length_app. cbn [length].
  destruct stack as [|x rest]; [discriminate Hs|].
  assert ((1 <? length (x :: rest) + 1)%nat = true) as ->
    by (apply Nat.ltb_lt; cbn; lia).
  rewrite removelast_last, Hs. reflexivity.
Qed.

End BlendFacts.

Section GraphicsExamples.

Import Types Batching.

Lemma Color_constructors_round_trip_witness :
  rgba (Color_of_components 0x12 0x34 0x56 0x78)
  = 0x12 * 2 ^ 24 + 0x34 * 2 ^ 16 + 0x56 * 2 ^ 8 + 0x78 /\
  Color_of_rgba (rgba (Color_of_components 0x12 0x34 0x56 0x78))
  = Color_of_components 0x12 0x34 0x56 0x78 /\
  Color_of_components (r (Color_of_rgba 0xDEADBEEF))
    (g (Color_of_rgba 0xDEADBEEF)) (b (Color_of_rgba 0xDEADBEEF))
    (a (Color_of_rgba 0xDEADBEEF))
  = Color_of_rgba 0xDEADBEEF.
Proof.
  apply (Color_constructors_round_trip 0x12 0x34 0x56 0x78 0xDEADBEEF);
    closed_range.
Defined.

Lemma addQuads_keeps_batch_consistent_witness :
  batch_consistent (addQuads (quad_batch 1 1) [one_quad; one_quad]) /\
  vertices (addQuads (quad_batch 1 1) [one_quad; one_quad])
  = vertices (quad_batch 1 1) ++ concat [one_quad; one_quad] /\
  indices (addQuads (quad_batch 1 1) [one_quad; one_quad])
  = indices (quad_batch 1 1)
    ++ concat (imap (fun k _ =>
                       quad_indices
                         (Z.of_nat (length (vertices (quad_batch 1 1)))
                          + 4 * Z.of_nat k)) [one_quad; one_quad]) /\
  key_of (addQuads (quad_batch 1 1) [one_quad; one_quad])
  = key_of (quad_batch 1 1).
Proof.
  apply (addQuads_keeps_batch_consistent (quad_batch 1 1) [one_quad; one_quad]).
  - unfold batch_consistent. split; [reflexivity|]. split; [reflexivity|].
    repeat (apply Forall_cons; split; [vm_compute; split; congruence|]).
    apply Forall_nil. exact I.
  - apply Forall_cons. split; [reflexivity|].
    apply Forall_cons. split; [reflexivity|]. apply Forall_nil. exact I.
  - vm_compute. discriminate.
Defined.

End GraphicsExamples.

(** ** What the merging pass leaves behind *)

Section MergingFacts.

Import Batching.

(** The batch at position [k] of the render order. *)
Definition batch_at (r : BatchRenderer) (k : nat) : option RenderBatch :=
  match m_render_order r !! k with
  | Some p => objects r !! p
  | None => None
  end.

Definition unmergeable (r : BatchRenderer) (a b : nat) : Prop :=
  forall ba bb,
    batch_at r a = Some ba -> batch_at r b = Some bb ->
    canMergeBatches r ba bb = false.

(** The rows of the double loop that are finished, and the part of the
    current row that is. *)
Definition settled_before (r : BatchRenderer) (i : nat) : Prop :=
  forall a b, (a < i)%nat -> (a < b)%nat -> unmergeable r a b.

Definition settled_row (r : BatchRenderer) (i j : nat) : Prop :=
  forall b, (i < b)%nat -> (b < j)%nat -> unmergeable r i b.

Lemma canMergeBatches_false (r : BatchRenderer) (b1 b2 : RenderBatch) :
  0 <= vertex_count b1 + vertex_count b2 < 2 ^ 64 ->
  canMergeBatches r b1 b2 = false <->
  key_of b1 <> key_of b2 \/
  m_max_vertices_per_batch r < vertex_count b1 + vertex_count b2.
Proof.
  intros Hfit. unfold canMergeBatches, key_of.
  unfold size_t, wrap. rewrite (Z.mod_small _ _ Hfit).
  rewrite !andb_false_iff, !Z.eqb_neq, Z.leb_gt.
  split.
  - intros [[[[H|H]|H]|H]|H]; [left; congruence..|right; exact H].
  - intros [H|H]; [|right; exact H].
    destruct (decide (texture_id b1 = texture_id b2)) as [E1|]; [|tauto].
    destruct (decide (layer_id b1 = layer_id b2)) as [E2|]; [|tauto].
    destruct (decide (blend_mode b1 = blend_mode b2)) as [E3|]; [|tauto].
    destruct (decide (Types.rgba (tint b1) = Types.rgba (tint b2))) as [E4|];
      [|tauto].
    exfalso. apply H. congruence.
Qed.

Lemma batch_at_Some (r : BatchRenderer) (k : nat) (bk : RenderBatch) :
  batch_at r k = Some bk ->
  exists p, m_render_order r !! k = Some p /\ objects r !! p = Some bk.
Proof.
  unfold batch_at. destruct (m_render_order r !! k) as [p|]; [|discriminate].
  intros H. exists p. auto.
Qed.

Lemma pair_fits (r : BatchRenderer) (a b : nat) (ba bb : RenderBatch) :
  well_formed r -> a <> b ->
  batch_at r a = Some ba -> batch_at r b = Some bb ->
  0 <= vertex_count ba /\ 0 <= vertex_count bb /\
  vertex_count ba + vertex_count bb < 2 ^ 64.
Proof.
  intros (Hnd & Hvalid & Hnonneg & Hfit & Hlen) Hab Ha Hb.
  apply batch_at_Some in Ha as (pa & Hpa & Hba).
  apply batch_at_Some in Hb as (pb & Hpb & Hbb).
  pose proof (Forall_lookup_1 _ _ _ _ Hnonneg Hba) as Ha0.
  pose proof (Forall_lookup_1 _ _ _ _ Hnonneg Hbb) as Hb0.
  cbn beta in Ha0, Hb0.
  split; [exact Ha0|]. split; [exact Hb0|].
  pose proof (total_vertices_delete (objects r) _ a pa ba Hpa Hba) as Hdel.
  assert (exists b', delete a (m_render_order r) !! b' = Some pb) as [b' Hb'].
  { destruct (decide (b < a)%nat) as [Hlt|Hge].
    - exists b. rewrite list_lookup_delete_lt by exact Hlt. exact Hpb.
    - exists (b - 1)%nat. rewrite list_lookup_delete_ge by lia.
      replace (S (b - 1)) with b by lia. exact Hpb. }
  pose proof (total_vertices_delete (objects r) _ b' pb bb Hb' Hbb) as Hdel'.
  pose proof (total_vertices_nonneg (objects r)
                (delete b' (delete a (m_render_order r))) Hnonneg) as Hrest.
  lia.
Qed.

(** The render order after a merge, position by position. *)
Lemma batch_at_merge_step (r : BatchRenderer) (i j pi pj : nat)
    (target source : RenderBatch) (k : nat) :
  well_formed r ->
  (i < j)%nat ->
  m_render_order r !! i = Some pi ->
  m_render_order r !! j = Some pj ->
  objects r !! pi = Some target ->
  objects r !! pj = Some source ->
  batch_at (merge_step r j pi pj target source) k
  = if decide (k = i) then Some (appended target source)
    else if decide (k < j)%nat then batch_at r k
    else batch_at r (S k).
Proof.
  intros (Hnd & Hvalid & _) Hij Hi Hj Ht Hs.
  assert (Hne : pi <> pj).
  { intros ->. pose proof (NoDup_lookup _ _ _ _ Hnd Hi Hj). lia. }
  assert (Hpj1 : <[pi := appended target source]> (objects r) !! pj
                 = Some source).
  { rewrite list_lookup_insert_ne by exact Hne. exact Hs. }
  unfold batch_at, merge_step. rewrite Hpj1.
  cbn [m_render_order objects].
  assert (Hother : forall k' p, k' <> i -> k' <> j ->
            m_render_order r !! k' = Some p ->
            <[pj := RenderBatch_clear source]>
              (<[pi := appended target source]> (objects r)) !! p
            = objects r !! p).
  { intros k' p Hki Hkj Hp.
    rewrite !list_lookup_insert_ne; [reflexivity| |].
    - intros <-. pose proof (NoDup_lookup _ _ _ _ Hnd Hi Hp). lia.
    - intros <-. pose proof (NoDup_lookup _ _ _ _ Hnd Hj Hp). lia. }
  destruct (decide (k = i)) as [->|Hki].
  - rewrite list_lookup_delete_lt by exact Hij. rewrite Hi.
    rewrite list_lookup_insert_ne by congruence.
    apply list_lookup_insert_eq. eapply lookup_lt_Some. exact Ht.
  - destruct (decide (k < j)%nat) as [Hlt|Hge].
    + rewrite list_lookup_delete_lt by exact Hlt.
      destruct (m_render_order r !! k) as [p|] eqn:Ep; [|reflexivity].
      apply (Hother k p); [exact Hki|lia|exact Ep].
    + rewrite list_lookup_delete_ge by lia.
      destruct (m_render_order r !! S k) as [p|] eqn:Ep; [|reflexivity].
      apply (Hother (S k) p); [lia|lia|exact Ep].
Qed.

Lemma canMergeBatches_same_max (r r' : BatchRenderer) (b1 b2 : RenderBatch) :
  m_max_vertices_per_batch r' = m_max_vertices_per_batch r ->
  canMergeBatches r' b1 b2 = canMergeBatches r b1 b2.
Proof. intros H. unfold canMergeBatches. rewrite H. reflexivity. Qed.

Lemma merge_step_settled (r0 r : BatchRenderer) (i j pi pj : nat)
    (target source : RenderBatch) :
  optimizing r0 r ->
  (i < j)%nat ->
  m_render_order r !! i = Some pi ->
  m_render_order r !! j = Some pj ->
  objects r !! pi = Some target ->
  objects r !! pj = Some source ->
  canMergeBatches r target source = true ->
  settled_before r i -> settled_row r i j ->
  settled_before (merge_step r j pi pj target source) i /\
  settled_row (merge_step r j pi pj target source) i j.
Proof.
  intros Hopt Hij Hi Hj Ht Hs Hcan Hbefore Hrow.
  destruct (merge_step_optimizing r0 r i j pi pj target source
              Hopt Hij Hi Hj Ht Hs Hcan) as [Hopt1 _].
  pose proof Hopt as (Hwf & _).
  pose proof Hopt1 as (Hwf1 & Hmax1 & _).
  destruct Hopt as (_ & Hmax & _).
  set (r1 := merge_step r j pi pj target source) in *.
  assert (Hsame : m_max_vertices_per_batch r1 = m_max_vertices_per_batch r)
    by reflexivity.
  assert (Hti : batch_at r i = Some target)
    by (unfold batch_at; rewrite Hi; exact Ht).
  assert (Hsj : batch_at r j = Some source)
    by (unfold batch_at; rewrite Hj; exact Hs).
  destruct (pair_fits r i j target source Hwf ltac:(lia) Hti Hsj)
    as (Ht0 & Hs0 & Hroom).
  assert (Hvc : vertex_count (appended target source)
                = vertex_count target + vertex_count source).
  { cbn. unfold size_t, wrap. apply Z.mod_small. lia. }
  assert (Hat : forall k,
            batch_at r1 k
            = if decide (k = i) then Some (appended target source)
              else if decide (k < j)%nat then batch_at r k
              else batch_at r (S k)).
  { intros k. apply batch_at_merge_step; assumption. }
  assert (Hgrow : forall a b ba bb,
            a <> b -> batch_at r1 a = Some ba -> batch_at r1 b = Some bb ->
            forall ba' bb',
              key_of ba' = key_of ba -> key_of bb' = key_of bb ->
              0 <= vertex_count ba' <= vertex_count ba ->
              0 <= vertex_count bb' <= vertex_count bb ->
              canMergeBatches r ba' bb' = false ->
              canMergeBatches r1 ba bb = false).
  { intros a b ba bb Hab Ha Hb ba' bb' Hka Hkb Hva Hvb Hno.
    destruct (pair_fits r1 a b ba bb Hwf1 Hab Ha Hb) as (Ha0 & Hb0 & Hfit).
    rewrite (canMergeBatches_same_max r r1) by exact Hsame.
    apply canMergeBatches_false in Hno; [|lia].
    apply canMergeBatches_false; [lia|].
    destruct Hno as [Hno|Hno]; [left; congruence|right; lia]. }
  split.
  - intros a b Ha Hab ba bb Hba Hbb.
    pose proof Hba as Hba'. rewrite Hat in Hba'.
    rewrite decide_False, decide_True in Hba' by lia.
    pose proof Hbb as Hbb'. rewrite Hat in Hbb'.
    destruct (decide (b = i)) as [->|Hbi].
    + injection Hbb' as <-.
      apply (Hgrow a i ba (appended target source) ltac:(lia) Hba Hbb
               ba target); try reflexivity; try lia.
      * destruct (pair_fits r a i ba target Hwf ltac:(lia) Hba' Hti)
          as (? & _ & _). lia.
      * exact (Hbefore a i Ha Hab ba target Hba' Hti).
    + destruct (decide (b < j)%nat) as [Hbj|Hbj].
      * rewrite (canMergeBatches_same_max r r1) by exact Hsame.
        exact (Hbefore a b Ha Hab ba bb Hba' Hbb').
      * rewrite (canMergeBatches_same_max r r1) by exact Hsame.
        exact (Hbefore a (S b) Ha ltac:(lia) ba bb Hba' Hbb').
  - intros b Hib Hbj ba bb Hba Hbb.
    pose proof Hba as Hba'. rewrite Hat in Hba'.
    rewrite decide_True in Hba' by reflexivity. injection Hba' as <-.
    pose proof Hbb as Hbb'. rewrite Hat in Hbb'.
    rewrite decide_False, decide_True in Hbb' by lia.
    apply (Hgrow i b (appended target source) bb ltac:(lia) Hba Hbb
             target bb); try reflexivity; try lia.
    + destruct (pair_fits r i b target bb Hwf ltac:(lia) Hti Hbb')
        as (_ & ? & _). lia.
    + exact (Hrow b Hib Hbj target bb Hti Hbb').
Qed.

Lemma inner_loop_settled (r0 : BatchRenderer) (fuel i j : nat)
    (r : BatchRenderer) :
  optimizing r0 r ->
  (i < j)%nat ->
  (i < length (m_render_order r))%nat ->
  (length (m_render_order r) - j <= fuel)%nat ->
  settled_before r i -> settled_row r i j ->
  exists r',
    inner_loop fuel i j r = Some r' /\ optimizing r0 r' /\
    (i < length (m_render_order r'))%nat /\
    (length (m_render_order r') <= length (m_render_order r))%nat /\
    settled_before r' (S i).
Proof.
  revert j r. induction fuel as [|fuel IH];
    intros j r Hopt Hij Hi Hfuel Hbefore Hrow.
  - exists r. cbn [inner_loop].
    assert ((j <? length (m_render_order r))%nat = false) as ->
      by (apply Nat.ltb_ge; lia).
    split; [reflexivity|]. split; [exact Hopt|]. split; [exact Hi|].
    split; [lia|].
    intros a b Ha Hab.
    destruct (decide (a = i)) as [->|Hai]; [|apply Hbefore; lia].
    destruct (decide (b < j)%nat) as [Hbj|Hbj]; [apply Hrow; lia|].
    intros ba bb _ Hbb. unfold batch_at in Hbb.
    rewrite lookup_ge_None_2 in Hbb by lia. discriminate Hbb.
  - cbn [inner_loop].
    destruct (j <? length (m_render_order r))%nat eqn:Ej.
    2:{ apply Nat.ltb_ge in Ej. exists r.
        split; [reflexivity|]. split; [exact Hopt|]. split; [exact Hi|].
        split; [lia|].
        intros a b Ha Hab.
        destruct (decide (a = i)) as [->|Hai]; [|apply Hbefore; lia].
        destruct (decide (b < j)%nat) as [Hbj|Hbj]; [apply Hrow; lia|].
        intros ba bb _ Hbb. unfold batch_at in Hbb.
        rewrite lookup_ge_None_2 in Hbb by lia. discriminate Hbb. }
    apply Nat.ltb_lt in Ej.
    destruct (lookup_lt_is_Some_2 (m_render_order r) i Hi) as [pi Hpi].
    destruct (lookup_lt_is_Some_2 (m_render_order r) j Ej) as [pj Hpj].
    rewrite Hpi, Hpj.
    pose proof Hopt as ((_ & Hvalid & _) & _).
    pose proof (Forall_lookup_1 _ _ _ _ Hvalid Hpi) as Hpi_ok.
    pose proof (Forall_lookup_1 _ _ _ _ Hvalid Hpj) as Hpj_ok.
    cbn beta in Hpi_ok, Hpj_ok.
    destruct (lookup_lt_is_Some_2 (objects r) pi Hpi_ok) as [target Ht].
    destruct (lookup_lt_is_Some_2 (objects r) pj Hpj_ok) as [source Hs].
    rewrite Ht, Hs.
    destruct (canMergeBatches r target source) eqn:Ecan.
    + destruct (merge_step_optimizing r0 r i j pi pj target source
                  Hopt Hij Hpi Hpj Ht Hs Ecan) as [Hopt' Hlen'].
      destruct (merge_step_settled r0 r i j pi pj target source
                  Hopt Hij Hpi Hpj Ht Hs Ecan Hbefore Hrow)
        as [Hbefore' Hrow'].
      destruct (IH j (merge_step r j pi pj target source) Hopt' Hij
                  ltac:(lia) ltac:(lia) Hbefore' Hrow')
        as (r' & E & Hr' & Hi' & Hle & Hdone).
      exists r'. split; [exact E|]. split; [exact Hr'|].
      split; [exact Hi'|]. split; [lia|exact Hdone].
    + assert (Hrow' : settled_row r i (S j)).
      { intros b Hib Hbj.
        destruct (decide (b = j)) as [->|Hne]; [|apply Hrow; lia].
        intros ba bb Hba Hbb. unfold batch_at in Hba, Hbb.
        rewrite Hpi, Ht in Hba. rewrite Hpj, Hs in Hbb.
        injection Hba as <-. injection Hbb as <-. exact Ecan. }
      destruct (IH (S j) r Hopt ltac:(lia) Hi ltac:(lia) Hbefore Hrow')
        as (r' & E & Hr' & Hi' & Hle & Hdone).
      exists r'. auto.
Qed.

Lemma outer_loop_settled (r0 : BatchRenderer) (fuel i : nat)
    (r : BatchRenderer) :
  optimizing r0 r ->
  (i <= length (m_render_order r))%nat ->
  (1 <= length (m_render_order r))%nat ->
  (length (m_render_order r) - i <= fuel)%nat ->
  settled_before r i ->
  exists r',
    outer_loop fuel i r = Some r' /\ optimizing r0 r' /\
    forall a b, (a < b)%nat -> unmergeable r' a b.
Proof.
  revert i r. induction fuel as [|fuel IH];
    intros i r Hopt Hi Hone Hfuel Hbefore;
    cbn [outer_loop];
    pose proof Hopt as ((_ & _ & _ & _ & Hlen) & _);
    assert (Hbound : size_t (Z.of_nat (length (m_render_order r)) - 1)
                     = Z.of_nat (length (m_render_order r)) - 1)
      by (unfold size_t, wrap; apply Z.mod_small; lia);
    rewrite Hbound;
    assert (Hexit : (Z.of_nat i <? Z.of_nat (length (m_render_order r)) - 1)
                    = false ->
                    forall a b, (a < b)%nat -> unmergeable r a b).
  1,3: intros Ei a b Hab; apply Z.ltb_ge in Ei;
       destruct (decide (a < i)%nat) as [Hai|Hai]; [apply Hbefore; lia|];
       intros ba bb _ Hbb; unfold batch_at in Hbb;
       rewrite lookup_ge_None_2 in Hbb by lia; discriminate Hbb.
  - assert (Ei : (Z.of_nat i <? Z.of_nat (length (m_render_order r)) - 1) = false)
      by (apply Z.ltb_ge; lia).
    rewrite Ei. exists r. auto.
  - destruct (Z.of_nat i <? Z.of_nat (length (m_render_order r)) - 1) eqn:Ei;
      [|exists r; auto].
    apply Z.ltb_lt in Ei.
    destruct (inner_loop_settled r0 (length (m_render_order r)) i (S i) r
                Hopt ltac:(lia) ltac:(lia) ltac:(lia) Hbefore
                ltac:(intros b ? ?; lia))
      as (r1 & E1 & Hopt1 & Hi1 & Hle1 & Hdone1).
    rewrite E1.
    apply IH; [exact Hopt1|lia|lia|lia|exact Hdone1].
Qed.

(** X26.  The merging pass is thorough.  On a renderer with merging enabled
    whose render order names each batch once, [optimizeBatches] returns,
    and afterwards no two batches left in the render order could still be
    merged: any two of them differ in texture, layer, blend mode or tint,
    or hold more than [m_max_vertices_per_batch] vertices between them. *)
Theorem optimizeBatches_leaves_nothing_to_merge (r : BatchRenderer) :
  well_formed r ->
  m_batch_merging_enabled r = true ->
  exists r',
    optimizeBatches r = Some r' /\
    forall a b pa pb ba bb,
      a <> b ->
      m_render_order r' !! a = Some pa -> m_render_order r' !! b = Some pb ->
      objects r' !! pa = Some ba -> objects r' !! pb = Some bb ->
      key_of ba <> key_of bb \/
      m_max_vertices_per_batch r < vertex_count ba + vertex_count bb.
Proof.
  intros Hwf Hen.
  assert (Hgoal : exists r', optimizeBatches r = Some r' /\ optimizing r r' /\
                    forall a b, (a < b)%nat -> unmergeable r' a b).
  { unfold optimizeBatches. rewrite Hen. cbn [negb orb].
    destruct (length (m_render_order r) <? 2)%nat eqn:Elen.
    - apply Nat.ltb_lt in Elen.
      exists r. split; [reflexivity|].
      split; [apply optimizing_start; exact Hwf|].
      intros a b Hab ba bb _ Hbb. unfold batch_at in Hbb.
      destruct (decide (b < length (m_render_order r))%nat) as [Hb|Hb].
      + intros. exfalso. lia.
      + rewrite lookup_ge_None_2 in Hbb by lia. discriminate Hbb.
    - apply Nat.ltb_ge in Elen.
      apply outer_loop_settled;
        [apply optimizing_start; exact Hwf|lia|lia|lia|].
      intros a b Ha. lia. }
  destruct Hgoal as (r' & E & (Hwf' & Hmax & _) & Hdone).
  exists r'. split; [exact E|].
  intros a b pa pb ba bb Hab Hpa Hpb Hba Hbb.
  assert (Hata : batch_at r' a = Some ba)
    by (unfold batch_at; rewrite Hpa; exact Hba).
  assert (Hatb : batch_at r' b = Some bb)
    by (unfold batch_at; rewrite Hpb; exact Hbb).
  destruct (pair_fits r' a b ba bb Hwf' Hab Hata Hatb) as (Ha0 & Hb0 & Hfit).
  rewrite <- Hmax.
  destruct (decide (a < b)%nat) as [Hlt|Hge].
  - apply (canMergeBatches_false r' ba bb); [lia|].
    exact (Hdone a b Hlt ba bb Hata Hatb).
  - assert (Hno : canMergeBatches r' bb ba = false)
      by exact (Hdone b a ltac:(lia) bb ba Hatb Hata).
    apply canMergeBatches_false in Hno; [|lia].
    destruct Hno as [Hno|Hno]; [left; congruence|right; lia].
Qed.

End MergingFacts.

Section MergingExample.

Import Batching.

Lemma optimizeBatches_leaves_nothing_to_merge_witness :
  exists r',
    optimizeBatches three_batches = Some r' /\
    forall a b pa pb ba bb,
      a <> b ->
      m_render_order r' !! a = Some pa -> m_render_order r' !! b = Some pb ->
      objects r' !! pa = Some ba -> objects r' !! pb = Some bb ->
      key_of ba <> key_of bb \/
      m_max_vertices_per_batch three_batches
      < vertex_count ba + vertex_count bb.
Proof.
  apply (optimizeBatches_leaves_nothing_to_merge three_batches).
  - exact three_batches_well_formed.
  - reflexivity.
Defined.

End MergingExample.

(** ** The render order the renderer builds *)

Section OwnershipFacts.

Import Types Batching.

(** Every pointer of the render order points to a batch, and batches at
    different places of the render order have different keys. *)
Definition pointers_valid (r : BatchRenderer) : Prop :=
  Forall (fun p => (p < length (objects r))%nat) (m_render_order r).

Definition keys_differ (r : BatchRenderer) : Prop :=
  forall a b pa pb ba bb,
    a <> b ->
    m_render_order r !! a = Some pa -> m_render_order r !! b = Some pb ->
    objects r !! pa = Some ba -> objects r !! pb = Some bb ->
    key_of ba <> key_of bb.

Lemma canMergeBatches_keys (r : BatchRenderer) (b1 b2 : RenderBatch) :
  key_of b1 <> key_of b2 -> canMergeBatches r b1 b2 = false.
Proof.
  intros Hne. destruct (canMergeBatches r b1 b2) eqn:E; [|reflexivity].
  apply canMergeBatches_true in E as [Hk _]. contradiction.
Qed.

Lemma inner_loop_keys_differ (fuel i j : nat) (r : BatchRenderer) :
  pointers_valid r -> keys_differ r ->
  (i < j)%nat -> (i < length (m_render_order r))%nat ->
  (length (m_render_order r) - j <= fuel)%nat ->
  inner_loop fuel i j r = Some r.
Proof.
  intros Hvalid Hkeys. revert j.
  induction fuel as [|fuel IH]; intros j Hij Hi Hfuel; cbn [inner_loop].
  - assert ((j <? length (m_render_order r))%nat = false) as ->
      by (apply Nat.ltb_ge; lia).
    reflexivity.
  - destruct (j <? length (m_render_order r))%nat eqn:Ej; [|reflexivity].
    apply Nat.ltb_lt in Ej.
    destruct (lookup_lt_is_Some_2 (m_render_order r) i Hi) as [pi Hpi].
    destruct (lookup_lt_is_Some_2 (m_render_order r) j Ej) as [pj Hpj].
    rewrite Hpi, Hpj.
    pose proof (Forall_lookup_1 _ _ _ _ Hvalid Hpi) as Hpi_ok.
    pose proof (Forall_lookup_1 _ _ _ _ Hvalid Hpj) as Hpj_ok.
    cbn beta in Hpi_ok, Hpj_ok.
    destruct (lookup_lt_is_Some_2 (objects r) pi Hpi_ok) as [target Ht].
    destruct (lookup_lt_is_Some_2 (objects r) pj Hpj_ok) as [source Hs].
    rewrite Ht, Hs.
    rewrite canMergeBatches_keys
      by (apply (Hkeys i j pi pj); [lia|assumption..]).
    apply IH; lia.
Qed.

Lemma outer_loop_keys_differ (fuel i : nat) (r : BatchRenderer) :
  pointers_valid r -> keys_differ r ->
  (1 <= length (m_render_order r))%nat ->
  (length (m_render_order r) - 1 - i <= fuel)%nat ->
  outer_loop fuel i r = Some r.
Proof.
  intros Hvalid Hkeys Hone. revert i.
  assert (Hbound : size_t (Z.of_nat (length (m_render_order r)) - 1)
                   <= Z.of_nat (length (m_render_order r)) - 1).
  { unfold size_t, wrap. apply Z.mod_le; lia. }
  induction fuel as [|fuel IH]; intros i Hfuel; cbn [outer_loop].
  - assert ((Z.of_nat i <? size_t (Z.of_nat (length (m_render_order r)) - 1))
            = false) as -> by (apply Z.ltb_ge; lia).
    reflexivity.
  - destruct (Z.of_nat i <? size_t (Z.of_nat (length (m_render_order r)) - 1))
      eqn:Ei; [|reflexivity].
    apply Z.ltb_lt in Ei.
    rewrite inner_loop_keys_differ by (try assumption; lia).
    apply IH. lia.
Qed.

Lemma optimizeBatches_nothing_to_do (r : BatchRenderer) :
  pointers_valid r -> keys_differ r -> optimizeBatches r = Some r.
Proof.
  intros Hvalid Hkeys. unfold optimizeBatches.
  destruct (negb (m_batch_merging_enabled r)
            || (length (m_render_order r) <? 2)%nat) eqn:E; [reflexivity|].
  apply orb_false_elim in E as [_ Hlen]. apply Nat.ltb_ge in Hlen.
  apply outer_loop_keys_differ; try assumption; lia.
Qed.

(** *** What the storage keeps true *)

(** The batches [objs'] are the batches [objs] with the same keys. *)
Definition same_keys (objs objs' : list RenderBatch) : Prop :=
  length objs' = length objs /\
  forall p b, objs !! p = Some b ->
    exists b', objs' !! p = Some b' /\ key_of b' = key_of b.

Lemma same_keys_refl (objs : list RenderBatch) : same_keys objs objs.
Proof. split; [reflexivity|]. intros p b H. eauto. Qed.

Lemma same_keys_trans (o1 o2 o3 : list RenderBatch) :
  same_keys o1 o2 -> same_keys o2 o3 -> same_keys o1 o3.
Proof.
  intros [L1 K1] [L2 K2]. split; [congruence|].
  intros p b Hb. destruct (K1 p b Hb) as (b2 & Hb2 & E2).
  destruct (K2 p b2 Hb2) as (b3 & Hb3 & E3).
  exists b3. split; [exact Hb3|congruence].
Qed.

Lemma same_keys_insert (objs : list RenderBatch) (p : nat)
    (b b' : RenderBatch) :
  objs !! p = Some b -> key_of b' = key_of b ->
  same_keys objs (<[p := b']> objs).
Proof.
  intros Hb Hk. split; [apply length_insert|].
  intros q c Hc. destruct (decide (q = p)) as [->|Hne].
  - exists b'. split; [|congruence].
    apply list_lookup_insert_eq. eapply lookup_lt_Some. exact Hb.
  - exists c. split; [|reflexivity].
    rewrite list_lookup_insert_ne by congruence. exact Hc.
Qed.

Lemma same_keys_clear_owned (m : gmap BatchKey nat) (objs : list RenderBatch) :
  same_keys objs (clear_owned m objs).
Proof.
  unfold clear_owned.
  apply (map_fold_weak_ind (fun acc _ => same_keys objs acc)).
  - apply same_keys_refl.
  - intros key p m' acc _ IH.
    destruct (acc !! p) as [batch|] eqn:E; [|exact IH].
    eapply same_keys_trans; [exact IH|].
    apply (same_keys_insert acc p batch); [exact E|reflexivity].
Qed.

(** The render order names each batch once; every batch in it is owned by
    [m_batches]; [m_batches] owns, under each key, a batch with that key;
    and the pool slots not used yet own batches of their own. *)
Definition store_ok (order : list nat) (objs : list RenderBatch)
    (m : gmap BatchKey nat) (pool : list (option nat)) (next : nat) : Prop :=
  NoDup order /\
  (forall p, p ∈ order -> exists key, m !! key = Some p) /\
  (forall key p, m !! key = Some p ->
     exists b, objs !! p = Some b /\ key_of b = key) /\
  (forall i, (next <= i)%nat -> (i < length pool)%nat ->
     exists p, pool !! i = Some (Some p) /\ (p < length objs)%nat /\
               (forall key, m !! key <> Some p) /\
               forall i', (next <= i')%nat -> i' <> i ->
                          pool !! i' <> Some (Some p)).

Definition owner_ok (st : BatchOwner) : Prop :=
  store_ok (m_render_order (renderer st)) (objects (renderer st))
           (m_batches st) (m_batch_pool st) (m_next_batch_pool_index st) /\
  last (m_blend_mode_stack (blend st)) = Some (m_current_blend_mode (blend st)).

(** A step that only rewrites batches in place, keeping their keys. *)
Definition in_place (st st' : BatchOwner) : Prop :=
  m_render_order (renderer st') = m_render_order (renderer st) /\
  same_keys (objects (renderer st)) (objects (renderer st')) /\
  m_max_vertices_per_batch (renderer st')
  = m_max_vertices_per_batch (renderer st) /\
  m_auto_flush_threshold st' = m_auto_flush_threshold st /\
  m_batches st' = m_batches st /\
  m_batch_pool st' = m_batch_pool st /\
  m_next_batch_pool_index st' = m_next_batch_pool_index st /\
  blend st' = blend st.

Lemma in_place_refl (st : BatchOwner) : in_place st st.
Proof. unfold in_place. repeat split; auto. intros p b H; eauto. Qed.

Lemma in_place_trans (s1 s2 s3 : BatchOwner) :
  in_place s1 s2 -> in_place s2 s3 -> in_place s1 s3.
Proof.
  intros (A1 & B1 & C1 & D1 & E1 & F1 & G1 & H1)
         (A2 & B2 & C2 & D2 & E2 & F2 & G2 & H2).
  unfold in_place.
  split; [congruence|]. split; [eapply same_keys_trans; eassumption|].
  repeat split; congruence.
Qed.

Lemma store_ok_same_keys (order : list nat) (objs objs' : list RenderBatch)
    (m : gmap BatchKey nat) (pool : list (option nat)) (next : nat) :
  same_keys objs objs' ->
  store_ok order objs m pool next -> store_ok order objs' m pool next.
Proof.
  intros [Hlen Hk] (I1 & I2 & I3 & I4).
  split; [exact I1|]. split; [exact I2|]. split.
  - intros key p Hp. destruct (I3 key p Hp) as (b & Hb & E).
    destruct (Hk p b Hb) as (b' & Hb' & E').
    exists b'. split; [exact Hb'|congruence].
  - intros i Hi Hi'. destruct (I4 i Hi Hi') as (p & Hp & Hv & Hr & Hd).
    exists p. split; [exact Hp|]. split; [lia|]. split; assumption.
Qed.

Lemma owner_ok_in_place (st st' : BatchOwner) :
  in_place st st' -> owner_ok st -> owner_ok st'.
Proof.
  intros (A & B & C & D & E & F & G & H) [Hs Hb]. unfold owner_ok.
  rewrite A, E, F, G, H. split; [|exact Hb].
  eapply store_ok_same_keys; eassumption.
Qed.

Lemma in_place_write_batch (p : nat) (b b' : RenderBatch) (st : BatchOwner) :
  objects (renderer st) !! p = Some b -> key_of b' = key_of b ->
  in_place st (write_batch p b' st).
Proof.
  intros Hb Hk. unfold in_place. cbn.
  split; [reflexivity|]. split; [eapply same_keys_insert; eassumption|].
  repeat split; reflexivity.
Qed.

Lemma flushBatch_in_place (p : nat) (st : BatchOwner) :
  (p < length (objects (renderer st)))%nat ->
  exists st', flushBatch p st = Some st' /\ in_place st st'.
Proof.
  intros Hp. unfold flushBatch.
  destruct (lookup_lt_is_Some_2 _ _ Hp) as [batch Hb]. rewrite Hb.
  destruct (vertex_count batch =? 0).
  - exists st. split; [reflexivity|apply in_place_refl].
  - eexists. split; [reflexivity|].
    eapply in_place_trans; [|apply (in_place_write_batch p batch); [exact Hb|reflexivity]].
    unfold in_place. cbn. repeat split; try reflexivity.
    intros q c Hc. eauto.
Qed.

Lemma in_place_length (st st' : BatchOwner) :
  in_place st st' ->
  length (objects (renderer st')) = length (objects (renderer st)).
Proof. intros (_ & [H _] & _). exact H. Qed.

Lemma key_of_addQuadToBatch (batch : RenderBatch) (quad : list TexturedVertex) :
  key_of (addQuadToBatch batch quad) = key_of batch.
Proof.
  unfold addQuadToBatch. destruct (negb _); reflexivity.
Qed.

Lemma drawQuads_loop_in_place (fuel p : nat) (vs : list TexturedVertex)
    (st : BatchOwner) :
  (p < length (objects (renderer st)))%nat ->
  exists st', drawQuads_loop fuel p vs st = Some st' /\ in_place st st'.
Proof.
  revert vs st. induction fuel as [|fuel IH]; intros vs st Hp.
  - exists st. split; [reflexivity|apply in_place_refl].
  - destruct vs as [|v vs'].
    + exists st. split; [reflexivity|apply in_place_refl].
    + cbn [drawQuads_loop].
      destruct (lookup_lt_is_Some_2 _ _ Hp) as [batch Hb]. rewrite Hb.
      set (batch' := addQuadToBatch batch (take 4 (v :: vs'))).
      pose proof (in_place_write_batch p batch batch' st Hb
                    (key_of_addQuadToBatch _ _)) as H1.
      assert (Hp1 : (p < length (objects (renderer (write_batch p batch' st))))%nat)
        by (rewrite (in_place_length _ _ H1); exact Hp).
      assert (exists st2,
                (if vertex_count batch'
                    >=? m_auto_flush_threshold (write_batch p batch' st)
                 then flushBatch p (write_batch p batch' st)
                 else Some (write_batch p batch' st)) = Some st2 /\
                in_place st st2) as (st2 & E2 & H2).
      { destruct (vertex_count batch' >=? _).
        - destruct (flushBatch_in_place p _ Hp1) as (st2 & E & H).
          exists st2. split; [exact E|].
          eapply in_place_trans; eassumption.
        - eexists. split; [reflexivity|exact H1]. }
      rewrite E2.
      destruct (IH (drop 4 (v :: vs')) st2) as (st3 & E3 & H3).
      { rewrite (in_place_length _ _ H2). exact Hp. }
      exists st3. split; [exact E3|].
      eapply in_place_trans; eassumption.
Qed.

Lemma key_of_configure (key : BatchKey) (batch : RenderBatch) :
  key_of (configure key batch) = key.
Proof. destruct key as [[[t l] bm] c]. reflexivity. Qed.

Lemma in_place_stats (f : Stats -> Stats) (st : BatchOwner) :
  in_place st (with_stats f st).
Proof.
  unfold in_place. cbn. repeat split; try reflexivity. intros p b H. eauto.
Qed.

Ltac open_owner :=
  unfold owner_ok, store_ok;
  cbn [with_stats with_renderer with_blend with_rendered with_batches
       write_batch with_pool set_render_order set_objects set_batches_merged
       renderer blend m_batches m_batch_pool m_next_batch_pool_index
       m_render_order objects m_auto_flush_threshold
       m_max_vertices_per_batch].

Lemma findOrCreateBatch_ok (key : BatchKey) (st : BatchOwner) :
  owner_ok st ->
  exists p st',
    findOrCreateBatch key st = Some (p, st') /\ owner_ok st' /\
    (p < length (objects (renderer st')))%nat /\
    blend st' = blend st.
Proof.
  intros [(I1 & I2 & I3 & I4) Hb]. unfold findOrCreateBatch.
  destruct (m_batches st !! key) as [p|] eqn:Ekey.
  - exists p, st. split; [reflexivity|].
    split; [split; [repeat split; assumption|exact Hb]|].
    split; [|reflexivity].
    destruct (I3 key p Ekey) as (b & Hp & _). eapply lookup_lt_Some. exact Hp.
  - assert (Hin_order : forall q, q ∈ m_render_order (renderer st) ->
              (q < length (objects (renderer st)))%nat /\
              exists k, m_batches st !! k = Some q).
    { intros q Hq. destruct (I2 q Hq) as (k & Hk).
      destruct (I3 k q Hk) as (b & Hq' & _).
      split; [eapply lookup_lt_Some; exact Hq'|eauto]. }
    destruct (m_next_batch_pool_index st <? length (m_batch_pool st))%nat eqn:Epool.
    + (* from the pool *)
      apply Nat.ltb_lt in Epool.
      destruct (I4 (m_next_batch_pool_index st) ltac:(lia) Epool)
        as (p & Hslot & Hp & Hfree & Hothers).
      rewrite Hslot. cbn [with_pool renderer objects].
      destruct (lookup_lt_is_Some_2 _ _ Hp) as [batch Hbatch]. rewrite Hbatch.
      do 2 eexists. split; [reflexivity|]. open_owner.
      split; [split; [|exact Hb]|split; [|reflexivity]].
      2:{ rewrite length_insert. exact Hp. }
      split; [|split; [|split]].
      * apply NoDup_app. split; [exact I1|]. split; [|apply NoDup_singleton].
        intros q Hq Hq'. apply list_elem_of_singleton in Hq'. subst q.
        destruct (Hin_order p Hq) as (_ & k & Hk). exact (Hfree k Hk).
      * intros q Hq. apply elem_of_app in Hq as [Hq|Hq].
        -- destruct (I2 q Hq) as (k & Hk). exists k.
           rewrite lookup_insert_ne; [exact Hk|]. intros <-. congruence.
        -- apply list_elem_of_singleton in Hq. subst q. exists key.
           apply lookup_insert_eq.
      * intros k q Hk. destruct (decide (k = key)) as [->|Hne].
        -- rewrite lookup_insert_eq in Hk. injection Hk as <-.
           eexists. split; [apply list_lookup_insert_eq; exact Hp|].
           apply key_of_configure.
        -- rewrite lookup_insert_ne in Hk by congruence.
           destruct (I3 k q Hk) as (b & Hq & E).
           exists b. split; [|exact E].
           rewrite list_lookup_insert_ne; [exact Hq|].
           intros <-. exact (Hfree k Hk).
      * intros i Hi Hi'. rewrite length_insert in Hi'.
        destruct (I4 i ltac:(lia) Hi') as (q & Hq & Hqv & Hqfree & Hqothers).
        exists q. split; [rewrite list_lookup_insert_ne by lia; exact Hq|].
        split; [rewrite length_insert; exact Hqv|]. split.
        -- intros k Hk. destruct (decide (k = key)) as [->|Hne].
           ++ rewrite lookup_insert_eq in Hk. injection Hk as <-.
              apply (Hothers i ltac:(lia) ltac:(lia)). exact Hq.
           ++ rewrite lookup_insert_ne in Hk by congruence.
              exact (Hqfree k Hk).
        -- intros i' Hi1 Hi2 Hc.
           rewrite list_lookup_insert_ne in Hc by lia.
           exact (Hqothers i' ltac:(lia) Hi2 Hc).
    + (* a new batch *)
      apply Nat.ltb_ge in Epool.
      cbn [with_renderer renderer set_objects objects].
      rewrite lookup_app_r by lia. rewrite Nat.sub_diag. cbn [lookup list_lookup].
      do 2 eexists. split; [reflexivity|]. open_owner.
      set (p := length (objects (renderer st))).
      assert (Hp' : (p < length (objects (renderer st) ++ [RenderBatch_default]))%nat)
        by (rewrite length_app; cbn; lia).
      split; [split; [|exact Hb]|split; [|reflexivity]].
      2:{ rewrite length_insert. exact Hp'. }
      split; [|split; [|split]].
      * apply NoDup_app. split; [exact I1|]. split; [|apply NoDup_singleton].
        intros q Hq Hq'. apply list_elem_of_singleton in Hq'. subst q.
        destruct (Hin_order p Hq) as (Hlt & _). unfold p in Hlt. lia.
      * intros q Hq. apply elem_of_app in Hq as [Hq|Hq].
        -- destruct (I2 q Hq) as (k & Hk). exists k.
           rewrite lookup_insert_ne; [exact Hk|]. intros <-. congruence.
        -- apply list_elem_of_singleton in Hq. subst q. exists key.
           apply lookup_insert_eq.
      * intros k q Hk. destruct (decide (k = key)) as [->|Hne].
        -- rewrite lookup_insert_eq in Hk. injection Hk as <-.
           eexists. split; [apply list_lookup_insert_eq; exact Hp'|].
           apply key_of_configure.
        -- rewrite lookup_insert_ne in Hk by congruence.
           destruct (I3 k q Hk) as (b & Hq & E).
           exists b. split; [|exact E].
           pose proof (lookup_lt_Some _ _ _ Hq) as Hlt.
           rewrite list_lookup_insert_ne by (unfold p; lia).
           rewrite lookup_app_l by exact Hlt. exact Hq.
      * intros i Hi Hi'. lia.
Qed.

Lemma pool_one_more_ok (st : BatchOwner) :
  owner_ok st -> owner_ok (pool_one_more st).
Proof.
  intros [(I1 & I2 & I3 & I4) Hb]. unfold pool_one_more. open_owner.
  split; [|exact Hb]. split; [exact I1|]. split; [exact I2|]. split.
  - intros key p Hp. destruct (I3 key p Hp) as (b & Hq & E).
    exists b. split; [|exact E].
    rewrite lookup_app_l by (eapply lookup_lt_Some; exact Hq). exact Hq.
  - intros i Hi Hi'. rewrite length_app in Hi'. cbn [length] in Hi'.
    destruct (decide (i < length (m_batch_pool st))%nat) as [Hold|Hnew].
    + destruct (I4 i Hi Hold) as (q & Hq & Hqv & Hqfree & Hqothers).
      exists q. split; [rewrite lookup_app_l by exact Hold; exact Hq|].
      split; [rewrite length_app; lia|]. split; [exact Hqfree|].
      intros i' Hi1 Hi2 Hc.
      destruct (decide (i' < length (m_batch_pool st))%nat) as [Hold'|Hnew'].
      * rewrite lookup_app_l in Hc by exact Hold'.
        exact (Hqothers i' Hi1 Hi2 Hc).
      * rewrite lookup_app_r in Hc by lia.
        destruct (i' - length (m_batch_pool st))%nat; cbn in Hc;
          [|discriminate Hc].
        injection Hc as <-. lia.
    + assert (i = length (m_batch_pool st)) as -> by lia.
      exists (length (objects (renderer st))).
      split; [rewrite lookup_app_r by lia; rewrite Nat.sub_diag; reflexivity|].
      split; [rewrite length_app; cbn; lia|]. split.
      * intros key Hk. destruct (I3 key _ Hk) as (b & Hq & _).
        apply lookup_lt_Some in Hq. lia.
      * intros i' Hi1 Hi2 Hc.
        destruct (decide (i' < length (m_batch_pool st))%nat) as [Hold'|Hnew'].
        -- rewrite lookup_app_l in Hc by exact Hold'.
           destruct (I4 i' Hi1 Hold') as (q & Hq & Hqv & _).
           rewrite Hq in Hc. injection Hc as ->. lia.
        -- rewrite lookup_app_r in Hc by lia.
           destruct (i' - length (m_batch_pool st))%nat eqn:E; [lia|].
           cbn in Hc. discriminate Hc.
Qed.

Lemma initialize_ok (st : BatchOwner) : owner_ok st -> owner_ok (initialize st).
Proof.
  intros H. unfold initialize.
  generalize 16%nat. intros n. induction n as [|n IH]; [exact H|].
  cbn [Nat.iter nat_rect]. apply pool_one_more_ok. exact IH.
Qed.

Lemma drawQuads_ok (vs : list TexturedVertex) (texture_id_ : Z)
    (tint_ : Color) (layer_id_ : Z) (st : BatchOwner) :
  owner_ok st ->
  exists st', drawQuads vs texture_id_ tint_ layer_id_ st = Some st' /\
              owner_ok st'.
Proof.
  intros Hok. unfold drawQuads.
  destruct ((length vs =? 0)%nat || negb (length vs mod 4 =? 0)%nat);
    [exists st; auto|].
  destruct (findOrCreateBatch_ok
              (texture_id_, layer_id_, m_current_blend_mode (blend st),
               rgba tint_) st Hok) as (p & st1 & E1 & Hok1 & Hp1 & _).
  rewrite E1.
  destruct (drawQuads_loop_in_place (length vs) p vs st1 Hp1)
    as (st2 & E2 & H2).
  rewrite E2. eexists. split; [reflexivity|].
  eapply owner_ok_in_place; [|exact Hok1].
  eapply in_place_trans; [exact H2|apply in_place_stats].
Qed.

Lemma drawVertices_ok (vs : list TexturedVertex) (ixs : list Z)
    (texture_id_ : Z) (tint_ : Color) (layer_id_ : Z) (st : BatchOwner) :
  owner_ok st ->
  exists st', drawVertices vs ixs texture_id_ tint_ layer_id_ st = Some st' /\
              owner_ok st'.
Proof.
  intros Hok. unfold drawVertices.
  destruct ((length vs =? 0)%nat || (length ixs =? 0)%nat); [exists st; auto|].
  destruct (findOrCreateBatch_ok
              (texture_id_, layer_id_, m_current_blend_mode (blend st),
               rgba tint_) st Hok) as (p & st1 & E1 & Hok1 & Hp1 & _).
  rewrite E1.
  destruct (lookup_lt_is_Some_2 _ _ Hp1) as [batch Hbatch]. rewrite Hbatch.
  match goal with
  | |- context [write_batch p ?b st1] => set (batch' := b)
  end.
  assert (H2 : in_place st1 (write_batch p batch' st1))
    by (apply (in_place_write_batch p batch); [exact Hbatch|reflexivity]).
  match goal with
  | |- context [with_stats ?f (write_batch p batch' st1)] =>
      set (st3 := with_stats f (write_batch p batch' st1))
  end.
  assert (H3 : in_place st1 st3)
    by (eapply in_place_trans; [exact H2|apply in_place_stats]).
  destruct (vertex_count batch' >=? m_max_vertices_per_batch (renderer st3)).
  - destruct (flushBatch_in_place p st3) as (st4 & E4 & H4).
    { rewrite (in_place_length _ _ H3). exact Hp1. }
    exists st4. split; [exact E4|].
    eapply owner_ok_in_place; [|exact Hok1].
    eapply in_place_trans; eassumption.
  - exists st3. split; [reflexivity|].
    eapply owner_ok_in_place; [exact H3|exact Hok1].
Qed.

Lemma beginFrame_ok (st : BatchOwner) : owner_ok st -> owner_ok (beginFrame st).
Proof.
  intros [(I1 & I2 & I3 & I4) Hb]. unfold beginFrame. open_owner.
  split; [|exact Hb].
  apply (store_ok_same_keys [] (objects (renderer st)));
    [apply same_keys_clear_owned|].
  split; [apply NoDup_nil_2|]. split; [intros p Hp; inversion Hp|].
  split; assumption.
Qed.

Lemma flush_each_in_place (ptrs : list nat) (st : BatchOwner) :
  Forall (fun p => (p < length (objects (renderer st)))%nat) ptrs ->
  exists st', flush_each ptrs st = Some st' /\ in_place st st'.
Proof.
  revert st. induction ptrs as [|p ptrs IH]; intros st Hv.
  - exists st. split; [reflexivity|apply in_place_refl].
  - apply Forall_cons in Hv as [Hp Hv]. cbn [flush_each].
    destruct (flushBatch_in_place p st Hp) as (st1 & E1 & H1). rewrite E1.
    destruct (IH st1) as (st2 & E2 & H2).
    { rewrite (in_place_length _ _ H1). exact Hv. }
    exists st2. split; [exact E2|]. eapply in_place_trans; eassumption.
Qed.

Lemma owner_ok_pointers_valid (st : BatchOwner) :
  owner_ok st -> pointers_valid (renderer st).
Proof.
  intros [(I1 & I2 & I3 & I4) _]. unfold pointers_valid.
  apply Forall_forall. intros p Hp.
  destruct (I2 p Hp) as (k & Hk). destruct (I3 k p Hk) as (b & Hq & _).
  eapply lookup_lt_Some. exact Hq.
Qed.

Lemma owner_ok_keys_differ (st : BatchOwner) :
  owner_ok st -> keys_differ (renderer st).
Proof.
  intros [(I1 & I2 & I3 & I4) _] a b pa pb ba bb Hab Hpa Hpb Hba Hbb Hkey.
  destruct (I2 pa (list_elem_of_lookup_2 _ _ _ Hpa)) as (ka & Hka).
  destruct (I2 pb (list_elem_of_lookup_2 _ _ _ Hpb)) as (kb & Hkb).
  destruct (I3 ka pa Hka) as (ba' & Hba' & Ea).
  destruct (I3 kb pb Hkb) as (bb' & Hbb' & Eb).
  assert (ka = kb) by congruence. subst kb.
  assert (pa = pb) by congruence. subst pb.
  apply Hab. eapply NoDup_lookup; eassumption.
Qed.

Lemma flushAll_ok (st : BatchOwner) :
  owner_ok st -> exists st', flushAll st = Some st' /\ owner_ok st'.
Proof.
  intros Hok. unfold flushAll.
  destruct (flush_each_in_place (m_render_order (renderer st)) st
              (owner_ok_pointers_valid st Hok)) as (st1 & E1 & H1).
  rewrite E1. eexists. split; [reflexivity|].
  pose proof (owner_ok_in_place st st1 H1 Hok) as [(I1 & I2 & I3 & I4) Hb].
  assert (Hempty : forall objs',
            same_keys (objects (renderer st1)) objs' ->
            store_ok [] objs' ∅ (m_batch_pool st1)
                     (m_next_batch_pool_index st1)).
  { intros objs' [Hlen _].
    split; [apply NoDup_nil_2|]. split; [intros p Hp; inversion Hp|].
    split; [intros key p Hp; rewrite lookup_empty in Hp; discriminate Hp|].
    intros i Hi Hi'. destruct (I4 i Hi Hi') as (q & Hq & Hqv & _ & Hqo).
    exists q. split; [exact Hq|]. split; [lia|].
    split; [intros key; rewrite lookup_empty; discriminate|exact Hqo]. }
  destruct (0 <? m_next_batch_pool_index (with_renderer (set_render_order []) st1))%nat;
    open_owner; (split; [|exact Hb]); apply Hempty.
  - apply same_keys_clear_owned.
  - apply same_keys_refl.
Qed.

Lemma renderer_call_ok (call : RendererCall) (st : BatchOwner) :
  owner_ok st ->
  exists st', renderer_call call st = Some st' /\ owner_ok st'.
Proof.
  intros Hok. destruct call; cbn [renderer_call].
  - eexists. split; [reflexivity|]. apply initialize_ok. exact Hok.
  - apply drawQuads_ok. exact Hok.
  - apply drawVertices_ok. exact Hok.
  - destruct Hok as [Hs Hb].
    destruct (blend_call_ok call (blend st) Hb) as (b' & E & Hb').
    rewrite E. eexists. split; [reflexivity|]. split; [exact Hs|exact Hb'].
  - eexists. split; [reflexivity|]. apply beginFrame_ok. exact Hok.
  - rewrite (optimizeBatches_nothing_to_do (renderer st)
               (owner_ok_pointers_valid st Hok) (owner_ok_keys_differ st Hok)).
    eexists. split; [reflexivity|]. exact Hok.
  - apply flushAll_ok. exact Hok.
Qed.

Lemma renderer_calls_ok (calls : list RendererCall) (st : BatchOwner) :
  owner_ok st ->
  exists st', renderer_calls calls st = Some st' /\ owner_ok st'.
Proof.
  revert st. induction calls as [|call calls IH]; intros st Hok.
  - exists st. auto.
  - destruct (renderer_call_ok call st Hok) as (st1 & E1 & Hok1).
    cbn [renderer_calls]. rewrite E1. apply IH. exact Hok1.
Qed.

Lemma BatchOwner_new_ok (max_vertices_per_batch : Z) :
  owner_ok (BatchOwner_new max_vertices_per_batch).
Proof.
  split; [|reflexivity].
  split; [apply NoDup_nil_2|]. split; [intros p Hp; inversion Hp|].
  split; [intros key p Hp; cbn in Hp; rewrite lookup_empty in Hp;
          discriminate Hp|].
  intros i _ Hi. cbn in Hi. lia.
Qed.

(** X27.  Nothing to merge without equal keys.  On a render order whose
    pointers all point to batches and whose batches have pairwise different
    (texture, layer, blend mode, tint) keys, [optimizeBatches] returns and
    changes nothing, however many vertices the batches hold. *)
Theorem optimizeBatches_needs_equal_keys (r : BatchRenderer) :
  Forall (fun p => (p < length (objects r))%nat) (m_render_order r) ->
  (forall a b pa pb ba bb,
     a <> b ->
     m_render_order r !! a = Some pa -> m_render_order r !! b = Some pb ->
     objects r !! pa = Some ba -> objects r !! pb = Some bb ->
     key_of ba <> key_of bb) ->
  optimizeBatches r = Some r.
Proof.
  intros Hvalid Hkeys.
  apply optimizeBatches_nothing_to_do; [exact Hvalid|exact Hkeys].
Qed.

(** X28.  The renderer never has batches to merge.  After any sequence of
    calls of [initialize], [drawQuads], [drawVertices], the blend-mode
    calls, [beginFrame], [optimizeBatches] and [flushAll] on a renderer as
    constructed, every call has returned without going through a null pool
    pointer; the render order names each batch once; each batch in it is
    the one [m_batches] owns under the batch's own key, so that no two
    batches of the render order have the same key; and therefore
    [optimizeBatches] finds nothing to merge: it returns the renderer
    unchanged. *)
Theorem renderer_never_has_batches_to_merge
    (max_vertices_per_batch : Z) (calls : list RendererCall) :
  exists st,
    renderer_calls calls (BatchOwner_new max_vertices_per_batch) = Some st /\
    NoDup (m_render_order (renderer st)) /\
    (forall p, p ∈ m_render_order (renderer st) ->
       exists batch,
         objects (renderer st) !! p = Some batch /\
         m_batches st !! key_of batch = Some p) /\
    (forall a b pa pb ba bb,
       a <> b ->
       m_render_order (renderer st) !! a = Some pa ->
       m_render_order (renderer st) !! b = Some pb ->
       objects (renderer st) !! pa = Some ba ->
       objects (renderer st) !! pb = Some bb ->
       key_of ba <> key_of bb) /\
    optimizeBatches (renderer st) = Some (renderer st).
Proof.
  destruct (renderer_calls_ok calls (BatchOwner_new max_vertices_per_batch)
              (BatchOwner_new_ok max_vertices_per_batch)) as (st & E & Hok).
  exists st. split; [exact E|].
  pose proof (owner_ok_pointers_valid st Hok) as Hvalid.
  pose proof (owner_ok_keys_differ st Hok) as Hkeys.
  destruct Hok as [(I1 & I2 & I3 & I4) _].
  split; [exact I1|]. split.
  - intros p Hp. destruct (I2 p Hp) as (k & Hk).
    destruct (I3 k p Hk) as (b & Hq & Eb).
    exists b. split; [exact Hq|]. rewrite Eb. exact Hk.
  - split; [exact Hkeys|].
    apply optimizeBatches_nothing_to_do; assumption.
Qed.

End OwnershipFacts.

Section OwnershipExamples.

Import Types Batching.

(** Two batches with different textures. *)
Definition two_textures : BatchRenderer :=
  {| m_max_vertices_per_batch := 10000; m_batch_merging_enabled := true;
     objects := [quad_batch 1 1; quad_batch 2 1];
     m_render_order := [0; 1]%nat;
     batches_merged := 0; merges := [] |}.

Lemma optimizeBatches_needs_equal_keys_witness :
  optimizeBatches two_textures = Some two_textures.
Proof.
  apply (optimizeBatches_needs_equal_keys two_textures).
  - repeat (apply Forall_cons; split; [vm_compute; lia|]).
    apply Forall_nil. exact I.
  - intros a b pa pb ba bb Hab Hpa Hpb Hba Hbb.
    destruct a as [|[|a]]; destruct b as [|[|b]];
      try discriminate Hpa; try discriminate Hpb; try (exfalso; lia);
      cbn in Hpa, Hpb; injection Hpa as <-; injection Hpb as <-;
      cbn in Hba, Hbb; injection Hba as <-; injection Hbb as <-;
      vm_compute; discriminate.
Defined.

End OwnershipExamples.
